(** * opendebrief: recording lifecycle, device classification and merge step

  A shallow embedding of the recording core of the repository:

  - [Devices]: [identifySystemAudioDevices] of the FFmpeg device module;
  - [AudioRecorder]: the FFmpeg-backed recorder class (state machine,
    pause/resume, elapsed time, graceful stop, configuration);
  - [NativeAudioRecorder]: the wrapper around the native helper (state
    machine, stdout line protocol, graceful stop, configuration);
  - [App]: [startRecording] of the terminal application and its
    double-start guard;
  - [Merge]: [RecordingSession.start/stop/mergeAudioFiles] of the Swift
    helper over a finite-map file system.

  Asynchronous code is modelled by its event-loop turns: every method is
  the synchronous prefix of the source method, and every [await] point
  becomes a pending continuation stored in the world and resumed by the
  event (process exit, timer) that settles the awaited promise. The
  clock [Date.now()] is part of the world: time passes in ticks, and the
  wall clock can be set ([WallClock]). *)

From Stdlib Require Import ZArith Lia Bool Ascii String List.
From stdpp Require Import base option list gmap strings pretty.
Import ListNotations.

Local Open Scope Z_scope.
Local Open Scope string_scope.
Local Open Scope list_scope.
Local Set Warnings "-register-all".

(** ** JavaScript / Swift string primitives used by the source *)

Module Str.

(** [c.toLowerCase()] on one ASCII code unit. *)
Definition lower_ascii (c : ascii) : ascii :=
  let n := nat_of_ascii c in
  if (Nat.leb 65 n && Nat.leb n 90)%bool then ascii_of_nat (n + 32) else c.

(** [s.toLowerCase()], names being sequences of ASCII code units. *)
Fixpoint toLowerCase (s : string) : string :=
  match s with
  | EmptyString => EmptyString
  | String c r => String (lower_ascii c) (toLowerCase r)
  end.

(** [s.startsWith(p)] *)
Fixpoint startsWith (p s : string) : bool :=
  match p, s with
  | EmptyString, _ => true
  | String a p', String b s' => if Ascii.eqb a b then startsWith p' s' else false
  | String _ _, EmptyString => false
  end.

(** [s.includes(p)]: [p] occurs in [s] at some offset. *)
Fixpoint includes (s p : string) : bool :=
  if startsWith p s then true
  else match s with
       | EmptyString => false
       | String _ r => includes r p
       end.

(** The ASCII white space [String.prototype.trim] strips: TAB, LF, VT,
    FF, CR and SPACE (strings are byte strings; the white space outside
    ASCII is not modelled). *)
Definition is_space (c : ascii) : bool :=
  let n := nat_of_ascii c in
  (Nat.eqb n 9 || Nat.eqb n 10 || Nat.eqb n 11 || Nat.eqb n 12
   || Nat.eqb n 13 || Nat.eqb n 32)%bool.

Fixpoint all_space (s : string) : bool :=
  match s with
  | EmptyString => true
  | String c r => (is_space c && all_space r)%bool
  end.

(** Truthiness of [s.trim()]: the trimmed string is non-empty. *)
Definition trim_nonempty (s : string) : bool := negb (all_space s).

(** One pass of [replacingOccurrences(of: pat, with: "")] (also JS
    [replaceAll(pat, "")]): scanning left to right, every match of [pat]
    is dropped and scanning resumes after it. [skip] counts the
    characters of the current match still to drop. *)
Fixpoint remove_go (pat : string) (skip : nat) (s : string) : string :=
  match s with
  | EmptyString => EmptyString
  | String c r =>
      match skip with
      | S k => remove_go pat k r
      | O => if startsWith pat s
             then remove_go pat (String.length pat - 1) r
             else String c (remove_go pat O r)
      end
  end.

Definition remove_all (pat s : string) : string :=
  match pat with
  | EmptyString => s
  | _ => remove_go pat O s
  end.

(** [s.split("\n")]: the pieces between line feeds, in order; always at
    least one piece. *)
Definition LF : ascii := ascii_of_nat 10.

Fixpoint split_lines (s : string) : list string :=
  match s with
  | EmptyString => [EmptyString]
  | String c r =>
      if Ascii.eqb c LF then EmptyString :: split_lines r
      else match split_lines r with
           | [] => [String c EmptyString]
           | l :: ls => String c l :: ls
           end
  end.

(** How often the character [x] occurs in [s], and in the first [n]
    characters of [s]. *)
Fixpoint occ (x : ascii) (s : string) : nat :=
  match s with
  | EmptyString => O
  | String c r => ((if Ascii.eqb c x then 1 else 0) + occ x r)%nat
  end.

Fixpoint occ_first (x : ascii) (n : nat) (s : string) : nat :=
  match n, s with
  | S k, String c r => ((if Ascii.eqb c x then 1 else 0) + occ_first x k r)%nat
  | _, _ => O
  end.

(** The text of a stream read in chunks. *)
Fixpoint join (chunks : list string) : string :=
  match chunks with
  | [] => EmptyString
  | c :: r => c +:+ join r
  end.

(** Writing a text with single quotes for double ones. *)
Fixpoint dq (s : string) : string :=
  match s with
  | EmptyString => EmptyString
  | String c r =>
      String (if Ascii.eqb c "'" then ascii_of_nat 34 else c) (dq r)
  end.

End Str.

(** ** Device classification ([identifySystemAudioDevices]) *)

Module Devices.

Inductive Platform := darwin | win32 | linux.

Inductive DeviceType := audio | video.

Record AudioDevice := mkAudioDevice {
  index : Z;
  name : string;
  type : DeviceType
}.

(** [SystemAudioDevice]: the optional flags are [None] when the property
    was never assigned. *)
Record SystemAudioDevice := mkSystemAudioDevice {
  device : AudioDevice;
  isSystemAudio : bool;
  isBlackHole : option bool;
  isStereoMix : option bool;
  isMonitor : option bool
}.

(** The substrings tested on each platform branch. *)
Definition markers (p : Platform) : list string :=
  match p with
  | darwin => ["blackhole"; "loopback"; "soundflower"]
  | win32 => ["stereo mix"; "what u hear"; "loopback"]
  | linux => [".monitor"]
  end.

(** The body of the [devices.map] callback. *)
Definition identify (platform : Platform) (d : AudioDevice) : SystemAudioDevice :=
  let systemDevice := mkSystemAudioDevice d false None None None in
  let nameLower := Str.toLowerCase (name d) in
  match platform with
  | darwin =>
      if (Str.includes nameLower "blackhole"
          || Str.includes nameLower "loopback"
          || Str.includes nameLower "soundflower")%bool
      then mkSystemAudioDevice d true
             (Some (Str.includes nameLower "blackhole")) None None
      else systemDevice
  | win32 =>
      if (Str.includes nameLower "stereo mix"
          || Str.includes nameLower "what u hear"
          || Str.includes nameLower "loopback")%bool
      then mkSystemAudioDevice d true None (Some true) None
      else systemDevice
  | linux =>
      if Str.includes nameLower ".monitor"
      then mkSystemAudioDevice d true None None (Some true)
      else systemDevice
  end.

Definition identifySystemAudioDevices (platform : Platform)
    (devices : list AudioDevice) : list SystemAudioDevice :=
  List.map (identify platform) devices.

End Devices.

(** ** JavaScript values and objects

    Configuration objects are heap objects: [this.config] is a reference,
    object spread allocates a new object, and a property assignment writes
    through a reference. *)

Module Js.

Inductive value :=
| VUndefined
| VNull
| VBool (b : bool)
| VNum (z : Z)
| VStr (s : string)
| VRef (a : nat).

(** [if (v)] *)
Definition truthy (v : value) : bool :=
  match v with
  | VUndefined | VNull => false
  | VBool b => b
  | VNum z => negb (Z.eqb z 0)
  | VStr s => negb (String.eqb s "")
  | VRef _ => true
  end.

(** [String(v)], as used by template literals. *)
Definition to_string (v : value) : string :=
  match v with
  | VUndefined => "undefined"
  | VNull => "null"
  | VBool true => "true"
  | VBool false => "false"
  | VNum z => pretty z
  | VStr s => s
  | VRef _ => "[object Object]"
  end.

(** [o.k]: an absent property reads as [undefined]. *)
Definition get (o : gmap string value) (k : string) : value :=
  default VUndefined (o !! k).

(** [{...a, ...b}]: the properties of [b] win. *)
Definition spread (a b : gmap string value) : gmap string value := b ∪ a.

(** The object a reference points to. *)
Definition deref (h : gmap nat (gmap string value)) (a : nat) : gmap string value :=
  default ∅ (h !! a).

(** Allocation of a new object. *)
Definition alloc (o : gmap string value) (h : gmap nat (gmap string value))
  : nat * gmap nat (gmap string value) :=
  let a := fresh (dom h) in (a, <[a := o]> h).

(** [r.k = v] through the reference [a]. *)
Definition assign (a : nat) (k : string) (v : value)
    (h : gmap nat (gmap string value)) : gmap nat (gmap string value) :=
  alter (insert k v) a h.

End Js.

(** ** Results of calls and signals *)

Inductive Signal := SIGINT | SIGKILL | SIGTERM | SIGSTOP | SIGCONT.

(** How a call ends in the event-loop turn that made it: it returned, it
    threw (an [async] method: its promise is rejected), or it is suspended
    at an [await] and will be resumed by a later event. *)
Inductive outcome (E A : Type) :=
| Ok (a : A)
| Throw (e : E)
| Pending.
Arguments Ok {E A} a.
Arguments Throw {E A} e.
Arguments Pending {E A}.

(** ** JSON values as [JSON.parse] returns them *)

Module Json.

Inductive t :=
| JNull
| JBool (b : bool)
| JNum (literal : string)
| JStr (s : string)
| JArr (items : list t)
| JObj (members : list (string * t)).

(** [msg.k] on a parsed value that is not [null]: the last member with
    that key of an object, [undefined] otherwise. *)
Fixpoint lookup (k : string) (members : list (string * t)) : option t :=
  match members with
  | [] => None
  | (k', v) :: r =>
      match lookup k r with
      | Some v' => Some v'
      | None => if String.eqb k k' then Some v else None
      end
  end.

Definition prop (k : string) (v : t) : option t :=
  match v with
  | JObj members => lookup k members
  | _ => None
  end.

(** A number literal denotes zero when its mantissa has no non-zero digit. *)
Fixpoint mantissa_zero (s : string) : bool :=
  match s with
  | EmptyString => true
  | String c r =>
      if (Ascii.eqb c "e" || Ascii.eqb c "E")%bool then true
      else if (Ascii.eqb c "0" || Ascii.eqb c "." || Ascii.eqb c "-")%bool
           then mantissa_zero r
           else false
  end.

(** Truthiness of a property read ([None] is [undefined]). *)
Definition truthy (v : option t) : bool :=
  match v with
  | None | Some JNull => false
  | Some (JBool b) => b
  | Some (JNum lit) => negb (mantissa_zero lit)
  | Some (JStr s) => negb (String.eqb s "")
  | Some (JArr _) | Some (JObj _) => true
  end.

(** [v === "text"] *)
Definition is_string (text : string) (v : option t) : bool :=
  match v with
  | Some (JStr s) => String.eqb s text
  | _ => false
  end.

(** *** A parser for the JSON grammar (RFC 8259)

    [parse] plays [JSON.parse] where a development needs to run: [None]
    stands for the [SyntaxError]. Strings are byte strings; a [\u] escape
    above 127 is stored in UTF-8. *)

Definition DQUOTE : ascii := ascii_of_nat 34.
Definition BACKSLASH : ascii := ascii_of_nat 92.

Definition is_ws (c : ascii) : bool :=
  let n := nat_of_ascii c in
  (Nat.eqb n 32 || Nat.eqb n 9 || Nat.eqb n 10 || Nat.eqb n 13)%bool.

Fixpoint skip_ws (s : string) : string :=
  match s with
  | String c r => if is_ws c then skip_ws r else s
  | EmptyString => EmptyString
  end.

Definition is_digit (c : ascii) : bool :=
  let n := nat_of_ascii c in (Nat.leb 48 n && Nat.leb n 57)%bool.

Definition hex_val (c : ascii) : option nat :=
  let n := nat_of_ascii c in
  if (Nat.leb 48 n && Nat.leb n 57)%bool then Some (n - 48)%nat
  else if (Nat.leb 65 n && Nat.leb n 70)%bool then Some (n - 55)%nat
  else if (Nat.leb 97 n && Nat.leb n 102)%bool then Some (n - 87)%nat
  else None.

(** The UTF-8 bytes of a code unit below 65536. *)
Definition utf8 (n : nat) : string :=
  if Nat.ltb n 128 then String (ascii_of_nat n) EmptyString
  else if Nat.ltb n 2048
  then String (ascii_of_nat (192 + n / 64))
         (String (ascii_of_nat (128 + n mod 64)) EmptyString)
  else String (ascii_of_nat (224 + n / 4096))
         (String (ascii_of_nat (128 + (n / 64) mod 64))
            (String (ascii_of_nat (128 + n mod 64)) EmptyString)).

Definition simple_escape (e : ascii) : option ascii :=
  if Ascii.eqb e DQUOTE then Some DQUOTE
  else if Ascii.eqb e BACKSLASH then Some BACKSLASH
  else if Ascii.eqb e "/" then Some "/"%char
  else if Ascii.eqb e "b" then Some (ascii_of_nat 8)
  else if Ascii.eqb e "f" then Some (ascii_of_nat 12)
  else if Ascii.eqb e "n" then Some (ascii_of_nat 10)
  else if Ascii.eqb e "r" then Some (ascii_of_nat 13)
  else if Ascii.eqb e "t" then Some (ascii_of_nat 9)
  else None.

(** The characters of a string literal after its opening quote: the
    decoded text and what follows the closing quote. *)
Fixpoint parse_string (s : string) : option (string * string) :=
  match s with
  | EmptyString => None
  | String c r =>
      if Ascii.eqb c DQUOTE then Some (EmptyString, r)
      else if Ascii.eqb c BACKSLASH then
        match r with
        | String e r1 =>
            if Ascii.eqb e "u" then
              match r1 with
              | String h1 (String h2 (String h3 (String h4 r2))) =>
                  match hex_val h1, hex_val h2, hex_val h3, hex_val h4 with
                  | Some a, Some b, Some c', Some d =>
                      match parse_string r2 with
                      | Some (text, rest) =>
                          Some (utf8 (a * 4096 + b * 256 + c' * 16 + d) +:+ text, rest)
                      | None => None
                      end
                  | _, _, _, _ => None
                  end
              | _ => None
              end
            else
              match simple_escape e with
              | Some x =>
                  match parse_string r1 with
                  | Some (text, rest) => Some (String x text, rest)
                  | None => None
                  end
              | None => None
              end
        | EmptyString => None
        end
      else if Nat.ltb (nat_of_ascii c) 32 then None
      else
        match parse_string r with
        | Some (text, rest) => Some (String c text, rest)
        | None => None
        end
  end.

(** The longest prefix of digits, and the rest. *)
Fixpoint digits (s : string) : string * string :=
  match s with
  | String c r =>
      if is_digit c then let '(d, rest) := digits r in (String c d, rest)
      else (EmptyString, s)
  | EmptyString => (EmptyString, EmptyString)
  end.

Definition parse_number (s : string) : option (string * string) :=
  let '(sign, s1) :=
    match s with
    | String c r => if Ascii.eqb c "-" then ("-", r) else ("", s)
    | EmptyString => ("", s)
    end in
  let '(int, s2) := digits s1 in
  match int with
  | EmptyString => None
  | String c0 more =>
      if (Ascii.eqb c0 "0" && negb (String.eqb more ""))%bool then None
      else
        let frac :=
          match s2 with
          | String c r =>
              if Ascii.eqb c "." then
                let '(d, rest) := digits r in
                if String.eqb d "" then None else Some ("." +:+ d, rest)
              else Some ("", s2)
          | EmptyString => Some ("", s2)
          end in
        match frac with
        | None => None
        | Some (f, s3) =>
            let exp :=
              match s3 with
              | String c r =>
                  if (Ascii.eqb c "e" || Ascii.eqb c "E")%bool then
                    let '(sg, r1) :=
                      match r with
                      | String c1 r' =>
                          if (Ascii.eqb c1 "+" || Ascii.eqb c1 "-")%bool
                          then (String c1 EmptyString, r') else ("", r)
                      | EmptyString => ("", r)
                      end in
                    let '(d, rest) := digits r1 in
                    if String.eqb d "" then None
                    else Some (String c EmptyString +:+ sg +:+ d, rest)
                  else Some ("", s3)
              | EmptyString => Some ("", s3)
              end in
            match exp with
            | None => None
            | Some (e, s4) => Some (sign +:+ int +:+ f +:+ e, s4)
            end
        end
  end.

(** After a literal word. *)
Definition after (word s : string) : option string :=
  if Str.startsWith word s
  then Some (String.substring (String.length word)
               (String.length s - String.length word) s)
  else None.

Fixpoint parse_value (fuel : nat) (s : string) : option (t * string) :=
  match fuel with
  | O => None
  | S f =>
      match skip_ws s with
      | EmptyString => None
      | String c r =>
          if Ascii.eqb c "{" then
            match skip_ws r with
            | String c1 r1 =>
                if Ascii.eqb c1 "}" then Some (JObj [], r1)
                else parse_members f r []
            | EmptyString => None
            end
          else if Ascii.eqb c "[" then
            match skip_ws r with
            | String c1 r1 =>
                if Ascii.eqb c1 "]" then Some (JArr [], r1)
                else parse_elements f r []
            | EmptyString => None
            end
          else if Ascii.eqb c DQUOTE then
            match parse_string r with
            | Some (text, rest) => Some (JStr text, rest)
            | None => None
            end
          else
            match after "true" (String c r), after "false" (String c r),
                  after "null" (String c r) with
            | Some rest, _, _ => Some (JBool true, rest)
            | _, Some rest, _ => Some (JBool false, rest)
            | _, _, Some rest => Some (JNull, rest)
            | None, None, None =>
                match parse_number (String c r) with
                | Some (lit, rest) => Some (JNum lit, rest)
                | None => None
                end
            end
      end
  end
with parse_elements (fuel : nat) (s : string) (acc : list t) : option (t * string) :=
  match fuel with
  | O => None
  | S f =>
      match parse_value f s with
      | Some (v, r) =>
          match skip_ws r with
          | String c r1 =>
              if Ascii.eqb c "," then parse_elements f r1 (acc ++ [v])
              else if Ascii.eqb c "]" then Some (JArr (acc ++ [v]), r1)
              else None
          | EmptyString => None
          end
      | None => None
      end
  end
with parse_members (fuel : nat) (s : string) (acc : list (string * t))
  : option (t * string) :=
  match fuel with
  | O => None
  | S f =>
      match skip_ws s with
      | String q r =>
          if Ascii.eqb q DQUOTE then
            match parse_string r with
            | Some (k, r1) =>
                match skip_ws r1 with
                | String c r2 =>
                    if Ascii.eqb c ":" then
                      match parse_value f r2 with
                      | Some (v, r3) =>
                          match skip_ws r3 with
                          | String d r4 =>
                              if Ascii.eqb d "," then parse_members f r4 (acc ++ [(k, v)])
                              else if Ascii.eqb d "}" then Some (JObj (acc ++ [(k, v)]), r4)
                              else None
                          | EmptyString => None
                          end
                      | None => None
                      end
                    else None
                | EmptyString => None
                end
            | None => None
            end
          else None
      | EmptyString => None
      end
  end.

Definition parse (s : string) : option t :=
  match parse_value (2 * String.length s + 2) s with
  | Some (v, rest) =>
      match skip_ws rest with
      | EmptyString => Some v
      | _ => None
      end
  | None => None
  end.

End Json.
(** ** The native-helper recorder ([NativeAudioRecorder]) *)

Module NativeAudioRecorder.

Inductive RecordingState := idle | recording | stopping.

Definition state_name (s : RecordingState) : string :=
  match s with
  | idle => "idle"
  | recording => "recording"
  | stopping => "stopping"
  end.

Definition state_eqb (a b : RecordingState) : bool :=
  match a, b with
  | idle, idle | recording, recording | stopping, stopping => true
  | _, _ => false
  end.

(** The [Error] values the class throws. *)
Inductive RecorderError :=
| CannotStart (s : RecordingState)
| CannotStop (s : RecordingState)
| CannotUpdateConfig
| SpawnFailed (msg : string).

Definition message (e : RecorderError) : string :=
  match e with
  | CannotStart s => "Cannot start recording in state: " +:+ state_name s
  | CannotStop s => "Cannot stop recording in state: " +:+ state_name s
  | CannotUpdateConfig => "Cannot update config while recording"
  | SpawnFailed msg => msg
  end.

(** The errors that report a lifecycle call made in the wrong state. *)
Definition is_invalid_state (e : RecorderError) : bool :=
  match e with
  | CannotStart _ | CannotStop _ | CannotUpdateConfig => true
  | SpawnFailed _ => false
  end.

(** The argument of an ["error"] event: the error caught in [start], or
    [new Error(msg.error)] built from a helper message. *)
Inductive ErrorValue :=
| Caught (e : RecorderError)
| FromMessage (v : Json.t).

(** [RecorderEvents] *)
Inductive Event :=
| stateChange (s : RecordingState)
| error (e : ErrorValue)
| started (outputPath : Js.value)
| stopped (outputPath : Js.value).

(** What a turn does to the outside: processes spawned, signals sent,
    events emitted to the listeners, timers armed, and the lines
    [handleOutput] hands to [debugLog]. The other calls of [debugLog]
    (in [start], in [stop] and first in the exit handler) hand a line
    to the optional debug logger of the command line; they are
    diagnostics and are not recorded as effects. *)
Inductive Effect :=
| Spawn (p : nat) (argv : list string)
| Kill (p : nat) (s : Signal)
| Emit (e : Event)
| SetTimeout (id : nat) (ms : Z)
| DebugLog (msg : string).

(** The object's fields. *)
Record Recorder := mkRecorder {
  state : RecordingState;
  process : option nat;
  config : nat;
  startTime : Z
}.

(** The recorder together with what the runtime holds for it: the object
    heap, the clock [Date.now()], the process and timer counters, the
    processes whose [exited] promise carries the handler attached by
    [start], the [stop] calls suspended at [await Promise.race] (timer,
    process), and the armed timers with their due time. *)
Record World := mkWorld {
  this : Recorder;
  heap : gmap nat (gmap string Js.value);
  now : Z;
  next_pid : nat;
  next_timer : nat;
  exit_handlers : list nat;
  awaiting : list (nat * nat);
  timers : list (nat * Z)
}.

Definition with_this (r : Recorder) (w : World) : World :=
  mkWorld r (heap w) (now w) (next_pid w) (next_timer w)
          (exit_handlers w) (awaiting w) (timers w).
Definition set_state (s : RecordingState) (w : World) : World :=
  with_this (mkRecorder s (process (this w)) (config (this w)) (startTime (this w))) w.
Definition set_process (p : option nat) (w : World) : World :=
  with_this (mkRecorder (state (this w)) p (config (this w)) (startTime (this w))) w.
Definition set_config (a : nat) (w : World) : World :=
  with_this (mkRecorder (state (this w)) (process (this w)) a (startTime (this w))) w.
Definition set_startTime (t : Z) (w : World) : World :=
  with_this (mkRecorder (state (this w)) (process (this w)) (config (this w)) t) w.
Definition set_heap (h : gmap nat (gmap string Js.value)) (w : World) : World :=
  mkWorld (this w) h (now w) (next_pid w) (next_timer w)
          (exit_handlers w) (awaiting w) (timers w).
Definition set_now (t : Z) (w : World) : World :=
  mkWorld (this w) (heap w) t (next_pid w) (next_timer w)
          (exit_handlers w) (awaiting w) (timers w).
Definition set_next_pid (n : nat) (w : World) : World :=
  mkWorld (this w) (heap w) (now w) n (next_timer w)
          (exit_handlers w) (awaiting w) (timers w).
Definition set_next_timer (n : nat) (w : World) : World :=
  mkWorld (this w) (heap w) (now w) (next_pid w) n
          (exit_handlers w) (awaiting w) (timers w).
Definition set_exit_handlers (l : list nat) (w : World) : World :=
  mkWorld (this w) (heap w) (now w) (next_pid w) (next_timer w)
          l (awaiting w) (timers w).
Definition set_awaiting (l : list (nat * nat)) (w : World) : World :=
  mkWorld (this w) (heap w) (now w) (next_pid w) (next_timer w)
          (exit_handlers w) l (timers w).
Definition set_timers (l : list (nat * Z)) (w : World) : World :=
  mkWorld (this w) (heap w) (now w) (next_pid w) (next_timer w)
          (exit_handlers w) (awaiting w) l.

(** [this.config] read through the heap. *)
Definition the_config (w : World) : gmap string Js.value :=
  Js.deref (heap w) (config (this w)).

(** The constructor: defaults first, the caller's properties over them. *)
Definition defaults : gmap string Js.value :=
  {[ "recordMic" := Js.VBool true; "recordSystem" := Js.VBool false ]}.

Definition new (cfg : gmap string Js.value) (t0 : Z) (pid0 : nat) : World :=
  let '(a, h) := Js.alloc (Js.spread defaults cfg) ∅ in
  mkWorld (mkRecorder idle None a 0) h t0 pid0 O [] [] [].

Definition getState (w : World) : RecordingState := state (this w).

Definition getElapsedTime (w : World) : Z :=
  match state (this w) with
  | idle => 0
  | _ => now w - startTime (this w)
  end.

(** The mode flag pushed after the output path. *)
Definition mode_flag (cfg : gmap string Js.value) : string :=
  if (Js.truthy (Js.get cfg "recordMic") && Js.truthy (Js.get cfg "recordSystem"))%bool
  then "--both"
  else if Js.truthy (Js.get cfg "recordSystem") then "--system"
  else "--mic".

(** [start()]. [recorderPath] is what [getRecorderPath()] returns and
    [spawn_error] is [Some msg] when [Bun.spawn] throws. The method has no
    [await]: it runs to its end in the calling turn. *)
Definition start (recorderPath : string) (spawn_error : option string)
    (w : World) : outcome RecorderError unit * World * list Effect :=
  if negb (state_eqb (state (this w)) idle)
  then (Throw (CannotStart (state (this w))), w, [])
  else
    let cfg := the_config w in
    let args := [recorderPath; "record"; Js.to_string (Js.get cfg "outputPath");
                 mode_flag cfg] in
    match spawn_error with
    | None =>
        let p := next_pid w in
        let w1 := set_next_pid (S p) (set_process (Some p) w) in
        let w2 := set_startTime (now w1) (set_state recording w1) in
        let w3 := set_exit_handlers (exit_handlers w2 ++ [p]) w2 in
        (Ok tt, w3, [Spawn p args; Emit (stateChange recording)])
    | Some msg =>
        (Throw (SpawnFailed msg), set_state idle w,
         [Emit (error (Caught (SpawnFailed msg)))])
    end.

(** The handler attached to [process.exited] by [start], after the line
    it hands to the debug logger (see [Effect]). *)
Definition on_exited (code : Z) (w : World) : World * list Effect :=
  if state_eqb (state (this w)) recording
  then (set_state idle w, [Emit (stateChange idle)])
  else (w, []).

(** The rest of [stop()] after [await Promise.race([...])]. *)
Definition stop_continue (w : World) : World * list Effect :=
  (set_process None (set_state idle w), [Emit (stateChange idle)]).

(** [stop()] up to its [await]. *)
Definition stop (w : World) : outcome RecorderError unit * World * list Effect :=
  if negb (state_eqb (state (this w)) recording)
  then (Throw (CannotStop (state (this w))), w, [])
  else
    let w1 := set_state stopping w in
    match process (this w1) with
    | Some p =>
        let id := next_timer w1 in
        let w2 := set_next_timer (S id) w1 in
        let w3 := set_timers (timers w2 ++ [(id, now w2 + 5000)]) w2 in
        let w4 := set_awaiting (awaiting w3 ++ [(id, p)]) w3 in
        (Pending, w4,
         [Emit (stateChange stopping); Kill p SIGINT; SetTimeout id 5000])
    | None =>
        let '(w2, e) := stop_continue w1 in
        (Ok tt, w2, Emit (stateChange stopping) :: e)
    end.

(** [kill()] *)
Definition kill (w : World) : World * list Effect :=
  let '(w1, e) :=
    match process (this w) with
    | Some p => (set_process None w, [Kill p SIGKILL])
    | None => (w, [])
    end in
  (set_state idle w1, e ++ [Emit (stateChange idle)]).

(** [setConfig(config)] *)
Definition setConfig (partial : gmap string Js.value) (w : World)
  : outcome RecorderError unit * World * list Effect :=
  if negb (state_eqb (state (this w)) idle)
  then (Throw CannotUpdateConfig, w, [])
  else
    let '(a, h) := Js.alloc (Js.spread (the_config w) partial) (heap w) in
    (Ok tt, set_config a (set_heap h w), []).

(** [getConfig()]: the reference to a new object. *)
Definition getConfig (w : World) : nat * World :=
  let '(a, h) := Js.alloc (Js.spread (the_config w) ∅) (heap w) in
  (a, set_heap h w).

(** *** The event loop *)

(** Resuming the [stop] calls selected by [f], oldest first. *)
Fixpoint resume_stops (n : nat) (w : World) : World * list Effect :=
  match n with
  | O => (w, [])
  | S k =>
      let '(w1, e1) := stop_continue w in
      let '(w2, e2) := resume_stops k w1 in
      (w2, e1 ++ e2)
  end.

Definition settle (f : nat * nat -> bool) (w : World) : World * list Effect :=
  let hit := List.filter f (awaiting w) in
  resume_stops (List.length hit)
    (set_awaiting (List.filter (fun x => negb (f x)) (awaiting w)) w).

(** The subprocess [p] exits with [code]: the handler of [start] runs,
    then the [stop] calls racing on that process are resumed. *)
Definition proc_exit (p : nat) (code : Z) (w : World) : World * list Effect :=
  let '(w1, e1) :=
    if existsb (Nat.eqb p) (exit_handlers w)
    then on_exited code
           (set_exit_handlers (List.filter (fun q => negb (Nat.eqb p q)) (exit_handlers w)) w)
    else (w, []) in
  let '(w2, e2) := settle (fun x => Nat.eqb (snd x) p) w1 in
  (w2, e1 ++ e2).

(** The timer callback of [stop]: force-kill whatever [this.process] is
    now, then resolve the timeout promise of its race. *)
Definition timer_fire (id : nat) (w : World) : World * list Effect :=
  if existsb (fun x => Nat.eqb (fst x) id) (timers w)
  then
    let w1 := set_timers (List.filter (fun x => negb (Nat.eqb (fst x) id)) (timers w)) w in
    let e1 := match process (this w1) with
              | Some q => [Kill q SIGKILL]
              | None => []
              end in
    let '(w2, e2) := settle (fun x => Nat.eqb (fst x) id) w1 in
    (w2, e1 ++ e2)
  else (w, []).

Fixpoint fire_all (ids : list nat) (w : World) : World * list Effect :=
  match ids with
  | [] => (w, [])
  | id :: r =>
      let '(w1, e1) := timer_fire id w in
      let '(w2, e2) := fire_all r w1 in
      (w2, e1 ++ e2)
  end.

(** [dt] milliseconds pass, on the wall clock and for the timers alike
    (time itself does not run backwards: a negative [dt] counts as
    none); the timers that are due fire in the order they were armed.
    The wall clock being set, forward or back, is not a tick: see
    [WallClock]. *)
Definition tick (dt : Z) (w : World) : World * list Effect :=
  let w1 := set_now (now w + Z.max 0 dt) w in
  fire_all (List.map fst (List.filter (fun x => Z.leb (snd x) (now w1)) (timers w1))) w1.

(** One turn: a call of the public interface or an event of the runtime. *)
Inductive Op :=
| CallStart (recorderPath : string) (spawn_error : option string)
| CallStop
| CallKill
| CallSetConfig (partial : gmap string Js.value)
| CallGetConfig
| Tick (dt : Z)
| ProcExit (p : nat) (code : Z).

Definition step (op : Op) (w : World) : World * list Effect :=
  match op with
  | CallStart path err => let '(_, w1, e) := start path err w in (w1, e)
  | CallStop => let '(_, w1, e) := stop w in (w1, e)
  | CallKill => kill w
  | CallSetConfig partial => let '(_, w1, e) := setConfig partial w in (w1, e)
  | CallGetConfig => (snd (getConfig w), [])
  | Tick dt => tick dt w
  | ProcExit p code => proc_exit p code w
  end.

Fixpoint run (ops : list Op) (w : World) : World * list Effect :=
  match ops with
  | [] => (w, [])
  | op :: r =>
      let '(w1, e1) := step op w in
      let '(w2, e2) := run r w1 in
      (w2, e1 ++ e2)
  end.

(** *** The stdout protocol ([handleOutput])

    The subprocess is spawned with a piped standard output, so the two
    early returns of [handleOutput] are not taken. The chunks are what
    [reader.read()] delivers until the stream is done or reading throws;
    either ends the loop silently. *)

(** The [try] block of the loop body on a parsed message: reading a
    property of [null] throws. *)
Definition on_message (outputPath : Js.value) (msg : Json.t)
  : outcome unit (list Effect) :=
  match msg with
  | Json.JNull => Throw tt
  | _ =>
      let success := Json.truthy (Json.prop "success" msg) in
      if (success && Json.is_string "Recording started" (Json.prop "message" msg))%bool
      then Ok [DebugLog "Recording started event received";
               Emit (started outputPath)]
      else if (success && Json.is_string "Recording stopped" (Json.prop "message" msg))%bool
      then Ok [DebugLog "Recording stopped event received";
               Emit (stopped outputPath)]
      else if (negb success && Json.truthy (Json.prop "error" msg))%bool
      then match Json.prop "error" msg with
           | Some v => Ok [DebugLog "Recording error"; Emit (error (FromMessage v))]
           | None => Ok []
           end
      else Ok []
  end.

Section HandleOutput.

(** [JSON.parse]: [None] when it throws a [SyntaxError]. *)
Variable JSON_parse : string -> option Json.t.

(** The body of [for (const line of lines)]. *)
Definition handleLine (outputPath : Js.value) (line : string) : list Effect :=
  if Str.trim_nonempty line
  then DebugLog ("Recorder stdout: " +:+ line) ::
       match JSON_parse line with
       | Some msg =>
           match on_message outputPath msg with
           | Ok e => e
           | _ => [DebugLog "Failed to parse recorder output"]
           end
       | None => [DebugLog "Failed to parse recorder output"]
       end
  else [].

Definition handleLines (outputPath : Js.value) (lines : list string) : list Effect :=
  List.concat (List.map (handleLine outputPath) lines).

(** One iteration of [while (true)] on a chunk that was read: the new
    buffer and what the complete lines did. *)
Definition handleChunk (outputPath : Js.value) (buffer chunk : string)
  : string * list Effect :=
  let lines := Str.split_lines (buffer +:+ chunk) in
  (List.last lines "", handleLines outputPath (List.removelast lines)).

(** The loop over the chunks of the stream until [done]. *)
Fixpoint handleOutput_from (outputPath : Js.value) (buffer : string)
    (chunks : list string) : list Effect :=
  match chunks with
  | [] => []
  | chunk :: r =>
      let '(buffer', e) := handleChunk outputPath buffer chunk in
      e ++ handleOutput_from outputPath buffer' r
  end.

Definition handleOutput (outputPath : Js.value) (chunks : list string) : list Effect :=
  handleOutput_from outputPath "" chunks.

End HandleOutput.

(** The signals sent in a trace. *)
Definition kills (es : list Effect) : list (nat * Signal) :=
  List.flat_map (fun e => match e with Kill p s => [(p, s)] | _ => [] end) es.

(** A recorder that records with the subprocess [p] and has no timer
    and no suspended [stop] left from an earlier recording. *)
Definition no_stale_timer (w : World) (p : nat) : Prop :=
  state (this w) = recording /\ process (this w) = Some p
  /\ timers w = [] /\ awaiting w = [].

(** The worlds a recorder can be in. *)
Definition reachable (w : World) : Prop :=
  exists cfg t0 pid0 ops, fst (run ops (new cfg t0 pid0)) = w.

(** The start time lies before now. *)
Definition clock_ok (w : World) : Prop :=
  match state (this w) with
  | idle => True
  | _ => startTime (this w) <= now w
  end.

End NativeAudioRecorder.
(** ** The FFmpeg recorder ([AudioRecorder]) *)

Module AudioRecorder.

Inductive RecordingState := idle | recording | paused | stopping.

Definition state_name (s : RecordingState) : string :=
  match s with
  | idle => "idle"
  | recording => "recording"
  | paused => "paused"
  | stopping => "stopping"
  end.

Definition state_eqb (a b : RecordingState) : bool :=
  match a, b with
  | idle, idle | recording, recording | paused, paused | stopping, stopping => true
  | _, _ => false
  end.

Definition is_win32 (p : Devices.Platform) : bool :=
  match p with
  | Devices.win32 => true
  | _ => false
  end.

(** The [Error] values the class throws. *)
Inductive RecorderError :=
| CannotStart (s : RecordingState)
| CannotStop (s : RecordingState)
| CannotPause (s : RecordingState)
| CannotResume (s : RecordingState)
| CannotUpdateConfig
| NoDevice
| SpawnFailed (msg : string).

Definition message (e : RecorderError) : string :=
  match e with
  | CannotStart s => "Cannot start recording in state: " +:+ state_name s
  | CannotStop s => "Cannot stop recording in state: " +:+ state_name s
  | CannotPause s => "Cannot pause in state: " +:+ state_name s
  | CannotResume s => "Cannot resume in state: " +:+ state_name s
  | CannotUpdateConfig => "Cannot update config while recording"
  | NoDevice => "At least one audio device must be configured"
  | SpawnFailed msg => msg
  end.

(** The errors that report a lifecycle call made in the wrong state. *)
Definition is_invalid_state (e : RecorderError) : bool :=
  match e with
  | CannotStart _ | CannotStop _ | CannotPause _ | CannotResume _
  | CannotUpdateConfig => true
  | NoDevice | SpawnFailed _ => false
  end.

(** [RecorderEvents] *)
Inductive Event :=
| stateChange (s : RecordingState)
| error (e : RecorderError)
| progress (duration size : Z)
| finished (outputPath : Js.value) (duration : Z).

Inductive Effect :=
| Spawn (p : nat) (argv : list string)
| Kill (p : nat) (s : Signal)
| Emit (e : Event)
| SetTimeout (id : nat) (ms : Z).

(** The object's fields. *)
Record Recorder := mkRecorder {
  state : RecordingState;
  process : option nat;
  config : nat;
  platform : Devices.Platform;
  startTime : Z;
  pausedDuration : Z;
  pauseStartTime : Z
}.

(** The recorder and what the runtime holds for it (as for the native
    recorder). *)
Record World := mkWorld {
  this : Recorder;
  heap : gmap nat (gmap string Js.value);
  now : Z;
  next_pid : nat;
  next_timer : nat;
  exit_handlers : list nat;
  awaiting : list (nat * nat);
  timers : list (nat * Z)
}.

Definition with_this (r : Recorder) (w : World) : World :=
  mkWorld r (heap w) (now w) (next_pid w) (next_timer w)
          (exit_handlers w) (awaiting w) (timers w).
Definition set_state (s : RecordingState) (w : World) : World :=
  let r := this w in
  with_this (mkRecorder s (process r) (config r) (platform r) (startTime r)
                        (pausedDuration r) (pauseStartTime r)) w.
Definition set_process (p : option nat) (w : World) : World :=
  let r := this w in
  with_this (mkRecorder (state r) p (config r) (platform r) (startTime r)
                        (pausedDuration r) (pauseStartTime r)) w.
Definition set_config (a : nat) (w : World) : World :=
  let r := this w in
  with_this (mkRecorder (state r) (process r) a (platform r) (startTime r)
                        (pausedDuration r) (pauseStartTime r)) w.
Definition set_startTime (t : Z) (w : World) : World :=
  let r := this w in
  with_this (mkRecorder (state r) (process r) (config r) (platform r) t
                        (pausedDuration r) (pauseStartTime r)) w.
Definition set_pausedDuration (t : Z) (w : World) : World :=
  let r := this w in
  with_this (mkRecorder (state r) (process r) (config r) (platform r) (startTime r)
                        t (pauseStartTime r)) w.
Definition set_pauseStartTime (t : Z) (w : World) : World :=
  let r := this w in
  with_this (mkRecorder (state r) (process r) (config r) (platform r) (startTime r)
                        (pausedDuration r) t) w.
Definition set_heap (h : gmap nat (gmap string Js.value)) (w : World) : World :=
  mkWorld (this w) h (now w) (next_pid w) (next_timer w)
          (exit_handlers w) (awaiting w) (timers w).
Definition set_now (t : Z) (w : World) : World :=
  mkWorld (this w) (heap w) t (next_pid w) (next_timer w)
          (exit_handlers w) (awaiting w) (timers w).
Definition set_next_pid (n : nat) (w : World) : World :=
  mkWorld (this w) (heap w) (now w) n (next_timer w)
          (exit_handlers w) (awaiting w) (timers w).
Definition set_next_timer (n : nat) (w : World) : World :=
  mkWorld (this w) (heap w) (now w) (next_pid w) n
          (exit_handlers w) (awaiting w) (timers w).
Definition set_exit_handlers (l : list nat) (w : World) : World :=
  mkWorld (this w) (heap w) (now w) (next_pid w) (next_timer w)
          l (awaiting w) (timers w).
Definition set_awaiting (l : list (nat * nat)) (w : World) : World :=
  mkWorld (this w) (heap w) (now w) (next_pid w) (next_timer w)
          (exit_handlers w) l (timers w).
Definition set_timers (l : list (nat * Z)) (w : World) : World :=
  mkWorld (this w) (heap w) (now w) (next_pid w) (next_timer w)
          (exit_handlers w) (awaiting w) l.

Definition the_config (w : World) : gmap string Js.value :=
  Js.deref (heap w) (config (this w)).

(** The constructor; [h] holds the device objects the configuration
    refers to. *)
Definition defaults : gmap string Js.value :=
  {[ "outputFormat" := Js.VStr "m4a"; "mixAudio" := Js.VBool true;
     "bitrate" := Js.VStr "192k" ]}.

Definition new (platform : Devices.Platform) (cfg : gmap string Js.value)
    (h : gmap nat (gmap string Js.value)) (t0 : Z) (pid0 : nat) : World :=
  let '(a, h1) := Js.alloc (Js.spread defaults cfg) h in
  mkWorld (mkRecorder idle None a platform 0 0 0) h1 t0 pid0 O [] [] [].

Definition getState (w : World) : RecordingState := state (this w).

Definition getElapsedTime (w : World) : Z :=
  match state (this w) with
  | idle => 0
  | paused => pauseStartTime (this w) - startTime (this w) - pausedDuration (this w)
  | _ => now w - startTime (this w) - pausedDuration (this w)
  end.

(** The properties of the object behind a device value. *)
Definition object_of (h : gmap nat (gmap string Js.value)) (v : Js.value)
  : gmap string Js.value :=
  match v with
  | Js.VRef a => Js.deref h a
  | _ => ∅
  end.

(** [getDeviceInputArgs(device, platform)] *)
Definition getDeviceInputArgs (device : gmap string Js.value)
    (platform : Devices.Platform) : list string :=
  match platform with
  | Devices.darwin =>
      ["-f"; "avfoundation"; "-i"; ":" +:+ Js.to_string (Js.get device "index")]
  | Devices.win32 =>
      ["-f"; "dshow"; "-i"; "audio=" +:+ Js.to_string (Js.get device "name")]
  | Devices.linux =>
      ["-f"; "pulse"; "-i"; Js.to_string (Js.get device "name")]
  end.

Definition is_str (text : string) (v : Js.value) : bool :=
  match v with
  | Js.VStr s => String.eqb s text
  | _ => false
  end.

(** [a || b] on values *)
Definition or_else (a b : Js.value) : Js.value := if Js.truthy a then a else b.

(** [buildFFmpegArgs()] *)
Definition buildFFmpegArgs (w : World) : list string :=
  let cfg := the_config w in
  let micDevice := Js.get cfg "micDevice" in
  let systemDevice := Js.get cfg "systemDevice" in
  let mixAudio := Js.get cfg "mixAudio" in
  let bitrate := Js.get cfg "bitrate" in
  let inputs :=
    (if Js.truthy micDevice
     then getDeviceInputArgs (object_of (heap w) micDevice) (platform (this w))
     else [])
    ++ (if Js.truthy systemDevice
        then getDeviceInputArgs (object_of (heap w) systemDevice) (platform (this w))
        else []) in
  let mixing :=
    if (Js.truthy micDevice && Js.truthy systemDevice && Js.truthy mixAudio)%bool
    then ["-filter_complex";
          "[0:a][1:a]amix=inputs=2:duration=longest:dropout_transition=2[a]";
          "-map"; "[a]"]
    else if (Js.truthy micDevice && Js.truthy systemDevice && negb (Js.truthy mixAudio))%bool
    then ["-map"; "0:a"; "-map"; "1:a"]
    else [] in
  let format := or_else (Js.get cfg "outputFormat") (Js.VStr "m4a") in
  let rate := Js.to_string (or_else bitrate (Js.VStr "192k")) in
  let codec :=
    if is_str "m4a" format
    then ["-c:a"; "aac"; "-b:a"; rate; "-ar"; "44100"; "-ac"; "2"]
    else if is_str "mp3" format
    then ["-c:a"; "libmp3lame"; "-b:a"; rate; "-ar"; "44100"; "-ac"; "2"]
    else if is_str "wav" format
    then ["-c:a"; "pcm_s16le"; "-ar"; "44100"; "-ac"; "2"]
    else [] in
  ["-y"] ++ inputs ++ mixing ++ codec ++ [Js.to_string (Js.get cfg "outputPath")].

(** [start()]; [spawn_error] is [Some msg] when [Bun.spawn] throws. The
    method has no [await]. *)
Definition start (spawn_error : option string) (w : World)
  : outcome RecorderError unit * World * list Effect :=
  if negb (state_eqb (state (this w)) idle)
  then (Throw (CannotStart (state (this w))), w, [])
  else
    let cfg := the_config w in
    if (negb (Js.truthy (Js.get cfg "micDevice"))
        && negb (Js.truthy (Js.get cfg "systemDevice")))%bool
    then (Throw NoDevice, w, [])
    else
      let args := buildFFmpegArgs w in
      match spawn_error with
      | None =>
          let p := next_pid w in
          let w1 := set_next_pid (S p) (set_process (Some p) w) in
          let w2 := set_pausedDuration 0 (set_startTime (now w1) (set_state recording w1)) in
          let w3 := set_exit_handlers (exit_handlers w2 ++ [p]) w2 in
          (Ok tt, w3, [Spawn p ("ffmpeg" :: args); Emit (stateChange recording)])
      | Some msg =>
          (Throw (SpawnFailed msg), set_state idle w,
           [Emit (error (SpawnFailed msg))])
      end.

(** The handler attached to [process.exited] by [start]. *)
Definition on_exited (code : Z) (w : World) : World * list Effect :=
  let e :=
    if Z.eqb code 0
    then [Emit (finished (Js.get (the_config w) "outputPath") (getElapsedTime w))]
    else [] in
  (set_state idle w, e ++ [Emit (stateChange idle)]).

(** The rest of [stop()] after [await Promise.race([...])]. *)
Definition stop_continue (w : World) : World * list Effect :=
  (set_process None w, []).

(** [stop()] up to its [await]. *)
Definition stop (w : World) : outcome RecorderError unit * World * list Effect :=
  if (negb (state_eqb (state (this w)) recording)
      && negb (state_eqb (state (this w)) paused))%bool
  then (Throw (CannotStop (state (this w))), w, [])
  else
    let e0 :=
      match process (this w) with
      | Some p =>
          if (state_eqb (state (this w)) paused
              && negb (is_win32 (platform (this w))))%bool
          then [Kill p SIGCONT] else []
      | None => []
      end in
    let w1 := set_state stopping w in
    match process (this w1) with
    | Some p =>
        let id := next_timer w1 in
        let w2 := set_next_timer (S id) w1 in
        let w3 := set_timers (timers w2 ++ [(id, now w2 + 5000)]) w2 in
        let w4 := set_awaiting (awaiting w3 ++ [(id, p)]) w3 in
        (Pending, w4,
         e0 ++ [Emit (stateChange stopping); Kill p SIGINT; SetTimeout id 5000])
    | None =>
        let '(w2, e) := stop_continue w1 in
        (Ok tt, w2, e0 ++ Emit (stateChange stopping) :: e)
    end.

(** [kill()]: [process.kill()] sends the default signal. *)
Definition kill (w : World) : World * list Effect :=
  let '(w1, e) :=
    match process (this w) with
    | Some p => (set_process None w, [Kill p SIGTERM])
    | None => (w, [])
    end in
  (set_state idle w1, e ++ [Emit (stateChange idle)]).

(** [pause()] *)
Definition pause (w : World) : outcome RecorderError unit * World * list Effect :=
  if negb (state_eqb (state (this w)) recording)
  then (Throw (CannotPause (state (this w))), w, [])
  else
    match process (this w) with
    | Some p =>
        if negb (is_win32 (platform (this w)))
        then (Ok tt, set_pauseStartTime (now w) (set_state paused w),
              [Kill p SIGSTOP; Emit (stateChange paused)])
        else (Ok tt, w, [])
    | None => (Ok tt, w, [])
    end.

(** [resume()] *)
Definition resume (w : World) : outcome RecorderError unit * World * list Effect :=
  if negb (state_eqb (state (this w)) paused)
  then (Throw (CannotResume (state (this w))), w, [])
  else
    match process (this w) with
    | Some p =>
        if negb (is_win32 (platform (this w)))
        then (Ok tt,
              set_state recording
                (set_pausedDuration
                   (pausedDuration (this w) + (now w - pauseStartTime (this w))) w),
              [Kill p SIGCONT; Emit (stateChange recording)])
        else (Ok tt, w, [])
    | None => (Ok tt, w, [])
    end.

(** [setConfig(config)] *)
Definition setConfig (partial : gmap string Js.value) (w : World)
  : outcome RecorderError unit * World * list Effect :=
  if negb (state_eqb (state (this w)) idle)
  then (Throw CannotUpdateConfig, w, [])
  else
    let '(a, h) := Js.alloc (Js.spread (the_config w) partial) (heap w) in
    (Ok tt, set_config a (set_heap h w), []).

(** [getConfig()]: the reference to a new object. *)
Definition getConfig (w : World) : nat * World :=
  let '(a, h) := Js.alloc (Js.spread (the_config w) ∅) (heap w) in
  (a, set_heap h w).

(** *** The event loop *)

Fixpoint resume_stops (n : nat) (w : World) : World * list Effect :=
  match n with
  | O => (w, [])
  | S k =>
      let '(w1, e1) := stop_continue w in
      let '(w2, e2) := resume_stops k w1 in
      (w2, e1 ++ e2)
  end.

Definition settle (f : nat * nat -> bool) (w : World) : World * list Effect :=
  let hit := List.filter f (awaiting w) in
  resume_stops (List.length hit)
    (set_awaiting (List.filter (fun x => negb (f x)) (awaiting w)) w).

(** The subprocess [p] exits with [code]: the handler of [start] runs,
    then the [stop] calls racing on that process are resumed. *)
Definition proc_exit (p : nat) (code : Z) (w : World) : World * list Effect :=
  let '(w1, e1) :=
    if existsb (Nat.eqb p) (exit_handlers w)
    then on_exited code
           (set_exit_handlers (List.filter (fun q => negb (Nat.eqb p q)) (exit_handlers w)) w)
    else (w, []) in
  let '(w2, e2) := settle (fun x => Nat.eqb (snd x) p) w1 in
  (w2, e1 ++ e2).

(** The timer callback of [stop]. *)
Definition timer_fire (id : nat) (w : World) : World * list Effect :=
  if existsb (fun x => Nat.eqb (fst x) id) (timers w)
  then
    let w1 := set_timers (List.filter (fun x => negb (Nat.eqb (fst x) id)) (timers w)) w in
    let e1 := match process (this w1) with
              | Some q => [Kill q SIGKILL]
              | None => []
              end in
    let '(w2, e2) := settle (fun x => Nat.eqb (fst x) id) w1 in
    (w2, e1 ++ e2)
  else (w, []).

Fixpoint fire_all (ids : list nat) (w : World) : World * list Effect :=
  match ids with
  | [] => (w, [])
  | id :: r =>
      let '(w1, e1) := timer_fire id w in
      let '(w2, e2) := fire_all r w1 in
      (w2, e1 ++ e2)
  end.

(** [dt] milliseconds pass, on the wall clock and for the timers alike
    (time itself does not run backwards: a negative [dt] counts as
    none); the timers that are due fire in the order they were armed.
    The wall clock being set, forward or back, is not a tick: see
    [WallClock]. *)
Definition tick (dt : Z) (w : World) : World * list Effect :=
  let w1 := set_now (now w + Z.max 0 dt) w in
  fire_all (List.map fst (List.filter (fun x => Z.leb (snd x) (now w1)) (timers w1))) w1.

Inductive Op :=
| CallStart (spawn_error : option string)
| CallStop
| CallKill
| CallPause
| CallResume
| CallSetConfig (partial : gmap string Js.value)
| CallGetConfig
| Tick (dt : Z)
| ProcExit (p : nat) (code : Z).

Definition step (op : Op) (w : World) : World * list Effect :=
  match op with
  | CallStart err => let '(_, w1, e) := start err w in (w1, e)
  | CallStop => let '(_, w1, e) := stop w in (w1, e)
  | CallKill => kill w
  | CallPause => let '(_, w1, e) := pause w in (w1, e)
  | CallResume => let '(_, w1, e) := resume w in (w1, e)
  | CallSetConfig partial => let '(_, w1, e) := setConfig partial w in (w1, e)
  | CallGetConfig => (snd (getConfig w), [])
  | Tick dt => tick dt w
  | ProcExit p code => proc_exit p code w
  end.

Fixpoint run (ops : list Op) (w : World) : World * list Effect :=
  match ops with
  | [] => (w, [])
  | op :: r =>
      let '(w1, e1) := step op w in
      let '(w2, e2) := run r w1 in
      (w2, e1 ++ e2)
  end.

(** The signals sent in a trace. *)
Definition kills (es : list Effect) : list (nat * Signal) :=
  List.flat_map (fun e => match e with Kill p s => [(p, s)] | _ => [] end) es.

(** A recorder that records (or is paused) with the subprocess [p] and
    has no timer and no suspended [stop] left from an earlier recording. *)
Definition no_stale_timer (w : World) (p : nat) : Prop :=
  (state (this w) = recording \/ state (this w) = paused)
  /\ process (this w) = Some p
  /\ timers w = [] /\ awaiting w = [].

(** The worlds a recorder can be in: those some sequence of turns leads
    to from a newly constructed recorder. *)
Definition reachable (w : World) : Prop :=
  exists platform cfg h t0 pid0 ops, fst (run ops (new platform cfg h t0 pid0)) = w.

(** The timing fields agree with the clock: what was accumulated lies
    before the pause, and the pause before now. *)
Definition clock_ok (w : World) : Prop :=
  match state (this w) with
  | idle => True
  | paused =>
      startTime (this w) + pausedDuration (this w) <= pauseStartTime (this w)
      /\ pauseStartTime (this w) <= now w
  | _ => startTime (this w) + pausedDuration (this w) <= now w
  end.

(** Two worlds with the same state and timing fields. *)
Definition same_timing (w w' : World) : Prop :=
  state (this w') = state (this w)
  /\ startTime (this w') = startTime (this w)
  /\ pausedDuration (this w') = pausedDuration (this w)
  /\ pauseStartTime (this w') = pauseStartTime (this w)
  /\ now w' = now w.

End AudioRecorder.
(** ** The application's start of a recording ([startRecording]) *)

Module App.

Inductive DeviceKind := microphone | system.

Record NativeDevice := mkNativeDevice {
  index : string;
  name : string;
  id : string;
  type : DeviceKind
}.

(** A [startRecording] call suspended at one of its two [await]s: on
    [ensureRecordingsDir()] with the two flags it computed, or on the
    promise [recorder.start()] returned, already settled as [r]. *)
Inductive Suspended :=
| AwaitDir (recordMic recordSystem : bool)
| AwaitStart (r : outcome NativeAudioRecorder.RecorderError unit).

(** The fields of the application object that [startRecording] and the
    recorder listeners read or write. *)
Record AppState := mkApp {
  isStartingRecording : bool;
  recorder : option NativeAudioRecorder.World;
  recordingState : NativeAudioRecorder.RecordingState;
  selectedMic : option NativeDevice;
  selectedSystemAudio : option NativeDevice;
  recordBoth : bool;
  errorMessage : string;
  outputPath : string;
  lastRecordingPath : option string;
  elevenlabs : bool;
  openai : bool;
  updateInterval : bool;
  suspended : list Suspended;
  next_pid : nat
}.

Definition set_isStartingRecording (b : bool) (a : AppState) : AppState :=
  mkApp b (recorder a) (recordingState a) (selectedMic a) (selectedSystemAudio a)
        (recordBoth a) (errorMessage a) (outputPath a) (lastRecordingPath a)
        (elevenlabs a) (openai a) (updateInterval a) (suspended a) (next_pid a).
Definition set_recorder (r : option NativeAudioRecorder.World) (a : AppState) : AppState :=
  mkApp (isStartingRecording a) r (recordingState a) (selectedMic a) (selectedSystemAudio a)
        (recordBoth a) (errorMessage a) (outputPath a) (lastRecordingPath a)
        (elevenlabs a) (openai a) (updateInterval a) (suspended a) (next_pid a).
Definition set_recordingState (s : NativeAudioRecorder.RecordingState) (a : AppState) : AppState :=
  mkApp (isStartingRecording a) (recorder a) s (selectedMic a) (selectedSystemAudio a)
        (recordBoth a) (errorMessage a) (outputPath a) (lastRecordingPath a)
        (elevenlabs a) (openai a) (updateInterval a) (suspended a) (next_pid a).
Definition set_selectedMic (d : option NativeDevice) (a : AppState) : AppState :=
  mkApp (isStartingRecording a) (recorder a) (recordingState a) d (selectedSystemAudio a)
        (recordBoth a) (errorMessage a) (outputPath a) (lastRecordingPath a)
        (elevenlabs a) (openai a) (updateInterval a) (suspended a) (next_pid a).
Definition set_errorMessage (m : string) (a : AppState) : AppState :=
  mkApp (isStartingRecording a) (recorder a) (recordingState a) (selectedMic a)
        (selectedSystemAudio a) (recordBoth a) m (outputPath a) (lastRecordingPath a)
        (elevenlabs a) (openai a) (updateInterval a) (suspended a) (next_pid a).
Definition set_outputPath (p : string) (a : AppState) : AppState :=
  mkApp (isStartingRecording a) (recorder a) (recordingState a) (selectedMic a)
        (selectedSystemAudio a) (recordBoth a) (errorMessage a) p (lastRecordingPath a)
        (elevenlabs a) (openai a) (updateInterval a) (suspended a) (next_pid a).
Definition set_lastRecordingPath (p : option string) (a : AppState) : AppState :=
  mkApp (isStartingRecording a) (recorder a) (recordingState a) (selectedMic a)
        (selectedSystemAudio a) (recordBoth a) (errorMessage a) (outputPath a) p
        (elevenlabs a) (openai a) (updateInterval a) (suspended a) (next_pid a).
Definition set_updateInterval (b : bool) (a : AppState) : AppState :=
  mkApp (isStartingRecording a) (recorder a) (recordingState a) (selectedMic a)
        (selectedSystemAudio a) (recordBoth a) (errorMessage a) (outputPath a)
        (lastRecordingPath a) (elevenlabs a) (openai a) b (suspended a) (next_pid a).
Definition set_suspended (l : list Suspended) (a : AppState) : AppState :=
  mkApp (isStartingRecording a) (recorder a) (recordingState a) (selectedMic a)
        (selectedSystemAudio a) (recordBoth a) (errorMessage a) (outputPath a)
        (lastRecordingPath a) (elevenlabs a) (openai a) (updateInterval a) l (next_pid a).
Definition set_next_pid (n : nat) (a : AppState) : AppState :=
  mkApp (isStartingRecording a) (recorder a) (recordingState a) (selectedMic a)
        (selectedSystemAudio a) (recordBoth a) (errorMessage a) (outputPath a)
        (lastRecordingPath a) (elevenlabs a) (openai a) (updateInterval a) (suspended a) n.

Definition present {A : Type} (o : option A) : bool :=
  match o with
  | Some _ => true
  | None => false
  end.

Definition error_text (e : NativeAudioRecorder.ErrorValue) : string :=
  match e with
  | NativeAudioRecorder.Caught err => NativeAudioRecorder.message err
  | NativeAudioRecorder.FromMessage (Json.JStr s) => s
  | NativeAudioRecorder.FromMessage _ => ""
  end.

(** The three listeners [startRecording] attaches to the recorder. *)
Definition on_event (e : NativeAudioRecorder.Event) (a : AppState) : AppState :=
  match e with
  | NativeAudioRecorder.stateChange s => set_recordingState s a
  | NativeAudioRecorder.error err => set_errorMessage (error_text err) a
  | NativeAudioRecorder.stopped p =>
      let path := Js.to_string p in
      let a1 := set_lastRecordingPath (Some path) a in
      if (elevenlabs a || openai a)%bool
      then set_errorMessage
             ("Recording saved: " +:+ path +:+ String Str.LF "Press [t] to transcribe with "
              +:+ (if elevenlabs a then "ElevenLabs Scribe" else "OpenAI Whisper")
              +:+ (if elevenlabs a then " (with speaker detection)" else "")) a1
      else set_errorMessage ("Recording saved: " +:+ path) a1
  | NativeAudioRecorder.started _ => a
  end.

Fixpoint deliver (es : list NativeAudioRecorder.Effect) (a : AppState) : AppState :=
  match es with
  | [] => a
  | NativeAudioRecorder.Emit e :: r => deliver r (on_event e a)
  | _ :: r => deliver r a
  end.

(** [startRecording()] up to its first [await] (or to its [return]). *)
Definition startRecording (a : AppState) : AppState :=
  if (isStartingRecording a
      || present (recorder a)
      || negb (NativeAudioRecorder.state_eqb (recordingState a) NativeAudioRecorder.idle))%bool
  then a
  else
    let a1 := set_isStartingRecording true a in
    let recordMic := present (selectedMic a1) in
    let recordSystem :=
      (present (selectedSystemAudio a1) && (recordBoth a1 || negb recordMic))%bool in
    if (negb recordMic && negb recordSystem)%bool
    then set_errorMessage "Please select at least one audio source" a1
    else set_suspended (suspended a1 ++ [AwaitDir recordMic recordSystem]) a1.

(** The oldest call suspended on the directory, and the others. *)
Fixpoint take_dir (l : list Suspended) : option (bool * bool * list Suspended) :=
  match l with
  | [] => None
  | AwaitDir m s :: r => Some (m, s, r)
  | x :: r =>
      match take_dir r with
      | Some (m, s, r') => Some (m, s, x :: r')
      | None => None
      end
  end.

Fixpoint take_start (l : list Suspended)
  : option (outcome NativeAudioRecorder.RecorderError unit * list Suspended) :=
  match l with
  | [] => None
  | AwaitStart o :: r => Some (o, r)
  | x :: r =>
      match take_start r with
      | Some (o, r') => Some (o, x :: r')
      | None => None
      end
  end.

(** [await this.ensureRecordingsDir()] settles: when [mkdir] failed the
    call ends there, rejected; otherwise it runs up to
    [await this.recorder.start()]. [path] is what [generateOutputPath()]
    returns, [t] the clock, and [recorderPath], [spawn_error] are the
    recorder's environment. *)
Definition dir_settled (mkdir_ok : bool) (path : string) (t : Z)
    (recorderPath : string) (spawn_error : option string)
    (a : AppState) : AppState * list NativeAudioRecorder.Effect :=
  match take_dir (suspended a) with
  | None => (a, [])
  | Some (recordMic, recordSystem, rest) =>
      if negb mkdir_ok then (set_suspended rest a, [])
      else
        let a1 := set_errorMessage "" (set_outputPath path a) in
        let cfg : gmap string Js.value :=
          {[ "outputPath" := Js.VStr path; "recordMic" := Js.VBool recordMic;
             "recordSystem" := Js.VBool recordSystem ]} in
        let r0 := NativeAudioRecorder.new cfg t (next_pid a1) in
        let '(o, r1, e) := NativeAudioRecorder.start recorderPath spawn_error r0 in
        let a2 := set_next_pid (NativeAudioRecorder.next_pid r1)
                    (deliver e (set_recorder (Some r1) a1)) in
        (set_suspended (rest ++ [AwaitStart o]) a2, e)
  end.

(** [await this.recorder.start()] settles: the [try] ends, then the
    [finally]. *)
Definition start_settled (a : AppState) : AppState :=
  match take_start (suspended a) with
  | None => a
  | Some (o, rest) =>
      let a1 := set_suspended rest a in
      let a2 :=
        match o with
        | Ok _ => set_updateInterval true a1
        | Throw e => set_errorMessage (NativeAudioRecorder.message e) a1
        | Pending => a1
        end in
      set_isStartingRecording false a2
  end.

Inductive Turn :=
| PressRecord
| DirSettled (mkdir_ok : bool) (path : string) (t : Z)
             (recorderPath : string) (spawn_error : option string)
| StartSettled
| SelectMic (d : NativeDevice).

Definition turn (x : Turn) (a : AppState) : AppState * list NativeAudioRecorder.Effect :=
  match x with
  | PressRecord => (startRecording a, [])
  | DirSettled ok path t rp err => dir_settled ok path t rp err a
  | StartSettled => (start_settled a, [])
  | SelectMic d => (set_selectedMic (Some d) a, [])
  end.

Fixpoint turns (xs : list Turn) (a : AppState) : AppState * list NativeAudioRecorder.Effect :=
  match xs with
  | [] => (a, [])
  | x :: r =>
      let '(a1, e1) := turn x a in
      let '(a2, e2) := turns r a1 in
      (a2, e1 ++ e2)
  end.

(** The subprocesses spawned in a trace. *)
Definition spawns (es : list NativeAudioRecorder.Effect) : nat :=
  List.length (List.filter
    (fun e => match e with NativeAudioRecorder.Spawn _ _ => true | _ => false end) es).

(** The application as constructed. *)
Definition initial : AppState :=
  mkApp false None NativeAudioRecorder.idle None None false "" "" None
        false false false [] O.

End App.

(** ** The helper's recording session and merge step (Swift) *)

Module Merge.

(** [FileManager.removeItem(atPath:)]: throws when nothing is there. *)
Definition removeItem (path : string) (fs : gmap string string)
  : option (gmap string string) :=
  match fs !! path with
  | Some _ => Some (delete path fs)
  | None => None
  end.

(** [FileManager.moveItem(atPath:toPath:)]: throws when the source is
    missing or the destination exists. *)
Definition moveItem (src dst : string) (fs : gmap string string)
  : option (gmap string string) :=
  match fs !! src, fs !! dst with
  | Some c, None => Some (<[dst := c]> (delete src fs))
  | _, _ => None
  end.

(** [try? f]: a thrown error is dropped and nothing changed. *)
Definition try_ (r : option (gmap string string)) (fs : gmap string string)
  : gmap string string :=
  default fs r.

(** How the [Process] of the mixing tool ended: [run()] threw [error]
    and no process ran, or the tool ran, exited with a status and left
    the files [left]. *)
Inductive RunResult :=
| LaunchFailed (error : string)
| Exited (status : Z) (left : gmap string string).

(** The two recorders of a session. *)
Inductive Source := Mic | System.

(** The host as the session sees it, one field for each call that
    leaves the helper:
    - [which_ffmpeg]: what [which("ffmpeg")] answers;
    - [run_tool]: how running the tool on given arguments and files
      ends;
    - [macos_12_3]: what the availability check for macOS 12.3 answers;
    - [system_start url]: the error that leaves
      [SystemAudioRecorder.startRecording(to:)] (from the asset writer,
      from ScreenCaptureKit, or for the missing display), [None] when
      it returns;
    - [task_sleep]: the error the 100 ms [Task.sleep] of [start()]
      throws, [None] when it returns;
    - [mic_start url]: the error that leaves
      [MicRecorder.startRecording(to:)], [None] when it returns;
    - [recorder_stop url]: what [AVAudioRecorder.stop()] does to the
      files when it closes the file at [url];
    - [finish_writing url]: what [AVAssetWriter.finishWriting()] does to
      the files when it closes the file at [url]. *)
Record Host := mkHost {
  which_ffmpeg : option string;
  run_tool : string -> list string -> gmap string string -> RunResult;
  macos_12_3 : bool;
  system_start : string -> option string;
  task_sleep : option string;
  mic_start : string -> option string;
  recorder_stop : string -> gmap string string -> gmap string string;
  finish_writing : string -> gmap string string -> gmap string string
}.

Definition merge_args (mic system output : string) : list string :=
  ["-y"; "-i"; mic; "-i"; system;
   "-filter_complex"; "[0:a][1:a]amix=inputs=2:duration=longest[a]";
   "-map"; "[a]"; "-c:a"; "aac"; "-b:a"; "192k"; output].

(** The tail of [mergeAudioFiles]: both files are kept under the
    "_mic" and "_system" names. *)
Definition keep_separate (mic system output : string) (fs : gmap string string)
  : gmap string string :=
  let basePath := Str.remove_all ".m4a" output in
  let micFinal := basePath +:+ "_mic.m4a" in
  let sysFinal := basePath +:+ "_system.m4a" in
  let fs1 := try_ (moveItem mic micFinal fs) fs in
  try_ (moveItem system sysFinal fs1) fs1.

(** [mergeAudioFiles(mic:system:output:)]: the files afterwards and the
    lines written to standard error. The function returns nothing and
    throws nothing. *)
Definition mergeAudioFiles (host : Host) (mic system output : string)
    (fs : gmap string string) : gmap string string * list string :=
  let note := "Note: FFmpeg not found. Files saved separately." in
  match which_ffmpeg host with
  | Some ffmpeg =>
      match run_tool host ffmpeg (merge_args mic system output) fs with
      | Exited status fs1 =>
          if Z.eqb status 0
          then
            let fs2 := try_ (removeItem mic fs1) fs1 in
            (try_ (removeItem system fs2) fs2, [])
          else (keep_separate mic system output fs1, [note])
      | LaunchFailed error =>
          (keep_separate mic system output fs, ["FFmpeg merge failed: " +:+ error; note])
      end
  | None => (keep_separate mic system output fs, [note])
  end.

(** How the attempt with the mixing tool ended, and the files it left:
    merged when the tool was found, ran and exited with status 0. *)
Inductive ToolEnd := Merged | NotMerged.

Definition tool_run (host : Host) (mic system output : string)
    (fs : gmap string string) : ToolEnd * gmap string string :=
  match which_ffmpeg host with
  | Some ffmpeg =>
      match run_tool host ffmpeg (merge_args mic system output) fs with
      | Exited status fs1 => (if Z.eqb status 0 then Merged else NotMerged, fs1)
      | LaunchFailed _ => (NotMerged, fs)
      end
  | None => (NotMerged, fs)
  end.

(** The fields of [RecordingSession] that name files. *)
Record RecordingSession := mkSession {
  outputPath : string;
  recordMic : bool;
  recordSystem : bool;
  micPath : option string;
  sysPath : option string
}.

(** The session [record <outputPath> <flags>] builds: the default is
    the microphone, each flag sets both fields, later flags win. *)
Definition apply_flag (s : RecordingSession) (arg : string) : RecordingSession :=
  if String.eqb arg "--mic"
  then mkSession (outputPath s) true false (micPath s) (sysPath s)
  else if String.eqb arg "--system"
  then mkSession (outputPath s) false true (micPath s) (sysPath s)
  else if String.eqb arg "--both"
  then mkSession (outputPath s) true true (micPath s) (sysPath s)
  else s.

Definition session_of_args (output : string) (flags : list string) : RecordingSession :=
  List.fold_left apply_flag flags (mkSession output true false None None).

(** A [SystemAudioRecorder] whose [startRecording] has returned: the
    file of its writer, [isRecording], and the samples its writer has
    appended (the writer is writing from its [start()] on). *)
Record SystemAudioRecorder := mkSystemAudioRecorder {
  writerURL : string;
  isRecording : bool;
  samplesWritten : nat
}.

(** The session once [start()] has returned: the fields that name
    files, the file of its [MicRecorder] and its [SystemAudioRecorder],
    for each of the two it holds. *)
Record Running := mkRunning {
  files : RecordingSession;
  micRecorder : option string;
  systemRecorder : option SystemAudioRecorder
}.

(** [start()]: the recorders asked to start, in order, with the file
    each is to write, and the session that runs or the error thrown. In
    both mode the two temporary paths are derived from the output path,
    the system recorder is started first and the microphone after the
    100 ms wait; the first error ends [start()]. The lines [start()]
    writes to standard error are not part of the result. *)
Definition start (host : Host) (s : RecordingSession)
  : list (Source * string) * (string + Running) :=
  if (recordMic s && recordSystem s)%bool
  then
    let basePath := Str.remove_all ".m4a" (outputPath s) in
    let mic := basePath +:+ "_temp_mic.m4a" in
    let sys := basePath +:+ "_temp_sys.m4a" in
    let s1 := mkSession (outputPath s) (recordMic s) (recordSystem s) (Some mic) (Some sys) in
    let asked := if macos_12_3 host then [(System, sys)] else [] in
    match (if macos_12_3 host then system_start host sys else None) with
    | Some e => (asked, inl e)
    | None =>
        match task_sleep host with
        | Some e => (asked, inl e)
        | None =>
            match mic_start host mic with
            | Some e => (asked ++ [(Mic, mic)], inl e)
            | None =>
                (asked ++ [(Mic, mic)],
                 inr (mkRunning s1 (Some mic)
                        (if macos_12_3 host
                         then Some (mkSystemAudioRecorder sys true O)
                         else None)))
            end
        end
    end
  else if recordSystem s
  then
    if macos_12_3 host
    then
      match system_start host (outputPath s) with
      | Some e => ([(System, outputPath s)], inl e)
      | None =>
          ([(System, outputPath s)],
           inr (mkRunning s None (Some (mkSystemAudioRecorder (outputPath s) true O))))
      end
    else ([], inl "System audio requires macOS 12.3+")
  else
    match mic_start host (outputPath s) with
    | Some e => ([(Mic, outputPath s)], inl e)
    | None => ([(Mic, outputPath s)], inr (mkRunning s (Some (outputPath s)) None))
    end.

(** What the capture stream does to a running session: the writer of
    the system recorder appends [n] samples, and when the stream stops
    with an error [isRecording] is cleared. *)
Definition stream_events (n : nat) (failed : bool) (r : Running) : Running :=
  mkRunning (files r) (micRecorder r)
    (match systemRecorder r with
     | Some sr =>
         Some (mkSystemAudioRecorder (writerURL sr)
                 (isRecording sr && negb failed)%bool
                 (samplesWritten sr + n)%nat)
     | None => None
     end).

(** [SystemAudioRecorder.stopRecording()]: a recorder that is not
    recording returns after its first line; otherwise the capture is
    stopped and the writer finishes its file. The files afterwards and
    the lines written to standard error. *)
Definition stopRecording (host : Host) (sr : SystemAudioRecorder)
    (fs : gmap string string) : gmap string string * list string :=
  let called := "[SystemAudio] stopRecording called, isRecording="
                +:+ (if isRecording sr then "true" else "false") in
  if isRecording sr
  then (finish_writing host (writerURL sr) fs,
        [called;
         "[SystemAudio] Stopping capture...";
         "[SystemAudio] Stopping writer...";
         "Audio writer stopped. Samples written: " +:+ pretty (samplesWritten sr);
         "[SystemAudio] System audio recording stopped"])
  else (fs, [called]).

(** The first statements of [stop()]: the microphone recorder stops,
    then, where macOS 12.3 is available, the system recorder. *)
Definition stop_recorders (host : Host) (r : Running) (fs : gmap string string)
  : gmap string string * list string :=
  let fs1 := match micRecorder r with
             | Some url => recorder_stop host url fs
             | None => fs
             end in
  if macos_12_3 host
  then match systemRecorder r with
       | Some sr => stopRecording host sr fs1
       | None => (fs1, [])
       end
  else (fs1, []).

(** [stop()]: the recorders stop, then the merge runs when both
    temporary paths were set. *)
Definition stop (host : Host) (r : Running) (fs : gmap string string)
  : gmap string string * list string :=
  let '(fs0, lines0) := stop_recorders host r fs in
  match micPath (files r), sysPath (files r) with
  | Some mic, Some sys =>
      let '(fs1, lines1) := mergeAudioFiles host mic sys (outputPath (files r)) fs0 in
      (fs1, lines0 ++ lines1)
  | _, _ => (fs0, lines0)
  end.

(** The end of the [record] command after the stop signal: [stop()],
    then the "Recording stopped" message and exit status 0. *)
Definition finish_record (host : Host) (r : Running)
    (fs : gmap string string) : gmap string string * Json.t * Z :=
  let '(fs1, _) := stop host r fs in
  (fs1,
   Json.JObj [("success", Json.JBool true);
              ("message", Json.JStr "Recording stopped");
              ("data", Json.JObj [("output", Json.JStr (outputPath (files r)))])],
   0).

(** The directory part of a path: up to its last slash. *)
Fixpoint directory (path : string) : string :=
  match path with
  | EmptyString => EmptyString
  | String c r =>
      if Nat.eqb (Str.occ "/" r) 0
      then if Ascii.eqb c "/" then String c EmptyString else EmptyString
      else String c (directory r)
  end.

End Merge.
(** ** Concrete recorders, used where a statement is run *)

Module Examples.

(** A microphone as the device list gives it. *)
Definition mic_object : gmap string Js.value :=
  {[ "index" := Js.VNum 0; "name" := Js.VStr "MacBook Pro Microphone";
     "type" := Js.VStr "audio" ]}.

(** [new AudioRecorder({ micDevice, outputPath })] on macOS at time 1000. *)
Definition ffmpeg0 : AudioRecorder.World :=
  AudioRecorder.new Devices.darwin
    {[ "micDevice" := Js.VRef 0; "outputPath" := Js.VStr "/tmp/meeting.m4a" ]}
    {[ O := mic_object ]} 1000 O.

(** [new NativeAudioRecorder({ outputPath, recordMic, recordSystem })]. *)
Definition native0 : NativeAudioRecorder.World :=
  NativeAudioRecorder.new
    {[ "outputPath" := Js.VStr "/tmp/meeting.m4a"; "recordMic" := Js.VBool true;
       "recordSystem" := Js.VBool true ]} 1000 O.

(** What the helper prints on its standard output, and a stray line. *)
Definition line_started : string :=
  Str.dq "{'success':true,'message':'Recording started','data':{'output':'/tmp/meeting.m4a'}}".
Definition line_stopped : string :=
  Str.dq "{'success':true,'message':'Recording stopped','data':{'output':'/tmp/meeting.m4a'}}".
Definition line_failed : string :=
  Str.dq "{'success':false,'error':'Screen recording permission denied'}".
Definition line_garbage : string := "Recording {not json".

Definition NL : string := String Str.LF EmptyString.

(** The same output cut into chunks in the middle of lines. *)
Definition stdout_chunks : list string :=
  [ String.substring 0 20 line_started;
    String.substring 20 200 line_started +:+ NL +:+ "Recording {not";
    " json" +:+ NL +:+ line_stopped +:+ NL ].

(** The built-in microphone as the helper lists it. *)
Definition builtin_mic : App.NativeDevice :=
  App.mkNativeDevice "0" "MacBook Pro Microphone" "BuiltInMicrophoneDevice" App.microphone.

(** A host without the mixing tool; the recorders start without error
    and leave the files as they are when they stop. *)
Definition host_without_ffmpeg : Merge.Host :=
  Merge.mkHost None (fun _ _ _ => Merge.LaunchFailed "not found")
    true (fun _ => None) None (fun _ => None) (fun _ fs => fs) (fun _ fs => fs).

(** A host whose tool writes the output and exits with status 0. *)
Definition host_with_ffmpeg : Merge.Host :=
  Merge.mkHost (Some "/opt/homebrew/bin/ffmpeg")
    (fun _ args fs => Merge.Exited 0 (<[List.last args "" := "MIXED"]> fs))
    true (fun _ => None) None (fun _ => None) (fun _ fs => fs) (fun _ fs => fs).

(** A host whose tool begins to write the output and then exits with
    status 1. *)
Definition host_with_failing_ffmpeg : Merge.Host :=
  Merge.mkHost (Some "/opt/homebrew/bin/ffmpeg")
    (fun _ args fs => Merge.Exited 1 (<[List.last args "" := "PARTIAL"]> fs))
    true (fun _ => None) None (fun _ => None) (fun _ fs => fs) (fun _ fs => fs).

(** A both-mode session to [output] as [start()] leaves it, and after
    the writer of its system recorder has appended 480 samples. *)
Definition both_started (output : string) : Merge.Running :=
  let base := Str.remove_all ".m4a" output in
  Merge.mkRunning
    (Merge.mkSession output true true
       (Some (base +:+ "_temp_mic.m4a")) (Some (base +:+ "_temp_sys.m4a")))
    (Some (base +:+ "_temp_mic.m4a"))
    (Some (Merge.mkSystemAudioRecorder (base +:+ "_temp_sys.m4a") true 0)).

Definition both_running (output : string) : Merge.Running :=
  Merge.stream_events 480 false (both_started output).

(** The two temporary files of a both-mode recording to [output]. *)
Definition recorded (output : string) : gmap string string :=
  {[ Str.remove_all ".m4a" output +:+ "_temp_mic.m4a" := "MIC";
     Str.remove_all ".m4a" output +:+ "_temp_sys.m4a" := "SYS" ]}.

End Examples.

(** ** Turns of the runtime, and the helper's command line *)

Module Events.

(** The turns the runtime takes by itself (time passing, a subprocess
    exiting), as opposed to the calls of the public interface. *)
Definition native_event (op : NativeAudioRecorder.Op) : bool :=
  match op with
  | NativeAudioRecorder.Tick _ | NativeAudioRecorder.ProcExit _ _ => true
  | _ => false
  end.

Definition ffmpeg_event (op : AudioRecorder.Op) : bool :=
  match op with
  | AudioRecorder.Tick _ | AudioRecorder.ProcExit _ _ => true
  | _ => false
  end.

(** The events the listeners of a native recorder receive in a trace,
    and the processes spawned in it. *)
Definition native_emitted (es : list NativeAudioRecorder.Effect)
  : list NativeAudioRecorder.Event :=
  List.flat_map
    (fun e => match e with NativeAudioRecorder.Emit x => [x] | _ => [] end) es.

Definition native_spawned (es : list NativeAudioRecorder.Effect) : list nat :=
  List.flat_map
    (fun e => match e with NativeAudioRecorder.Spawn p _ => [p] | _ => [] end) es.

(** A recorder that is idle, holds no process and has no [stop] in
    flight. *)
Definition at_rest (w : NativeAudioRecorder.World) : Prop :=
  NativeAudioRecorder.state (NativeAudioRecorder.this w) = NativeAudioRecorder.idle
  /\ NativeAudioRecorder.process (NativeAudioRecorder.this w) = None
  /\ NativeAudioRecorder.awaiting w = [].

End Events.

(** ** The wall clock *)

Module WallClock.

(** [Date.now()] is the wall clock of the host, which the user or a time
    service can set: [delta] milliseconds forward, or back when [delta]
    is negative. The timers of the runtime do not follow the wall clock:
    each stays due after the wait that is left, so its due time moves
    with the clock. No field of the recorder is touched. ([tick] is time
    passing, on both clocks.) *)
Definition ffmpeg_clock_set (delta : Z) (w : AudioRecorder.World) : AudioRecorder.World :=
  AudioRecorder.set_timers
    (List.map (fun x => (fst x, snd x + delta)) (AudioRecorder.timers w))
    (AudioRecorder.set_now (AudioRecorder.now w + delta) w).

Definition native_clock_set (delta : Z) (w : NativeAudioRecorder.World)
  : NativeAudioRecorder.World :=
  NativeAudioRecorder.set_timers
    (List.map (fun x => (fst x, snd x + delta)) (NativeAudioRecorder.timers w))
    (NativeAudioRecorder.set_now (NativeAudioRecorder.now w + delta) w).

(** A turn in the life of a recorder: a turn of the recorder itself (a
    call or an event of the runtime), or the wall clock being set. *)
Inductive Turn (Op : Type) :=
| Of (op : Op)
| ClockSet (delta : Z).

Arguments Of {Op} op.
Arguments ClockSet {Op} delta.

(** The turns that do not set the clock back. *)
Definition forward {Op : Type} (t : Turn Op) : bool :=
  match t with
  | Of _ => true
  | ClockSet delta => Z.leb 0 delta
  end.

Fixpoint ffmpeg_turns (ts : list (Turn AudioRecorder.Op)) (w : AudioRecorder.World)
  : AudioRecorder.World :=
  match ts with
  | [] => w
  | Of op :: r => ffmpeg_turns r (fst (AudioRecorder.step op w))
  | ClockSet delta :: r => ffmpeg_turns r (ffmpeg_clock_set delta w)
  end.

Fixpoint native_turns (ts : list (Turn NativeAudioRecorder.Op))
    (w : NativeAudioRecorder.World) : NativeAudioRecorder.World :=
  match ts with
  | [] => w
  | Of op :: r => native_turns r (fst (NativeAudioRecorder.step op w))
  | ClockSet delta :: r => native_turns r (native_clock_set delta w)
  end.

(** The worlds a recorder is in after the turns [ts] of its life, from
    its construction. *)
Definition ffmpeg_reached (ts : list (Turn AudioRecorder.Op)) (w : AudioRecorder.World)
  : Prop :=
  exists platform cfg h t0 pid0,
    ffmpeg_turns ts (AudioRecorder.new platform cfg h t0 pid0) = w.

Definition native_reached (ts : list (Turn NativeAudioRecorder.Op))
    (w : NativeAudioRecorder.World) : Prop :=
  exists cfg t0 pid0, native_turns ts (NativeAudioRecorder.new cfg t0 pid0) = w.

End WallClock.

Module Helper.

(** What the helper's command line selects ([args] is
    [CommandLine.arguments] without the program name): the usage text,
    one of the commands, or an error printed before [exit(1)]. *)
Inductive Command :=
| Usage
| ListDevices
| CheckPermissions
| Version
| Record (session : Merge.RecordingSession)
| Fail (error : string).

Definition parse_command (args : list string) : Command :=
  match args with
  | [] => Usage
  | command :: rest =>
      if String.eqb command "list-devices" then ListDevices
      else if String.eqb command "check-permissions" then CheckPermissions
      else if String.eqb command "version" then Version
      else if String.eqb command "record" then
        match rest with
        | [] => Fail "Missing output file path"
        | output :: flags => Record (Merge.session_of_args output flags)
        end
      else Fail ("Unknown command: " +:+ command)
  end.

(** The flags the [record] command recognises. *)
Definition is_mode_flag (arg : string) : bool :=
  (String.eqb arg "--mic" || String.eqb arg "--system" || String.eqb arg "--both")%bool.

End Helper.

(** ** Recorders in the middle of a recording, used where a statement is run *)

Module Scenarios.

(** One second into a recording. *)
Definition native_recording : NativeAudioRecorder.World :=
  fst (NativeAudioRecorder.run
         [NativeAudioRecorder.CallStart "recorder" None; NativeAudioRecorder.Tick 1000]
         Examples.native0).

Definition ffmpeg_recording : AudioRecorder.World :=
  fst (AudioRecorder.run [AudioRecorder.CallStart None; AudioRecorder.Tick 1000]
         Examples.ffmpeg0).

(** Paused after one second, four seconds ago. *)
Definition ffmpeg_paused : AudioRecorder.World :=
  fst (AudioRecorder.run [AudioRecorder.CallPause; AudioRecorder.Tick 4000] ffmpeg_recording).

(** Two seconds into a [stop()]. *)
Definition native_stopping : NativeAudioRecorder.World :=
  fst (NativeAudioRecorder.run
         [NativeAudioRecorder.CallStop; NativeAudioRecorder.Tick 2000] native_recording).

End Scenarios.

(** ** Choosing devices ([findMicrophoneDevice], [findSystemAudioDevice],
       [findMicrophones], [findSystemAudio], the helper's [listDevices]) *)

Module DeviceSearch.
Import Devices.

(** The test of [microphones.find]. *)
Definition named_mic (d : SystemAudioDevice) : bool :=
  (Str.includes (Str.toLowerCase (name (device d))) "mic"
   || Str.includes (Str.toLowerCase (name (device d))) "microphone")%bool.

Definition not_system (d : SystemAudioDevice) : bool := negb (isSystemAudio d).

(** [findMicrophoneDevice(devices)]; [None] is [null]. *)
Definition findMicrophoneDevice (devices : list SystemAudioDevice)
  : option SystemAudioDevice :=
  let microphones := List.filter not_system devices in
  if Nat.eqb (List.length microphones) 0 then None
  else match List.find named_mic microphones with
       | Some preferredMic => Some preferredMic
       | None => List.nth_error microphones 0
       end.

(** The name holds one of the platform's markers of system audio. *)
Definition marked (platform : Platform) (d : AudioDevice) : bool :=
  existsb (Str.includes (Str.toLowerCase (name d))) (markers platform).

(** [findSystemAudioDevice(devices)] *)
Definition findSystemAudioDevice (devices : list SystemAudioDevice)
  : option SystemAudioDevice :=
  List.nth_error (List.filter isSystemAudio devices) 0.

End DeviceSearch.

Module NativeDevices.
Import App.

Definition is_microphone (d : NativeDevice) : bool :=
  match type d with
  | microphone => true
  | system => false
  end.

Definition is_system (d : NativeDevice) : bool :=
  match type d with
  | system => true
  | microphone => false
  end.

(** [findMicrophones(devices)] *)
Definition findMicrophones (devices : list NativeDevice) : list NativeDevice :=
  List.filter is_microphone devices.

(** [findSystemAudio(devices)]; [None] is [null]. *)
Definition findSystemAudio (devices : list NativeDevice) : option NativeDevice :=
  List.find is_system devices.

(** The microphones of the helper's [listDevices()], numbered from
    [index] in the order of discovery; a discovered device is its
    localized name and its unique identifier. *)
Fixpoint numbered (index : nat) (discovered : list (string * string))
  : list NativeDevice :=
  match discovered with
  | [] => []
  | (localizedName, uniqueID) :: r =>
      mkNativeDevice (pretty index) localizedName uniqueID microphone
      :: numbered (S index) r
  end.

(** The device list the helper prints, as the wrapper decodes it: the
    microphones, then the virtual system device when the capture
    interface is available. *)
Definition listDevices (discovered : list (string * string)) (macos_12_3 : bool)
  : list NativeDevice :=
  numbered O discovered
  ++ (if macos_12_3
      then [mkNativeDevice "system" "System Audio" "system-audio" system]
      else []).

End NativeDevices.

(** ** The application around a recording: devices, keys, stop *)

Module AppLoop.
Import App.

(** The part of the saved configuration [loadDevices] reads; [None] is an
    absent value. *)
Record AudioConfig := mkAudioConfig {
  selectedMicId : option string;
  selectedMicName : option string;
  recordingMode : option string
}.

(** Truthiness of an optional string, and [x === saved]. *)
Definition truthy_str (o : option string) : bool :=
  match o with
  | Some s => negb (String.eqb s "")
  | None => false
  end.

Definition same_as (saved : option string) (x : string) : bool :=
  match saved with
  | Some s => String.eqb x s
  | None => false
  end.

(** [found ?? mics[0] ?? null] *)
Definition or_first (found : option NativeDevice) (mics : list NativeDevice)
  : option NativeDevice :=
  match found with
  | Some d => Some d
  | None => List.nth_error mics 0
  end.

(** The three selection fields written together. *)
Definition set_selection (mic sys : option NativeDevice) (both : bool)
    (a : AppState) : AppState :=
  mkApp (isStartingRecording a) (recorder a) (recordingState a) mic sys both
        (errorMessage a) (outputPath a) (lastRecordingPath a)
        (elevenlabs a) (openai a) (updateInterval a) (suspended a) (next_pid a).

(** A [stopRecording] call suspended at one of its two [await]s: on the
    promise of [recorder.stop()], or on [scanRecordings()]. *)
Inductive StopCall := AwaitStop | AwaitScan.

(** The application with what [startRecording] does not touch: the
    device list, the [stopRecording] calls in flight, and the recorders
    the application has dropped, oldest first (their listeners still
    write to the application state). *)
Record Ui := mkUi {
  app : AppState;
  devices : list NativeDevice;
  stop_calls : list StopCall;
  detached : list NativeAudioRecorder.World
}.

Definition with_app (a : AppState) (u : Ui) : Ui :=
  mkUi a (devices u) (stop_calls u) (detached u).

(** [loadDevices()] once [listNativeDevices()] has settled, with the
    error message when it was rejected. *)
Definition loadDevices (listed : string + list NativeDevice) (cfg : AudioConfig)
    (u : Ui) : Ui :=
  match listed with
  | inl msg => with_app (set_errorMessage ("Failed to load devices: " +:+ msg) (app u)) u
  | inr devs =>
      let mics := NativeDevices.findMicrophones devs in
      let sys := NativeDevices.findSystemAudio devs in
      let mic :=
        if (truthy_str (selectedMicId cfg) || truthy_str (selectedMicName cfg))%bool
        then
          let byId := List.find (fun m => same_as (selectedMicId cfg) (id m)) mics in
          let savedMic :=
            match byId with
            | Some d => Some d
            | None =>
                if truthy_str (selectedMicName cfg)
                then List.find (fun m => same_as (selectedMicName cfg) (name m)) mics
                else None
            end in
          or_first savedMic mics
        else List.nth_error mics 0 in
      let a :=
        if (same_as (recordingMode cfg) "both" && present sys)%bool
        then set_selection mic sys true (app u)
        else if (same_as (recordingMode cfg) "system" && present sys)%bool
        then set_selection None sys false (app u)
        else set_selection mic sys false (app u) in
      mkUi a devs (stop_calls u) (detached u)
  end.

(** The mode shown on the main screen. *)
Definition mode_label (a : AppState) : string :=
  if (recordBoth a && present (selectedMic a) && present (selectedSystemAudio a))%bool
  then "Mic + System"
  else if (negb (present (selectedMic a)) && present (selectedSystemAudio a))%bool
  then "System"
  else "Mic".

(** [stopRecording()] up to its first [await]; when [recorder.stop()]
    throws, the [catch] and the rest run with it. *)
Definition stopRecording (u : Ui) : Ui * list NativeAudioRecorder.Effect :=
  match recorder (app u) with
  | None => (u, [])
  | Some r =>
      let a1 := set_updateInterval false (app u) in
      let '(o, r1, e) := NativeAudioRecorder.stop r in
      let a2 := deliver e (set_recorder (Some r1) a1) in
      match o with
      | Pending => (mkUi a2 (devices u) (stop_calls u ++ [AwaitStop]) (detached u), e)
      | Ok _ => (mkUi a2 (devices u) (stop_calls u ++ [AwaitScan]) (detached u), e)
      | Throw err =>
          (mkUi (set_recorder None (set_errorMessage (NativeAudioRecorder.message err) a2))
                (devices u) (stop_calls u) (detached u ++ [r1]), e)
      end
  end.

(** The keys of the main screen that concern a recording; [KeyB] carries
    the saved microphone identifier the handler reads. *)
Inductive Key := KeyR | KeyS | KeyB (savedMicId : option string) | KeyX.

(** [handleMainScreenKeys(key)] on these keys. *)
Definition handleMainScreenKeys (k : Key) (u : Ui)
  : Ui * list NativeAudioRecorder.Effect :=
  let a := app u in
  match recordingState a with
  | NativeAudioRecorder.idle =>
      match k with
      | KeyR => (with_app (startRecording a) u, [])
      | KeyS =>
          if present (selectedSystemAudio a)
          then (with_app (set_selection None (selectedSystemAudio a) false a) u, [])
          else (u, [])
      | KeyB savedMicId =>
          if present (selectedSystemAudio a)
          then
            let mics := NativeDevices.findMicrophones (devices u) in
            let savedMic :=
              if truthy_str savedMicId
              then List.find (fun m => same_as savedMicId (id m)) mics
              else None in
            (with_app (set_selection (or_first savedMic mics) (selectedSystemAudio a) true a) u,
             [])
          else (u, [])
      | KeyX => (u, [])
      end
  | NativeAudioRecorder.recording =>
      match k with
      | KeyX => stopRecording u
      | _ => (u, [])
      end
  | NativeAudioRecorder.stopping => (u, [])
  end.

(** What the runtime reports: time passing, a subprocess exiting. *)
Inductive RuntimeEvent := Elapsed (dt : Z) | Exited (p : nat) (code : Z).

Definition as_op (ev : RuntimeEvent) : NativeAudioRecorder.Op :=
  match ev with
  | Elapsed dt => NativeAudioRecorder.Tick dt
  | Exited p code => NativeAudioRecorder.ProcExit p code
  end.

(** The event on the dropped recorders, oldest first (the order their
    timers fall due), their events going to the listeners. *)
Fixpoint each_recorder (op : NativeAudioRecorder.Op)
    (ws : list NativeAudioRecorder.World) (a : AppState)
  : list NativeAudioRecorder.World * AppState * list NativeAudioRecorder.Effect :=
  match ws with
  | [] => ([], a, [])
  | w :: r =>
      let '(w1, e1) := NativeAudioRecorder.step op w in
      let '(r1, a1, e2) := each_recorder op r (deliver e1 a) in
      (w1 :: r1, a1, e1 ++ e2)
  end.

(** The [stopRecording] calls whose [stop()] promise settled go on to
    [await this.scanRecordings()]. *)
Fixpoint resume_stop_calls (n : nat) (l : list StopCall) : list StopCall :=
  match l with
  | [] => []
  | AwaitStop :: r =>
      match n with
      | S k => AwaitScan :: resume_stop_calls k r
      | O => AwaitStop :: r
      end
  | AwaitScan :: r => AwaitScan :: resume_stop_calls n r
  end.

Definition runtime_event (ev : RuntimeEvent) (u : Ui)
  : Ui * list NativeAudioRecorder.Effect :=
  let '(ds, a1, e1) := each_recorder (as_op ev) (detached u) (app u) in
  match recorder a1 with
  | None => (mkUi a1 (devices u) (stop_calls u) ds, e1)
  | Some r =>
      let '(r1, e2) := NativeAudioRecorder.step (as_op ev) r in
      let a2 := deliver e2 (set_recorder (Some r1) a1) in
      let settled := (List.length (NativeAudioRecorder.awaiting r)
                      - List.length (NativeAudioRecorder.awaiting r1))%nat in
      (mkUi a2 (devices u) (resume_stop_calls settled (stop_calls u)) ds, e1 ++ e2)
  end.

(** The oldest call suspended on the scan, removed. *)
Fixpoint take_scan (l : list StopCall) : option (list StopCall) :=
  match l with
  | [] => None
  | AwaitScan :: r => Some r
  | x :: r =>
      match take_scan r with
      | Some r' => Some (x :: r')
      | None => None
      end
  end.

(** [await this.scanRecordings()] settles, with the error message when
    it was rejected: the [catch], then [this.recorder = null]. *)
Definition scan_settled (error : option string) (u : Ui) : Ui :=
  match take_scan (stop_calls u) with
  | None => u
  | Some rest =>
      let a1 := match error with
                | Some msg => set_errorMessage msg (app u)
                | None => app u
                end in
      mkUi (set_recorder None a1) (devices u) rest
           (match recorder a1 with
            | Some r => detached u ++ [r]
            | None => detached u
            end)
  end.

Inductive Turn :=
| Press (k : Key)
| Inner (x : App.Turn)
| Runtime (ev : RuntimeEvent)
| ScanSettled (error : option string)
| DevicesLoaded (listed : string + list NativeDevice) (cfg : AudioConfig).

Definition turn (x : Turn) (u : Ui) : Ui * list NativeAudioRecorder.Effect :=
  match x with
  | Press k => handleMainScreenKeys k u
  | Inner t => let '(a, e) := App.turn t (app u) in (with_app a u, e)
  | Runtime ev => runtime_event ev u
  | ScanSettled error => (scan_settled error u, [])
  | DevicesLoaded listed cfg => (loadDevices listed cfg u, [])
  end.

Fixpoint turns (xs : list Turn) (u : Ui) : Ui * list NativeAudioRecorder.Effect :=
  match xs with
  | [] => (u, [])
  | x :: r =>
      let '(u1, e1) := turn x u in
      let '(u2, e2) := turns r u1 in
      (u2, e1 ++ e2)
  end.

(** The application as constructed. *)
Definition initial : Ui := mkUi App.initial [] [] [].

(** A dropped or stuck recorder that no event can wake: idle, no [stop]
    in flight, and no process or no timer. *)
Definition quiet (w : NativeAudioRecorder.World) : Prop :=
  NativeAudioRecorder.state (NativeAudioRecorder.this w) = NativeAudioRecorder.idle
  /\ NativeAudioRecorder.awaiting w = []
  /\ (NativeAudioRecorder.process (NativeAudioRecorder.this w) = None
      \/ NativeAudioRecorder.timers w = []).

(** The application in the middle of a recording with the helper [p]. *)
Definition recording_with (u : Ui) (r : NativeAudioRecorder.World) (p : nat) : Prop :=
  recorder (app u) = Some r
  /\ NativeAudioRecorder.no_stale_timer r p
  /\ In p (NativeAudioRecorder.exit_handlers r)
  /\ recordingState (app u) = NativeAudioRecorder.recording
  /\ isStartingRecording (app u) = false
  /\ suspended (app u) = []
  /\ stop_calls u = []
  /\ Forall quiet (detached u).

(** An event that ends the helper's part in a [stop()]: its exit, or
    five seconds passing. *)
Definition ends_helper (ev : RuntimeEvent) (p : nat) : Prop :=
  match ev with
  | Exited q _ => q = p
  | Elapsed dt => 5000 <= dt
  end.

(** The application holding a recorder that no event can wake, with no
    call in flight. *)
Definition stuck (u : Ui) : Prop :=
  (exists r, recorder (app u) = Some r /\ quiet r)
  /\ recordingState (app u) = NativeAudioRecorder.idle
  /\ suspended (app u) = []
  /\ stop_calls u = []
  /\ Forall quiet (detached u).

(** The application one second into a recording of the built-in
    microphone. *)
Definition sample_recording : Ui :=
  fst (turns [DevicesLoaded (inr (NativeDevices.listDevices
                                    [("MacBook Pro Microphone", "BuiltInMicrophoneDevice")]
                                    true))
                (mkAudioConfig None None None);
              Press KeyR;
              Inner (DirSettled true "/tmp/meeting.m4a" 1000 "recorder" None);
              Inner StartSettled;
              Runtime (Elapsed 1000)] initial).

(** The recorder of that application. *)
Definition sample_recorder : NativeAudioRecorder.World :=
  default Examples.native0 (recorder (app sample_recording)).

End AppLoop.

(** ** Reading text: numbers, white space, regular expressions of the source *)

Module Text.

(** The value of a decimal digit. *)
Definition digit_value (c : ascii) : Z := Z.of_nat (nat_of_ascii c) - 48.

(** The longest prefix of digits, read as a number onto [acc], and the
    rest of the string; [n] counts the digits read. *)
Fixpoint read_digits (acc : Z) (n : nat) (s : string) : Z * nat * string :=
  match s with
  | String c r =>
      if Json.is_digit c then read_digits (acc * 10 + digit_value c) (S n) r
      else (acc, n, s)
  | EmptyString => (acc, n, s)
  end.

(** [\d+] at the start of [s]: its value and what follows; [None] when
    [s] does not start with a digit. *)
Definition digits (s : string) : option (Z * string) :=
  match read_digits 0 O s with
  | (_, O, _) => None
  | (v, S _, rest) => Some (v, rest)
  end.

(** Whether [s] starts with a digit, and whether it holds digits only. *)
Definition starts_digit (s : string) : bool :=
  match s with
  | String c _ => Json.is_digit c
  | EmptyString => false
  end.

Fixpoint all_digits (s : string) : bool :=
  match s with
  | EmptyString => true
  | String c r => (Json.is_digit c && all_digits r)%bool
  end.

(** Whether [s] holds no white space, and whether it is empty or
    starts with white space. *)
Fixpoint no_space (s : string) : bool :=
  match s with
  | EmptyString => true
  | String c r => (negb (Str.is_space c) && no_space r)%bool
  end.

Definition ends_token (s : string) : bool :=
  match s with
  | String c _ => Str.is_space c
  | EmptyString => true
  end.

(** Dropping leading white space ([\s*]; ASCII white space only). *)
Fixpoint skip_space (s : string) : string :=
  match s with
  | String c r => if Str.is_space c then skip_space r else s
  | EmptyString => EmptyString
  end.

(** [parseInt(s, 10)] as an exact integer: leading white space, an
    optional sign, then digits; what follows them is ignored. [None] is
    [NaN]. *)
Definition parseInt (s : string) : option Z :=
  match skip_space s with
  | String c r =>
      if Ascii.eqb c "-" then
        match digits r with
        | Some (v, _) => Some (- v)
        | None => None
        end
      else if Ascii.eqb c "+" then
        match digits r with
        | Some (v, _) => Some v
        | None => None
        end
      else
        match digits (String c r) with
        | Some (v, _) => Some v
        | None => None
        end
  | EmptyString => None
  end.

(** What follows the prefix [p] of [s]. *)
Fixpoint after_prefix (p s : string) : option string :=
  match p, s with
  | EmptyString, _ => Some s
  | String a p', String b s' => if Ascii.eqb a b then after_prefix p' s' else None
  | String _ _, EmptyString => None
  end.

(** The leftmost position of [s] at which [m] matches. *)
Fixpoint search {A : Type} (m : string -> option A) (s : string) : option A :=
  match m s with
  | Some a => Some a
  | None =>
      match s with
      | String _ r => search m r
      | EmptyString => None
      end
  end.

(** [s.trim()] (ASCII white space): the leading white space dropped,
    then the trailing. *)
Fixpoint trim_end (s : string) : string :=
  match s with
  | EmptyString => EmptyString
  | String c r => if Str.all_space (String c r) then EmptyString else String c (trim_end r)
  end.

Definition trim (s : string) : string := trim_end (skip_space s).

(** [s.split(/\s+/)]: the pieces between the runs of white space, an
    empty piece standing before a leading and after a trailing run.
    [in_run] tells that the character before was white space. *)
Fixpoint split_space_from (in_run : bool) (s : string) : list string :=
  match s with
  | EmptyString => [EmptyString]
  | String c r =>
      if Str.is_space c
      then if in_run then split_space_from true r
           else EmptyString :: split_space_from true r
      else match split_space_from false r with
           | piece :: pieces => String c piece :: pieces
           | [] => [String c EmptyString]
           end
  end.

Definition split_space (s : string) : list string := split_space_from false s.

(** The characters [.] does not match (ASCII). *)
Definition is_line_terminator (c : ascii) : bool :=
  (Nat.eqb (nat_of_ascii c) 10 || Nat.eqb (nat_of_ascii c) 13)%bool.

Fixpoint has_line_terminator (s : string) : bool :=
  match s with
  | EmptyString => false
  | String c r => (is_line_terminator c || has_line_terminator r)%bool
  end.

(** The longest prefix of white space and what follows it. *)
Fixpoint span_space (s : string) : string * string :=
  match s with
  | String c r =>
      if Str.is_space c
      then let '(w, rest) := span_space r in (String c w, rest)
      else (EmptyString, s)
  | EmptyString => (EmptyString, EmptyString)
  end.

(** The last character of a string. *)
Fixpoint last_char (s : string) : option ascii :=
  match s with
  | EmptyString => None
  | String c EmptyString => Some c
  | String _ r => last_char r
  end.

(** The text up to the first double quote and what follows the quote. *)
Fixpoint until_quote (s : string) : option (string * string) :=
  match s with
  | EmptyString => None
  | String c r =>
      if Ascii.eqb c Json.DQUOTE then Some (EmptyString, r)
      else match until_quote r with
           | Some (text, rest) => Some (String c text, rest)
           | None => None
           end
  end.

End Text.

(** ** The device lists of FFmpeg and pactl ([parseMacOSDevices],
       [parseWindowsDevices], [parseLinuxDevices]) *)

Module DeviceParsers.
Import Devices.

(** [/\[(\d+)\]\s+(.+)$/] at the start of [s]: the value of the digits
    and the text of the second group. White space given back by [\s+]
    goes to the second group, which holds no line terminator. *)
Definition mac_match_here (s : string) : option (Z * string) :=
  match s with
  | String c r =>
      if Ascii.eqb c "[" then
        match Text.digits r with
        | Some (v, String c1 r1) =>
            if Ascii.eqb c1 "]" then
              let '(w, rest) := Text.span_space r1 in
              match w, rest with
              | EmptyString, _ => None
              | _, String _ _ =>
                  if Text.has_line_terminator rest then None else Some (v, rest)
              | String _ (String _ _), EmptyString =>
                  match Text.last_char w with
                  | Some x =>
                      if Text.is_line_terminator x then None
                      else Some (v, String x EmptyString)
                  | None => None
                  end
              | String _ EmptyString, EmptyString => None
              end
            else None
        | _ => None
        end
      else None
  | EmptyString => None
  end.

(** The loop body of [parseMacOSDevices]. *)
Definition mac_line (st : bool * list AudioDevice) (line : string)
  : bool * list AudioDevice :=
  let '(inAudioSection, devices) := st in
  if Str.includes line "AVFoundation audio devices:" then (true, devices)
  else if Str.includes line "AVFoundation video devices:" then (false, devices)
  else if inAudioSection then
    match Text.search mac_match_here line with
    | Some (v, text) => (inAudioSection, devices ++ [mkAudioDevice v (Text.trim text) audio])
    | None => st
    end
  else st.

Definition parseMacOSDevices (output : string) : list AudioDevice :=
  snd (List.fold_left mac_line (Str.split_lines output) (false, [])).

(** A line of [ffmpeg -f avfoundation -list_devices true -i ""] that
    names an audio device: a prefix (the log context), the index in
    square brackets, white space and the name. In an entry of the listing
    the prefix holds no square bracket followed by a digit, the name
    neither starts nor ends with white space, and the line is one line
    that holds neither section header. *)
Fixpoint no_index_mark (s : string) : bool :=
  match s with
  | EmptyString => true
  | String c r => (negb (Ascii.eqb c "[" && Text.starts_digit r) && no_index_mark r)%bool
  end.

Record MacEntry := mkMacEntry {
  entry_device : AudioDevice;
  entry_prefix : string;
  entry_gap : string
}.

Definition avfoundation_line (e : MacEntry) : string :=
  entry_prefix e
  +:+ String "[" (pretty (index (entry_device e))
                  +:+ String "]" (entry_gap e +:+ name (entry_device e))).

Definition avfoundation_entry (e : MacEntry) : Prop :=
  type (entry_device e) = audio /\ 0 <= index (entry_device e)
  /\ Text.ends_token (name (entry_device e)) = false
  /\ Text.trim_end (name (entry_device e)) = name (entry_device e)
  /\ Text.has_line_terminator (name (entry_device e)) = false
  /\ no_index_mark (entry_prefix e) = true
  /\ entry_gap e <> "" /\ Str.all_space (entry_gap e) = true
  /\ Str.occ Str.LF (avfoundation_line e) = O
  /\ Str.includes (avfoundation_line e) "AVFoundation audio devices:" = false
  /\ Str.includes (avfoundation_line e) "AVFoundation video devices:" = false.

(** The regular expression of [parseWindowsDevices] at the start of [s]:
    a double quote, one or more characters that are not double quotes
    (the group), and a double quote. *)
Definition quoted_here (s : string) : option string :=
  match s with
  | String c r =>
      if Ascii.eqb c Json.DQUOTE then
        match Text.until_quote r with
        | Some (String x text, _) => Some (String x text)
        | _ => None
        end
      else None
  | EmptyString => None
  end.

(** The loop body of [parseWindowsDevices]. *)
Definition windows_line (st : bool * Z * list AudioDevice) (line : string)
  : bool * Z * list AudioDevice :=
  let '(inAudioSection, index, devices) := st in
  if Str.includes line "DirectShow audio devices" then (true, index, devices)
  else if Str.includes line "DirectShow video devices" then (false, index, devices)
  else if inAudioSection then
    match Text.search quoted_here line with
    | Some text =>
        if negb (Str.includes line "Alternative name")
        then (inAudioSection, index + 1, devices ++ [mkAudioDevice index text audio])
        else st
    | None => st
    end
  else st.

Definition parseWindowsDevices (output : string) : list AudioDevice :=
  snd (List.fold_left windows_line (Str.split_lines output) (false, 0, [])).

(** The loop body of [parseLinuxDevices]. *)
Definition linux_line (devices : list AudioDevice) (line : string) : list AudioDevice :=
  let parts := Text.split_space (Text.trim line) in
  match List.nth_error parts 0, List.nth_error parts 1 with
  | Some indexStr, Some name =>
      if (negb (String.eqb indexStr "") && negb (String.eqb name ""))%bool
      then match Text.parseInt indexStr with
           | Some index => devices ++ [mkAudioDevice index name audio]
           | None => devices
           end
      else devices
  | _, _ => devices
  end.

Definition parseLinuxDevices (output : string) : list AudioDevice :=
  List.fold_left linux_line (Str.split_lines output) [].

(** Lines joined by line feeds. *)
Fixpoint unlines (lines : list string) : string :=
  match lines with
  | [] => EmptyString
  | [l] => l
  | l :: r => l +:+ String Str.LF (unlines r)
  end.

(** The listing of avfoundation: the lines [before] the header of the
    audio section, the header, and the lines of the audio devices. *)
Definition avfoundation_output (before : list string) (header : string)
    (entries : list MacEntry) : string :=
  unlines (before ++ header :: List.map avfoundation_line entries).

(** A line of [pactl list sources short]: the index, a TAB, the name
    and the other columns [rest]. An entry of the listing is a source
    with a name free of white space, and other columns that are empty or
    start with white space and stay on the line. *)
Definition pactl_line (d : AudioDevice) (rest : string) : string :=
  pretty (index d) +:+ String (ascii_of_nat 9) (name d +:+ rest).

Definition pactl_entry (e : AudioDevice * string) : Prop :=
  type (fst e) = audio /\ 0 <= index (fst e)
  /\ name (fst e) <> "" /\ Text.no_space (name (fst e)) = true
  /\ Text.ends_token (snd e) = true /\ Str.occ Str.LF (snd e) = O.

Definition pactl_output (entries : list (AudioDevice * string)) : string :=
  unlines (List.map (fun e => pactl_line (fst e) (snd e)) entries).

End DeviceParsers.

(** ** Durations and progress ([formatDuration], [handleStderr]) *)

Module Format.

(** [s.padStart(2, "0")] *)
Definition padStart2 (s : string) : string :=
  match String.length s with
  | O => "00"
  | S O => "0" +:+ s
  | _ => s
  end.

(** [formatDuration(ms)] on an integer number of milliseconds:
    [Math.floor] of a quotient is the floored division, [%] the
    remainder with the sign of the dividend. *)
Definition formatDuration (ms : Z) : string :=
  let totalSeconds := ms / 1000 in
  let hours := totalSeconds / 3600 in
  let minutes := Z.rem totalSeconds 3600 / 60 in
  let seconds := Z.rem totalSeconds 60 in
  if Z.ltb 0 hours
  then padStart2 (pretty hours) +:+ ":" +:+ padStart2 (pretty minutes) +:+ ":"
       +:+ padStart2 (pretty seconds)
  else padStart2 (pretty minutes) +:+ ":" +:+ padStart2 (pretty seconds).

(** [/size=\s*(\d+)/] and [/time=(\d+):(\d+):(\d+)/] at the start of [s]. *)
Definition size_here (s : string) : option Z :=
  match Text.after_prefix "size=" s with
  | Some r =>
      match Text.digits (Text.skip_space r) with
      | Some (v, _) => Some v
      | None => None
      end
  | None => None
  end.

Definition colon_digits (s : string) : option (Z * string) :=
  match s with
  | String c r => if Ascii.eqb c ":" then Text.digits r else None
  | EmptyString => None
  end.

Definition time_here (s : string) : option (Z * Z * Z) :=
  match Text.after_prefix "time=" s with
  | Some r =>
      match Text.digits r with
      | Some (h, r1) =>
          match colon_digits r1 with
          | Some (m, r2) =>
              match colon_digits r2 with
              | Some (sec, _) => Some (h, m, sec)
              | None => None
              end
          | None => None
          end
      | None => None
      end
  | None => None
  end.

(** What one chunk of FFmpeg's standard error makes [handleStderr] emit:
    the duration and the size of a progress event. *)
Definition progress_of (text : string) : option (Z * Z) :=
  let sizeMatch := Text.search size_here text in
  let timeMatch := Text.search time_here text in
  match sizeMatch, timeMatch with
  | None, None => None
  | _, _ =>
      let duration :=
        match timeMatch with
        | Some (hours, minutes, seconds) => hours * 3600 + minutes * 60 + seconds
        | None => 0
        end in
      let size :=
        match sizeMatch with
        | Some kb => kb * 1024
        | None => 0
        end in
      Some (duration, size)
  end.

(** The loop of [handleStderr] over the chunks read. *)
Definition handleStderr (chunks : list string) : list AudioRecorder.Effect :=
  List.flat_map
    (fun text =>
       match progress_of text with
       | Some (duration, size) => [AudioRecorder.Emit (AudioRecorder.progress duration size)]
       | None => []
       end) chunks.

End Format.

(** ** Finding the helper binary ([getRecorderPath]) *)

Module RecorderPath.

Section WithFileSystem.

(** [dirname] and [join] of the path module, and [existsSync]. *)
Variable dirname : string -> string.
Variable join : list string -> string.
Variable existsSync : string -> bool.

(** The candidates, in the order they are tried. [arg1] is
    [process.argv[1]], [None] when undefined. *)
Definition possiblePaths (metaPath : string) (arg1 : option string) (cwd : string)
  : list string :=
  let scriptDir := dirname metaPath in
  (match arg1 with
   | Some a =>
       if negb (String.eqb a "")
       then let arg1Dir := dirname a in
            [join [arg1Dir; "recorder"];
             join [arg1Dir; ".."; "dist"; "recorder"];
             join [arg1Dir; ".."; "native"; "recorder"]]
       else []
   | None => []
   end)
  ++ [join [scriptDir; "recorder"];
      join [scriptDir; ".."; ".."; "native"; "recorder"];
      join [scriptDir; ".."; ".."; "dist"; "recorder"];
      join [cwd; "native"; "recorder"];
      join [cwd; "dist"; "recorder"]].

Definition getRecorderPath (metaPath : string) (arg1 : option string) (cwd : string)
  : string :=
  let paths := possiblePaths metaPath arg1 cwd in
  match List.find existsSync paths with
  | Some p => p
  | None =>
      match List.nth_error paths 0 with
      | Some p => p
      | None => "native/recorder"
      end
  end.

End WithFileSystem.

End RecorderPath.

Module Samples.

Definition TAB : string := String (ascii_of_nat 9) EmptyString.

(** What [ffmpeg -list_devices true -f dshow] prints. *)
Definition dshow_listing : string :=
  DeviceParsers.unlines
    [ "[dshow @ 05] DirectShow video devices (some may be both video and audio devices)";
      Str.dq "[dshow @ 05]  'Integrated Camera'";
      Str.dq "[dshow @ 05]     Alternative name '@device_pnp_1'";
      "[dshow @ 05] DirectShow audio devices";
      Str.dq "[dshow @ 05]  'Microphone (Realtek Audio)'";
      Str.dq "[dshow @ 05]     Alternative name '@device_cm_1'";
      Str.dq "[dshow @ 05]  'Stereo Mix (Realtek Audio)'";
      Str.dq "[dshow @ 05]     Alternative name '@device_cm_2'" ].

End Samples.

(** * Part II: theorems *)

(** ** Theorems on device classification *)

Module DevicesFacts.
Import Devices.

Lemma identify_device platform d : device (identify platform d) = d.
Proof.
  unfold identify. destruct platform;
    match goal with |- context [if ?b then _ else _] => destruct b end;
    reflexivity.
Qed.

Lemma identify_isSystemAudio platform d :
  isSystemAudio (identify platform d)
  = existsb (Str.includes (Str.toLowerCase (name d))) (markers platform).
Proof.
  unfold identify. destruct platform; simpl;
    repeat match goal with
           | |- context [Str.includes ?a ?b] => destruct (Str.includes a b)
           end; reflexivity.
Qed.

(** C9. [identifySystemAudioDevices] classifies device by device, keeps
    the order and the device data, and flags a device as system audio
    exactly when its lower-cased name contains one of the platform's
    markers; "BlackHole 2ch" on macOS is system audio and BlackHole,
    "Monitor of Built-in Audio.monitor" on Linux is system audio and a
    monitor, and "MacBook Pro Microphone" is not system audio on any
    platform. *)
Theorem identifySystemAudio_classifies :
  (forall platform devices,
      List.map device (identifySystemAudioDevices platform devices) = devices
      /\ forall i d, nth_error devices i = Some d ->
           exists sd, nth_error (identifySystemAudioDevices platform devices) i = Some sd
             /\ device sd = d
             /\ (isSystemAudio sd = true <->
                 exists m, In m (markers platform)
                   /\ Str.includes (Str.toLowerCase (name d)) m = true))
  /\ (forall i ty,
        identifySystemAudioDevices darwin [mkAudioDevice i "BlackHole 2ch" ty]
        = [mkSystemAudioDevice (mkAudioDevice i "BlackHole 2ch" ty)
             true (Some true) None None])
  /\ (forall i ty,
        identifySystemAudioDevices linux
          [mkAudioDevice i "Monitor of Built-in Audio.monitor" ty]
        = [mkSystemAudioDevice
             (mkAudioDevice i "Monitor of Built-in Audio.monitor" ty)
             true None None (Some true)])
  /\ (forall platform i ty,
        List.map isSystemAudio
          (identifySystemAudioDevices platform
             [mkAudioDevice i "MacBook Pro Microphone" ty]) = [false]).
Proof.
  split; [| split; [| split]].
  - intros platform devices. split.
    + unfold identifySystemAudioDevices. rewrite List.map_map.
      induction devices as [| d ds IH]; simpl; [reflexivity |].
      rewrite identify_device, IH. reflexivity.
    + intros i d Hd. exists (identify platform d).
      split; [| split].
      * unfold identifySystemAudioDevices.
        rewrite nth_error_map, Hd. reflexivity.
      * apply identify_device.
      * rewrite identify_isSystemAudio, existsb_exists. reflexivity.
  - intros i ty. reflexivity.
  - intros i ty. reflexivity.
  - intros [] i ty; reflexivity.
Qed.

End DevicesFacts.

(** ** Theorems on the lifecycle guards *)

Module LifecycleFacts.

Lemma ffmpeg_start_guard (w : AudioRecorder.World) err :
  AudioRecorder.state (AudioRecorder.this w) <> AudioRecorder.idle ->
  AudioRecorder.start err w
  = (Throw (AudioRecorder.CannotStart (AudioRecorder.state (AudioRecorder.this w))), w, []).
Proof.
  intros H. unfold AudioRecorder.start.
  destruct (AudioRecorder.state (AudioRecorder.this w)); simpl; congruence.
Qed.

Lemma ffmpeg_start_idle (w : AudioRecorder.World) err e :
  AudioRecorder.state (AudioRecorder.this w) = AudioRecorder.idle ->
  fst (fst (AudioRecorder.start err w)) = Throw e ->
  AudioRecorder.is_invalid_state e = false.
Proof.
  intros H. unfold AudioRecorder.start. rewrite H. simpl.
  destruct (_ && _)%bool; simpl.
  - intros [= <-]. reflexivity.
  - destruct err; simpl; intros [= <-]; reflexivity.
Qed.

Lemma ffmpeg_stop_guard (w : AudioRecorder.World) :
  AudioRecorder.state (AudioRecorder.this w) <> AudioRecorder.recording ->
  AudioRecorder.state (AudioRecorder.this w) <> AudioRecorder.paused ->
  AudioRecorder.stop w
  = (Throw (AudioRecorder.CannotStop (AudioRecorder.state (AudioRecorder.this w))), w, []).
Proof.
  intros H1 H2. unfold AudioRecorder.stop.
  destruct (AudioRecorder.state (AudioRecorder.this w)); simpl; congruence.
Qed.

Lemma ffmpeg_stop_permitted (w : AudioRecorder.World) e :
  AudioRecorder.state (AudioRecorder.this w) = AudioRecorder.recording
  \/ AudioRecorder.state (AudioRecorder.this w) = AudioRecorder.paused ->
  fst (fst (AudioRecorder.stop w)) <> Throw e.
Proof.
  intros H. unfold AudioRecorder.stop.
  assert (Hg : (negb (AudioRecorder.state_eqb (AudioRecorder.state (AudioRecorder.this w))
                        AudioRecorder.recording)
                && negb (AudioRecorder.state_eqb (AudioRecorder.state (AudioRecorder.this w))
                           AudioRecorder.paused))%bool = false)
    by (destruct H as [-> | ->]; reflexivity).
  rewrite Hg. simpl.
  destruct (AudioRecorder.process (AudioRecorder.this w)); simpl; discriminate.
Qed.

Lemma ffmpeg_pause_guard (w : AudioRecorder.World) :
  AudioRecorder.state (AudioRecorder.this w) <> AudioRecorder.recording ->
  AudioRecorder.pause w
  = (Throw (AudioRecorder.CannotPause (AudioRecorder.state (AudioRecorder.this w))), w, []).
Proof.
  intros H. unfold AudioRecorder.pause.
  destruct (AudioRecorder.state (AudioRecorder.this w)); simpl; congruence.
Qed.

Lemma ffmpeg_pause_permitted (w : AudioRecorder.World) :
  AudioRecorder.state (AudioRecorder.this w) = AudioRecorder.recording ->
  fst (fst (AudioRecorder.pause w)) = Ok tt.
Proof.
  intros H. unfold AudioRecorder.pause. rewrite H. simpl.
  destruct (AudioRecorder.process (AudioRecorder.this w)); [| reflexivity].
  destruct (negb _); reflexivity.
Qed.

Lemma ffmpeg_resume_guard (w : AudioRecorder.World) :
  AudioRecorder.state (AudioRecorder.this w) <> AudioRecorder.paused ->
  AudioRecorder.resume w
  = (Throw (AudioRecorder.CannotResume (AudioRecorder.state (AudioRecorder.this w))), w, []).
Proof.
  intros H. unfold AudioRecorder.resume.
  destruct (AudioRecorder.state (AudioRecorder.this w)); simpl; congruence.
Qed.

Lemma ffmpeg_resume_permitted (w : AudioRecorder.World) :
  AudioRecorder.state (AudioRecorder.this w) = AudioRecorder.paused ->
  fst (fst (AudioRecorder.resume w)) = Ok tt.
Proof.
  intros H. unfold AudioRecorder.resume. rewrite H. simpl.
  destruct (AudioRecorder.process (AudioRecorder.this w)); [| reflexivity].
  destruct (negb _); reflexivity.
Qed.

(** On Windows [pause] and [resume] pass their guard and do nothing. *)
Lemma ffmpeg_pause_resume_win32 (w : AudioRecorder.World) :
  AudioRecorder.platform (AudioRecorder.this w) = Devices.win32 ->
  (AudioRecorder.state (AudioRecorder.this w) = AudioRecorder.recording ->
   AudioRecorder.pause w = (Ok tt, w, []))
  /\ (AudioRecorder.state (AudioRecorder.this w) = AudioRecorder.paused ->
      AudioRecorder.resume w = (Ok tt, w, [])).
Proof.
  intros Hp. split; intros Hs.
  - unfold AudioRecorder.pause. rewrite Hs, Hp. simpl.
    destruct (AudioRecorder.process (AudioRecorder.this w)); reflexivity.
  - unfold AudioRecorder.resume. rewrite Hs, Hp. simpl.
    destruct (AudioRecorder.process (AudioRecorder.this w)); reflexivity.
Qed.

(** Elsewhere, with a subprocess, they switch between the two states. *)
Lemma ffmpeg_pause_resume_unix (w : AudioRecorder.World) p :
  AudioRecorder.platform (AudioRecorder.this w) <> Devices.win32 ->
  AudioRecorder.process (AudioRecorder.this w) = Some p ->
  (AudioRecorder.state (AudioRecorder.this w) = AudioRecorder.recording ->
   AudioRecorder.state (AudioRecorder.this (snd (fst (AudioRecorder.pause w))))
   = AudioRecorder.paused
   /\ snd (AudioRecorder.pause w)
      = [AudioRecorder.Kill p SIGSTOP;
         AudioRecorder.Emit (AudioRecorder.stateChange AudioRecorder.paused)])
  /\ (AudioRecorder.state (AudioRecorder.this w) = AudioRecorder.paused ->
      AudioRecorder.state (AudioRecorder.this (snd (fst (AudioRecorder.resume w))))
      = AudioRecorder.recording
      /\ snd (AudioRecorder.resume w)
         = [AudioRecorder.Kill p SIGCONT;
            AudioRecorder.Emit (AudioRecorder.stateChange AudioRecorder.recording)]).
Proof.
  intros Hp Hq.
  assert (Hw : AudioRecorder.is_win32 (AudioRecorder.platform (AudioRecorder.this w)) = false)
    by (destruct (AudioRecorder.platform (AudioRecorder.this w)); simpl; congruence).
  split; intros Hs.
  - unfold AudioRecorder.pause. rewrite Hs, Hq, Hw. simpl. split; reflexivity.
  - unfold AudioRecorder.resume. rewrite Hs, Hq, Hw. simpl. split; reflexivity.
Qed.

Lemma native_start_guard (w : NativeAudioRecorder.World) path err :
  NativeAudioRecorder.state (NativeAudioRecorder.this w) <> NativeAudioRecorder.idle ->
  NativeAudioRecorder.start path err w
  = (Throw (NativeAudioRecorder.CannotStart
              (NativeAudioRecorder.state (NativeAudioRecorder.this w))), w, []).
Proof.
  intros H. unfold NativeAudioRecorder.start.
  destruct (NativeAudioRecorder.state (NativeAudioRecorder.this w)); simpl; congruence.
Qed.

Lemma native_stop_guard (w : NativeAudioRecorder.World) :
  NativeAudioRecorder.state (NativeAudioRecorder.this w) <> NativeAudioRecorder.recording ->
  NativeAudioRecorder.stop w
  = (Throw (NativeAudioRecorder.CannotStop
              (NativeAudioRecorder.state (NativeAudioRecorder.this w))), w, []).
Proof.
  intros H. unfold NativeAudioRecorder.stop.
  destruct (NativeAudioRecorder.state (NativeAudioRecorder.this w)); simpl; congruence.
Qed.

(** C5. A lifecycle call of the FFmpeg recorder made in a state that does
    not permit it throws the invalid-state error of that call, in the call
    itself, and changes nothing: [start] unless idle, [stop] unless
    recording or paused, [pause] unless recording, [resume] unless paused.
    In a permitted state none of them throws an invalid-state error. On
    Windows [pause] and [resume] pass the guard and do nothing; elsewhere
    they stop and continue the subprocess and switch the state. The native
    recorder guards [start] and [stop] the same way. *)
Theorem lifecycle_calls_check_state :
  forall w : AudioRecorder.World,
    let st := AudioRecorder.state (AudioRecorder.this w) in
    (forall err,
        (st <> AudioRecorder.idle ->
         AudioRecorder.start err w = (Throw (AudioRecorder.CannotStart st), w, [])
         /\ AudioRecorder.is_invalid_state (AudioRecorder.CannotStart st) = true)
        /\ (st = AudioRecorder.idle ->
            forall e, fst (fst (AudioRecorder.start err w)) = Throw e ->
                      AudioRecorder.is_invalid_state e = false))
    /\ ((st <> AudioRecorder.recording /\ st <> AudioRecorder.paused ->
         AudioRecorder.stop w = (Throw (AudioRecorder.CannotStop st), w, [])
         /\ AudioRecorder.is_invalid_state (AudioRecorder.CannotStop st) = true)
        /\ (st = AudioRecorder.recording \/ st = AudioRecorder.paused ->
            forall e, fst (fst (AudioRecorder.stop w)) <> Throw e))
    /\ ((st <> AudioRecorder.recording ->
         AudioRecorder.pause w = (Throw (AudioRecorder.CannotPause st), w, [])
         /\ AudioRecorder.is_invalid_state (AudioRecorder.CannotPause st) = true)
        /\ (st = AudioRecorder.recording ->
            fst (fst (AudioRecorder.pause w)) = Ok tt))
    /\ ((st <> AudioRecorder.paused ->
         AudioRecorder.resume w = (Throw (AudioRecorder.CannotResume st), w, [])
         /\ AudioRecorder.is_invalid_state (AudioRecorder.CannotResume st) = true)
        /\ (st = AudioRecorder.paused ->
            fst (fst (AudioRecorder.resume w)) = Ok tt))
    /\ (AudioRecorder.platform (AudioRecorder.this w) = Devices.win32 ->
        (st = AudioRecorder.recording -> AudioRecorder.pause w = (Ok tt, w, []))
        /\ (st = AudioRecorder.paused -> AudioRecorder.resume w = (Ok tt, w, [])))
    /\ (forall p,
          AudioRecorder.platform (AudioRecorder.this w) <> Devices.win32 ->
          AudioRecorder.process (AudioRecorder.this w) = Some p ->
          (st = AudioRecorder.recording ->
           AudioRecorder.state (AudioRecorder.this (snd (fst (AudioRecorder.pause w))))
           = AudioRecorder.paused
           /\ snd (AudioRecorder.pause w)
              = [AudioRecorder.Kill p SIGSTOP;
                 AudioRecorder.Emit (AudioRecorder.stateChange AudioRecorder.paused)])
          /\ (st = AudioRecorder.paused ->
              AudioRecorder.state (AudioRecorder.this (snd (fst (AudioRecorder.resume w))))
              = AudioRecorder.recording
              /\ snd (AudioRecorder.resume w)
                 = [AudioRecorder.Kill p SIGCONT;
                    AudioRecorder.Emit (AudioRecorder.stateChange AudioRecorder.recording)]))
    /\ (forall (n : NativeAudioRecorder.World) path err,
          (NativeAudioRecorder.state (NativeAudioRecorder.this n) <> NativeAudioRecorder.idle ->
           NativeAudioRecorder.start path err n
           = (Throw (NativeAudioRecorder.CannotStart
                       (NativeAudioRecorder.state (NativeAudioRecorder.this n))), n, []))
          /\ (NativeAudioRecorder.state (NativeAudioRecorder.this n)
              <> NativeAudioRecorder.recording ->
              NativeAudioRecorder.stop n
              = (Throw (NativeAudioRecorder.CannotStop
                          (NativeAudioRecorder.state (NativeAudioRecorder.this n))), n, []))).
Proof.
  intros w st. subst st.
  split; [| split; [| split; [| split; [| split; [| split]]]]].
  - intros err. split.
    + intros H. split; [now apply ffmpeg_start_guard | reflexivity].
    + intros H e. now apply ffmpeg_start_idle.
  - split.
    + intros [H1 H2]. split; [now apply ffmpeg_stop_guard | reflexivity].
    + intros H e. now apply ffmpeg_stop_permitted.
  - split.
    + intros H. split; [now apply ffmpeg_pause_guard | reflexivity].
    + now apply ffmpeg_pause_permitted.
  - split.
    + intros H. split; [now apply ffmpeg_resume_guard | reflexivity].
    + now apply ffmpeg_resume_permitted.
  - now apply ffmpeg_pause_resume_win32.
  - intros p Hp Hq. now apply ffmpeg_pause_resume_unix.
  - intros n path err. split.
    + now apply native_start_guard.
    + now apply native_stop_guard.
Qed.

End LifecycleFacts.

(** ** Theorems on the configuration objects *)

Module ConfigFacts.

(** Reading a property of a spread. *)
Lemma spread_lookup (a b : gmap string Js.value) (k : string) :
  Js.spread a b !! k = match b !! k with
                       | Some v => Some v
                       | None => a !! k
                       end.
Proof.
  unfold Js.spread. rewrite lookup_union.
  destruct (b !! k), (a !! k); reflexivity.
Qed.

Lemma spread_empty (a : gmap string Js.value) : Js.spread a ∅ = a.
Proof. unfold Js.spread. apply (left_id_L ∅ (∪)). Qed.

(** A new object is read back, and sits where no object was. *)
Lemma alloc_deref (o : gmap string Js.value) (h : gmap nat (gmap string Js.value)) :
  Js.deref (snd (Js.alloc o h)) (fst (Js.alloc o h)) = o.
Proof. unfold Js.alloc, Js.deref. simpl. rewrite lookup_insert_eq. reflexivity. Qed.

Lemma alloc_fresh (o : gmap string Js.value) (h : gmap nat (gmap string Js.value)) :
  h !! fst (Js.alloc o h) = None.
Proof.
  unfold Js.alloc. simpl. apply not_elem_of_dom. apply is_fresh.
Qed.

Lemma alloc_keeps (o : gmap string Js.value) (h : gmap nat (gmap string Js.value)) (b : nat) :
  is_Some (h !! b) -> snd (Js.alloc o h) !! b = h !! b.
Proof.
  intros Hb. unfold Js.alloc. simpl. apply lookup_insert_ne.
  intros Heq. pose proof (alloc_fresh o h) as Hf. unfold Js.alloc in Hf. simpl in Hf.
  rewrite Heq in Hf. rewrite Hf in Hb. destruct Hb as [x Hx]. discriminate.
Qed.

Lemma alloc_ne (o : gmap string Js.value) (h : gmap nat (gmap string Js.value)) (b : nat) :
  is_Some (h !! b) -> fst (Js.alloc o h) <> b.
Proof.
  intros Hb Heq. pose proof (alloc_fresh o h) as Hf. rewrite Heq in Hf.
  rewrite Hf in Hb. destruct Hb as [x Hx]. discriminate.
Qed.

Section Native.
Import NativeAudioRecorder.

Lemma native_setConfig_busy (w : World) partial :
  state (this w) <> idle -> setConfig partial w = (Throw CannotUpdateConfig, w, []).
Proof.
  intros H. unfold setConfig. destruct (state (this w)); simpl; congruence.
Qed.

Lemma native_setConfig_idle (w : World) partial :
  state (this w) = idle ->
  fst (fst (setConfig partial w)) = Ok tt
  /\ snd (setConfig partial w) = []
  /\ state (this (snd (fst (setConfig partial w)))) = idle
  /\ forall k, the_config (snd (fst (setConfig partial w))) !! k
               = match partial !! k with
                 | Some v => Some v
                 | None => the_config w !! k
                 end.
Proof.
  intros H. unfold setConfig. rewrite H. cbn [state_eqb negb].
  pose proof (alloc_deref (Js.spread (the_config w) partial) (heap w)) as Hd.
  destruct (Js.alloc (Js.spread (the_config w) partial) (heap w)) as [a h] eqn:Ha.
  simpl in *. repeat split; try assumption.
  intros k. unfold the_config at 1.
  cbn [heap this config set_config set_heap with_this].
  rewrite Hd. apply spread_lookup.
Qed.

Lemma native_getConfig_copy (w : World) :
  is_Some (heap w !! config (this w)) ->
  let a := fst (getConfig w) in
  let w' := snd (getConfig w) in
  a <> config (this w')
  /\ this w' = this w
  /\ Js.deref (heap w') a = the_config w
  /\ the_config w' = the_config w
  /\ forall h', (forall b, b <> a -> h' !! b = heap w' !! b) ->
                the_config (set_heap h' w') = the_config w.
Proof.
  intros Hc. unfold getConfig.
  pose proof (alloc_deref (Js.spread (the_config w) ∅) (heap w)) as Hd.
  pose proof (alloc_keeps (Js.spread (the_config w) ∅) (heap w) _ Hc) as Hk.
  pose proof (alloc_ne (Js.spread (the_config w) ∅) (heap w) _ Hc) as Hn.
  destruct (Js.alloc (Js.spread (the_config w) ∅) (heap w)) as [a h] eqn:Ha.
  simpl in *. rewrite spread_empty in Hd.
  split; [assumption |]. split; [reflexivity |]. split; [assumption |].
  split.
  - unfold the_config, Js.deref. simpl. rewrite Hk. reflexivity.
  - intros h' Hh'. unfold the_config, Js.deref. simpl.
    rewrite Hh' by congruence. rewrite Hk. reflexivity.
Qed.

End Native.

Section Ffmpeg.
Import AudioRecorder.

Lemma ffmpeg_setConfig_busy (w : World) partial :
  state (this w) <> idle -> setConfig partial w = (Throw CannotUpdateConfig, w, []).
Proof.
  intros H. unfold setConfig. destruct (state (this w)); simpl; congruence.
Qed.

Lemma ffmpeg_setConfig_idle (w : World) partial :
  state (this w) = idle ->
  fst (fst (setConfig partial w)) = Ok tt
  /\ snd (setConfig partial w) = []
  /\ state (this (snd (fst (setConfig partial w)))) = idle
  /\ forall k, the_config (snd (fst (setConfig partial w))) !! k
               = match partial !! k with
                 | Some v => Some v
                 | None => the_config w !! k
                 end.
Proof.
  intros H. unfold setConfig. rewrite H. cbn [state_eqb negb].
  pose proof (alloc_deref (Js.spread (the_config w) partial) (heap w)) as Hd.
  destruct (Js.alloc (Js.spread (the_config w) partial) (heap w)) as [a h] eqn:Ha.
  simpl in *. repeat split; try assumption.
  intros k. unfold the_config at 1.
  cbn [heap this config set_config set_heap with_this].
  rewrite Hd. apply spread_lookup.
Qed.

Lemma ffmpeg_getConfig_copy (w : World) :
  is_Some (heap w !! config (this w)) ->
  let a := fst (getConfig w) in
  let w' := snd (getConfig w) in
  a <> config (this w')
  /\ this w' = this w
  /\ Js.deref (heap w') a = the_config w
  /\ the_config w' = the_config w
  /\ forall h', (forall b, b <> a -> h' !! b = heap w' !! b) ->
                the_config (set_heap h' w') = the_config w.
Proof.
  intros Hc. unfold getConfig.
  pose proof (alloc_deref (Js.spread (the_config w) ∅) (heap w)) as Hd.
  pose proof (alloc_keeps (Js.spread (the_config w) ∅) (heap w) _ Hc) as Hk.
  pose proof (alloc_ne (Js.spread (the_config w) ∅) (heap w) _ Hc) as Hn.
  destruct (Js.alloc (Js.spread (the_config w) ∅) (heap w)) as [a h] eqn:Ha.
  simpl in *. rewrite spread_empty in Hd.
  split; [assumption |]. split; [reflexivity |]. split; [assumption |].
  split.
  - unfold the_config, Js.deref. simpl. rewrite Hk. reflexivity.
  - intros h' Hh'. unfold the_config, Js.deref. simpl.
    rewrite Hh' by congruence. rewrite Hk. reflexivity.
Qed.

End Ffmpeg.

(** A property assignment through [a] changes no other object. *)
Lemma assign_other (a b : nat) k v (h : gmap nat (gmap string Js.value)) :
  b <> a -> Js.assign a k v h !! b = h !! b.
Proof. intros Hne. unfold Js.assign. apply lookup_alter_ne. congruence. Qed.

End ConfigFacts.

Module ConfigClaim.

(** C10, as amended. In a state other than idle [setConfig] throws and
    leaves the recorder, its configuration included, as it was. In the idle
    state [setConfig(partial)] returns normally and the stored
    configuration then has, for every key, the value of [partial] when
    [partial] has that key and its previous value otherwise. [getConfig]
    returns a new object with the property values of the stored
    configuration (references included: the copy is shallow), and whatever
    is then assigned to properties of that object (one property or any
    number of them) leaves the stored configuration as it was. This holds
    for both recorder classes, whose configuration object is allocated. *)
Theorem setConfig_getConfig_frame
    (w : AudioRecorder.World) (n : NativeAudioRecorder.World) :
  is_Some (AudioRecorder.heap w !! AudioRecorder.config (AudioRecorder.this w)) ->
  is_Some (NativeAudioRecorder.heap n
             !! NativeAudioRecorder.config (NativeAudioRecorder.this n)) ->
  ((forall partial,
       AudioRecorder.state (AudioRecorder.this w) <> AudioRecorder.idle ->
       AudioRecorder.setConfig partial w
       = (Throw AudioRecorder.CannotUpdateConfig, w, []))
   /\ (forall partial,
         AudioRecorder.state (AudioRecorder.this w) = AudioRecorder.idle ->
         fst (fst (AudioRecorder.setConfig partial w)) = Ok tt
         /\ forall k,
             AudioRecorder.the_config (snd (fst (AudioRecorder.setConfig partial w))) !! k
             = match partial !! k with
               | Some v => Some v
               | None => AudioRecorder.the_config w !! k
               end)
   /\ (let a := fst (AudioRecorder.getConfig w) in
       let w' := snd (AudioRecorder.getConfig w) in
       a <> AudioRecorder.config (AudioRecorder.this w')
       /\ Js.deref (AudioRecorder.heap w') a = AudioRecorder.the_config w
       /\ AudioRecorder.the_config w' = AudioRecorder.the_config w
       /\ (forall k v,
             AudioRecorder.the_config
               (AudioRecorder.set_heap (Js.assign a k v (AudioRecorder.heap w')) w')
             = AudioRecorder.the_config w)
       /\ (forall h',
             (forall b, b <> a -> h' !! b = AudioRecorder.heap w' !! b) ->
             AudioRecorder.the_config (AudioRecorder.set_heap h' w')
             = AudioRecorder.the_config w)))
  /\ ((forall partial,
         NativeAudioRecorder.state (NativeAudioRecorder.this n) <> NativeAudioRecorder.idle ->
         NativeAudioRecorder.setConfig partial n
         = (Throw NativeAudioRecorder.CannotUpdateConfig, n, []))
      /\ (forall partial,
            NativeAudioRecorder.state (NativeAudioRecorder.this n) = NativeAudioRecorder.idle ->
            fst (fst (NativeAudioRecorder.setConfig partial n)) = Ok tt
            /\ forall k,
                NativeAudioRecorder.the_config
                  (snd (fst (NativeAudioRecorder.setConfig partial n))) !! k
                = match partial !! k with
                  | Some v => Some v
                  | None => NativeAudioRecorder.the_config n !! k
                  end)
      /\ (let a := fst (NativeAudioRecorder.getConfig n) in
          let n' := snd (NativeAudioRecorder.getConfig n) in
          a <> NativeAudioRecorder.config (NativeAudioRecorder.this n')
          /\ Js.deref (NativeAudioRecorder.heap n') a = NativeAudioRecorder.the_config n
          /\ NativeAudioRecorder.the_config n' = NativeAudioRecorder.the_config n
          /\ (forall k v,
                NativeAudioRecorder.the_config
                  (NativeAudioRecorder.set_heap
                     (Js.assign a k v (NativeAudioRecorder.heap n')) n')
                = NativeAudioRecorder.the_config n)
          /\ (forall h',
                (forall b, b <> a -> h' !! b = NativeAudioRecorder.heap n' !! b) ->
                NativeAudioRecorder.the_config (NativeAudioRecorder.set_heap h' n')
                = NativeAudioRecorder.the_config n))).
Proof.
  intros Hw Hn. split.
  - split; [| split].
    + intros partial H. now apply ConfigFacts.ffmpeg_setConfig_busy.
    + intros partial H.
      destruct (ConfigFacts.ffmpeg_setConfig_idle w partial H) as (H1 & _ & _ & H4).
      split; assumption.
    + destruct (ConfigFacts.ffmpeg_getConfig_copy w Hw) as (H1 & _ & H3 & H4 & H5).
      cbv zeta. repeat split; try assumption.
      intros k v. apply H5. intros b Hb. now apply ConfigFacts.assign_other.
  - split; [| split].
    + intros partial H. now apply ConfigFacts.native_setConfig_busy.
    + intros partial H.
      destruct (ConfigFacts.native_setConfig_idle n partial H) as (H1 & _ & _ & H4).
      split; assumption.
    + destruct (ConfigFacts.native_getConfig_copy n Hn) as (H1 & _ & H3 & H4 & H5).
      cbv zeta. repeat split; try assumption.
      intros k v. apply H5. intros b Hb. now apply ConfigFacts.assign_other.
Qed.

(** The statement at the two sample recorders: writing an output path
    into the object [getConfig] returned leaves the recorders' own. *)
Lemma setConfig_getConfig_frame_witness :
  is_Some (AudioRecorder.heap Examples.ffmpeg0
             !! AudioRecorder.config (AudioRecorder.this Examples.ffmpeg0))
  /\ is_Some (NativeAudioRecorder.heap Examples.native0
                !! NativeAudioRecorder.config (NativeAudioRecorder.this Examples.native0))
  /\ AudioRecorder.the_config
       (AudioRecorder.set_heap
          (Js.assign (fst (AudioRecorder.getConfig Examples.ffmpeg0)) "outputPath"
             (Js.VStr "/tmp/other.m4a")
             (AudioRecorder.heap (snd (AudioRecorder.getConfig Examples.ffmpeg0))))
          (snd (AudioRecorder.getConfig Examples.ffmpeg0)))
     = AudioRecorder.the_config Examples.ffmpeg0
  /\ NativeAudioRecorder.the_config
       (NativeAudioRecorder.set_heap
          (Js.assign (fst (NativeAudioRecorder.getConfig Examples.native0)) "outputPath"
             (Js.VStr "/tmp/other.m4a")
             (NativeAudioRecorder.heap (snd (NativeAudioRecorder.getConfig Examples.native0))))
          (snd (NativeAudioRecorder.getConfig Examples.native0)))
     = NativeAudioRecorder.the_config Examples.native0.
Proof.
  assert (H1 : is_Some (AudioRecorder.heap Examples.ffmpeg0
             !! AudioRecorder.config (AudioRecorder.this Examples.ffmpeg0)))
    by (eexists; vm_compute; reflexivity).
  assert (H2 : is_Some (NativeAudioRecorder.heap Examples.native0
                !! NativeAudioRecorder.config (NativeAudioRecorder.this Examples.native0)))
    by (eexists; vm_compute; reflexivity).
  split; [exact H1 |]. split; [exact H2 |].
  pose proof (setConfig_getConfig_frame Examples.ffmpeg0 Examples.native0 H1 H2) as H.
  split.
  - apply (proj1 (proj2 (proj2 (proj2 (proj2 (proj2 (proj1 H))))))).
  - apply (proj1 (proj2 (proj2 (proj2 (proj2 (proj2 (proj2 H))))))).
Defined.

(** C10 as stated fails for the FFmpeg recorder, whose configuration
    refers to device objects: the object [getConfig] returns holds the
    same reference to the microphone as the stored configuration, so the
    write [copy.micDevice.index = 7] changes the device the recorder's own
    configuration names, and with it the arguments the next [start] passes
    to ffmpeg. *)
Lemma getConfig_copy_shares_device_objects :
  let a := fst (AudioRecorder.getConfig Examples.ffmpeg0) in
  let w := snd (AudioRecorder.getConfig Examples.ffmpeg0) in
  let w' := AudioRecorder.set_heap
              (Js.assign O "index" (Js.VNum 7) (AudioRecorder.heap w)) w in
  AudioRecorder.state (AudioRecorder.this w) = AudioRecorder.idle
  /\ a <> AudioRecorder.config (AudioRecorder.this w)
  /\ Js.get (Js.deref (AudioRecorder.heap w) a) "micDevice" = Js.VRef O
  /\ Js.get (AudioRecorder.the_config w) "micDevice" = Js.VRef O
  /\ Js.get (AudioRecorder.object_of (AudioRecorder.heap w)
               (Js.get (AudioRecorder.the_config w) "micDevice")) "index" = Js.VNum 0
  /\ Js.get (AudioRecorder.object_of (AudioRecorder.heap w')
               (Js.get (AudioRecorder.the_config w') "micDevice")) "index" = Js.VNum 7
  /\ AudioRecorder.buildFFmpegArgs w
     = ["-y"; "-f"; "avfoundation"; "-i"; ":0"; "-c:a"; "aac"; "-b:a"; "192k";
        "-ar"; "44100"; "-ac"; "2"; "/tmp/meeting.m4a"]
  /\ AudioRecorder.buildFFmpegArgs w'
     = ["-y"; "-f"; "avfoundation"; "-i"; ":7"; "-c:a"; "aac"; "-b:a"; "192k";
        "-ar"; "44100"; "-ac"; "2"; "/tmp/meeting.m4a"].
Proof.
  cbv zeta.
  split; [vm_compute; reflexivity |]. split; [vm_compute; discriminate |].
  repeat split; vm_compute; reflexivity.
Qed.

End ConfigClaim.

(** ** Theorems on elapsed time *)

Module ElapsedFacts.
Import AudioRecorder.

Lemma same_timing_refl w : same_timing w w.
Proof. unfold same_timing. tauto. Qed.

Lemma same_timing_trans w1 w2 w3 :
  same_timing w1 w2 -> same_timing w2 w3 -> same_timing w1 w3.
Proof. unfold same_timing. intuition congruence. Qed.

Lemma same_timing_clock w w' : same_timing w w' -> clock_ok w -> clock_ok w'.
Proof.
  unfold same_timing, clock_ok. intros (-> & -> & -> & -> & ->). tauto.
Qed.

Lemma same_timing_elapsed w w' :
  same_timing w w' -> getElapsedTime w' = getElapsedTime w.
Proof.
  unfold same_timing, getElapsedTime. intros (-> & -> & -> & -> & ->). reflexivity.
Qed.

Lemma resume_stops_timing n w : same_timing w (fst (resume_stops n w)).
Proof.
  revert w. induction n as [| n IH]; intros w; simpl.
  - apply same_timing_refl.
  - destruct (resume_stops n (set_process None w)) as [w2 e2] eqn:E. simpl.
    specialize (IH (set_process None w)). rewrite E in IH. simpl in IH.
    eapply same_timing_trans; [| exact IH].
    unfold same_timing. simpl. tauto.
Qed.

Lemma settle_timing f w : same_timing w (fst (settle f w)).
Proof.
  unfold settle.
  eapply same_timing_trans; [| apply resume_stops_timing].
  unfold same_timing. simpl. tauto.
Qed.

Lemma timer_fire_timing id w : same_timing w (fst (timer_fire id w)).
Proof.
  unfold timer_fire. destruct (existsb _ _); [| apply same_timing_refl].
  match goal with |- context [settle ?f ?x] =>
    pose proof (settle_timing f x) as H; destruct (settle f x) as [w2 e2] end.
  simpl in *. eapply same_timing_trans; [| exact H].
  unfold same_timing. simpl. tauto.
Qed.

Lemma fire_all_timing ids w : same_timing w (fst (fire_all ids w)).
Proof.
  revert w. induction ids as [| id r IH]; intros w; simpl.
  - apply same_timing_refl.
  - pose proof (timer_fire_timing id w) as H1.
    destruct (timer_fire id w) as [w1 e1]. simpl in H1.
    specialize (IH w1). destruct (fire_all r w1) as [w2 e2]. simpl in *.
    eapply same_timing_trans; eassumption.
Qed.

(** A tick moves the clock forward and nothing else of the timing. *)
Lemma tick_timing dt w :
  let w' := fst (tick dt w) in
  state (this w') = state (this w)
  /\ startTime (this w') = startTime (this w)
  /\ pausedDuration (this w') = pausedDuration (this w)
  /\ pauseStartTime (this w') = pauseStartTime (this w)
  /\ now w' = now w + Z.max 0 dt.
Proof.
  unfold tick. cbv zeta.
  match goal with |- context [fire_all ?ids ?x] =>
    pose proof (fire_all_timing ids x) as H end.
  unfold same_timing in H. simpl in H. exact H.
Qed.

Lemma tick_clock dt w : clock_ok w -> clock_ok (fst (tick dt w)).
Proof.
  intros H. pose proof (tick_timing dt w) as (H1 & H2 & H3 & H4 & H5).
  unfold clock_ok in *. rewrite H1, H2, H3, H4, H5.
  destruct (state (this w)); lia.
Qed.

Lemma start_clock err w : clock_ok w -> clock_ok (snd (fst (start err w))).
Proof.
  intros H. unfold start.
  destruct (negb (state_eqb (state (this w)) idle)); [exact H |].
  destruct (_ && _)%bool; [exact H |].
  destruct err; unfold clock_ok; simpl; [exact I | lia].
Qed.

Lemma stop_clock w : clock_ok w -> clock_ok (snd (fst (stop w))).
Proof.
  intros H. unfold stop.
  destruct (state (this w)) eqn:Hs; simpl; try exact H;
    unfold clock_ok in H; rewrite Hs in H;
    destruct (process (this w)) eqn:Hp; unfold clock_ok; simpl; lia.
Qed.

Lemma kill_clock w : clock_ok (fst (kill w)).
Proof.
  unfold kill. destruct (process (this w)); unfold clock_ok; simpl; exact I.
Qed.

Lemma pause_clock w : clock_ok w -> clock_ok (snd (fst (pause w))).
Proof.
  intros H. unfold pause.
  destruct (state (this w)) eqn:Hs; simpl; try exact H.
  destruct (process (this w)); [| exact H].
  destruct (negb _); [| exact H].
  unfold clock_ok in *. rewrite Hs in H. simpl. lia.
Qed.

Lemma resume_clock w : clock_ok w -> clock_ok (snd (fst (resume w))).
Proof.
  intros H. unfold resume.
  destruct (state (this w)) eqn:Hs; simpl; try exact H.
  destruct (process (this w)); [| exact H].
  destruct (negb _); [| exact H].
  unfold clock_ok in *. rewrite Hs in H. simpl. lia.
Qed.

Lemma setConfig_clock partial w : clock_ok w -> clock_ok (snd (fst (setConfig partial w))).
Proof.
  intros H. unfold setConfig.
  destruct (negb _); [exact H |].
  destruct (Js.alloc _ _) as [a h]. exact H.
Qed.

Lemma getConfig_clock w : clock_ok w -> clock_ok (snd (getConfig w)).
Proof.
  intros H. unfold getConfig. destruct (Js.alloc _ _) as [a h]. exact H.
Qed.

Lemma proc_exit_clock p code w : clock_ok (fst (proc_exit p code w)) \/
  (clock_ok w -> clock_ok (fst (proc_exit p code w))).
Proof.
  unfold proc_exit. destruct (existsb _ _).
  - left. unfold on_exited.
    match goal with |- context [settle ?f ?x] =>
      pose proof (settle_timing f x) as H; destruct (settle f x) as [w2 e2] end.
    simpl in *. eapply same_timing_clock; [exact H |].
    unfold clock_ok. simpl. exact I.
  - right. intros Hc.
    match goal with |- context [settle ?f ?x] =>
      pose proof (settle_timing f x) as H; destruct (settle f x) as [w2 e2] end.
    simpl in *. eapply same_timing_clock; eassumption.
Qed.

Lemma step_clock op w : clock_ok w -> clock_ok (fst (step op w)).
Proof.
  intros H. destruct op; simpl.
  - pose proof (start_clock spawn_error w H) as H'.
    destruct (start spawn_error w) as [[o w1] e]. exact H'.
  - pose proof (stop_clock w H) as H'. destruct (stop w) as [[o w1] e]. exact H'.
  - apply kill_clock.
  - pose proof (pause_clock w H) as H'. destruct (pause w) as [[o w1] e]. exact H'.
  - pose proof (resume_clock w H) as H'. destruct (resume w) as [[o w1] e]. exact H'.
  - pose proof (setConfig_clock partial w H) as H'.
    destruct (setConfig partial w) as [[o w1] e]. exact H'.
  - now apply getConfig_clock.
  - now apply tick_clock.
  - destruct (proc_exit_clock p code w) as [H' | H']; auto.
Qed.

Lemma run_clock ops w : clock_ok w -> clock_ok (fst (run ops w)).
Proof.
  revert w. induction ops as [| op r IH]; intros w H; simpl; [exact H |].
  pose proof (step_clock op w H) as H1. destruct (step op w) as [w1 e1].
  specialize (IH w1 H1). destruct (run r w1) as [w2 e2]. exact IH.
Qed.

Lemma new_clock platform cfg h t0 pid0 : clock_ok (new platform cfg h t0 pid0).
Proof. unfold new. destruct (Js.alloc _ _). exact I. Qed.

Lemma reachable_clock w : reachable w -> clock_ok w.
Proof.
  intros (platform & cfg & h & t0 & pid0 & ops & <-).
  apply run_clock, new_clock.
Qed.

Lemma elapsed_nonneg w : clock_ok w -> 0 <= getElapsedTime w.
Proof.
  unfold clock_ok, getElapsedTime. destruct (state (this w)); lia.
Qed.

End ElapsedFacts.

Module NativeElapsedFacts.
Import NativeAudioRecorder.

Lemma native_resume_stops_clock n w : clock_ok w -> clock_ok (fst (resume_stops n w)).
Proof.
  revert w. induction n as [| n IH]; intros w H; simpl; [exact H |].
  specialize (IH (set_process None (set_state idle w)) I).
  destruct (resume_stops n _) as [w2 e2]. exact IH.
Qed.

Lemma native_settle_clock f w : clock_ok w -> clock_ok (fst (settle f w)).
Proof. intros H. unfold settle. apply native_resume_stops_clock. exact H. Qed.

Lemma native_timer_fire_clock id w : clock_ok w -> clock_ok (fst (timer_fire id w)).
Proof.
  intros H. unfold timer_fire. destruct (existsb _ _); [| exact H].
  match goal with |- context [settle ?f ?x] =>
    pose proof (native_settle_clock f x H) as H'; destruct (settle f x) as [w2 e2] end.
  exact H'.
Qed.

Lemma native_fire_all_clock ids w : clock_ok w -> clock_ok (fst (fire_all ids w)).
Proof.
  revert w. induction ids as [| id r IH]; intros w H; simpl; [exact H |].
  pose proof (native_timer_fire_clock id w H) as H1.
  destruct (timer_fire id w) as [w1 e1].
  specialize (IH w1 H1). destruct (fire_all r w1) as [w2 e2]. exact IH.
Qed.

Lemma native_tick_clock dt w : clock_ok w -> clock_ok (fst (tick dt w)).
Proof.
  intros H. unfold tick. cbv zeta. apply native_fire_all_clock.
  unfold clock_ok in *. simpl. destruct (state (this w)); lia.
Qed.

Lemma native_step_clock op w : clock_ok w -> clock_ok (fst (step op w)).
Proof.
  intros H. destruct op; simpl.
  - unfold start. destruct (negb _); [exact H |].
    destruct spawn_error; unfold clock_ok; simpl; [exact I | lia].
  - unfold stop. destruct (state (this w)) eqn:Hs; simpl; try exact H.
    unfold clock_ok in H. rewrite Hs in H.
    destruct (process (this w)); unfold clock_ok; simpl; [exact H | exact I].
  - unfold kill. destruct (process (this w)); exact I.
  - unfold setConfig. destruct (negb _); exact H.
  - exact H.
  - now apply native_tick_clock.
  - unfold proc_exit. destruct (existsb _ _).
    + unfold on_exited. simpl.
      destruct (state_eqb (state (this w)) recording).
      * match goal with |- context [settle ?f ?x] =>
          pose proof (native_settle_clock f x I) as H'; destruct (settle f x) as [w2 e2] end.
        exact H'.
      * match goal with |- context [settle ?f ?x] =>
          pose proof (native_settle_clock f x H) as H'; destruct (settle f x) as [w2 e2] end.
        exact H'.
    + match goal with |- context [settle ?f ?x] =>
        pose proof (native_settle_clock f x H) as H'; destruct (settle f x) as [w2 e2] end.
      exact H'.
Qed.

Lemma native_run_clock ops w : clock_ok w -> clock_ok (fst (run ops w)).
Proof.
  revert w. induction ops as [| op r IH]; intros w H; simpl; [exact H |].
  pose proof (native_step_clock op w H) as H1. destruct (step op w) as [w1 e1].
  specialize (IH w1 H1). destruct (run r w1) as [w2 e2]. exact IH.
Qed.

Lemma native_reachable_clock w : reachable w -> clock_ok w.
Proof.
  intros (cfg & t0 & pid0 & ops & <-). apply native_run_clock.
  unfold new. destruct (Js.alloc _ _). exact I.
Qed.

Lemma native_elapsed_nonneg w : clock_ok w -> 0 <= getElapsedTime w.
Proof.
  unfold clock_ok, getElapsedTime. destruct (state (this w)); lia.
Qed.

End NativeElapsedFacts.

Module ElapsedClaim.
Import AudioRecorder.

Lemma tick_no_timers dt w :
  timers w = [] -> tick dt w = (set_now (now w + Z.max 0 dt) w, []).
Proof. intros H. unfold tick. simpl. rewrite H. reflexivity. Qed.

Lemma paused_frozen dt w :
  state (this w) = paused -> getElapsedTime (fst (tick dt w)) = getElapsedTime w.
Proof.
  intros Hs. pose proof (ElapsedFacts.tick_timing dt w) as (H1 & H2 & H3 & H4 & H5).
  unfold getElapsedTime. rewrite H1, H2, H3, H4, Hs. reflexivity.
Qed.

Lemma resume_keeps_elapsed w :
  state (this w) = paused ->
  getElapsedTime (snd (fst (resume w))) = getElapsedTime w.
Proof.
  intros Hs. unfold resume. rewrite Hs. simpl.
  destruct (process (this w)); [| reflexivity].
  destruct (negb _); [| reflexivity].
  unfold getElapsedTime. rewrite Hs. simpl. lia.
Qed.

Lemma pause_resume_excluded w p dt :
  state (this w) = recording ->
  platform (this w) <> Devices.win32 ->
  process (this w) = Some p ->
  let w1 := snd (fst (pause w)) in
  let w2 := fst (tick dt w1) in
  let w3 := snd (fst (resume w2)) in
  state (this w1) = paused
  /\ getElapsedTime w1 = getElapsedTime w
  /\ getElapsedTime w2 = getElapsedTime w
  /\ getElapsedTime w3 = getElapsedTime w
  /\ (timers w = [] ->
      state (this w3) = recording
      /\ forall dt2, getElapsedTime (fst (tick dt2 w3))
                     = getElapsedTime w + Z.max 0 dt2).
Proof.
  intros Hs Hp Hq.
  assert (Hw : is_win32 (platform (this w)) = false)
    by (destruct (platform (this w)); simpl; congruence).
  assert (E1 : pause w = (Ok tt, set_pauseStartTime (now w) (set_state paused w),
                          [Kill p SIGSTOP; Emit (stateChange paused)])).
  { unfold pause. rewrite Hs, Hq, Hw. reflexivity. }
  rewrite E1. cbn [fst snd].
  set (w1 := set_pauseStartTime (now w) (set_state paused w)).
  assert (Hs1 : state (this w1) = paused) by reflexivity.
  assert (He1 : getElapsedTime w1 = getElapsedTime w).
  { unfold getElapsedTime. rewrite Hs. reflexivity. }
  assert (He2 : getElapsedTime (fst (tick dt w1)) = getElapsedTime w).
  { rewrite paused_frozen by exact Hs1. exact He1. }
  assert (Hs2 : state (this (fst (tick dt w1))) = paused).
  { pose proof (ElapsedFacts.tick_timing dt w1) as (H1 & _). rewrite H1. exact Hs1. }
  cbv zeta. split; [exact Hs1 |]. split; [exact He1 |]. split; [exact He2 |].
  split.
  - rewrite resume_keeps_elapsed by exact Hs2. exact He2.
  - intros Ht.
    assert (Ht1 : timers w1 = []) by exact Ht.
    rewrite (tick_no_timers dt w1 Ht1). cbn [fst].
    set (w2 := set_now (now w1 + Z.max 0 dt) w1).
    assert (E3 : resume w2
                 = (Ok tt,
                    set_state recording
                      (set_pausedDuration
                         (pausedDuration (this w2) + (now w2 - pauseStartTime (this w2))) w2),
                    [Kill p SIGCONT; Emit (stateChange recording)])).
    { unfold resume. cbn [state this w2 w1 set_now set_pauseStartTime set_state with_this
                            state_eqb negb process platform].
      rewrite Hq, Hw. reflexivity. }
    rewrite E3. cbn [fst snd]. split; [reflexivity |].
    intros dt2. rewrite tick_no_timers by exact Ht. cbn [fst].
    unfold getElapsedTime. rewrite Hs. simpl. lia.
Qed.

Lemma paused_frozen_clock_set delta w :
  state (this w) = paused ->
  getElapsedTime (WallClock.ffmpeg_clock_set delta w) = getElapsedTime w.
Proof. intros Hs. unfold getElapsedTime. cbn. rewrite Hs. reflexivity. Qed.

(** A pause, any wait, the clock set by any amount, and a resume. *)
Lemma pause_clock_set_resume w p dt delta :
  state (this w) = recording ->
  platform (this w) <> Devices.win32 ->
  process (this w) = Some p ->
  let w1 := snd (fst (pause w)) in
  let w2 := WallClock.ffmpeg_clock_set delta (fst (tick dt w1)) in
  let w3 := snd (fst (resume w2)) in
  getElapsedTime w2 = getElapsedTime w
  /\ getElapsedTime w3 = getElapsedTime w
  /\ (timers w = [] ->
      state (this w3) = recording
      /\ forall dt2, getElapsedTime (fst (tick dt2 w3)) = getElapsedTime w + Z.max 0 dt2).
Proof.
  intros Hs Hp Hq.
  destruct (pause_resume_excluded w p dt Hs Hp Hq) as (Hs1 & He1 & He2 & _).
  cbv zeta in *.
  set (w1 := snd (fst (pause w))) in *.
  assert (Hs2 : state (this (fst (tick dt w1))) = paused).
  { pose proof (ElapsedFacts.tick_timing dt w1) as (H1 & _). rewrite H1. exact Hs1. }
  set (w2 := WallClock.ffmpeg_clock_set delta (fst (tick dt w1))).
  assert (Hs3 : state (this w2) = paused) by exact Hs2.
  assert (He3 : getElapsedTime w2 = getElapsedTime w).
  { unfold w2. rewrite paused_frozen_clock_set by exact Hs2. exact He2. }
  split; [exact He3 |]. split.
  - rewrite resume_keeps_elapsed by exact Hs3. exact He3.
  - intros Ht.
    assert (Hw : is_win32 (platform (this w)) = false)
      by (destruct (platform (this w)); simpl; congruence).
    assert (E1 : pause w = (Ok tt, set_pauseStartTime (now w) (set_state paused w),
                            [Kill p SIGSTOP; Emit (stateChange paused)])).
    { unfold pause. rewrite Hs, Hq, Hw. reflexivity. }
    assert (Ew1 : w1 = set_pauseStartTime (now w) (set_state paused w))
      by (unfold w1; rewrite E1; reflexivity).
    assert (Ht1 : timers w1 = []) by (rewrite Ew1; exact Ht).
    assert (Ew2 : w2 = set_timers [] (set_now (now w1 + Z.max 0 dt + delta)
                                        (set_now (now w1 + Z.max 0 dt) w1))).
    { unfold w2. rewrite (tick_no_timers dt w1 Ht1). cbn [fst].
      unfold WallClock.ffmpeg_clock_set. cbn [timers set_now now]. rewrite Ht1. reflexivity. }
    assert (E3 : resume w2
                 = (Ok tt,
                    set_state recording
                      (set_pausedDuration
                         (pausedDuration (this w2) + (now w2 - pauseStartTime (this w2))) w2),
                    [Kill p SIGCONT; Emit (stateChange recording)])).
    { unfold resume. rewrite Hs3. cbn [state_eqb negb].
      assert (Hq2 : process (this w2) = Some p) by (rewrite Ew2, Ew1; exact Hq).
      assert (Hw2 : is_win32 (platform (this w2)) = false) by (rewrite Ew2, Ew1; exact Hw).
      rewrite Hq2, Hw2. reflexivity. }
    rewrite E3. cbn [fst snd]. split; [reflexivity |].
    intros dt2. rewrite tick_no_timers by (rewrite Ew2; reflexivity). cbn [fst].
    rewrite Ew2, Ew1. unfold getElapsedTime. rewrite Hs. simpl. lia.
Qed.

(** A [pause] followed at once by [resume], on every platform and with
    or without a subprocess: where [pause] does nothing, [resume] throws
    and changes nothing. *)
Lemma pause_resume_at_once w :
  state (this w) = recording ->
  getElapsedTime (snd (fst (resume (snd (fst (pause w)))))) = getElapsedTime w.
Proof.
  intros Hs. unfold pause. rewrite Hs. cbn [state_eqb negb].
  destruct (process (this w)) as [p |] eqn:Hp.
  - destruct (negb (is_win32 (platform (this w)))) eqn:Hw; cbn [fst snd].
    + rewrite resume_keeps_elapsed by reflexivity.
      unfold getElapsedTime. rewrite Hs. reflexivity.
    + unfold resume. rewrite Hs. reflexivity.
  - cbn [fst snd]. unfold resume. rewrite Hs. reflexivity.
Qed.

(** With the clock only going forward the timing fields stay ordered. *)
Lemma clock_set_forward_clock delta w :
  0 <= delta -> clock_ok w -> clock_ok (WallClock.ffmpeg_clock_set delta w).
Proof.
  intros Hd. unfold clock_ok. cbn. destruct (state (this w)); lia.
Qed.

Lemma turns_forward_clock ts : forall w,
  forallb WallClock.forward ts = true -> clock_ok w -> clock_ok (WallClock.ffmpeg_turns ts w).
Proof.
  induction ts as [| t r IH]; intros w Hf Hc; [exact Hc |].
  cbn [forallb] in Hf. apply andb_prop in Hf as [Ht Hr].
  destruct t as [op | delta]; cbn [WallClock.ffmpeg_turns].
  - apply IH; [exact Hr | now apply ElapsedFacts.step_clock].
  - apply IH; [exact Hr |]. apply clock_set_forward_clock; [| exact Hc].
    cbn in Ht. now apply Z.leb_le.
Qed.

Lemma native_clock_set_forward_clock delta w :
  0 <= delta -> NativeAudioRecorder.clock_ok w ->
  NativeAudioRecorder.clock_ok (WallClock.native_clock_set delta w).
Proof.
  intros Hd. unfold NativeAudioRecorder.clock_ok. cbn.
  destruct (NativeAudioRecorder.state (NativeAudioRecorder.this w)); lia.
Qed.

Lemma native_turns_forward_clock ts : forall w,
  forallb WallClock.forward ts = true -> NativeAudioRecorder.clock_ok w ->
  NativeAudioRecorder.clock_ok (WallClock.native_turns ts w).
Proof.
  induction ts as [| t r IH]; intros w Hf Hc; [exact Hc |].
  cbn [forallb] in Hf. apply andb_prop in Hf as [Ht Hr].
  destruct t as [op | delta]; cbn [WallClock.native_turns].
  - apply IH; [exact Hr | now apply NativeElapsedFacts.native_step_clock].
  - apply IH; [exact Hr |]. apply native_clock_set_forward_clock; [| exact Hc].
    cbn in Ht. now apply Z.leb_le.
Qed.

(** C4, as amended. For a recorder after any turns of its life, calls,
    events of the runtime and settings of the wall clock alike: while
    recording the elapsed time is now - startTime - pausedDuration, now
    being the wall clock; while paused it is
    pauseStartTime - startTime - pausedDuration and does not move, neither
    with time passing nor with the clock being set; as long as the clock
    has not been set back it is not negative, now or after any further
    turns that do not set it back; a [pause] followed at once by [resume]
    leaves the elapsed time as it was; and where [pause] takes effect
    (not on win32, a subprocess held) a [pause] followed after any wait,
    and whatever the clock was set by in between, by [resume] leaves the
    elapsed time at its value before the pause, from which it goes on
    counting. The native recorder, which has no pause, reports
    now - startTime outside the idle state, not negative under the same
    condition. *)
Theorem elapsed_time_accounting
    (ts : list (WallClock.Turn Op)) (w : World)
    (nts : list (WallClock.Turn NativeAudioRecorder.Op)) (n : NativeAudioRecorder.World) :
  WallClock.ffmpeg_reached ts w ->
  WallClock.native_reached nts n ->
  (state (this w) = recording ->
   getElapsedTime w = now w - startTime (this w) - pausedDuration (this w))
  /\ (state (this w) = paused ->
      getElapsedTime w
      = pauseStartTime (this w) - startTime (this w) - pausedDuration (this w)
      /\ (forall dt, getElapsedTime (fst (tick dt w)) = getElapsedTime w)
      /\ (forall delta, getElapsedTime (WallClock.ffmpeg_clock_set delta w) = getElapsedTime w))
  /\ (forallb WallClock.forward ts = true ->
      0 <= getElapsedTime w
      /\ forall more, forallb WallClock.forward more = true ->
                      0 <= getElapsedTime (WallClock.ffmpeg_turns more w))
  /\ (state (this w) = recording ->
      getElapsedTime (snd (fst (resume (snd (fst (pause w)))))) = getElapsedTime w)
  /\ (forall p dt delta,
        state (this w) = recording ->
        platform (this w) <> Devices.win32 ->
        process (this w) = Some p ->
        let w1 := snd (fst (pause w)) in
        let w2 := WallClock.ffmpeg_clock_set delta (fst (tick dt w1)) in
        let w3 := snd (fst (resume w2)) in
        state (this w1) = paused
        /\ getElapsedTime w1 = getElapsedTime w
        /\ getElapsedTime w2 = getElapsedTime w
        /\ getElapsedTime w3 = getElapsedTime w
        /\ (timers w = [] ->
            state (this w3) = recording
            /\ forall dt2, getElapsedTime (fst (tick dt2 w3))
                           = getElapsedTime w + Z.max 0 dt2))
  /\ (NativeAudioRecorder.state (NativeAudioRecorder.this n) <> NativeAudioRecorder.idle ->
      NativeAudioRecorder.getElapsedTime n
      = NativeAudioRecorder.now n - NativeAudioRecorder.startTime (NativeAudioRecorder.this n))
  /\ (forallb WallClock.forward nts = true ->
      0 <= NativeAudioRecorder.getElapsedTime n
      /\ forall more, forallb WallClock.forward more = true ->
                      0 <= NativeAudioRecorder.getElapsedTime (WallClock.native_turns more n)).
Proof.
  intros (platform & cfg & h & t0 & pid0 & Hw) (ncfg & nt0 & npid0 & Hn).
  split; [| split; [| split; [| split; [| split; [| split]]]]].
  - intros Hs. unfold getElapsedTime. rewrite Hs. reflexivity.
  - intros Hs. split; [| split].
    + unfold getElapsedTime. rewrite Hs. reflexivity.
    + intros dt. now apply paused_frozen.
    + intros delta. now apply paused_frozen_clock_set.
  - intros Hf.
    assert (Hc : clock_ok w)
      by (rewrite <- Hw; apply turns_forward_clock; [exact Hf | apply ElapsedFacts.new_clock]).
    split; [now apply ElapsedFacts.elapsed_nonneg |].
    intros more Hm. apply ElapsedFacts.elapsed_nonneg. now apply turns_forward_clock.
  - intros Hs. now apply pause_resume_at_once.
  - intros p dt delta Hs Hp Hq.
    destruct (pause_resume_excluded w p dt Hs Hp Hq) as (H1 & H2 & _).
    destruct (pause_clock_set_resume w p dt delta Hs Hp Hq) as (H3 & H4 & H5).
    cbv zeta in *. repeat split; try assumption; now apply H5.
  - intros Hs. unfold NativeAudioRecorder.getElapsedTime.
    destruct (NativeAudioRecorder.state (NativeAudioRecorder.this n));
      [congruence | reflexivity | reflexivity].
  - intros Hf.
    assert (Hc : NativeAudioRecorder.clock_ok n).
    { rewrite <- Hn. apply native_turns_forward_clock; [exact Hf |].
      unfold NativeAudioRecorder.new. destruct (Js.alloc _ _). exact I. }
    split; [now apply NativeElapsedFacts.native_elapsed_nonneg |].
    intros more Hm. apply NativeElapsedFacts.native_elapsed_nonneg.
    now apply native_turns_forward_clock.
Qed.

(** The statement at a recorder that was started and recorded 250 ms,
    the clock then being set forward by an hour: paused for 4 s, with
    the clock set back by two hours in between, and resumed, 250 ms and
    the hour have elapsed. *)
Lemma elapsed_time_accounting_witness :
  WallClock.ffmpeg_reached
    [WallClock.Of (CallStart None); WallClock.Of (Tick 250); WallClock.ClockSet 3600000]
    (WallClock.ffmpeg_turns
       [WallClock.Of (CallStart None); WallClock.Of (Tick 250); WallClock.ClockSet 3600000]
       Examples.ffmpeg0)
  /\ WallClock.native_reached [] Examples.native0
  /\ getElapsedTime
       (WallClock.ffmpeg_turns
          [WallClock.Of (CallStart None); WallClock.Of (Tick 250); WallClock.ClockSet 3600000;
           WallClock.Of CallPause; WallClock.Of (Tick 4000); WallClock.ClockSet (-7200000);
           WallClock.Of CallResume]
          Examples.ffmpeg0) = 3600250.
Proof.
  set (ts := [WallClock.Of (CallStart None); WallClock.Of (Tick 250);
              WallClock.ClockSet 3600000]).
  assert (Hr : WallClock.ffmpeg_reached ts (WallClock.ffmpeg_turns ts Examples.ffmpeg0)).
  { exists Devices.darwin,
      ({[ "micDevice" := Js.VRef 0; "outputPath" := Js.VStr "/tmp/meeting.m4a" ]}),
      ({[ O := Examples.mic_object ]}), 1000, O.
    reflexivity. }
  assert (Hn : WallClock.native_reached [] Examples.native0).
  { exists ({[ "outputPath" := Js.VStr "/tmp/meeting.m4a"; "recordMic" := Js.VBool true;
               "recordSystem" := Js.VBool true ]}), 1000, O.
    reflexivity. }
  split; [exact Hr |]. split; [exact Hn |].
  pose proof (elapsed_time_accounting _ _ _ _ Hr Hn) as (_ & _ & _ & _ & H & _).
  specialize (H O 4000 (-7200000)).
  assert (H1 : state (this (WallClock.ffmpeg_turns ts Examples.ffmpeg0)) = recording)
    by (vm_compute; reflexivity).
  assert (H2 : platform (this (WallClock.ffmpeg_turns ts Examples.ffmpeg0)) <> Devices.win32)
    by (vm_compute; discriminate).
  assert (H3 : process (this (WallClock.ffmpeg_turns ts Examples.ffmpeg0)) = Some O)
    by (vm_compute; reflexivity).
  destruct (H H1 H2 H3) as (_ & _ & _ & H4 & _).
  transitivity (getElapsedTime (WallClock.ffmpeg_turns ts Examples.ffmpeg0)).
  - rewrite <- H4. vm_compute. reflexivity.
  - vm_compute. reflexivity.
Defined.

(** C4 as stated fails when the wall clock is set back: a recorder of
    either class that has recorded for two seconds reports -8000 ms
    after the clock was set back by ten seconds. *)
Lemma elapsed_time_negative_after_clock_set_back :
  let w := WallClock.ffmpeg_turns
             [WallClock.Of (CallStart None); WallClock.Of (Tick 2000);
              WallClock.ClockSet (-10000)] Examples.ffmpeg0 in
  let n := WallClock.native_turns
             [WallClock.Of (NativeAudioRecorder.CallStart "recorder" None);
              WallClock.Of (NativeAudioRecorder.Tick 2000);
              WallClock.ClockSet (-10000)] Examples.native0 in
  state (this w) = recording
  /\ getElapsedTime w = -8000
  /\ NativeAudioRecorder.state (NativeAudioRecorder.this n) = NativeAudioRecorder.recording
  /\ NativeAudioRecorder.getElapsedTime n = -8000.
Proof. cbv zeta. repeat split; vm_compute; reflexivity. Qed.

End ElapsedClaim.

(** ** Theorems on the unexpected exit of the subprocess *)

Module ExitFacts.

Lemma native_resume_stops_effects k w :
  NativeAudioRecorder.state (NativeAudioRecorder.this w) = NativeAudioRecorder.idle ->
  NativeAudioRecorder.state
    (NativeAudioRecorder.this (fst (NativeAudioRecorder.resume_stops k w)))
  = NativeAudioRecorder.idle
  /\ snd (NativeAudioRecorder.resume_stops k w)
     = List.repeat
         (NativeAudioRecorder.Emit (NativeAudioRecorder.stateChange NativeAudioRecorder.idle)) k.
Proof.
  revert w. induction k as [| k IH]; intros w H; simpl; [split; [exact H | reflexivity] |].
  specialize (IH (NativeAudioRecorder.set_process None
                    (NativeAudioRecorder.set_state NativeAudioRecorder.idle w)) eq_refl).
  destruct (NativeAudioRecorder.resume_stops k _) as [w2 e2]. simpl in *.
  destruct IH as [H1 H2]. split; [exact H1 | rewrite H2; reflexivity].
Qed.

Lemma ffmpeg_resume_stops_effects k w :
  AudioRecorder.state (AudioRecorder.this (fst (AudioRecorder.resume_stops k w)))
  = AudioRecorder.state (AudioRecorder.this w)
  /\ snd (AudioRecorder.resume_stops k w) = [].
Proof.
  revert w. induction k as [| k IH]; intros w; simpl; [split; reflexivity |].
  specialize (IH (AudioRecorder.set_process None w)).
  destruct (AudioRecorder.resume_stops k _) as [w2 e2]. simpl in *.
  destruct IH as [H1 H2]. split; [exact H1 | exact H2].
Qed.

Lemma existsb_eqb_In p l : In p l -> existsb (Nat.eqb p) l = true.
Proof.
  intros H. apply existsb_exists. exists p. split; [exact H | apply Nat.eqb_refl].
Qed.

(** The native recorder: the exit handler, then the stale [stop] calls. *)
Lemma native_exit_while_recording w p code :
  NativeAudioRecorder.state (NativeAudioRecorder.this w) = NativeAudioRecorder.recording ->
  In p (NativeAudioRecorder.exit_handlers w) ->
  let k := List.length (List.filter (fun x => Nat.eqb (snd x) p)
                          (NativeAudioRecorder.awaiting w)) in
  NativeAudioRecorder.state
    (NativeAudioRecorder.this (fst (NativeAudioRecorder.proc_exit p code w)))
  = NativeAudioRecorder.idle
  /\ snd (NativeAudioRecorder.proc_exit p code w)
     = List.repeat
         (NativeAudioRecorder.Emit (NativeAudioRecorder.stateChange NativeAudioRecorder.idle))
         (S k).
Proof.
  intros Hs Hp k. unfold NativeAudioRecorder.proc_exit.
  rewrite (existsb_eqb_In _ _ Hp). unfold NativeAudioRecorder.on_exited.
  cbn [NativeAudioRecorder.state NativeAudioRecorder.this
       NativeAudioRecorder.set_exit_handlers].
  rewrite Hs. cbn [NativeAudioRecorder.state_eqb].
  unfold NativeAudioRecorder.settle.
  match goal with |- context [NativeAudioRecorder.resume_stops ?a ?b] =>
    pose proof (native_resume_stops_effects a b eq_refl) as [H1 H2];
    destruct (NativeAudioRecorder.resume_stops a b) as [w2 e2] end.
  simpl in *. split; [exact H1 |]. rewrite H2. reflexivity.
Qed.

(** The FFmpeg recorder: its handler does not look at the state. *)
Lemma ffmpeg_exit w p code :
  In p (AudioRecorder.exit_handlers w) ->
  AudioRecorder.state (AudioRecorder.this (fst (AudioRecorder.proc_exit p code w)))
  = AudioRecorder.idle
  /\ snd (AudioRecorder.proc_exit p code w)
     = (if Z.eqb code 0
        then [AudioRecorder.Emit
                (AudioRecorder.finished
                   (Js.get (AudioRecorder.the_config w) "outputPath")
                   (AudioRecorder.getElapsedTime w))]
        else [])
       ++ [AudioRecorder.Emit (AudioRecorder.stateChange AudioRecorder.idle)].
Proof.
  intros Hp. unfold AudioRecorder.proc_exit.
  rewrite (existsb_eqb_In _ _ Hp). unfold AudioRecorder.on_exited.
  unfold AudioRecorder.settle.
  match goal with |- context [AudioRecorder.resume_stops ?a ?b] =>
    pose proof (ffmpeg_resume_stops_effects a b) as [H1 H2];
    destruct (AudioRecorder.resume_stops a b) as [w2 e2] end.
  simpl in *. split; [exact H1 |]. rewrite H2, app_nil_r. reflexivity.
Qed.

(** [start] attaches the exit handler to the process it spawned. *)
Lemma native_start_attaches w path :
  NativeAudioRecorder.state (NativeAudioRecorder.this w) = NativeAudioRecorder.idle ->
  let w' := snd (fst (NativeAudioRecorder.start path None w)) in
  NativeAudioRecorder.state (NativeAudioRecorder.this w') = NativeAudioRecorder.recording
  /\ NativeAudioRecorder.process (NativeAudioRecorder.this w')
     = Some (NativeAudioRecorder.next_pid w)
  /\ In (NativeAudioRecorder.next_pid w) (NativeAudioRecorder.exit_handlers w').
Proof.
  intros Hs. unfold NativeAudioRecorder.start. rewrite Hs. simpl.
  repeat split. apply in_or_app. right. left. reflexivity.
Qed.

End ExitFacts.

Module ExitClaim.

(** C3, as amended. When the subprocess of a recorder in the recording
    state exits, the exit handler that [start] attached sets the state to
    idle and tells the listeners so with a [stateChange] event. Nothing
    else happens: the native recorder emits only [stateChange(idle)]
    events (one for the handler, one more per [stop] call still waiting on
    that process), the FFmpeg recorder emits [finished] first when the
    exit code is 0; neither emits an [error] event, spawns a process or
    sends a signal, so no merge is attempted. *)
Theorem unexpected_exit_goes_idle
    (n : NativeAudioRecorder.World) (w : AudioRecorder.World)
    (p q : nat) (code : Z) :
  NativeAudioRecorder.state (NativeAudioRecorder.this n) = NativeAudioRecorder.recording ->
  In p (NativeAudioRecorder.exit_handlers n) ->
  AudioRecorder.state (AudioRecorder.this w) = AudioRecorder.recording ->
  In q (AudioRecorder.exit_handlers w) ->
  (NativeAudioRecorder.state
     (NativeAudioRecorder.this (fst (NativeAudioRecorder.proc_exit p code n)))
   = NativeAudioRecorder.idle
   /\ In (NativeAudioRecorder.Emit (NativeAudioRecorder.stateChange NativeAudioRecorder.idle))
         (snd (NativeAudioRecorder.proc_exit p code n))
   /\ (forall x, In x (snd (NativeAudioRecorder.proc_exit p code n)) ->
                 x = NativeAudioRecorder.Emit
                       (NativeAudioRecorder.stateChange NativeAudioRecorder.idle)))
  /\ (AudioRecorder.state (AudioRecorder.this (fst (AudioRecorder.proc_exit q code w)))
      = AudioRecorder.idle
      /\ snd (AudioRecorder.proc_exit q code w)
         = (if Z.eqb code 0
            then [AudioRecorder.Emit
                    (AudioRecorder.finished
                       (Js.get (AudioRecorder.the_config w) "outputPath")
                       (AudioRecorder.getElapsedTime w))]
            else [])
           ++ [AudioRecorder.Emit (AudioRecorder.stateChange AudioRecorder.idle)]).
Proof.
  intros Hn Hp Hw Hq. split.
  - destruct (ExitFacts.native_exit_while_recording n p code Hn Hp) as [H1 H2].
    split; [exact H1 |]. rewrite H2. split.
    + left. reflexivity.
    + intros x Hx. apply repeat_spec in Hx. exact Hx.
  - exact (ExitFacts.ffmpeg_exit w q code Hq).
Qed.

(** The statement at the two sample recorders, started, whose process
    exits with status 1 after three seconds. *)
Lemma unexpected_exit_goes_idle_witness :
  snd (NativeAudioRecorder.proc_exit O 1
         (fst (NativeAudioRecorder.run
                 [NativeAudioRecorder.CallStart "recorder" None; NativeAudioRecorder.Tick 3000]
                 Examples.native0)))
  = [NativeAudioRecorder.Emit (NativeAudioRecorder.stateChange NativeAudioRecorder.idle)]
  /\ snd (AudioRecorder.proc_exit O 1
            (fst (AudioRecorder.run [AudioRecorder.CallStart None; AudioRecorder.Tick 3000]
                    Examples.ffmpeg0)))
     = [AudioRecorder.Emit (AudioRecorder.stateChange AudioRecorder.idle)].
Proof.
  pose proof (unexpected_exit_goes_idle
                (fst (NativeAudioRecorder.run
                        [NativeAudioRecorder.CallStart "recorder" None;
                         NativeAudioRecorder.Tick 3000] Examples.native0))
                (fst (AudioRecorder.run [AudioRecorder.CallStart None; AudioRecorder.Tick 3000]
                        Examples.ffmpeg0))
                O O 1) as H.
  assert (H1 : NativeAudioRecorder.state
                 (NativeAudioRecorder.this
                    (fst (NativeAudioRecorder.run
                            [NativeAudioRecorder.CallStart "recorder" None;
                             NativeAudioRecorder.Tick 3000] Examples.native0)))
               = NativeAudioRecorder.recording) by (vm_compute; reflexivity).
  assert (H2 : In O (NativeAudioRecorder.exit_handlers
                       (fst (NativeAudioRecorder.run
                               [NativeAudioRecorder.CallStart "recorder" None;
                                NativeAudioRecorder.Tick 3000] Examples.native0))))
    by (vm_compute; left; reflexivity).
  assert (H3 : AudioRecorder.state
                 (AudioRecorder.this
                    (fst (AudioRecorder.run
                            [AudioRecorder.CallStart None; AudioRecorder.Tick 3000]
                            Examples.ffmpeg0)))
               = AudioRecorder.recording) by (vm_compute; reflexivity).
  assert (H4 : In O (AudioRecorder.exit_handlers
                       (fst (AudioRecorder.run
                               [AudioRecorder.CallStart None; AudioRecorder.Tick 3000]
                               Examples.ffmpeg0))))
    by (vm_compute; left; reflexivity).
  destruct (H H1 H2 H3 H4) as [_ [_ H5]].
  split; [vm_compute; reflexivity | exact H5].
Defined.

(** C3 as stated fails: the process of a recording native recorder exits
    with status 1; the state goes to idle, and the one event emitted is
    [stateChange(idle)], so no [error] event reaches the listeners. The
    FFmpeg recorder does the same. *)
Lemma unexpected_exit_emits_no_error :
  let n := fst (NativeAudioRecorder.run
                  [NativeAudioRecorder.CallStart "recorder" None;
                   NativeAudioRecorder.Tick 3000] Examples.native0) in
  let w := fst (AudioRecorder.run [AudioRecorder.CallStart None; AudioRecorder.Tick 3000]
                  Examples.ffmpeg0) in
  NativeAudioRecorder.state (NativeAudioRecorder.this n) = NativeAudioRecorder.recording
  /\ NativeAudioRecorder.process (NativeAudioRecorder.this n) = Some O
  /\ NativeAudioRecorder.state
       (NativeAudioRecorder.this (fst (NativeAudioRecorder.proc_exit O 1 n)))
     = NativeAudioRecorder.idle
  /\ ~ (exists e, In (NativeAudioRecorder.Emit (NativeAudioRecorder.error e))
                     (snd (NativeAudioRecorder.proc_exit O 1 n)))
  /\ AudioRecorder.state (AudioRecorder.this w) = AudioRecorder.recording
  /\ ~ (exists e, In (AudioRecorder.Emit (AudioRecorder.error e))
                     (snd (AudioRecorder.proc_exit O 1 w))).
Proof.
  cbv zeta. split; [vm_compute; reflexivity |]. split; [vm_compute; reflexivity |].
  split; [vm_compute; reflexivity |]. split; [| split; [vm_compute; reflexivity |]].
  - intros [e He]. vm_compute in He. destruct He as [He | []]. discriminate.
  - intros [e He]. vm_compute in He. destruct He as [He | []]. discriminate.
Qed.

End ExitClaim.

(** ** Theorems on the graceful stop *)

Module StopFacts.

Section Native.
Import NativeAudioRecorder.

Lemma native_stop_sends_sigint w p :
  no_stale_timer w p ->
  exists w1,
    stop w = (Pending, w1,
              [Emit (stateChange stopping); Kill p SIGINT; SetTimeout (next_timer w) 5000])
    /\ state (this w1) = stopping
    /\ process (this w1) = Some p
    /\ now w1 = now w
    /\ timers w1 = [(next_timer w, now w + 5000)]
    /\ awaiting w1 = [(next_timer w, p)]
    /\ exit_handlers w1 = exit_handlers w.
Proof.
  intros (Hs & Hp & Ht & Ha). unfold stop. rewrite Hs.
  cbn [state_eqb negb]. cbn [process this set_state with_this]. rewrite Hp.
  eexists. split; [reflexivity |]. simpl. rewrite Ht, Ha.
  repeat split; first [assumption | reflexivity].
Qed.

(** Before the five seconds are over nothing fires. *)
Lemma native_tick_early w1 id dt :
  timers w1 = [(id, now w1 + 5000)] -> dt < 5000 ->
  tick dt w1 = (set_now (now w1 + Z.max 0 dt) w1, []).
Proof.
  intros Ht Hdt. unfold tick. cbn [timers set_now now]. rewrite Ht. simpl.
  destruct (Z.leb_spec (now w1 + 5000) (now w1 + Z.max 0 dt)); [lia | reflexivity].
Qed.

(** At five seconds the timer fires on the process still held. *)
Lemma native_tick_late w1 id p dt :
  timers w1 = [(id, now w1 + 5000)] -> awaiting w1 = [(id, p)] ->
  process (this w1) = Some p -> 5000 <= dt ->
  snd (tick dt w1) = [Kill p SIGKILL; Emit (stateChange idle)]
  /\ state (this (fst (tick dt w1))) = idle
  /\ process (this (fst (tick dt w1))) = None.
Proof.
  destruct w1 as [[st pr cf t0] h nw np nt eh aw tm]. cbn.
  intros -> -> -> Hdt. unfold tick. cbn.
  destruct (Z.leb_spec (nw + 5000) (nw + Z.max 0 dt)); [| lia].
  cbn. unfold timer_fire, settle. cbn. rewrite Nat.eqb_refl. cbn.
  repeat split.
Qed.

(** When the process exits first, [stop] completes, and the timer later
    finds no process to kill. *)
Lemma native_exit_then_timer w1 id p code dt :
  state (this w1) = stopping ->
  timers w1 = [(id, now w1 + 5000)] -> awaiting w1 = [(id, p)] ->
  let w2 := fst (proc_exit p code w1) in
  kills (snd (proc_exit p code w1)) = []
  /\ state (this w2) = idle
  /\ process (this w2) = None
  /\ kills (snd (tick dt w2)) = [].
Proof.
  destruct w1 as [[st pr cf t0] h nw np nt eh aw tm]. cbn.
  intros -> -> ->. unfold proc_exit. cbn.
  destruct (existsb (Nat.eqb p) eh); unfold on_exited, settle; cbn;
    rewrite Nat.eqb_refl; cbn; (repeat split);
    unfold tick; cbn; destruct (Z.leb _ _); cbn; try reflexivity;
    unfold timer_fire, settle; cbn; rewrite ?Nat.eqb_refl; cbn; reflexivity.
Qed.

End Native.

Section Ffmpeg.
Import AudioRecorder.

Lemma ffmpeg_stop_sends_sigint w p :
  no_stale_timer w p ->
  exists w1,
    stop w = (Pending, w1,
              (if (state_eqb (state (this w)) paused
                   && negb (is_win32 (platform (this w))))%bool
               then [Kill p SIGCONT] else [])
              ++ [Emit (stateChange stopping); Kill p SIGINT;
                  SetTimeout (next_timer w) 5000])
    /\ state (this w1) = stopping
    /\ process (this w1) = Some p
    /\ now w1 = now w
    /\ timers w1 = [(next_timer w, now w + 5000)]
    /\ awaiting w1 = [(next_timer w, p)]
    /\ exit_handlers w1 = exit_handlers w.
Proof.
  destruct w as [[st pr cf pl t0 pd ps] h nw np nt eh aw tm].
  unfold no_stale_timer. cbn.
  intros (Hs & -> & -> & ->). unfold stop. cbn.
  destruct Hs as [-> | ->]; cbn; eexists; (split; [reflexivity |]); cbn;
    repeat split.
Qed.

Lemma ffmpeg_tick_early w1 id dt :
  timers w1 = [(id, now w1 + 5000)] -> dt < 5000 ->
  tick dt w1 = (set_now (now w1 + Z.max 0 dt) w1, []).
Proof.
  intros Ht Hdt. unfold tick. cbn [timers set_now now]. rewrite Ht. simpl.
  destruct (Z.leb_spec (now w1 + 5000) (now w1 + Z.max 0 dt)); [lia | reflexivity].
Qed.

Lemma ffmpeg_tick_late w1 id p dt :
  timers w1 = [(id, now w1 + 5000)] -> awaiting w1 = [(id, p)] ->
  process (this w1) = Some p -> 5000 <= dt ->
  snd (tick dt w1) = [Kill p SIGKILL]
  /\ process (this (fst (tick dt w1))) = None.
Proof.
  destruct w1 as [[st pr cf pl t0 pd ps] h nw np nt eh aw tm]. cbn.
  intros -> -> -> Hdt. unfold tick. cbn.
  destruct (Z.leb_spec (nw + 5000) (nw + Z.max 0 dt)); [| lia].
  cbn. unfold timer_fire, settle. cbn. rewrite Nat.eqb_refl. cbn.
  repeat split.
Qed.

Lemma ffmpeg_exit_then_timer w1 id p code dt :
  timers w1 = [(id, now w1 + 5000)] -> awaiting w1 = [(id, p)] ->
  let w2 := fst (proc_exit p code w1) in
  kills (snd (proc_exit p code w1)) = []
  /\ process (this w2) = None
  /\ kills (snd (tick dt w2)) = [].
Proof.
  destruct w1 as [[st pr cf pl t0 pd ps] h nw np nt eh aw tm]. cbn.
  intros -> ->. unfold proc_exit. cbn.
  destruct (existsb (Nat.eqb p) eh); unfold on_exited, settle; cbn;
    rewrite Nat.eqb_refl; cbn; (repeat split);
    try (destruct (Z.eqb code 0); reflexivity);
    unfold tick; cbn; destruct (Z.leb _ _); cbn; try reflexivity;
    unfold timer_fire, settle; cbn; rewrite ?Nat.eqb_refl; cbn; reflexivity.
Qed.

End Ffmpeg.

(** The graceful stop of a recorder without a stale timer: the interrupt
    is sent before the race starts (after the continue signal of a paused
    FFmpeg process); an exit before the five seconds ends the race
    without any kill, then or when the timer fires later; without an
    exit, the timer sends the kill at five seconds, and not before. *)
Lemma graceful_stop_without_stale_timer :
  (forall (w : NativeAudioRecorder.World) p,
      NativeAudioRecorder.no_stale_timer w p ->
      let w1 := snd (fst (NativeAudioRecorder.stop w)) in
      NativeAudioRecorder.kills (snd (NativeAudioRecorder.stop w)) = [(p, SIGINT)]
      /\ (forall dt, dt < 5000 -> snd (NativeAudioRecorder.tick dt w1) = [])
      /\ (forall dt, 5000 <= dt ->
            NativeAudioRecorder.kills (snd (NativeAudioRecorder.tick dt w1)) = [(p, SIGKILL)])
      /\ (forall dt code dt', dt < 5000 ->
            let w2 := fst (NativeAudioRecorder.tick dt w1) in
            let w3 := fst (NativeAudioRecorder.proc_exit p code w2) in
            NativeAudioRecorder.kills (snd (NativeAudioRecorder.proc_exit p code w2)) = []
            /\ NativeAudioRecorder.kills (snd (NativeAudioRecorder.tick dt' w3)) = []))
  /\ (forall (w : AudioRecorder.World) p,
        AudioRecorder.no_stale_timer w p ->
        let w1 := snd (fst (AudioRecorder.stop w)) in
        (AudioRecorder.kills (snd (AudioRecorder.stop w)) = [(p, SIGINT)]
         \/ AudioRecorder.kills (snd (AudioRecorder.stop w)) = [(p, SIGCONT); (p, SIGINT)])
        /\ (forall dt, dt < 5000 -> snd (AudioRecorder.tick dt w1) = [])
        /\ (forall dt, 5000 <= dt ->
              AudioRecorder.kills (snd (AudioRecorder.tick dt w1)) = [(p, SIGKILL)])
        /\ (forall dt code dt', dt < 5000 ->
              let w2 := fst (AudioRecorder.tick dt w1) in
              let w3 := fst (AudioRecorder.proc_exit p code w2) in
              AudioRecorder.kills (snd (AudioRecorder.proc_exit p code w2)) = []
              /\ AudioRecorder.kills (snd (AudioRecorder.tick dt' w3)) = [])).
Proof.
  split.
  - intros w p Hf.
    destruct (native_stop_sends_sigint w p Hf) as (w1 & E & Hs & Hp & Hn & Ht & Ha & He).
    rewrite E. cbn [fst snd]. rewrite <- Hn in Ht.
    split; [reflexivity |]. split; [| split].
    + intros dt Hdt. rewrite (native_tick_early w1 _ dt Ht Hdt). reflexivity.
    + intros dt Hdt.
      destruct (native_tick_late w1 _ p dt Ht Ha Hp Hdt) as (-> & _). reflexivity.
    + intros dt code dt' Hdt. rewrite (native_tick_early w1 _ dt Ht Hdt). cbn [fst].
      assert (Ht' : NativeAudioRecorder.timers
                      (NativeAudioRecorder.set_now
                         (NativeAudioRecorder.now w1 + Z.max 0 dt) w1)
                    = [(NativeAudioRecorder.next_timer w,
                        NativeAudioRecorder.now w1 + 5000)]) by exact Ht.
      destruct w1 as [[st pr cf t0] h nw np nt eh aw tm]. cbn in *. subst.
      unfold NativeAudioRecorder.proc_exit. cbn.
      destruct (existsb (Nat.eqb p) _);
        unfold NativeAudioRecorder.on_exited, NativeAudioRecorder.settle; cbn;
        rewrite Nat.eqb_refl; cbn; (split; [reflexivity |]);
        unfold NativeAudioRecorder.tick; cbn; destruct (Z.leb _ _); cbn; try reflexivity;
        unfold NativeAudioRecorder.timer_fire, NativeAudioRecorder.settle; cbn;
        rewrite ?Nat.eqb_refl; cbn; reflexivity.
  - intros w p Hf.
    destruct (ffmpeg_stop_sends_sigint w p Hf) as (w1 & E & Hs & Hp & Hn & Ht & Ha & He).
    rewrite E. cbn [fst snd]. rewrite <- Hn in Ht.
    split; [| split; [| split]].
    + destruct (_ && _)%bool; [right | left]; reflexivity.
    + intros dt Hdt. rewrite (ffmpeg_tick_early w1 _ dt Ht Hdt). reflexivity.
    + intros dt Hdt.
      destruct (ffmpeg_tick_late w1 _ p dt Ht Ha Hp Hdt) as (-> & _). reflexivity.
    + intros dt code dt' Hdt. rewrite (ffmpeg_tick_early w1 _ dt Ht Hdt). cbn [fst].
      destruct w1 as [[st pr cf pl t0 pd ps] h nw np nt eh aw tm]. cbn in *. subst.
      unfold AudioRecorder.proc_exit. cbn.
      destruct (existsb (Nat.eqb p) _);
        unfold AudioRecorder.on_exited, AudioRecorder.settle; cbn;
        rewrite Nat.eqb_refl; cbn;
        (split; [try (destruct (Z.eqb code 0)); reflexivity |]);
        unfold AudioRecorder.tick; cbn; destruct (Z.leb _ _); cbn; try reflexivity;
        unfold AudioRecorder.timer_fire, AudioRecorder.settle; cbn;
        rewrite ?Nat.eqb_refl; cbn; reflexivity.
Qed.

End StopFacts.

Module StopClaim.

(** C1, at the input where the code departs from it. A recorder is
    started and stopped, its process exits 100 ms after the interrupt, and
    100 ms later the same recorder is started again (process 1). The timer
    armed by the first [stop] is still pending: it was never cleared and
    its callback reads [this.process] when it fires. The second [stop]
    comes 800 ms later, at time 4000: it sends SIGINT to process 1 and arms
    its own timer for time 9000. At time 8000, four seconds after that
    [stop], the first timer fires and sends SIGKILL to process 1, which
    has not had its five seconds; process 1 then exits within the timeout
    of its own [stop], having been force-killed. Both recorder classes
    behave so. *)
Theorem stale_stop_timer_kills_next_recording :
  (let w := fst (NativeAudioRecorder.run
                   [NativeAudioRecorder.CallStart "recorder" None;
                    NativeAudioRecorder.Tick 2000;
                    NativeAudioRecorder.CallStop;
                    NativeAudioRecorder.Tick 100;
                    NativeAudioRecorder.ProcExit 0 0;
                    NativeAudioRecorder.Tick 100;
                    NativeAudioRecorder.CallStart "recorder" None;
                    NativeAudioRecorder.Tick 800] Examples.native0) in
   let w1 := snd (fst (NativeAudioRecorder.stop w)) in
   let w2 := fst (NativeAudioRecorder.tick 4000 w1) in
   NativeAudioRecorder.state (NativeAudioRecorder.this w) = NativeAudioRecorder.recording
   /\ NativeAudioRecorder.process (NativeAudioRecorder.this w) = Some 1%nat
   /\ NativeAudioRecorder.kills (snd (NativeAudioRecorder.stop w)) = [(1%nat, SIGINT)]
   /\ NativeAudioRecorder.now w1 = 4000
   /\ NativeAudioRecorder.timers w1 = [(0%nat, 8000); (1%nat, 9000)]
   /\ snd (NativeAudioRecorder.tick 4000 w1) = [NativeAudioRecorder.Kill 1 SIGKILL]
   /\ NativeAudioRecorder.now w2 = 8000
   /\ NativeAudioRecorder.timers w2 = [(1%nat, 9000)]
   /\ NativeAudioRecorder.kills (snd (NativeAudioRecorder.proc_exit 1 137 w2)) = [])
  /\ (let w := fst (AudioRecorder.run
                      [AudioRecorder.CallStart None;
                       AudioRecorder.Tick 2000;
                       AudioRecorder.CallStop;
                       AudioRecorder.Tick 100;
                       AudioRecorder.ProcExit 0 0;
                       AudioRecorder.Tick 100;
                       AudioRecorder.CallStart None;
                       AudioRecorder.Tick 800] Examples.ffmpeg0) in
      let w1 := snd (fst (AudioRecorder.stop w)) in
      let w2 := fst (AudioRecorder.tick 4000 w1) in
      AudioRecorder.state (AudioRecorder.this w) = AudioRecorder.recording
      /\ AudioRecorder.process (AudioRecorder.this w) = Some 1%nat
      /\ AudioRecorder.kills (snd (AudioRecorder.stop w)) = [(1%nat, SIGINT)]
      /\ AudioRecorder.now w1 = 4000
      /\ AudioRecorder.timers w1 = [(0%nat, 8000); (1%nat, 9000)]
      /\ snd (AudioRecorder.tick 4000 w1) = [AudioRecorder.Kill 1 SIGKILL]
      /\ AudioRecorder.now w2 = 8000
      /\ AudioRecorder.timers w2 = [(1%nat, 9000)]
      /\ AudioRecorder.kills (snd (AudioRecorder.proc_exit 1 137 w2)) = []).
Proof.
  split; cbv zeta; repeat split; vm_compute; reflexivity.
Qed.

End StopClaim.

(** ** Theorems on the stdout protocol of the native helper *)

Module OutputFacts.
Import NativeAudioRecorder.

Lemma append_cons (x : ascii) (a b : string) : String x a +:+ b = String x (a +:+ b).
Proof. reflexivity. Qed.

Lemma append_nil_l (b : string) : "" +:+ b = b.
Proof. reflexivity. Qed.

Lemma append_nil_r (a : string) : a +:+ "" = a.
Proof.
  induction a as [| x a IH]; [reflexivity |]. rewrite append_cons, IH. reflexivity.
Qed.

Lemma append_assoc (a b c : string) : (a +:+ b) +:+ c = a +:+ (b +:+ c).
Proof.
  induction a as [| x a IH]; [reflexivity |]. rewrite !append_cons, IH. reflexivity.
Qed.

Lemma split_lines_nonempty s : Str.split_lines s <> [].
Proof.
  destruct s as [| c r]; simpl; [discriminate |].
  destruct (Ascii.eqb c Str.LF); [discriminate |].
  destruct (Str.split_lines r); discriminate.
Qed.

(** Splitting a text that continues: the complete lines of the first
    part, then the lines of its last piece followed by the rest. *)
Lemma split_lines_app a b :
  Str.split_lines (a +:+ b)
  = List.removelast (Str.split_lines a)
    ++ Str.split_lines (List.last (Str.split_lines a) "" +:+ b).
Proof.
  induction a as [| c r IH]; [reflexivity |].
  rewrite append_cons. cbn [Str.split_lines].
  destruct (Ascii.eqb c Str.LF) eqn:Ec.
  - rewrite IH.
    destruct (Str.split_lines r) as [| l ls] eqn:Er;
      [now destruct (split_lines_nonempty r) |].
    reflexivity.
  - rewrite IH.
    destruct (Str.split_lines r) as [| l ls] eqn:Er;
      [now destruct (split_lines_nonempty r) |].
    destruct ls as [| l2 ls2].
    + cbn [List.removelast List.last app]. rewrite append_cons.
      cbn [Str.split_lines]. rewrite Ec. reflexivity.
    + reflexivity.
Qed.

(** The last piece of a split holds no line feed. *)
Lemma split_lines_last s :
  Str.split_lines (List.last (Str.split_lines s) "") = [List.last (Str.split_lines s) ""].
Proof.
  induction s as [| c r IH]; [reflexivity |].
  cbn [Str.split_lines].
  destruct (Ascii.eqb c Str.LF) eqn:Ec.
  - destruct (Str.split_lines r) as [| l ls] eqn:Er;
      [now destruct (split_lines_nonempty r) |].
    exact IH.
  - destruct (Str.split_lines r) as [| l ls] eqn:Er;
      [now destruct (split_lines_nonempty r) |].
    destruct ls as [| l2 ls2].
    + cbn [List.last] in *. cbn [Str.split_lines]. rewrite Ec, IH. reflexivity.
    + exact IH.
Qed.

Section WithParser.
Variable JSON_parse : string -> option Json.t.
Variable outputPath : Js.value.

Lemma handleLines_app l1 l2 :
  handleLines JSON_parse outputPath (l1 ++ l2)
  = handleLines JSON_parse outputPath l1 ++ handleLines JSON_parse outputPath l2.
Proof. unfold handleLines. now rewrite List.map_app, List.concat_app. Qed.

Lemma handleLine_malformed line :
  JSON_parse line = None ->
  handleLine JSON_parse outputPath line
  = if Str.trim_nonempty line
    then [DebugLog ("Recorder stdout: " +:+ line);
          DebugLog "Failed to parse recorder output"]
    else [].
Proof. intros H. unfold handleLine. rewrite H. reflexivity. Qed.

(** The loop over the chunks does what the loop body does on every
    complete line of the whole text, however the text was cut. *)
Lemma handleOutput_from_lines buffer chunks :
  Str.split_lines buffer = [buffer] ->
  handleOutput_from JSON_parse outputPath buffer chunks
  = handleLines JSON_parse outputPath
      (List.removelast (Str.split_lines (buffer +:+ Str.join chunks))).
Proof.
  revert buffer. induction chunks as [| c r IH]; intros buffer Hb.
  - cbn [handleOutput_from Str.join].
    rewrite append_nil_r, Hb. reflexivity.
  - cbn [handleOutput_from Str.join]. unfold handleChunk.
    rewrite IH by apply split_lines_last.
    rewrite <- handleLines_app. f_equal.
    rewrite <- append_assoc.
    rewrite (split_lines_app (buffer +:+ c) (Str.join r)).
    rewrite List.removelast_app by apply split_lines_nonempty.
    reflexivity.
Qed.

Lemma handleOutput_lines chunks :
  handleOutput JSON_parse outputPath chunks
  = handleLines JSON_parse outputPath
      (List.removelast (Str.split_lines (Str.join chunks))).
Proof. unfold handleOutput. now rewrite handleOutput_from_lines. Qed.

End WithParser.

(** C7. Whatever [JSON.parse] is, a line it rejects makes the loop body
    write its two debug lines (none when the line is blank) and nothing
    else: no event is emitted, the body ends normally and the loop goes on;
    the lines before and after are handled exactly as they are without it;
    and the loop over the chunks of the stream handles every complete line
    of the text, so a rejected line ends nothing. *)
Theorem malformed_line_is_logged_and_ignored
    (JSON_parse : string -> option Json.t) (outputPath : Js.value) :
  (forall line,
      JSON_parse line = None ->
      handleLine JSON_parse outputPath line
      = (if Str.trim_nonempty line
         then [DebugLog ("Recorder stdout: " +:+ line);
               DebugLog "Failed to parse recorder output"]
         else [])
      /\ forall e, ~ In (Emit e) (handleLine JSON_parse outputPath line))
  /\ (forall before line after,
        JSON_parse line = None ->
        handleLines JSON_parse outputPath (before ++ line :: after)
        = handleLines JSON_parse outputPath before
          ++ handleLine JSON_parse outputPath line
          ++ handleLines JSON_parse outputPath after)
  /\ (forall chunks,
        handleOutput JSON_parse outputPath chunks
        = handleLines JSON_parse outputPath
            (List.removelast (Str.split_lines (Str.join chunks)))).
Proof.
  split; [| split].
  - intros line H. split; [now apply handleLine_malformed |].
    intros e. rewrite (handleLine_malformed JSON_parse outputPath line H).
    destruct (Str.trim_nonempty line); simpl; [| tauto].
    intros [He | [He | []]]; discriminate.
  - intros before line after _.
    rewrite handleLines_app. reflexivity.
  - intros chunks. apply handleOutput_lines.
Qed.

(** The sample output of the helper, with a stray line between the two
    messages and cut into chunks inside the lines, read with the parser
    of this development. *)
Example helper_output_with_stray_line :
  Json.parse Examples.line_garbage = None
  /\ handleOutput Json.parse (Js.VStr "/tmp/meeting.m4a") Examples.stdout_chunks
     = [DebugLog ("Recorder stdout: " +:+ Examples.line_started);
        DebugLog "Recording started event received";
        Emit (started (Js.VStr "/tmp/meeting.m4a"));
        DebugLog ("Recorder stdout: " +:+ Examples.line_garbage);
        DebugLog "Failed to parse recorder output";
        DebugLog ("Recorder stdout: " +:+ Examples.line_stopped);
        DebugLog "Recording stopped event received";
        Emit (stopped (Js.VStr "/tmp/meeting.m4a"))].
Proof. split; vm_compute; reflexivity. Qed.

End OutputFacts.

(** ** Theorems on the application's start of a recording *)

Module AppFacts.
Import App.

(** Whoever holds the flag, a recorder, or a state other than idle makes
    [startRecording] return at once. *)
Lemma startRecording_guarded (a : AppState) :
  isStartingRecording a = true
  \/ recorder a <> None
  \/ recordingState a <> NativeAudioRecorder.idle ->
  startRecording a = a.
Proof.
  intros H. unfold startRecording.
  destruct (isStartingRecording a); [reflexivity |].
  destruct (recorder a); [reflexivity |].
  destruct (recordingState a); [| reflexivity | reflexivity].
  destruct H as [H | [H | H]]; congruence.
Qed.

(** A call that passes the guard holds the flag when it returns or
    suspends. *)
Lemma startRecording_takes_flag (a : AppState) :
  isStartingRecording a = false -> recorder a = None ->
  recordingState a = NativeAudioRecorder.idle ->
  isStartingRecording (startRecording a) = true.
Proof.
  intros H1 H2 H3. unfold startRecording. rewrite H1, H2, H3. cbn.
  destruct (_ && _)%bool; reflexivity.
Qed.

Lemma startRecording_suspends (a : AppState) :
  isStartingRecording a = false -> recorder a = None ->
  recordingState a = NativeAudioRecorder.idle ->
  selectedMic a <> None \/ selectedSystemAudio a <> None ->
  startRecording a
  = set_suspended
      (suspended a
       ++ [AwaitDir (present (selectedMic a))
             (present (selectedSystemAudio a)
              && (recordBoth a || negb (present (selectedMic a))))])
      (set_isStartingRecording true a).
Proof.
  intros H1 H2 H3 H4. unfold startRecording. rewrite H1, H2, H3. cbn.
  destruct (selectedMic a), (selectedSystemAudio a), (recordBoth a); cbn;
    try reflexivity; destruct H4; congruence.
Qed.

(** While the call waits for the recorder, the flag is still held. *)
Lemma dir_settled_keeps_flag ok path t rp err (a : AppState) :
  isStartingRecording a = true ->
  isStartingRecording (fst (dir_settled ok path t rp err a)) = true.
Proof.
  intros H. unfold dir_settled.
  destruct (take_dir (suspended a)) as [[[m s] rest] |]; [| exact H].
  destruct ok; cbn [negb]; [| exact H].
  unfold NativeAudioRecorder.new, NativeAudioRecorder.start. cbn.
  destruct err; cbn; exact H.
Qed.

Lemma turns_cons x r (a : AppState) :
  turns (x :: r) a
  = (fst (turns r (fst (turn x a))), snd (turn x a) ++ snd (turns r (fst (turn x a)))).
Proof.
  cbn [turns]. destruct (turn x a) as [a1 e1]. cbn [fst snd].
  destruct (turns r a1) as [a2 e2]. reflexivity.
Qed.

Lemma turns_press r (a : AppState) : turns (PressRecord :: r) a = turns r (startRecording a).
Proof.
  rewrite turns_cons. cbn [turn fst snd app].
  destruct (turns r (startRecording a)). reflexivity.
Qed.

(** What the first call does once the directory exists and the spawn
    succeeds. *)
Lemma dir_settled_spawns path t rp (a : AppState) m s :
  suspended a = [AwaitDir m s] ->
  exists argv,
    snd (dir_settled true path t rp None a)
    = [NativeAudioRecorder.Spawn (next_pid a) argv;
       NativeAudioRecorder.Emit (NativeAudioRecorder.stateChange NativeAudioRecorder.recording)]
    /\ recordingState (fst (dir_settled true path t rp None a))
       = NativeAudioRecorder.recording
    /\ suspended (fst (dir_settled true path t rp None a)) = [AwaitStart (Ok tt)]
    /\ next_pid (fst (dir_settled true path t rp None a)) = S (next_pid a).
Proof.
  intros H. unfold dir_settled. rewrite H. cbn [take_dir negb].
  unfold NativeAudioRecorder.new, NativeAudioRecorder.start. cbn.
  eexists. repeat split.
Qed.

End AppFacts.

Module AppClaim.
Import App.

(** C2. From the idle application, a second [startRecording] that
    arrives while the first is in flight (right behind it, while it waits
    for the recordings directory, or while it waits for the recorder)
    returns at once and changes nothing: the flag set by the first call
    stops it. The two calls together therefore do exactly what the first
    does alone, whatever becomes of the directory and of the spawn: never
    two subprocesses, and exactly one when a source is selected, the
    directory exists and the spawn succeeds. On the recorder itself a
    second [start] after a first throws instead of spawning. *)
Theorem second_start_does_not_spawn
    (a : AppState) (path : string) (t : Z) (rp : string) :
  isStartingRecording a = false ->
  recorder a = None ->
  recordingState a = NativeAudioRecorder.idle ->
  suspended a = [] ->
  let a1 := startRecording a in
  startRecording a1 = a1
  /\ (forall ok err,
        startRecording (fst (dir_settled ok path t rp err a1))
        = fst (dir_settled ok path t rp err a1))
  /\ (forall ok err,
        turns [PressRecord; PressRecord; DirSettled ok path t rp err; StartSettled] a
        = turns [PressRecord; DirSettled ok path t rp err; StartSettled] a
        /\ turns [PressRecord; DirSettled ok path t rp err; PressRecord; StartSettled] a
           = turns [PressRecord; DirSettled ok path t rp err; StartSettled] a
        /\ (spawns (snd (turns [PressRecord; PressRecord;
                                DirSettled ok path t rp err; StartSettled] a)) <= 1)%nat)
  /\ (selectedMic a <> None \/ selectedSystemAudio a <> None ->
      spawns (snd (turns [PressRecord; PressRecord;
                          DirSettled true path t rp None; StartSettled] a)) = 1%nat
      /\ spawns (snd (turns [PressRecord; DirSettled true path t rp None;
                             PressRecord; StartSettled] a)) = 1%nat)
  /\ (forall (n : NativeAudioRecorder.World) err,
        NativeAudioRecorder.state (NativeAudioRecorder.this n) = NativeAudioRecorder.idle ->
        let n1 := snd (fst (NativeAudioRecorder.start rp None n)) in
        NativeAudioRecorder.start rp err n1
        = (Throw (NativeAudioRecorder.CannotStart NativeAudioRecorder.recording), n1, [])).
Proof.
  intros Hf Hr Hs Hp a1.
  assert (Hflag : isStartingRecording a1 = true)
    by now apply AppFacts.startRecording_takes_flag.
  assert (H1 : startRecording a1 = a1)
    by (apply AppFacts.startRecording_guarded; now left).
  assert (H2 : forall ok err,
             startRecording (fst (dir_settled ok path t rp err a1))
             = fst (dir_settled ok path t rp err a1)).
  { intros ok err. apply AppFacts.startRecording_guarded. left.
    now apply AppFacts.dir_settled_keeps_flag. }
  assert (H3 : forall ok err,
             turns [PressRecord; PressRecord; DirSettled ok path t rp err; StartSettled] a
             = turns [PressRecord; DirSettled ok path t rp err; StartSettled] a).
  { intros ok err. rewrite !AppFacts.turns_press. fold a1. rewrite H1. reflexivity. }
  assert (H4 : forall ok err,
             turns [PressRecord; DirSettled ok path t rp err; PressRecord; StartSettled] a
             = turns [PressRecord; DirSettled ok path t rp err; StartSettled] a).
  { intros ok err. rewrite !AppFacts.turns_press. fold a1.
    rewrite (AppFacts.turns_cons (DirSettled ok path t rp err) (PressRecord :: _)).
    rewrite AppFacts.turns_press. cbn [turn]. rewrite H2.
    rewrite (AppFacts.turns_cons (DirSettled ok path t rp err) [StartSettled]).
    reflexivity. }
  assert (H5 : forall ok err,
             (spawns (snd (turns [PressRecord; DirSettled ok path t rp err; StartSettled] a))
              <= 1)%nat).
  { intros ok err. rewrite AppFacts.turns_press. fold a1.
    rewrite AppFacts.turns_cons. cbn [turn turns fst snd]. rewrite app_nil_r.
    unfold a1, startRecording. rewrite Hf, Hr, Hs. cbn.
    destruct (_ && _)%bool.
    - unfold dir_settled. cbn. rewrite Hp. cbn. lia.
    - unfold dir_settled. cbn. rewrite Hp. cbn.
      destruct ok; cbn; [| lia].
      unfold NativeAudioRecorder.new, NativeAudioRecorder.start. cbn.
      destruct err; cbn; lia. }
  split; [exact H1 |]. split; [exact H2 |]. split; [| split].
  - intros ok err. split; [apply H3 |]. split; [apply H4 |]. rewrite H3. apply H5.
  - intros Hsel.
    assert (H6 : spawns (snd (turns [PressRecord; DirSettled true path t rp None;
                                     StartSettled] a)) = 1%nat).
    { rewrite AppFacts.turns_press. fold a1.
      assert (Hsus : suspended a1
                     = [AwaitDir (present (selectedMic a))
                          (present (selectedSystemAudio a)
                           && (recordBoth a || negb (present (selectedMic a))))]).
      { unfold a1. rewrite AppFacts.startRecording_suspends by assumption.
        cbn. rewrite Hp. reflexivity. }
      destruct (AppFacts.dir_settled_spawns path t rp a1 _ _ Hsus) as (argv & He & _).
      rewrite AppFacts.turns_cons. cbn [turn turns fst snd]. rewrite He. reflexivity. }
    rewrite H3, H4. split; exact H6.
  - intros n err Hn. cbv zeta.
    destruct (ExitFacts.native_start_attaches n rp Hn) as (Hst & _).
    rewrite LifecycleFacts.native_start_guard by (cbv zeta in Hst; congruence).
    cbv zeta in Hst. rewrite Hst. reflexivity.
Qed.

(** The statement at the application as constructed, once the built-in
    microphone was selected. *)
Lemma second_start_does_not_spawn_witness :
  let a := set_selectedMic
             (Some (mkNativeDevice "0" "MacBook Pro Microphone" "BuiltInMic" microphone))
             initial in
  spawns (snd (turns [PressRecord; PressRecord;
                      DirSettled true "/tmp/recording.m4a" 1000 "recorder" None;
                      StartSettled] a)) = 1%nat.
Proof.
  cbv zeta.
  assert (Hsel : selectedMic
                   (set_selectedMic
                      (Some (mkNativeDevice "0" "MacBook Pro Microphone" "BuiltInMic"
                               microphone)) initial) <> None
                 \/ selectedSystemAudio
                      (set_selectedMic
                         (Some (mkNativeDevice "0" "MacBook Pro Microphone" "BuiltInMic"
                                  microphone)) initial) <> None)
    by (left; discriminate).
  pose proof (second_start_does_not_spawn
                (set_selectedMic
                   (Some (mkNativeDevice "0" "MacBook Pro Microphone" "BuiltInMic" microphone))
                   initial)
                "/tmp/recording.m4a" 1000 "recorder"
                eq_refl eq_refl eq_refl eq_refl)
    as (_ & _ & _ & H4 & _).
  exact (proj1 (H4 Hsel)).
Defined.

End AppClaim.

Module StartFailureClaim.
Import App.

(** Once the flag is set with no call in flight to clear it, no sequence
    of key presses, selections and settlements spawns anything or clears
    it. *)
Lemma stuck_flag_blocks_every_start (xs : list Turn) (a : AppState) :
  isStartingRecording a = true -> suspended a = [] ->
  isStartingRecording (fst (turns xs a)) = true
  /\ suspended (fst (turns xs a)) = []
  /\ snd (turns xs a) = [].
Proof.
  revert a. induction xs as [| x r IH]; intros a Hf Hp; [cbn; tauto |].
  rewrite AppFacts.turns_cons. cbn [fst snd].
  assert (H : isStartingRecording (fst (turn x a)) = true
              /\ suspended (fst (turn x a)) = [] /\ snd (turn x a) = []).
  { destruct x; cbn [turn fst snd].
    - rewrite AppFacts.startRecording_guarded by now left. tauto.
    - unfold dir_settled. rewrite Hp. cbn. tauto.
    - unfold start_settled. rewrite Hp. cbn. tauto.
    - cbn. tauto. }
  destruct H as (H1 & H2 & H3).
  destruct (IH _ H1 H2) as (I1 & I2 & I3).
  rewrite H3, I3. tauto.
Qed.

(** C6, at the inputs where the code departs from it. (1) With no source
    selected, [startRecording] reports "Please select at least one audio
    source" and returns with the starting flag still set; after a
    microphone is then selected, pressing record again does nothing at
    all: no subprocess, no message, the flag stays set. (2) With a source
    selected and a spawn that fails, the error is reported, the flag is
    cleared and the state is idle, but the recorder object stays in place
    and pressing record again does nothing either. *)
Theorem failed_start_blocks_the_next_start :
  (let a1 := startRecording initial in
   let a2 := set_selectedMic (Some Examples.builtin_mic) a1 in
   errorMessage a1 = "Please select at least one audio source"
   /\ recordingState a1 = NativeAudioRecorder.idle
   /\ recorder a1 = None
   /\ suspended a1 = []
   /\ isStartingRecording a1 = true
   /\ turns [PressRecord; DirSettled true "/tmp/recording.m4a" 2000 "recorder" None;
             StartSettled] a2
      = (a2, []))
  /\ (let b := set_selectedMic (Some Examples.builtin_mic) initial in
      let b3 := fst (turns [PressRecord;
                            DirSettled true "/tmp/recording.m4a" 1000 "recorder"
                              (Some "ENOENT: no such file or directory, posix_spawn 'recorder'");
                            StartSettled] b) in
      errorMessage b3 = "ENOENT: no such file or directory, posix_spawn 'recorder'"
      /\ recordingState b3 = NativeAudioRecorder.idle
      /\ isStartingRecording b3 = false
      /\ suspended b3 = []
      /\ present (recorder b3) = true
      /\ turns [PressRecord; DirSettled true "/tmp/recording2.m4a" 2000 "recorder" None;
                StartSettled] b3
         = (b3, [])).
Proof.
  split; cbv zeta.
  - split; [reflexivity |]. split; [reflexivity |]. split; [reflexivity |].
    split; [reflexivity |]. split; [reflexivity |]. reflexivity.
  - split; [reflexivity |]. split; [reflexivity |]. split; [reflexivity |].
    split; [reflexivity |]. split; [reflexivity |].
    rewrite AppFacts.turns_press.
    rewrite AppFacts.startRecording_guarded by (right; left; discriminate).
    reflexivity.
Qed.

End StartFailureClaim.

(** ** Theorems on the merge step of the helper *)

Module MergeFacts.
Import Merge.

Lemma occ_append x a b : Str.occ x (a +:+ b) = (Str.occ x a + Str.occ x b)%nat.
Proof.
  induction a as [| c a IH]; [reflexivity |].
  rewrite OutputFacts.append_cons. cbn [Str.occ]. rewrite IH. lia.
Qed.

Lemma startsWith_occ_first x p s :
  Str.startsWith p s = true -> Str.occ_first x (String.length p) s = Str.occ x p.
Proof.
  revert s. induction p as [| a p IH]; intros s H; [reflexivity |].
  destruct s as [| b s]; [discriminate |]. cbn in H.
  destruct (Ascii.eqb_spec a b) as [-> | Hne]; [| discriminate].
  cbn. rewrite (IH s H). reflexivity.
Qed.

(** Dropping the matches of a pattern without [x] keeps every [x]. *)
Lemma remove_go_occ x p0 pt :
  Str.occ x (String p0 pt) = O ->
  forall s skip,
    Str.occ_first x skip s = O ->
    Str.occ x (Str.remove_go (String p0 pt) skip s) = Str.occ x s.
Proof.
  intros Hp s. induction s as [| c r IH]; intros skip Hs; [reflexivity |].
  cbn [Str.remove_go]. destruct skip as [| k].
  - destruct (Str.startsWith (String p0 pt) (String c r)) eqn:Hm.
    + cbn in Hm. destruct (Ascii.eqb_spec p0 c) as [-> | Hne]; [| discriminate].
      cbn in Hp. destruct (Ascii.eqb c x) eqn:Ecx; [discriminate |].
      replace (String.length (String c pt) - 1)%nat with (String.length pt)
        by (cbn [String.length]; lia).
      rewrite IH.
      * cbn [Str.occ]. rewrite Ecx. reflexivity.
      * rewrite (startsWith_occ_first x pt r Hm). exact Hp.
    + cbn [Str.occ]. rewrite IH by (destruct r; reflexivity). reflexivity.
  - cbn in Hs. destruct (Ascii.eqb c x) eqn:Ecx; [discriminate |].
    rewrite IH by exact Hs. cbn [Str.occ]. rewrite Ecx. reflexivity.
Qed.

Lemma basePath_underscores output :
  Str.occ "_" (Str.remove_all ".m4a" output) = Str.occ "_" output.
Proof.
  unfold Str.remove_all. apply remove_go_occ; [reflexivity |].
  destruct output; reflexivity.
Qed.

(** No name derived from the base path is the output path itself. *)
Lemma derived_ne_output output suffix :
  (0 < Str.occ "_" suffix)%nat ->
  Str.remove_all ".m4a" output +:+ suffix <> output.
Proof.
  intros Hs Heq. apply (f_equal (Str.occ "_")) in Heq.
  rewrite occ_append, basePath_underscores in Heq. lia.
Qed.

Lemma derived_ne base s1 s2 : s1 <> s2 -> base +:+ s1 <> base +:+ s2.
Proof.
  intros Hne Heq. apply Hne.
  induction base as [| c b IH]; [exact Heq |].
  rewrite !OutputFacts.append_cons in Heq. injection Heq as Heq. now apply IH.
Qed.

(** A path that ends in ".m4a" and holds it nowhere else loses just that
    ending. *)
Lemma startsWith_m4a_inside c r :
  Str.startsWith ".m4a" (String c r) = false ->
  Str.startsWith ".m4a" (String c r +:+ ".m4a") = false.
Proof.
  destruct r as [| c2 [| c3 [| c4 r]]];
    rewrite ?OutputFacts.append_cons, ?OutputFacts.append_nil_l;
    cbn [Str.startsWith];
    repeat match goal with
           | |- context [Ascii.eqb ?a ?b] => is_var b; destruct (Ascii.eqb a b)
           end;
    intros H; first [discriminate H | reflexivity | vm_compute; reflexivity].
Qed.

Lemma remove_m4a_suffix base :
  Str.includes base ".m4a" = false ->
  Str.remove_all ".m4a" (base +:+ ".m4a") = base.
Proof.
  unfold Str.remove_all.
  induction base as [| c r IH]; intros H; [reflexivity |].
  cbn [Str.includes] in H.
  destruct (Str.startsWith ".m4a" (String c r)) eqn:Hm; [discriminate |].
  pose proof (startsWith_m4a_inside c r Hm) as Hm'.
  rewrite OutputFacts.append_cons in *. cbn [Str.remove_go]. rewrite Hm'.
  rewrite IH by exact H. reflexivity.
Qed.

(** [mergeAudioFiles] by the end of the tool. *)
Lemma mergeAudioFiles_by_tool host mic sys output fs :
  fst (mergeAudioFiles host mic sys output fs)
  = match tool_run host mic sys output fs with
    | (Merged, fs1) => try_ (removeItem sys (try_ (removeItem mic fs1) fs1))
                            (try_ (removeItem mic fs1) fs1)
    | (NotMerged, fs1) => keep_separate mic sys output fs1
    end.
Proof.
  unfold mergeAudioFiles, tool_run.
  destruct (which_ffmpeg host) as [f |]; [| reflexivity].
  destruct (run_tool host f (merge_args mic sys output) fs) as [e | st fs1];
    [reflexivity |].
  destruct (Z.eqb st 0); reflexivity.
Qed.

Lemma try_removeItem path (fs : gmap string string) :
  try_ (removeItem path fs) fs = delete path fs.
Proof.
  unfold try_, removeItem. destruct (fs !! path) eqn:E; cbn; [reflexivity |].
  symmetry. now apply delete_id.
Qed.

Lemma try_moveItem src dst c (fs : gmap string string) :
  fs !! src = Some c -> fs !! dst = None ->
  try_ (moveItem src dst fs) fs = <[dst := c]> (delete src fs).
Proof. intros H1 H2. unfold try_, moveItem. rewrite H1, H2. reflexivity. Qed.

(** The four names derived from the base path differ from each other and
    from the output path. *)
Lemma names_distinct output :
  let base := Str.remove_all ".m4a" output in
  let mic := base +:+ "_temp_mic.m4a" in
  let sys := base +:+ "_temp_sys.m4a" in
  let micFinal := base +:+ "_mic.m4a" in
  let sysFinal := base +:+ "_system.m4a" in
  mic <> sys /\ mic <> micFinal /\ mic <> sysFinal /\ sys <> micFinal
  /\ sys <> sysFinal /\ micFinal <> sysFinal
  /\ mic <> output /\ sys <> output /\ micFinal <> output /\ sysFinal <> output.
Proof.
  cbv zeta.
  repeat split;
    first [ apply derived_ne; discriminate
          | apply derived_ne_output; vm_compute; lia ].
Qed.

(** What one [try? moveItem] leaves at each path. *)
Lemma try_moveItem_lookup src dst (fs : gmap string string) path :
  src <> dst ->
  try_ (moveItem src dst fs) fs !! path
  = if decide (path = dst)
    then match fs !! dst with Some x => Some x | None => fs !! src end
    else if decide (path = src)
    then match fs !! dst with Some _ => fs !! src | None => None end
    else fs !! path.
Proof.
  intros Hne. unfold try_, moveItem.
  destruct (fs !! src) as [c |] eqn:Es; destruct (fs !! dst) as [x |] eqn:Ed; cbn;
    repeat case_decide; subst; try congruence.
  - apply lookup_insert_eq.
  - rewrite lookup_insert_ne by congruence. apply lookup_delete_eq.
  - rewrite lookup_insert_ne by congruence. apply lookup_delete_ne. congruence.
Qed.

(** A name without a slash appended to a path stays in its directory. *)
Lemma directory_file s : Str.occ "/" s = O -> directory s = "".
Proof.
  induction s as [| c r IH]; [reflexivity |]. cbn [Str.occ directory].
  destruct (Ascii.eqb c "/"); [discriminate |]. cbn [Nat.add]. intros H.
  rewrite H. reflexivity.
Qed.

Lemma directory_append b s : Str.occ "/" s = O -> directory (b +:+ s) = directory b.
Proof.
  intros Hs. induction b as [| c r IH].
  - rewrite OutputFacts.append_nil_l. now apply directory_file.
  - rewrite OutputFacts.append_cons. cbn [directory].
    rewrite occ_append, Hs, Nat.add_0_r, IH. reflexivity.
Qed.

(** [start()] of a both-mode session that returns. *)
Lemma start_both host output asked r0 :
  start host (session_of_args output ["--both"]) = (asked, inr r0) ->
  let base := Str.remove_all ".m4a" output in
  asked = (if macos_12_3 host then [(System, base +:+ "_temp_sys.m4a")] else [])
          ++ [(Mic, base +:+ "_temp_mic.m4a")]
  /\ files r0 = mkSession output true true
                  (Some (base +:+ "_temp_mic.m4a")) (Some (base +:+ "_temp_sys.m4a"))
  /\ micRecorder r0 = Some (base +:+ "_temp_mic.m4a")
  /\ systemRecorder r0
     = (if macos_12_3 host
        then Some (mkSystemAudioRecorder (base +:+ "_temp_sys.m4a") true O)
        else None).
Proof.
  unfold start, session_of_args. cbn [List.fold_left apply_flag String.eqb Ascii.eqb Bool.eqb].
  cbn [recordMic recordSystem outputPath andb].
  destruct (if macos_12_3 host then system_start host _ else None); [discriminate |].
  destruct (task_sleep host); [discriminate |].
  destruct (mic_start host _); [discriminate |].
  intros [= <- <-]. cbn. repeat split.
Qed.

End MergeFacts.

Module MergeClaim.
Import Merge.

(** C8, as amended. A both-mode recording to [b].m4a, where [b] holds
    no ".m4a", whose [start()] has returned, and then [stop()], whatever
    the stream delivered and whatever the recorders leave when they
    stop. The session recorded to [b]_temp_mic.m4a and
    [b]_temp_sys.m4a, and no recorder was asked to write anything else.
    When the tool is found, runs on the two files and exits with status
    0, the merge step removes both temporary files and nothing else: the
    output path holds what the tool left there (the helper does not look
    at it). When the tool is absent, cannot be launched or exits with
    another status, the merge step removes nothing: each temporary file
    is moved to [b]_mic.m4a, respectively [b]_system.m4a, in the
    directory of the output path, unless a file of that name exists,
    which is then kept while the temporary file stays where it is; every
    other path, the output path included, holds what the tool left
    there, which is what the recorders left when the tool is absent or
    cannot be launched. In every case the step returns normally and the
    helper then reports "Recording stopped" and exits with status 0. *)
Theorem merge_or_keep_separate
    (host : Host) (b : string) (asked : list (Source * string)) (r0 : Running)
    (n : nat) (failed : bool) (fs : gmap string string) :
  Str.includes b ".m4a" = false ->
  start host (session_of_args (b +:+ ".m4a") ["--both"]) = (asked, inr r0) ->
  let output := b +:+ ".m4a" in
  let r := stream_events n failed r0 in
  let mic := b +:+ "_temp_mic.m4a" in
  let sys := b +:+ "_temp_sys.m4a" in
  let micFinal := b +:+ "_mic.m4a" in
  let sysFinal := b +:+ "_system.m4a" in
  let fs0 := fst (stop_recorders host r fs) in
  let fs2 := fst (stop host r fs) in
  (micPath (files r) = Some mic /\ sysPath (files r) = Some sys
   /\ outputPath (files r) = output
   /\ asked = (if macos_12_3 host then [(System, sys)] else []) ++ [(Mic, mic)])
  /\ (directory micFinal = directory output /\ directory sysFinal = directory output)
  /\ (forall ffmpeg fs1,
        which_ffmpeg host = Some ffmpeg ->
        run_tool host ffmpeg (merge_args mic sys output) fs0 = Exited 0 fs1 ->
        fs2 = delete sys (delete mic fs1)
        /\ fs2 !! mic = None /\ fs2 !! sys = None
        /\ fs2 !! output = fs1 !! output)
  /\ (forall fs1,
        (which_ffmpeg host = None /\ fs1 = fs0)
        \/ (exists ffmpeg error,
              which_ffmpeg host = Some ffmpeg
              /\ run_tool host ffmpeg (merge_args mic sys output) fs0 = LaunchFailed error
              /\ fs1 = fs0)
        \/ (exists ffmpeg status,
              which_ffmpeg host = Some ffmpeg
              /\ run_tool host ffmpeg (merge_args mic sys output) fs0 = Exited status fs1
              /\ status <> 0) ->
        fs2 !! micFinal
        = match fs1 !! micFinal with Some x => Some x | None => fs1 !! mic end
        /\ fs2 !! mic
           = match fs1 !! micFinal with Some _ => fs1 !! mic | None => None end
        /\ fs2 !! sysFinal
           = match fs1 !! sysFinal with Some x => Some x | None => fs1 !! sys end
        /\ fs2 !! sys
           = match fs1 !! sysFinal with Some _ => fs1 !! sys | None => None end
        /\ (forall path, path <> mic -> path <> sys ->
                         path <> micFinal -> path <> sysFinal ->
                         fs2 !! path = fs1 !! path)
        /\ fs2 !! output = fs1 !! output)
  /\ finish_record host r fs
     = (fs2,
        Json.JObj [("success", Json.JBool true);
                   ("message", Json.JStr "Recording stopped");
                   ("data", Json.JObj [("output", Json.JStr output)])],
        0).
Proof.
  intros Hb Hstart. cbv zeta.
  destruct (MergeFacts.start_both host _ asked r0 Hstart) as (Ha & Hf & _).
  cbv zeta in Ha, Hf. rewrite (MergeFacts.remove_m4a_suffix b Hb) in Ha, Hf.
  destruct (MergeFacts.names_distinct (b +:+ ".m4a"))
    as (D1 & D2 & D3 & D4 & D5 & D6 & D7 & D8 & D9 & D10).
  cbv zeta in D1, D2, D3, D4, D5, D6, D7, D8, D9, D10.
  rewrite (MergeFacts.remove_m4a_suffix b Hb) in D1, D2, D3, D4, D5, D6, D7, D8, D9, D10.
  assert (Hfiles : files (stream_events n failed r0)
                   = mkSession (b +:+ ".m4a") true true
                       (Some (b +:+ "_temp_mic.m4a")) (Some (b +:+ "_temp_sys.m4a")))
    by exact Hf.
  assert (Hstop : fst (stop host (stream_events n failed r0) fs)
                  = fst (mergeAudioFiles host (b +:+ "_temp_mic.m4a") (b +:+ "_temp_sys.m4a")
                           (b +:+ ".m4a")
                           (fst (stop_recorders host (stream_events n failed r0) fs)))).
  { unfold stop. rewrite Hfiles. cbn [micPath sysPath outputPath].
    destruct (stop_recorders host _ fs) as [fs0 l0]. cbn [fst].
    destruct (mergeAudioFiles host _ _ _ fs0) as [fs1 l1]. reflexivity. }
  assert (Hfin : finish_record host (stream_events n failed r0) fs
                 = (fst (stop host (stream_events n failed r0) fs),
                    Json.JObj [("success", Json.JBool true);
                               ("message", Json.JStr "Recording stopped");
                               ("data", Json.JObj [("output", Json.JStr (b +:+ ".m4a"))])],
                    0)).
  { unfold finish_record. rewrite Hfiles. cbn [outputPath].
    destruct (stop host (stream_events n failed r0) fs) as [fsx lines]. reflexivity. }
  rewrite Hfin, Hstop, MergeFacts.mergeAudioFiles_by_tool.
  set (fs0 := fst (stop_recorders host (stream_events n failed r0) fs)).
  split; [| split; [| split; [| split]]].
  - rewrite Hfiles. repeat split. exact Ha.
  - split.
    + rewrite (MergeFacts.directory_append b "_mic.m4a" eq_refl).
      rewrite (MergeFacts.directory_append b ".m4a" eq_refl). reflexivity.
    + rewrite (MergeFacts.directory_append b "_system.m4a" eq_refl).
      rewrite (MergeFacts.directory_append b ".m4a" eq_refl). reflexivity.
  - intros ffmpeg fs1 Hw Hrun.
    assert (Ht : tool_run host (b +:+ "_temp_mic.m4a") (b +:+ "_temp_sys.m4a")
                   (b +:+ ".m4a") fs0 = (Merged, fs1))
      by (unfold tool_run; rewrite Hw, Hrun; reflexivity).
    rewrite Ht. rewrite !MergeFacts.try_removeItem.
    split; [reflexivity |]. split; [| split].
    + rewrite lookup_delete_ne by congruence. apply lookup_delete_eq.
    + apply lookup_delete_eq.
    + rewrite !lookup_delete_ne by congruence. reflexivity.
  - intros fs1 Hcase.
    assert (Ht : tool_run host (b +:+ "_temp_mic.m4a") (b +:+ "_temp_sys.m4a")
                   (b +:+ ".m4a") fs0 = (NotMerged, fs1)).
    { unfold tool_run.
      destruct Hcase as [[Hw ->] | [(ffmpeg & error & Hw & Hrun & ->)
                                    | (ffmpeg & status & Hw & Hrun & Hne)]];
        rewrite Hw; [reflexivity | rewrite Hrun; reflexivity |].
      rewrite Hrun. destruct (Z.eqb_spec status 0); [contradiction | reflexivity]. }
    rewrite Ht. unfold keep_separate.
    rewrite (MergeFacts.remove_m4a_suffix b Hb).
    repeat split; intros;
      rewrite !MergeFacts.try_moveItem_lookup by congruence;
      repeat case_decide; try congruence; reflexivity.
  - reflexivity.
Qed.

(** The statement at a recording to /tmp/meeting.m4a on a host without
    the tool. *)
Lemma merge_or_keep_separate_witness :
  Str.includes "/tmp/meeting" ".m4a" = false
  /\ start Examples.host_without_ffmpeg (session_of_args "/tmp/meeting.m4a" ["--both"])
     = ([(System, "/tmp/meeting_temp_sys.m4a"); (Mic, "/tmp/meeting_temp_mic.m4a")],
        inr (Examples.both_started "/tmp/meeting.m4a"))
  /\ fst (stop Examples.host_without_ffmpeg
            (stream_events 480 false (Examples.both_started "/tmp/meeting.m4a"))
            (Examples.recorded "/tmp/meeting.m4a")) !! "/tmp/meeting_mic.m4a"
     = Some "MIC".
Proof.
  assert (Hb : Str.includes "/tmp/meeting" ".m4a" = false) by (vm_compute; reflexivity).
  assert (Hs : start Examples.host_without_ffmpeg
                 (session_of_args ("/tmp/meeting" +:+ ".m4a") ["--both"])
               = ([(System, "/tmp/meeting_temp_sys.m4a"); (Mic, "/tmp/meeting_temp_mic.m4a")],
                  inr (Examples.both_started "/tmp/meeting.m4a")))
    by (vm_compute; reflexivity).
  split; [exact Hb |]. split; [exact Hs |].
  destruct (merge_or_keep_separate Examples.host_without_ffmpeg "/tmp/meeting" _ _ 480 false
              (Examples.recorded "/tmp/meeting.m4a") Hb Hs)
    as (_ & _ & _ & H & _).
  destruct (H (Examples.recorded "/tmp/meeting.m4a") (or_introl (conj eq_refl eq_refl)))
    as (H1 & _).
  exact H1.
Defined.

(** A recording to /tmp/meeting.m4a on a host without the tool, and on
    a host with it. *)
Example merge_or_keep_separate_run :
  fst (stop Examples.host_without_ffmpeg (Examples.both_running "/tmp/meeting.m4a")
         (Examples.recorded "/tmp/meeting.m4a"))
  = {[ "/tmp/meeting_mic.m4a" := "MIC"; "/tmp/meeting_system.m4a" := "SYS" ]}
  /\ fst (stop Examples.host_with_ffmpeg (Examples.both_running "/tmp/meeting.m4a")
            (Examples.recorded "/tmp/meeting.m4a"))
     = {[ "/tmp/meeting.m4a" := "MIXED" ]}.
Proof. split; vm_compute; reflexivity. Qed.

(** C8 as stated fails in two ways. When the tool runs, begins to write
    the output and exits with status 1, the two files are kept
    separately and the requested output path exists all the same, with
    what the tool left. And when a file "/tmp/meeting_mic.m4a" exists
    already (an earlier recording to the same path that was not merged),
    the microphone file is not renamed: it stays under its temporary
    name. *)
Lemma failed_merge_leaves_output_and_taken_names :
  snd (start Examples.host_with_failing_ffmpeg (session_of_args "/tmp/meeting.m4a" ["--both"]))
  = inr (Examples.both_started "/tmp/meeting.m4a")
  /\ snd (start Examples.host_without_ffmpeg (session_of_args "/tmp/meeting.m4a" ["--both"]))
     = inr (Examples.both_started "/tmp/meeting.m4a")
  /\ Examples.both_running "/tmp/meeting.m4a"
     = stream_events 480 false (Examples.both_started "/tmp/meeting.m4a")
  /\ Examples.recorded "/tmp/meeting.m4a" !! "/tmp/meeting.m4a" = None
  /\ fst (stop Examples.host_with_failing_ffmpeg (Examples.both_running "/tmp/meeting.m4a")
            (Examples.recorded "/tmp/meeting.m4a"))
     = {[ "/tmp/meeting.m4a" := "PARTIAL";
          "/tmp/meeting_mic.m4a" := "MIC"; "/tmp/meeting_system.m4a" := "SYS" ]}
  /\ fst (stop Examples.host_without_ffmpeg (Examples.both_running "/tmp/meeting.m4a")
            (<["/tmp/meeting_mic.m4a" := "EARLIER"]> (Examples.recorded "/tmp/meeting.m4a")))
     = {[ "/tmp/meeting_mic.m4a" := "EARLIER";
          "/tmp/meeting_temp_mic.m4a" := "MIC"; "/tmp/meeting_system.m4a" := "SYS" ]}.
Proof. repeat split; vm_compute; reflexivity. Qed.

End MergeClaim.

(** ** Theorems on [kill], on the end of [stop] and on late exits *)

Module KillFacts.

Section Native.
Import NativeAudioRecorder.

Lemma native_resume_stops_quiet k w :
  kills (snd (resume_stops k w)) = []
  /\ (process (this w) = None -> process (this (fst (resume_stops k w))) = None)
  /\ (state (this w) = idle -> state (this (fst (resume_stops k w))) = idle).
Proof.
  revert w. induction k as [| k IH]; intros w; cbn [resume_stops].
  - repeat split; intros H; exact H.
  - unfold stop_continue.
    specialize (IH (set_process None (set_state idle w))).
    destruct (resume_stops k _) as [w2 e2]. cbn [fst snd] in *.
    destruct IH as (H1 & H2 & H3). split; [exact H1 |].
    split; intros _; [apply H2 | apply H3]; reflexivity.
Qed.

Lemma native_settle_quiet f w :
  kills (snd (settle f w)) = []
  /\ (process (this w) = None -> process (this (fst (settle f w))) = None)
  /\ (state (this w) = idle -> state (this (fst (settle f w))) = idle).
Proof. unfold settle. exact (native_resume_stops_quiet _ (set_awaiting _ w)). Qed.

Lemma native_proc_exit_quiet p code w :
  kills (snd (proc_exit p code w)) = []
  /\ (process (this w) = None -> process (this (fst (proc_exit p code w))) = None)
  /\ (state (this w) = idle -> state (this (fst (proc_exit p code w))) = idle).
Proof.
  unfold proc_exit.
  destruct (existsb (Nat.eqb p) (exit_handlers w)).
  - unfold on_exited. cbn [state this set_exit_handlers].
    destruct (state_eqb (state (this w)) recording) eqn:E.
    + match goal with |- context [settle ?f ?x] =>
        pose proof (native_settle_quiet f x) as (H1 & H2 & H3);
        destruct (settle f x) as [w2 e2] end.
      cbn [fst snd] in *. split; [exact H1 |].
      split; intros H; [apply H2; exact H | apply H3; reflexivity].
    + match goal with |- context [settle ?f ?x] =>
        pose proof (native_settle_quiet f x) as (H1 & H2 & H3);
        destruct (settle f x) as [w2 e2] end.
      cbn [fst snd] in *. split; [exact H1 |].
      split; intros H; [apply H2; exact H | apply H3; exact H].
  - pose proof (native_settle_quiet (fun x => Nat.eqb (snd x) p) w) as (H1 & H2 & H3).
    destruct (settle _ w) as [w2 e2]. cbn [fst snd] in *.
    split; [exact H1 |]. split; assumption.
Qed.

Lemma native_timer_fire_quiet id w :
  process (this w) = None ->
  kills (snd (timer_fire id w)) = []
  /\ process (this (fst (timer_fire id w))) = None
  /\ (state (this w) = idle -> state (this (fst (timer_fire id w))) = idle).
Proof.
  intros Hp. unfold timer_fire.
  destruct (existsb _ (timers w)); [| repeat split; [exact Hp | intros H; exact H]].
  cbn [process this set_timers]. rewrite Hp.
  match goal with |- context [settle ?f ?x] =>
    pose proof (native_settle_quiet f x) as (H1 & H2 & H3);
    destruct (settle f x) as [w2 e2] end.
  cbn [fst snd app] in *. split; [exact H1 |].
  split; [apply H2; exact Hp | exact H3].
Qed.

Lemma native_kills_app a b : kills (a ++ b) = kills a ++ kills b.
Proof. unfold kills. apply flat_map_app. Qed.

Lemma native_fire_all_quiet ids w :
  process (this w) = None ->
  kills (snd (fire_all ids w)) = []
  /\ process (this (fst (fire_all ids w))) = None
  /\ (state (this w) = idle -> state (this (fst (fire_all ids w))) = idle).
Proof.
  revert w. induction ids as [| id r IH]; intros w Hp; cbn [fire_all].
  - repeat split; [exact Hp | intros H; exact H].
  - pose proof (native_timer_fire_quiet id w Hp) as (H1 & H2 & H3).
    destruct (timer_fire id w) as [w1 e1]. cbn [fst snd] in *.
    specialize (IH w1 H2). destruct (fire_all r w1) as [w2 e2]. cbn [fst snd] in *.
    destruct IH as (I1 & I2 & I3).
    rewrite native_kills_app, H1, I1. repeat split; [exact I2 |].
    intros H. apply I3, H3, H.
Qed.

Lemma native_tick_quiet dt w :
  process (this w) = None ->
  kills (snd (tick dt w)) = []
  /\ process (this (fst (tick dt w))) = None
  /\ (state (this w) = idle -> state (this (fst (tick dt w))) = idle).
Proof. intros Hp. unfold tick. exact (native_fire_all_quiet _ (set_now _ w) Hp). Qed.

Lemma native_events_quiet ops w :
  forallb Events.native_event ops = true ->
  process (this w) = None ->
  kills (snd (run ops w)) = []
  /\ process (this (fst (run ops w))) = None
  /\ (state (this w) = idle -> state (this (fst (run ops w))) = idle).
Proof.
  revert w. induction ops as [| op r IH]; intros w Hev Hp; cbn [run].
  - repeat split; [exact Hp | intros H; exact H].
  - cbn [forallb] in Hev. apply andb_prop in Hev as [Hop Hr].
    assert (Hstep : kills (snd (step op w)) = []
                    /\ process (this (fst (step op w))) = None
                    /\ (state (this w) = idle -> state (this (fst (step op w))) = idle)).
    { destruct op; try discriminate Hop; cbn [step].
      - apply native_tick_quiet, Hp.
      - pose proof (native_proc_exit_quiet p code w) as (H1 & H2 & H3).
        split; [exact H1 |]. split; [apply H2, Hp | exact H3]. }
    destruct (step op w) as [w1 e1]. cbn [fst snd] in *.
    destruct Hstep as (H1 & H2 & H3).
    specialize (IH w1 Hr H2). destruct (run r w1) as [w2 e2]. cbn [fst snd] in *.
    destruct IH as (I1 & I2 & I3).
    rewrite native_kills_app, H1, I1. repeat split; [exact I2 |].
    intros H. apply I3, H3, H.
Qed.

End Native.

Section Ffmpeg.
Import AudioRecorder.

Lemma ffmpeg_resume_stops_quiet k w :
  snd (resume_stops k w) = []
  /\ (process (this w) = None -> process (this (fst (resume_stops k w))) = None)
  /\ state (this (fst (resume_stops k w))) = state (this w).
Proof.
  revert w. induction k as [| k IH]; intros w; cbn [resume_stops].
  - repeat split. intros H; exact H.
  - unfold stop_continue.
    specialize (IH (set_process None w)).
    destruct (resume_stops k _) as [w2 e2]. cbn [fst snd] in *.
    destruct IH as (H1 & H2 & H3). rewrite H1. split; [reflexivity |].
    split; [intros _; apply H2; reflexivity | exact H3].
Qed.

Lemma ffmpeg_settle_quiet f w :
  snd (settle f w) = []
  /\ (process (this w) = None -> process (this (fst (settle f w))) = None)
  /\ state (this (fst (settle f w))) = state (this w).
Proof. unfold settle. exact (ffmpeg_resume_stops_quiet _ (set_awaiting _ w)). Qed.

Lemma ffmpeg_kills_app a b : kills (a ++ b) = kills a ++ kills b.
Proof. unfold kills. apply flat_map_app. Qed.

Lemma ffmpeg_proc_exit_quiet p code w :
  kills (snd (proc_exit p code w)) = []
  /\ (process (this w) = None -> process (this (fst (proc_exit p code w))) = None)
  /\ (state (this w) = idle -> state (this (fst (proc_exit p code w))) = idle).
Proof.
  unfold proc_exit.
  destruct (existsb (Nat.eqb p) (exit_handlers w)).
  - unfold on_exited.
    match goal with |- context [settle ?f ?x] =>
      pose proof (ffmpeg_settle_quiet f x) as (H1 & H2 & H3);
      destruct (settle f x) as [w2 e2] end.
    cbn [fst snd] in *. rewrite H1, app_nil_r.
    split; [destruct (Z.eqb code 0); reflexivity |].
    split; [intros H; apply H2; exact H | intros _; rewrite H3; reflexivity].
  - pose proof (ffmpeg_settle_quiet (fun x => Nat.eqb (snd x) p) w) as (H1 & H2 & H3).
    destruct (settle _ w) as [w2 e2]. cbn [fst snd] in *.
    rewrite H1. split; [reflexivity |]. split; [exact H2 | intros H; congruence].
Qed.

Lemma ffmpeg_timer_fire_quiet id w :
  process (this w) = None ->
  snd (timer_fire id w) = []
  /\ process (this (fst (timer_fire id w))) = None
  /\ state (this (fst (timer_fire id w))) = state (this w).
Proof.
  intros Hp. unfold timer_fire.
  destruct (existsb _ (timers w)); [| repeat split; exact Hp].
  cbn [process this set_timers]. rewrite Hp.
  match goal with |- context [settle ?f ?x] =>
    pose proof (ffmpeg_settle_quiet f x) as (H1 & H2 & H3);
    destruct (settle f x) as [w2 e2] end.
  cbn [fst snd app] in *. split; [exact H1 |].
  split; [apply H2; exact Hp | exact H3].
Qed.

Lemma ffmpeg_fire_all_quiet ids w :
  process (this w) = None ->
  snd (fire_all ids w) = []
  /\ process (this (fst (fire_all ids w))) = None
  /\ state (this (fst (fire_all ids w))) = state (this w).
Proof.
  revert w. induction ids as [| id r IH]; intros w Hp; cbn [fire_all].
  - repeat split; exact Hp.
  - pose proof (ffmpeg_timer_fire_quiet id w Hp) as (H1 & H2 & H3).
    destruct (timer_fire id w) as [w1 e1]. cbn [fst snd] in *.
    specialize (IH w1 H2). destruct (fire_all r w1) as [w2 e2]. cbn [fst snd] in *.
    destruct IH as (I1 & I2 & I3).
    rewrite H1, I1. repeat split; [exact I2 | congruence].
Qed.

Lemma ffmpeg_tick_quiet dt w :
  process (this w) = None ->
  snd (tick dt w) = []
  /\ process (this (fst (tick dt w))) = None
  /\ state (this (fst (tick dt w))) = state (this w).
Proof. intros Hp. unfold tick. exact (ffmpeg_fire_all_quiet _ (set_now _ w) Hp). Qed.

Lemma ffmpeg_events_quiet ops w :
  forallb Events.ffmpeg_event ops = true ->
  process (this w) = None ->
  kills (snd (run ops w)) = []
  /\ process (this (fst (run ops w))) = None
  /\ (state (this w) = idle -> state (this (fst (run ops w))) = idle).
Proof.
  revert w. induction ops as [| op r IH]; intros w Hev Hp; cbn [run].
  - repeat split; [exact Hp | intros H; exact H].
  - cbn [forallb] in Hev. apply andb_prop in Hev as [Hop Hr].
    assert (Hstep : kills (snd (step op w)) = []
                    /\ process (this (fst (step op w))) = None
                    /\ (state (this w) = idle -> state (this (fst (step op w))) = idle)).
    { destruct op; try discriminate Hop; cbn [step].
      - pose proof (ffmpeg_tick_quiet dt w Hp) as (H1 & H2 & H3).
        rewrite H1. split; [reflexivity |]. split; [exact H2 | congruence].
      - pose proof (ffmpeg_proc_exit_quiet p code w) as (H1 & H2 & H3).
        split; [exact H1 |]. split; [apply H2, Hp | exact H3]. }
    destruct (step op w) as [w1 e1]. cbn [fst snd] in *.
    destruct Hstep as (H1 & H2 & H3).
    specialize (IH w1 Hr H2). destruct (run r w1) as [w2 e2]. cbn [fst snd] in *.
    destruct IH as (I1 & I2 & I3).
    rewrite ffmpeg_kills_app, H1, I1. repeat split; [exact I2 |].
    intros H. apply I3, H3, H.
Qed.

End Ffmpeg.

End KillFacts.

Module KillTheorems.

(** X1. [NativeAudioRecorder.kill()] from any state: the subprocess held,
    if any, is sent SIGKILL and nothing else is signalled; the recorder
    is idle with no process and the listeners are told last. Afterwards
    no timer left from an earlier [stop()] and no exit of a subprocess
    sends a signal or moves the recorder out of idle, and [start()] is
    accepted again. *)
Theorem native_kill_silences_recorder
    (w : NativeAudioRecorder.World) (ops : list NativeAudioRecorder.Op) (path : string) :
  forallb Events.native_event ops = true ->
  let w1 := fst (NativeAudioRecorder.kill w) in
  let w2 := fst (NativeAudioRecorder.run ops w1) in
  NativeAudioRecorder.state (NativeAudioRecorder.this w1) = NativeAudioRecorder.idle
  /\ NativeAudioRecorder.process (NativeAudioRecorder.this w1) = None
  /\ NativeAudioRecorder.kills (snd (NativeAudioRecorder.kill w))
     = match NativeAudioRecorder.process (NativeAudioRecorder.this w) with
       | Some p => [(p, SIGKILL)]
       | None => []
       end
  /\ List.last (snd (NativeAudioRecorder.kill w)) (NativeAudioRecorder.DebugLog "")
     = NativeAudioRecorder.Emit (NativeAudioRecorder.stateChange NativeAudioRecorder.idle)
  /\ NativeAudioRecorder.kills (snd (NativeAudioRecorder.run ops w1)) = []
  /\ NativeAudioRecorder.state (NativeAudioRecorder.this w2) = NativeAudioRecorder.idle
  /\ NativeAudioRecorder.process (NativeAudioRecorder.this w2) = None
  /\ fst (fst (NativeAudioRecorder.start path None w2)) = Ok tt.
Proof.
  intros Hev w1 w2.
  assert (Hs : NativeAudioRecorder.state (NativeAudioRecorder.this w1)
               = NativeAudioRecorder.idle).
  { unfold w1, NativeAudioRecorder.kill.
    destruct (NativeAudioRecorder.process (NativeAudioRecorder.this w)); reflexivity. }
  assert (Hp : NativeAudioRecorder.process (NativeAudioRecorder.this w1) = None).
  { unfold w1, NativeAudioRecorder.kill.
    destruct (NativeAudioRecorder.process (NativeAudioRecorder.this w)) eqn:E;
      cbn; [reflexivity | exact E]. }
  destruct (KillFacts.native_events_quiet ops w1 Hev Hp) as (H1 & H2 & H3).
  split; [exact Hs |]. split; [exact Hp |].
  split; [unfold NativeAudioRecorder.kill;
          destruct (NativeAudioRecorder.process (NativeAudioRecorder.this w)); reflexivity |].
  split; [unfold NativeAudioRecorder.kill;
          destruct (NativeAudioRecorder.process (NativeAudioRecorder.this w)); reflexivity |].
  split; [exact H1 |]. split; [exact (H3 Hs) |]. split; [exact H2 |].
  unfold NativeAudioRecorder.start. subst w2. rewrite (H3 Hs). reflexivity.
Qed.

(** The statement at a recorder killed two seconds into its [stop()]:
    the timer of that [stop()] and the exit of the killed helper follow. *)
Lemma native_kill_silences_recorder_witness :
  let w := Scenarios.native_stopping in
  let ops := [NativeAudioRecorder.Tick 6000; NativeAudioRecorder.ProcExit 0 137] in
  NativeAudioRecorder.process (NativeAudioRecorder.this w) = Some O
  /\ NativeAudioRecorder.timers w <> []
  /\ NativeAudioRecorder.kills (snd (NativeAudioRecorder.kill w)) = [(O, SIGKILL)]
  /\ NativeAudioRecorder.kills
       (snd (NativeAudioRecorder.run ops (fst (NativeAudioRecorder.kill w)))) = [].
Proof.
  intros w ops.
  assert (Hev : forallb Events.native_event ops = true) by reflexivity.
  pose proof (native_kill_silences_recorder w ops "recorder" Hev) as H.
  cbv zeta in H. destruct H as (_ & _ & Hk & _ & Hq & _).
  split; [vm_compute; reflexivity |].
  split; [vm_compute; discriminate |].
  split; [rewrite Hk; vm_compute; reflexivity | exact Hq].
Defined.

(** X2. [AudioRecorder.kill()] from any state, paused included: the
    subprocess held, if any, is sent the default signal (SIGTERM) and
    nothing else, no SIGCONT before it; the recorder is idle with no
    process. Afterwards no timer left from an earlier [stop()] and no
    exit of a subprocess sends a signal or moves the recorder out of
    idle. *)
Theorem ffmpeg_kill_silences_recorder
    (w : AudioRecorder.World) (ops : list AudioRecorder.Op) :
  forallb Events.ffmpeg_event ops = true ->
  let w1 := fst (AudioRecorder.kill w) in
  let w2 := fst (AudioRecorder.run ops w1) in
  AudioRecorder.state (AudioRecorder.this w1) = AudioRecorder.idle
  /\ AudioRecorder.process (AudioRecorder.this w1) = None
  /\ AudioRecorder.kills (snd (AudioRecorder.kill w))
     = match AudioRecorder.process (AudioRecorder.this w) with
       | Some p => [(p, SIGTERM)]
       | None => []
       end
  /\ AudioRecorder.kills (snd (AudioRecorder.run ops w1)) = []
  /\ AudioRecorder.state (AudioRecorder.this w2) = AudioRecorder.idle
  /\ AudioRecorder.process (AudioRecorder.this w2) = None.
Proof.
  intros Hev w1 w2.
  assert (Hs : AudioRecorder.state (AudioRecorder.this w1) = AudioRecorder.idle).
  { unfold w1, AudioRecorder.kill.
    destruct (AudioRecorder.process (AudioRecorder.this w)); reflexivity. }
  assert (Hp : AudioRecorder.process (AudioRecorder.this w1) = None).
  { unfold w1, AudioRecorder.kill.
    destruct (AudioRecorder.process (AudioRecorder.this w)) eqn:E;
      cbn; [reflexivity | exact E]. }
  destruct (KillFacts.ffmpeg_events_quiet ops w1 Hev Hp) as (H1 & H2 & H3).
  split; [exact Hs |]. split; [exact Hp |].
  split; [unfold AudioRecorder.kill;
          destruct (AudioRecorder.process (AudioRecorder.this w)); reflexivity |].
  split; [exact H1 |]. split; [exact (H3 Hs) | exact H2].
Qed.

(** The statement at a paused recorder: SIGTERM only. *)
Lemma ffmpeg_kill_silences_recorder_witness :
  let w := Scenarios.ffmpeg_paused in
  let ops := [AudioRecorder.Tick 6000; AudioRecorder.ProcExit 0 143] in
  AudioRecorder.state (AudioRecorder.this w) = AudioRecorder.paused
  /\ AudioRecorder.kills (snd (AudioRecorder.kill w)) = [(O, SIGTERM)]
  /\ AudioRecorder.kills (snd (AudioRecorder.run ops (fst (AudioRecorder.kill w)))) = [].
Proof.
  intros w ops.
  assert (Hev : forallb Events.ffmpeg_event ops = true) by reflexivity.
  pose proof (ffmpeg_kill_silences_recorder w ops Hev) as H.
  cbv zeta in H. destruct H as (_ & _ & Hk & Hq & _).
  split; [vm_compute; reflexivity |].
  split; [rewrite Hk; vm_compute; reflexivity | exact Hq].
Defined.

End KillTheorems.

(** ** Theorems on the end of [stop] and on late exits *)

Module StopEndFacts.

Section Native.
Import NativeAudioRecorder.

Lemma native_proc_exit_at_rest p code w :
  Events.at_rest w -> snd (proc_exit p code w) = [] /\ Events.at_rest (fst (proc_exit p code w)).
Proof.
  destruct w as [[st pr cf t0] h nw np nt eh aw tm]. unfold Events.at_rest. cbn.
  intros (-> & -> & ->). unfold proc_exit. cbn.
  destruct (existsb (Nat.eqb p) eh); cbn; repeat split.
Qed.

Lemma native_timer_fire_at_rest id w :
  Events.at_rest w -> snd (timer_fire id w) = [] /\ Events.at_rest (fst (timer_fire id w)).
Proof.
  destruct w as [[st pr cf t0] h nw np nt eh aw tm]. unfold Events.at_rest. cbn.
  intros (-> & -> & ->). unfold timer_fire. cbn.
  destruct (existsb _ tm); cbn; repeat split.
Qed.

Lemma native_fire_all_at_rest ids w :
  Events.at_rest w -> snd (fire_all ids w) = [] /\ Events.at_rest (fst (fire_all ids w)).
Proof.
  revert w. induction ids as [| id r IH]; intros w H; cbn [fire_all].
  - split; [reflexivity | exact H].
  - destruct (native_timer_fire_at_rest id w H) as [H1 H2].
    destruct (timer_fire id w) as [w1 e1]. cbn [fst snd] in *.
    destruct (IH w1 H2) as [I1 I2].
    destruct (fire_all r w1) as [w2 e2]. cbn [fst snd] in *.
    rewrite H1, I1. split; [reflexivity | exact I2].
Qed.

Lemma native_tick_at_rest dt w :
  Events.at_rest w -> snd (tick dt w) = [] /\ Events.at_rest (fst (tick dt w)).
Proof. intros H. unfold tick. exact (native_fire_all_at_rest _ (set_now _ w) H). Qed.

Lemma native_events_at_rest ops w :
  forallb Events.native_event ops = true -> Events.at_rest w ->
  snd (run ops w) = [] /\ Events.at_rest (fst (run ops w)).
Proof.
  revert w. induction ops as [| op r IH]; intros w Hev H; cbn [run].
  - split; [reflexivity | exact H].
  - cbn [forallb] in Hev. apply andb_prop in Hev as [Hop Hr].
    assert (Hstep : snd (step op w) = [] /\ Events.at_rest (fst (step op w))).
    { destruct op; try discriminate Hop; cbn [step].
      - apply native_tick_at_rest, H.
      - apply native_proc_exit_at_rest, H. }
    destruct (step op w) as [w1 e1]. cbn [fst snd] in *.
    destruct Hstep as [H1 H2]. destruct (IH w1 Hr H2) as [I1 I2].
    destruct (run r w1) as [w2 e2]. cbn [fst snd] in *.
    rewrite H1, I1. split; [reflexivity | exact I2].
Qed.

End Native.

Lemma existsb_eqb_app p l q : In p l -> existsb (Nat.eqb p) (l ++ [q]) = true.
Proof.
  intros H. rewrite existsb_app. rewrite (ExitFacts.existsb_eqb_In _ _ H). reflexivity.
Qed.

End StopEndFacts.

Module StopEndTheorems.

(** X3. A native recorder whose [stop()] has completed, by the exit of
    the helper within five seconds or by the timeout, is idle with no
    process, and from then on no timer and no exit of a subprocess makes
    it emit an event, send a signal, spawn a process or leave the idle
    state: the object can be dropped, as the application does. (When
    the helper killed at the timeout exits, the exit handler still runs
    and hands its line to the debug logger; it finds the state idle and
    does nothing else.) *)
Theorem native_finished_recorder_is_silent
    (w : NativeAudioRecorder.World) (p : nat) (dt code : Z)
    (ops : list NativeAudioRecorder.Op) :
  NativeAudioRecorder.no_stale_timer w p ->
  forallb Events.native_event ops = true ->
  let w1 := snd (fst (NativeAudioRecorder.stop w)) in
  let w2 := if Z.ltb dt 5000
            then fst (NativeAudioRecorder.proc_exit p code (fst (NativeAudioRecorder.tick dt w1)))
            else fst (NativeAudioRecorder.tick dt w1) in
  let w3 := fst (NativeAudioRecorder.run ops w2) in
  NativeAudioRecorder.state (NativeAudioRecorder.this w2) = NativeAudioRecorder.idle
  /\ NativeAudioRecorder.process (NativeAudioRecorder.this w2) = None
  /\ Events.native_emitted (snd (NativeAudioRecorder.run ops w2)) = []
  /\ NativeAudioRecorder.kills (snd (NativeAudioRecorder.run ops w2)) = []
  /\ Events.native_spawned (snd (NativeAudioRecorder.run ops w2)) = []
  /\ NativeAudioRecorder.state (NativeAudioRecorder.this w3) = NativeAudioRecorder.idle
  /\ NativeAudioRecorder.process (NativeAudioRecorder.this w3) = None.
Proof.
  intros Hf Hev w1 w2 w3.
  assert (Hr : Events.at_rest w2).
  { destruct (StopFacts.native_stop_sends_sigint w p Hf)
      as (w1' & E & Hs & Hp & Hn & Ht & Ha & He).
    subst w2 w1. rewrite E. cbn [fst snd]. rewrite <- Hn in Ht. clear E Hn He Hf.
    destruct (Z.ltb_spec dt 5000) as [Hlt | Hge].
    - rewrite (StopFacts.native_tick_early w1' _ dt Ht Hlt). cbn [fst].
      destruct w1' as [[st pr cf t0] h nw np nt eh aw tm]. cbn in *. subst.
      unfold Events.at_rest, NativeAudioRecorder.proc_exit. cbn.
      destruct (existsb (Nat.eqb p) _); cbn; rewrite Nat.eqb_refl; cbn; repeat split.
    - destruct w1' as [[st pr cf t0] h nw np nt eh aw tm]. cbn in *. subst.
      unfold Events.at_rest, NativeAudioRecorder.tick. cbn.
      destruct (Z.leb_spec (nw + 5000) (nw + Z.max 0 dt)); [| lia].
      cbn. unfold NativeAudioRecorder.timer_fire, NativeAudioRecorder.settle. cbn.
      rewrite Nat.eqb_refl. cbn. repeat split. }
  destruct (StopEndFacts.native_events_at_rest ops w2 Hev Hr) as [H1 (H2 & H3 & _)].
  destruct Hr as (Hs & Hp & _).
  split; [exact Hs |]. split; [exact Hp |].
  rewrite H1. repeat split; assumption.
Qed.

(** The statement at a recorder one second into its recording, stopped,
    the helper not exiting: it is killed at five seconds and exits two
    seconds later with status 137. *)
Lemma native_finished_recorder_is_silent_witness :
  NativeAudioRecorder.no_stale_timer Scenarios.native_recording O
  /\ NativeAudioRecorder.kills
       (snd (NativeAudioRecorder.tick 5000
               (snd (fst (NativeAudioRecorder.stop Scenarios.native_recording)))))
     = [(O, SIGKILL)]
  /\ Events.native_emitted
       (snd (NativeAudioRecorder.run
               [NativeAudioRecorder.Tick 2000; NativeAudioRecorder.ProcExit 0 137]
               (fst (NativeAudioRecorder.tick 5000
                       (snd (fst (NativeAudioRecorder.stop Scenarios.native_recording)))))))
     = [].
Proof.
  assert (Hf : NativeAudioRecorder.no_stale_timer Scenarios.native_recording O)
    by (vm_compute; repeat split).
  split; [exact Hf |]. split; [vm_compute; reflexivity |].
  assert (Hev : forallb Events.native_event
                  [NativeAudioRecorder.Tick 2000; NativeAudioRecorder.ProcExit 0 137] = true)
    by reflexivity.
  pose proof (native_finished_recorder_is_silent Scenarios.native_recording O 5000 137 _ Hf Hev)
    as H.
  cbv zeta in H. destruct H as (_ & _ & H & _). exact H.
Defined.

(** X4. What [stop()] leaves when the subprocess does not exit within
    five seconds. The native recorder is idle with no process and
    [start()] is accepted. The FFmpeg recorder has sent SIGKILL and
    dropped the process but is still in the state stopping: [start()] and
    [stop()] both throw, until the exit of the killed process is
    reported, which makes it idle. *)
Theorem stop_timeout_native_idle_ffmpeg_stopping
    (n : NativeAudioRecorder.World) (w : AudioRecorder.World) (p q : nat)
    (dt code : Z) (path : string) (err : option string) :
  NativeAudioRecorder.no_stale_timer n p ->
  AudioRecorder.no_stale_timer w q ->
  In q (AudioRecorder.exit_handlers w) ->
  5000 <= dt ->
  let n2 := fst (NativeAudioRecorder.tick dt (snd (fst (NativeAudioRecorder.stop n)))) in
  let w2 := fst (AudioRecorder.tick dt (snd (fst (AudioRecorder.stop w)))) in
  (NativeAudioRecorder.state (NativeAudioRecorder.this n2) = NativeAudioRecorder.idle
   /\ NativeAudioRecorder.process (NativeAudioRecorder.this n2) = None
   /\ fst (fst (NativeAudioRecorder.start path None n2)) = Ok tt)
  /\ (AudioRecorder.kills (snd (AudioRecorder.tick dt (snd (fst (AudioRecorder.stop w)))))
      = [(q, SIGKILL)]
      /\ AudioRecorder.state (AudioRecorder.this w2) = AudioRecorder.stopping
      /\ AudioRecorder.process (AudioRecorder.this w2) = None
      /\ fst (fst (AudioRecorder.start err w2))
         = Throw (AudioRecorder.CannotStart AudioRecorder.stopping)
      /\ fst (fst (AudioRecorder.stop w2))
         = Throw (AudioRecorder.CannotStop AudioRecorder.stopping)
      /\ AudioRecorder.state
           (AudioRecorder.this (fst (AudioRecorder.proc_exit q code w2)))
         = AudioRecorder.idle).
Proof.
  intros Hn Hw Hq Hdt n2 w2. split.
  - destruct (StopFacts.native_stop_sends_sigint n p Hn)
      as (n1 & E & Hs & Hp & Hnow & Ht & Ha & He).
    subst n2. rewrite E. cbn [fst snd]. rewrite <- Hnow in Ht.
    destruct (StopFacts.native_tick_late n1 _ p dt Ht Ha Hp Hdt) as (_ & H2 & H3).
    split; [exact H2 |]. split; [exact H3 |].
    unfold NativeAudioRecorder.start. rewrite H2. reflexivity.
  - destruct (StopFacts.ffmpeg_stop_sends_sigint w q Hw)
      as (w1 & E & Hs & Hp & Hnow & Ht & Ha & He).
    subst w2. rewrite E. cbn [fst snd]. rewrite <- Hnow in Ht.
    assert (Hin : In q (AudioRecorder.exit_handlers w1)) by (rewrite He; exact Hq).
    clear E He Hq Hw Hnow.
    destruct w1 as [[st pr cf pl t0 pd ps] h nw np nt eh aw tm]. cbn in *. subst.
    unfold AudioRecorder.tick. cbn.
    destruct (Z.leb_spec (nw + 5000) (nw + Z.max 0 dt)); [| lia].
    cbn. unfold AudioRecorder.timer_fire, AudioRecorder.settle. cbn.
    rewrite Nat.eqb_refl. cbn.
    repeat split.
    unfold AudioRecorder.proc_exit. cbn.
    rewrite (ExitFacts.existsb_eqb_In _ _ Hin). cbn. reflexivity.
Qed.

(** The statement at the two recorders one second into a recording,
    six seconds after [stop()]. *)
Lemma stop_timeout_native_idle_ffmpeg_stopping_witness :
  AudioRecorder.state
    (AudioRecorder.this
       (fst (AudioRecorder.tick 6000 (snd (fst (AudioRecorder.stop Scenarios.ffmpeg_recording))))))
  = AudioRecorder.stopping
  /\ NativeAudioRecorder.state
       (NativeAudioRecorder.this
          (fst (NativeAudioRecorder.tick 6000
                  (snd (fst (NativeAudioRecorder.stop Scenarios.native_recording))))))
     = NativeAudioRecorder.idle.
Proof.
  assert (Hn : NativeAudioRecorder.no_stale_timer Scenarios.native_recording O)
    by (vm_compute; repeat split).
  assert (Hw : AudioRecorder.no_stale_timer Scenarios.ffmpeg_recording O)
    by (vm_compute; repeat split; left; reflexivity).
  assert (Hq : In O (AudioRecorder.exit_handlers Scenarios.ffmpeg_recording))
    by (vm_compute; left; reflexivity).
  assert (Hdt : 5000 <= 6000) by lia.
  pose proof (stop_timeout_native_idle_ffmpeg_stopping
                Scenarios.native_recording Scenarios.ffmpeg_recording O O 6000 137
                "recorder" None Hn Hw Hq Hdt) as H.
  cbv zeta in H. destruct H as ((H1 & _) & (_ & H2 & _)).
  split; [exact H2 | exact H1].
Defined.

(** X5. The exit of a subprocess that was replaced. After [kill()] and
    a new [start()] on the same native recorder, the exit of the killed
    helper runs the handler attached by the first [start()], which finds
    the state recording: the recorder goes idle and tells the listeners
    so while the new helper is still running and held; no signal is sent
    to it, [stop()] then throws and the elapsed time reads 0. *)
Theorem native_exit_of_killed_helper_idles_new_recording
    (w : NativeAudioRecorder.World) (p : nat) (code : Z) (path : string) :
  NativeAudioRecorder.no_stale_timer w p ->
  In p (NativeAudioRecorder.exit_handlers w) ->
  NativeAudioRecorder.next_pid w <> p ->
  let w1 := fst (NativeAudioRecorder.kill w) in
  let w2 := snd (fst (NativeAudioRecorder.start path None w1)) in
  let w3 := fst (NativeAudioRecorder.proc_exit p code w2) in
  NativeAudioRecorder.state (NativeAudioRecorder.this w2) = NativeAudioRecorder.recording
  /\ NativeAudioRecorder.process (NativeAudioRecorder.this w2)
     = Some (NativeAudioRecorder.next_pid w)
  /\ snd (NativeAudioRecorder.proc_exit p code w2)
     = [NativeAudioRecorder.Emit (NativeAudioRecorder.stateChange NativeAudioRecorder.idle)]
  /\ NativeAudioRecorder.state (NativeAudioRecorder.this w3) = NativeAudioRecorder.idle
  /\ NativeAudioRecorder.process (NativeAudioRecorder.this w3)
     = Some (NativeAudioRecorder.next_pid w)
  /\ fst (fst (NativeAudioRecorder.stop w3))
     = Throw (NativeAudioRecorder.CannotStop NativeAudioRecorder.idle)
  /\ NativeAudioRecorder.getElapsedTime w3 = 0.
Proof.
  intros (Hs & Hp & Ht & Ha) Hin Hne w1 w2 w3. subst w3 w2 w1.
  destruct w as [[st pr cf t0] h nw np nt eh aw tm]. cbn in *. subst.
  unfold NativeAudioRecorder.kill, NativeAudioRecorder.start. cbn.
  unfold NativeAudioRecorder.proc_exit. cbn.
  rewrite (StopEndFacts.existsb_eqb_app _ _ _ Hin). cbn.
  repeat split.
Qed.

Lemma native_exit_of_killed_helper_idles_new_recording_witness :
  NativeAudioRecorder.process
    (NativeAudioRecorder.this
       (fst (NativeAudioRecorder.proc_exit O 137
               (snd (fst (NativeAudioRecorder.start "recorder" None
                            (fst (NativeAudioRecorder.kill Scenarios.native_recording))))))))
  = Some 1%nat
  /\ NativeAudioRecorder.state
       (NativeAudioRecorder.this
          (fst (NativeAudioRecorder.proc_exit O 137
                  (snd (fst (NativeAudioRecorder.start "recorder" None
                               (fst (NativeAudioRecorder.kill Scenarios.native_recording))))))))
     = NativeAudioRecorder.idle.
Proof.
  assert (Hf : NativeAudioRecorder.no_stale_timer Scenarios.native_recording O)
    by (vm_compute; repeat split).
  assert (Hin : In O (NativeAudioRecorder.exit_handlers Scenarios.native_recording))
    by (vm_compute; left; reflexivity).
  assert (Hne : NativeAudioRecorder.next_pid Scenarios.native_recording <> O)
    by (vm_compute; discriminate).
  pose proof (native_exit_of_killed_helper_idles_new_recording
                Scenarios.native_recording O 137 "recorder" Hf Hin Hne) as H.
  cbv zeta in H. destruct H as (_ & _ & _ & Hs & Hp & _).
  split; [exact Hp | exact Hs].
Defined.

(** X6. [stop()] on a paused FFmpeg recorder does not close the pause:
    the state becomes stopping without the time since [pause()] being
    added to the paused duration. The elapsed time, frozen while paused,
    jumps forward by the length of that pause, and the duration reported
    by the finished event when FFmpeg then exits with code 0 counts the
    pause as recorded time. *)
Theorem ffmpeg_stop_while_paused_counts_the_pause
    (w : AudioRecorder.World) (p : nat) (dt : Z) :
  AudioRecorder.state (AudioRecorder.this w) = AudioRecorder.paused ->
  AudioRecorder.process (AudioRecorder.this w) = Some p ->
  AudioRecorder.timers w = [] -> AudioRecorder.awaiting w = [] ->
  In p (AudioRecorder.exit_handlers w) ->
  0 <= dt < 5000 ->
  let pause_length := AudioRecorder.now w - AudioRecorder.pauseStartTime (AudioRecorder.this w) in
  let w1 := snd (fst (AudioRecorder.stop w)) in
  let w2 := fst (AudioRecorder.tick dt w1) in
  AudioRecorder.getElapsedTime w1 = AudioRecorder.getElapsedTime w + pause_length
  /\ snd (AudioRecorder.proc_exit p 0 w2)
     = [AudioRecorder.Emit
          (AudioRecorder.finished
             (Js.get (AudioRecorder.the_config w) "outputPath")
             (AudioRecorder.getElapsedTime w + pause_length + dt));
        AudioRecorder.Emit (AudioRecorder.stateChange AudioRecorder.idle)].
Proof.
  intros Hs Hp Ht Ha Hin Hdt pl w1 w2. subst pl w2 w1.
  destruct w as [[st pr cf plat t0 pd ps] h nw np nt eh aw tm]. cbn in *. subst.
  unfold AudioRecorder.stop. cbn.
  split.
  - unfold AudioRecorder.getElapsedTime. cbn. lia.
  - unfold AudioRecorder.tick. cbn.
    destruct (Z.leb_spec (nw + 5000) (nw + Z.max 0 dt)); [lia |].
    cbn. unfold AudioRecorder.proc_exit. cbn.
    rewrite (ExitFacts.existsb_eqb_In _ _ Hin). cbn.
    unfold AudioRecorder.settle. cbn. rewrite Nat.eqb_refl. cbn.
    unfold AudioRecorder.getElapsedTime, AudioRecorder.the_config. cbn.
    do 3 f_equal. lia.
Qed.

(** The statement at a recorder paused after one second of recording and
    stopped four seconds later, FFmpeg exiting after 200 ms: the reported
    duration is 5200 ms. *)
Lemma ffmpeg_stop_while_paused_counts_the_pause_witness :
  AudioRecorder.getElapsedTime Scenarios.ffmpeg_paused = 1000
  /\ snd (AudioRecorder.proc_exit O 0
            (fst (AudioRecorder.tick 200
                    (snd (fst (AudioRecorder.stop Scenarios.ffmpeg_paused))))))
     = [AudioRecorder.Emit (AudioRecorder.finished (Js.VStr "/tmp/meeting.m4a") 5200);
        AudioRecorder.Emit (AudioRecorder.stateChange AudioRecorder.idle)].
Proof.
  assert (Hin : In O (AudioRecorder.exit_handlers Scenarios.ffmpeg_paused))
    by (vm_compute; left; reflexivity).
  assert (Hdt : 0 <= 200 < 5000) by lia.
  pose proof (ffmpeg_stop_while_paused_counts_the_pause Scenarios.ffmpeg_paused O 200
                eq_refl eq_refl eq_refl eq_refl Hin Hdt) as H.
  cbv zeta in H. destruct H as (_ & H).
  split; [vm_compute; reflexivity |].
  rewrite H. vm_compute. reflexivity.
Defined.

End StopEndTheorems.

(** ** Theorems on the configuration and on the helper's command line *)

Module ConfigMoreFacts.

Lemma spread_assoc (a b c : gmap string Js.value) :
  Js.spread (Js.spread a b) c = Js.spread a (Js.spread b c).
Proof. unfold Js.spread. apply (assoc_L (∪)). Qed.

Lemma native_setConfig_config (w : NativeAudioRecorder.World) partial :
  NativeAudioRecorder.state (NativeAudioRecorder.this w) = NativeAudioRecorder.idle ->
  NativeAudioRecorder.the_config (snd (fst (NativeAudioRecorder.setConfig partial w)))
  = Js.spread (NativeAudioRecorder.the_config w) partial
  /\ NativeAudioRecorder.state
       (NativeAudioRecorder.this (snd (fst (NativeAudioRecorder.setConfig partial w))))
     = NativeAudioRecorder.idle.
Proof.
  intros H. unfold NativeAudioRecorder.setConfig. rewrite H.
  cbn [NativeAudioRecorder.state_eqb negb].
  pose proof (ConfigFacts.alloc_deref
                (Js.spread (NativeAudioRecorder.the_config w) partial)
                (NativeAudioRecorder.heap w)) as Hd.
  destruct (Js.alloc _ (NativeAudioRecorder.heap w)) as [a h].
  cbn [fst snd] in *. split; [exact Hd | exact H].
Qed.

Lemma ffmpeg_setConfig_config (w : AudioRecorder.World) partial :
  AudioRecorder.state (AudioRecorder.this w) = AudioRecorder.idle ->
  AudioRecorder.the_config (snd (fst (AudioRecorder.setConfig partial w)))
  = Js.spread (AudioRecorder.the_config w) partial
  /\ AudioRecorder.state (AudioRecorder.this (snd (fst (AudioRecorder.setConfig partial w))))
     = AudioRecorder.idle.
Proof.
  intros H. unfold AudioRecorder.setConfig. rewrite H.
  cbn [AudioRecorder.state_eqb negb].
  pose proof (ConfigFacts.alloc_deref
                (Js.spread (AudioRecorder.the_config w) partial)
                (AudioRecorder.heap w)) as Hd.
  destruct (Js.alloc _ (AudioRecorder.heap w)) as [a h].
  cbn [fst snd] in *. split; [exact Hd | exact H].
Qed.

Lemma native_new_config cfg t0 pid0 :
  NativeAudioRecorder.the_config (NativeAudioRecorder.new cfg t0 pid0)
  = Js.spread NativeAudioRecorder.defaults cfg
  /\ NativeAudioRecorder.state (NativeAudioRecorder.this (NativeAudioRecorder.new cfg t0 pid0))
     = NativeAudioRecorder.idle.
Proof.
  unfold NativeAudioRecorder.new.
  pose proof (ConfigFacts.alloc_deref (Js.spread NativeAudioRecorder.defaults cfg) ∅) as Hd.
  destruct (Js.alloc _ ∅) as [a h]. cbn [fst snd] in *. split; [exact Hd | reflexivity].
Qed.

Lemma ffmpeg_new_config platform cfg h t0 pid0 :
  AudioRecorder.the_config (AudioRecorder.new platform cfg h t0 pid0)
  = Js.spread AudioRecorder.defaults cfg
  /\ AudioRecorder.state (AudioRecorder.this (AudioRecorder.new platform cfg h t0 pid0))
     = AudioRecorder.idle.
Proof.
  unfold AudioRecorder.new.
  pose proof (ConfigFacts.alloc_deref (Js.spread AudioRecorder.defaults cfg) h) as Hd.
  destruct (Js.alloc _ h) as [a h1]. cbn [fst snd] in *. split; [exact Hd | reflexivity].
Qed.

End ConfigMoreFacts.

Module ConfigTheorems.

(** X7. Configuration composes. On an idle recorder of either class two
    [setConfig] calls leave the configuration that one call with the two
    partial configurations merged (the later one winning) leaves; and a
    recorder constructed with [cfg] and then given [setConfig(p)] has the
    configuration of a recorder constructed with [{...cfg, ...p}], the
    defaults of the constructor filling what neither sets. *)
Theorem setConfig_calls_compose
    (n : NativeAudioRecorder.World) (w : AudioRecorder.World)
    (p1 p2 : gmap string Js.value) :
  NativeAudioRecorder.state (NativeAudioRecorder.this n) = NativeAudioRecorder.idle ->
  AudioRecorder.state (AudioRecorder.this w) = AudioRecorder.idle ->
  NativeAudioRecorder.the_config
    (snd (fst (NativeAudioRecorder.setConfig p2
                 (snd (fst (NativeAudioRecorder.setConfig p1 n))))))
  = NativeAudioRecorder.the_config
      (snd (fst (NativeAudioRecorder.setConfig (Js.spread p1 p2) n)))
  /\ AudioRecorder.the_config
       (snd (fst (AudioRecorder.setConfig p2 (snd (fst (AudioRecorder.setConfig p1 w))))))
     = AudioRecorder.the_config (snd (fst (AudioRecorder.setConfig (Js.spread p1 p2) w)))
  /\ (forall cfg t0 pid0,
        NativeAudioRecorder.the_config
          (snd (fst (NativeAudioRecorder.setConfig p1 (NativeAudioRecorder.new cfg t0 pid0))))
        = NativeAudioRecorder.the_config
            (NativeAudioRecorder.new (Js.spread cfg p1) t0 pid0))
  /\ (forall platform cfg h t0 pid0,
        AudioRecorder.the_config
          (snd (fst (AudioRecorder.setConfig p1 (AudioRecorder.new platform cfg h t0 pid0))))
        = AudioRecorder.the_config
            (AudioRecorder.new platform (Js.spread cfg p1) h t0 pid0)).
Proof.
  intros Hn Hw. split; [| split; [| split]].
  - destruct (ConfigMoreFacts.native_setConfig_config n p1 Hn) as [E1 I1].
    destruct (ConfigMoreFacts.native_setConfig_config _ p2 I1) as [E2 _].
    destruct (ConfigMoreFacts.native_setConfig_config n (Js.spread p1 p2) Hn) as [E3 _].
    rewrite E2, E1, E3. apply ConfigMoreFacts.spread_assoc.
  - destruct (ConfigMoreFacts.ffmpeg_setConfig_config w p1 Hw) as [E1 I1].
    destruct (ConfigMoreFacts.ffmpeg_setConfig_config _ p2 I1) as [E2 _].
    destruct (ConfigMoreFacts.ffmpeg_setConfig_config w (Js.spread p1 p2) Hw) as [E3 _].
    rewrite E2, E1, E3. apply ConfigMoreFacts.spread_assoc.
  - intros cfg t0 pid0.
    destruct (ConfigMoreFacts.native_new_config cfg t0 pid0) as [E1 I1].
    destruct (ConfigMoreFacts.native_setConfig_config _ p1 I1) as [E2 _].
    destruct (ConfigMoreFacts.native_new_config (Js.spread cfg p1) t0 pid0) as [E3 _].
    rewrite E2, E1, E3. apply ConfigMoreFacts.spread_assoc.
  - intros platform cfg h t0 pid0.
    destruct (ConfigMoreFacts.ffmpeg_new_config platform cfg h t0 pid0) as [E1 I1].
    destruct (ConfigMoreFacts.ffmpeg_setConfig_config _ p1 I1) as [E2 _].
    destruct (ConfigMoreFacts.ffmpeg_new_config platform (Js.spread cfg p1) h t0 pid0)
      as [E3 _].
    rewrite E2, E1, E3. apply ConfigMoreFacts.spread_assoc.
Qed.

(** The statement at the two sample recorders: the output path set
    first, then the mode. *)
Lemma setConfig_calls_compose_witness :
  NativeAudioRecorder.the_config
    (snd (fst (NativeAudioRecorder.setConfig {[ "recordSystem" := Js.VBool false ]}
                 (snd (fst (NativeAudioRecorder.setConfig
                              {[ "outputPath" := Js.VStr "/tmp/a.m4a" ]} Examples.native0))))))
  = NativeAudioRecorder.the_config
      (snd (fst (NativeAudioRecorder.setConfig
                   (Js.spread {[ "outputPath" := Js.VStr "/tmp/a.m4a" ]}
                      {[ "recordSystem" := Js.VBool false ]}) Examples.native0))).
Proof.
  assert (Hn : NativeAudioRecorder.state (NativeAudioRecorder.this Examples.native0)
               = NativeAudioRecorder.idle) by reflexivity.
  assert (Hw : AudioRecorder.state (AudioRecorder.this Examples.ffmpeg0)
               = AudioRecorder.idle) by reflexivity.
  exact (proj1 (setConfig_calls_compose Examples.native0 Examples.ffmpeg0
                  {[ "outputPath" := Js.VStr "/tmp/a.m4a" ]}
                  {[ "recordSystem" := Js.VBool false ]} Hn Hw)).
Defined.

End ConfigTheorems.

Module HelperFacts.
Import Merge.

Lemma apply_flag_output s arg : outputPath (apply_flag s arg) = outputPath s.
Proof.
  unfold apply_flag.
  destruct (String.eqb arg "--mic"); [reflexivity |].
  destruct (String.eqb arg "--system"); [reflexivity |].
  destruct (String.eqb arg "--both"); reflexivity.
Qed.

Lemma apply_flag_unknown s arg : Helper.is_mode_flag arg = false -> apply_flag s arg = s.
Proof.
  unfold Helper.is_mode_flag, apply_flag.
  destruct (String.eqb arg "--mic"); [discriminate |].
  destruct (String.eqb arg "--system"); [discriminate |].
  destruct (String.eqb arg "--both"); [discriminate | reflexivity].
Qed.

(** A recognised flag sets both fields, whatever they were. *)
Lemma apply_flag_known s s' arg :
  Helper.is_mode_flag arg = true ->
  outputPath s = outputPath s' -> micPath s = micPath s' -> sysPath s = sysPath s' ->
  apply_flag s arg = apply_flag s' arg.
Proof.
  unfold Helper.is_mode_flag, apply_flag. intros H -> -> ->.
  destruct (String.eqb arg "--mic"); [reflexivity |].
  destruct (String.eqb arg "--system"); [reflexivity |].
  destruct (String.eqb arg "--both"); [reflexivity | discriminate].
Qed.

Lemma fold_unknown flags s :
  forallb (fun a => negb (Helper.is_mode_flag a)) flags = true ->
  List.fold_left apply_flag flags s = s.
Proof.
  revert s. induction flags as [| f r IH]; intros s H; [reflexivity |].
  cbn [forallb] in H. apply andb_prop in H as [Hf Hr].
  cbn [List.fold_left]. rewrite apply_flag_unknown by (now apply negb_true_iff).
  now apply IH.
Qed.

Lemma fold_paths flags s :
  outputPath (List.fold_left apply_flag flags s) = outputPath s
  /\ micPath (List.fold_left apply_flag flags s) = micPath s
  /\ sysPath (List.fold_left apply_flag flags s) = sysPath s.
Proof.
  revert s. induction flags as [| f r IH]; intros s; [repeat split |].
  cbn [List.fold_left]. destruct (IH (apply_flag s f)) as (H1 & H2 & H3).
  rewrite H1, H2, H3. unfold apply_flag.
  destruct (String.eqb f "--mic"); [repeat split |].
  destruct (String.eqb f "--system"); [repeat split |].
  destruct (String.eqb f "--both"); repeat split.
Qed.

Lemma fold_records flags s :
  (recordMic s || recordSystem s)%bool = true ->
  (recordMic (List.fold_left apply_flag flags s)
   || recordSystem (List.fold_left apply_flag flags s))%bool = true.
Proof.
  revert s. induction flags as [| f r IH]; intros s H; [exact H |].
  cbn [List.fold_left]. apply IH. unfold apply_flag.
  destruct (String.eqb f "--mic"); [reflexivity |].
  destruct (String.eqb f "--system"); [reflexivity |].
  destruct (String.eqb f "--both"); [reflexivity | exact H].
Qed.

End HelperFacts.

Module HelperTheorems.
Import Merge.

(** X8. The mode the helper records in is the mode the wrapper was
    configured for. [NativeAudioRecorder.start()] on an idle recorder
    spawns the recorder binary with exactly the arguments record, the
    output path and one mode flag, whatever else the configuration
    holds, and the helper's command line turns them into a session for
    that output path which records system audio exactly when
    [recordSystem] is truthy and the microphone exactly when [recordMic]
    is truthy or [recordSystem] is not: with neither set the microphone
    is recorded. *)
Theorem helper_records_the_configured_sources
    (w : NativeAudioRecorder.World) (path : string) :
  NativeAudioRecorder.state (NativeAudioRecorder.this w) = NativeAudioRecorder.idle ->
  let cfg := NativeAudioRecorder.the_config w in
  let mic := Js.truthy (Js.get cfg "recordMic") in
  let sys := Js.truthy (Js.get cfg "recordSystem") in
  exists flag,
    snd (NativeAudioRecorder.start path None w)
    = [NativeAudioRecorder.Spawn (NativeAudioRecorder.next_pid w)
         [path; "record"; Js.to_string (Js.get cfg "outputPath"); flag];
       NativeAudioRecorder.Emit (NativeAudioRecorder.stateChange NativeAudioRecorder.recording)]
    /\ Helper.parse_command ["record"; Js.to_string (Js.get cfg "outputPath"); flag]
       = Helper.Record
           (mkSession (Js.to_string (Js.get cfg "outputPath"))
              (mic || negb sys) sys None None).
Proof.
  intros Hs cfg mic sys. exists (NativeAudioRecorder.mode_flag cfg).
  unfold NativeAudioRecorder.start. rewrite Hs. cbn [NativeAudioRecorder.state_eqb negb].
  split; [reflexivity |].
  unfold Helper.parse_command, session_of_args, NativeAudioRecorder.mode_flag.
  fold cfg. fold mic. fold sys.
  destruct mic, sys; reflexivity.
Qed.

(** The statement at a recorder constructed with an output path only. *)
Lemma helper_records_the_configured_sources_witness :
  exists flag,
    snd (NativeAudioRecorder.start "recorder" None
           (NativeAudioRecorder.new {[ "outputPath" := Js.VStr "/tmp/a.m4a" ]} 0 O))
    = [NativeAudioRecorder.Spawn O ["recorder"; "record"; "/tmp/a.m4a"; flag];
       NativeAudioRecorder.Emit (NativeAudioRecorder.stateChange NativeAudioRecorder.recording)]
    /\ Helper.parse_command ["record"; "/tmp/a.m4a"; flag]
       = Helper.Record (mkSession "/tmp/a.m4a" true false None None).
Proof.
  exact (helper_records_the_configured_sources
           (NativeAudioRecorder.new {[ "outputPath" := Js.VStr "/tmp/a.m4a" ]} 0 O)
           "recorder" eq_refl).
Defined.

(** X9. The helper's [record] options. Of the arguments after the output
    path only --mic, --system and --both count and the last of them
    decides: the session is the one that flag alone gives, whatever came
    before and whatever unrecognised arguments follow. With no recognised
    flag the session records the microphone only. Every session records
    at least one source, and no argument changes the output path. *)
Theorem record_last_mode_flag_decides
    (output : string) (before : list string) (flag : string) (after : list string) :
  Helper.is_mode_flag flag = true ->
  forallb (fun a => negb (Helper.is_mode_flag a)) after = true ->
  session_of_args output (before ++ flag :: after) = session_of_args output [flag]
  /\ session_of_args output after = mkSession output true false None None
  /\ (forall flags,
        (recordMic (session_of_args output flags)
         || recordSystem (session_of_args output flags))%bool = true
        /\ outputPath (session_of_args output flags) = output).
Proof.
  intros Hf Ha. split; [| split].
  - unfold session_of_args. rewrite List.fold_left_app. cbn [List.fold_left].
    rewrite (HelperFacts.fold_unknown after _ Ha).
    destruct (HelperFacts.fold_paths before (mkSession output true false None None))
      as (H1 & H2 & H3).
    apply HelperFacts.apply_flag_known; assumption.
  - unfold session_of_args. apply HelperFacts.fold_unknown, Ha.
  - intros flags. unfold session_of_args. split.
    + apply HelperFacts.fold_records. reflexivity.
    + apply HelperFacts.fold_paths.
Qed.

Lemma record_last_mode_flag_decides_witness :
  session_of_args "out.m4a" (["--both"; "-v"] ++ "--system" :: ["--loud"])
  = mkSession "out.m4a" false true None None.
Proof.
  assert (Hf : Helper.is_mode_flag "--system" = true) by reflexivity.
  assert (Ha : forallb (fun a => negb (Helper.is_mode_flag a)) ["--loud"] = true)
    by reflexivity.
  rewrite (proj1 (record_last_mode_flag_decides "out.m4a" ["--both"; "-v"] "--system"
                    ["--loud"] Hf Ha)).
  reflexivity.
Defined.


End HelperTheorems.

Module LateExitTheorems.

(** X11. The exit handler of the FFmpeg recorder does not look at the
    state or at the process that exited. After [kill()] and a new
    [start()] on the same recorder, the exit of the killed FFmpeg makes
    the recorder idle while the new FFmpeg is still running and held,
    and with exit code 0 it reports the new recording as finished, with
    the time elapsed since the new start as its duration. *)
Theorem ffmpeg_exit_of_killed_process_ends_new_recording
    (w : AudioRecorder.World) (p : nat) (code dt : Z) :
  AudioRecorder.no_stale_timer w p ->
  In p (AudioRecorder.exit_handlers w) ->
  AudioRecorder.next_pid w <> p ->
  (Js.truthy (Js.get (AudioRecorder.the_config w) "micDevice")
   || Js.truthy (Js.get (AudioRecorder.the_config w) "systemDevice"))%bool = true ->
  let w1 := fst (AudioRecorder.kill w) in
  let w2 := fst (AudioRecorder.tick dt (snd (fst (AudioRecorder.start None w1)))) in
  let w3 := fst (AudioRecorder.proc_exit p code w2) in
  AudioRecorder.state (AudioRecorder.this w2) = AudioRecorder.recording
  /\ AudioRecorder.process (AudioRecorder.this w2) = Some (AudioRecorder.next_pid w)
  /\ snd (AudioRecorder.proc_exit p code w2)
     = (if Z.eqb code 0
        then [AudioRecorder.Emit
                (AudioRecorder.finished
                   (Js.get (AudioRecorder.the_config w) "outputPath") (Z.max 0 dt))]
        else [])
       ++ [AudioRecorder.Emit (AudioRecorder.stateChange AudioRecorder.idle)]
  /\ AudioRecorder.state (AudioRecorder.this w3) = AudioRecorder.idle
  /\ AudioRecorder.process (AudioRecorder.this w3) = Some (AudioRecorder.next_pid w).
Proof.
  intros (Hs & Hp & Ht & Ha) Hin Hne Hdev w1 w2 w3. subst w3 w2 w1.
  destruct w as [[st pr cf plat t0 pd ps] h nw np nt eh aw tm]. cbn in *. subst.
  cbv [AudioRecorder.kill AudioRecorder.start AudioRecorder.the_config
       AudioRecorder.set_state AudioRecorder.set_process AudioRecorder.with_this
       AudioRecorder.heap AudioRecorder.this AudioRecorder.config AudioRecorder.state
       AudioRecorder.process AudioRecorder.state_eqb negb fst snd] in *.
  destruct (Js.truthy (Js.get (Js.deref h cf) "micDevice")) eqn:Ea;
    destruct (Js.truthy (Js.get (Js.deref h cf) "systemDevice")) eqn:Eb;
    try discriminate Hdev;
    cbn; unfold AudioRecorder.tick; cbn;
    unfold AudioRecorder.proc_exit; cbn;
    rewrite (StopEndFacts.existsb_eqb_app _ _ _ Hin); cbn;
    (repeat split);
    unfold AudioRecorder.getElapsedTime, AudioRecorder.the_config; cbn;
    replace (nw + Z.max 0 dt - nw - 0) with (Z.max 0 dt) by lia;
    rewrite ?app_nil_r; reflexivity.
Qed.

Lemma ffmpeg_exit_of_killed_process_ends_new_recording_witness :
  snd (AudioRecorder.proc_exit O 0
         (fst (AudioRecorder.tick 250
                 (snd (fst (AudioRecorder.start None
                              (fst (AudioRecorder.kill Scenarios.ffmpeg_recording))))))))
  = [AudioRecorder.Emit (AudioRecorder.finished (Js.VStr "/tmp/meeting.m4a") 250);
     AudioRecorder.Emit (AudioRecorder.stateChange AudioRecorder.idle)].
Proof.
  assert (Hf : AudioRecorder.no_stale_timer Scenarios.ffmpeg_recording O)
    by (vm_compute; repeat split; left; reflexivity).
  assert (Hin : In O (AudioRecorder.exit_handlers Scenarios.ffmpeg_recording))
    by (vm_compute; left; reflexivity).
  assert (Hne : AudioRecorder.next_pid Scenarios.ffmpeg_recording <> O)
    by (vm_compute; discriminate).
  assert (Hdev : (Js.truthy (Js.get (AudioRecorder.the_config Scenarios.ffmpeg_recording)
                               "micDevice")
                  || Js.truthy (Js.get (AudioRecorder.the_config Scenarios.ffmpeg_recording)
                                  "systemDevice"))%bool = true)
    by (vm_compute; reflexivity).
  pose proof (ffmpeg_exit_of_killed_process_ends_new_recording
                Scenarios.ffmpeg_recording O 0 250 Hf Hin Hne Hdev) as H.
  cbv zeta in H. destruct H as (_ & _ & H & _).
  rewrite H. vm_compute. reflexivity.
Defined.

End LateExitTheorems.

(** ** Theorems on the choice of devices *)


Module SearchFacts.

Lemma find_filter {A} (f g : A -> bool) l :
  List.find f (List.filter g l) = List.find (fun x => (g x && f x)%bool) l.
Proof.
  induction l as [| x l IH]; [reflexivity |].
  cbn [List.filter List.find]. destruct (g x); cbn [List.find andb]; [| exact IH].
  destruct (f x); [reflexivity | exact IH].
Qed.

Lemma nth0_filter {A} (g : A -> bool) l :
  List.nth_error (List.filter g l) 0 = List.find g l.
Proof.
  induction l as [| x l IH]; [reflexivity |].
  cbn [List.filter List.find]. destruct (g x); [reflexivity | exact IH].
Qed.

(** What [find] returns is the first element that passes the test. *)
Lemma find_first {A} (f : A -> bool) l x :
  List.find f l = Some x ->
  f x = true
  /\ exists before after, l = before ++ x :: after
       /\ forall y, In y before -> f y = false.
Proof.
  induction l as [| a l IH]; [discriminate |].
  cbn [List.find]. destruct (f a) eqn:Fa.
  - intros [= <-]. split; [exact Fa |]. exists [], l. split; [reflexivity |].
    intros y [].
  - intros H. destruct (IH H) as (Hx & b & c & -> & Hb). split; [exact Hx |].
    exists (a :: b), c. split; [reflexivity |].
    intros y [<- | Hy]; [exact Fa | now apply Hb].
Qed.

Lemma find_none_all {A} (f : A -> bool) l :
  List.find f l = None -> forall y, In y l -> f y = false.
Proof. intros H y Hy. exact (List.find_none f l H y Hy). Qed.

Lemma filter_empty_length {A} (g : A -> bool) l :
  Nat.eqb (List.length (List.filter g l)) 0 = true -> List.find g l = None.
Proof.
  intros H. rewrite <- nth0_filter.
  destruct (List.filter g l); [reflexivity | discriminate].
Qed.

Lemma filter_nonempty_length {A} (g : A -> bool) l :
  Nat.eqb (List.length (List.filter g l)) 0 = false -> exists x, List.find g l = Some x.
Proof.
  intros H. rewrite <- nth0_filter.
  destruct (List.filter g l) as [| x r]; [discriminate | exists x; reflexivity].
Qed.

Section Ffmpeg.
Import Devices DeviceSearch.

Lemma startsWith_prefix p q s :
  Str.startsWith (p +:+ q) s = true -> Str.startsWith p s = true.
Proof.
  revert s. induction p as [| a p IH]; intros s.
  - intros _. destruct s; reflexivity.
  - rewrite OutputFacts.append_cons. destruct s as [| b s]; cbn [Str.startsWith];
      [discriminate |].
    destruct (Ascii.eqb a b); [apply IH | discriminate].
Qed.

(** The second test of the preference is implied by the first. *)
Lemma includes_microphone s :
  Str.includes s "microphone" = true -> Str.includes s "mic" = true.
Proof.
  induction s as [| c r IH].
  - intros H. vm_compute in H. discriminate.
  - cbn [Str.includes].
    destruct (Str.startsWith "microphone" (String c r)) eqn:E.
    + intros _. rewrite (startsWith_prefix "mic" "rophone" _ E). reflexivity.
    + intros H. destruct (Str.startsWith "mic" (String c r)); [reflexivity |].
      apply IH, H.
Qed.

Lemma named_mic_mic d :
  named_mic d = Str.includes (Str.toLowerCase (name (device d))) "mic".
Proof.
  unfold named_mic.
  destruct (Str.includes _ "mic") eqn:E; [reflexivity |].
  destruct (Str.includes _ "microphone") eqn:F; [| reflexivity].
  apply includes_microphone in F. congruence.
Qed.

(** [findMicrophoneDevice] as two searches of the device list. *)
Lemma findMicrophoneDevice_find devices :
  findMicrophoneDevice devices
  = match List.find (fun d => (not_system d && named_mic d)%bool) devices with
    | Some d => Some d
    | None => List.find not_system devices
    end.
Proof.
  unfold findMicrophoneDevice. rewrite find_filter, nth0_filter.
  destruct (Nat.eqb (List.length (List.filter not_system devices)) 0) eqn:E;
    [| reflexivity].
  pose proof (filter_empty_length _ _ E) as Hn. rewrite Hn.
  destruct (List.find (fun d => (not_system d && named_mic d)%bool) devices) eqn:F;
    [| reflexivity].
  destruct (find_first _ _ _ F) as (Hs & b & c & -> & _).
  apply andb_prop in Hs as [Hs _].
  pose proof (find_none_all _ _ Hn s) as Hc. rewrite Hs in Hc.
  discriminate Hc. apply in_or_app. right. left. reflexivity.
Qed.

Lemma findMicrophoneDevice_member devices m :
  findMicrophoneDevice devices = Some m -> In m devices /\ isSystemAudio m = false.
Proof.
  rewrite findMicrophoneDevice_find.
  destruct (List.find (fun d => (not_system d && named_mic d)%bool) devices) as [x |] eqn:F.
  - intros [= ->]. destruct (find_first _ _ _ F) as (Hm & b & c & -> & _).
    apply andb_prop in Hm as [Hs _]. unfold not_system in Hs.
    split; [apply in_or_app; right; left; reflexivity | now apply negb_true_iff in Hs].
  - intros G. destruct (find_first _ _ _ G) as (Hm & b & c & -> & _).
    unfold not_system in Hm.
    split; [apply in_or_app; right; left; reflexivity | now apply negb_true_iff in Hm].
Qed.

Lemma findMicrophoneDevice_none devices :
  findMicrophoneDevice devices = None -> forall d, In d devices -> isSystemAudio d = true.
Proof.
  rewrite findMicrophoneDevice_find.
  destruct (List.find (fun d => (not_system d && named_mic d)%bool) devices); [discriminate |].
  intros G d Hd. pose proof (find_none_all _ _ G d Hd) as Hc.
  unfold not_system in Hc. now apply negb_false_iff in Hc.
Qed.

Lemma findSystemAudioDevice_find devices :
  findSystemAudioDevice devices = List.find isSystemAudio devices.
Proof. apply nth0_filter. Qed.

Lemma classified_member platform raw sd :
  In sd (identifySystemAudioDevices platform raw) ->
  In (device sd) raw /\ isSystemAudio sd = marked platform (device sd).
Proof.
  unfold identifySystemAudioDevices. intros H. apply in_map_iff in H as (d & <- & Hd).
  rewrite DevicesFacts.identify_device. split; [exact Hd |].
  apply DevicesFacts.identify_isSystemAudio.
Qed.

End Ffmpeg.

End SearchFacts.

Module SearchTheorems.
Import Devices DeviceSearch.

(** X12. [findMicrophoneDevice] returns null exactly when every device
    is system audio. Otherwise it returns a device of the list that is
    not system audio: the first such device whose lower-cased name
    contains "mic", and when there is none, the first device that is not
    system audio. *)
Theorem findMicrophoneDevice_choice (devices : list SystemAudioDevice) :
  match findMicrophoneDevice devices with
  | None => forall d, In d devices -> isSystemAudio d = true
  | Some m =>
      isSystemAudio m = false
      /\ (exists before after,
            devices = before ++ m :: after
            /\ forall d, In d before ->
                 isSystemAudio d = true \/ (named_mic d = false /\ named_mic m = true))
      /\ (named_mic m = false ->
          forall d, In d devices -> isSystemAudio d = false -> named_mic d = false)
  end
  /\ forall d, named_mic d = Str.includes (Str.toLowerCase (name (device d))) "mic".
Proof.
  split; [| exact SearchFacts.named_mic_mic].
  rewrite SearchFacts.findMicrophoneDevice_find.
  destruct (List.find (fun d => (not_system d && named_mic d)%bool) devices) as [m |] eqn:F.
  - destruct (SearchFacts.find_first _ _ _ F) as (Hm & b & c & E & Hb).
    apply andb_prop in Hm as [Hs Hn]. unfold not_system in Hs.
    apply negb_true_iff in Hs. split; [exact Hs |]. split.
    + exists b, c. split; [exact E |]. intros d Hd.
      specialize (Hb d Hd). apply andb_false_iff in Hb as [Hb | Hb].
      * left. unfold not_system in Hb. now apply negb_false_iff in Hb.
      * right. split; [exact Hb | exact Hn].
    + intros Hf. congruence.
  - destruct (List.find not_system devices) as [m |] eqn:G.
    + destruct (SearchFacts.find_first _ _ _ G) as (Hm & b & c & E & Hb).
      unfold not_system in Hm. apply negb_true_iff in Hm.
      split; [exact Hm |]. split.
      * exists b, c. split; [exact E |]. intros d Hd. left.
        specialize (Hb d Hd). unfold not_system in Hb. now apply negb_false_iff in Hb.
      * intros _ d Hd Hs.
        pose proof (SearchFacts.find_none_all _ _ F d Hd) as Hc. cbn beta in Hc.
        unfold not_system in Hc. rewrite Hs in Hc. exact Hc.
    + intros d Hd. pose proof (SearchFacts.find_none_all _ _ G d Hd) as Hc.
      unfold not_system in Hc. now apply negb_false_iff in Hc.
Qed.

(** X13. The two choices on a classified device list. The system audio
    device chosen is the first device of the list whose lower-cased name
    holds one of the platform's markers, and there is none exactly when
    no name does; the microphone chosen is a device of the list whose
    name holds no marker, and there is none exactly when every name
    holds one. So the two are never the same device. *)
Theorem chosen_devices_after_classification
    (platform : Platform) (raw : list AudioDevice) :
  let ds := identifySystemAudioDevices platform raw in
  match findSystemAudioDevice ds with
  | Some s =>
      marked platform (device s) = true
      /\ exists before after,
           raw = before ++ device s :: after
           /\ forall d, In d before -> marked platform d = false
  | None => forall d, In d raw -> marked platform d = false
  end
  /\ match findMicrophoneDevice ds with
     | Some m => In (device m) raw /\ marked platform (device m) = false
     | None => forall d, In d raw -> marked platform d = true
     end
  /\ forall m s,
       findMicrophoneDevice ds = Some m -> findSystemAudioDevice ds = Some s ->
       device m <> device s.
Proof.
  intros ds.
  assert (Hmic : forall m, findMicrophoneDevice ds = Some m ->
                   In (device m) raw /\ marked platform (device m) = false).
  { intros m Hm. destruct (SearchFacts.findMicrophoneDevice_member ds m Hm) as [Hin Hs].
    destruct (SearchFacts.classified_member platform raw m Hin) as [H1 H2].
    split; [exact H1 | congruence]. }
  assert (Hsys : forall s, findSystemAudioDevice ds = Some s ->
                   marked platform (device s) = true
                   /\ exists before after,
                        raw = before ++ device s :: after
                        /\ forall d, In d before -> marked platform d = false).
  { intros s. rewrite SearchFacts.findSystemAudioDevice_find. intros F.
    destruct (SearchFacts.find_first _ _ _ F) as (Hs & b & c & E & Hb).
    assert (Hin : In s ds) by (rewrite E; apply in_or_app; right; left; reflexivity).
    destruct (SearchFacts.classified_member platform raw s Hin) as [H1 H2].
    split; [congruence |].
    unfold ds, identifySystemAudioDevices in E.
    apply List.map_eq_app in E as (rb & rc & -> & Eb & Ec).
    destruct rc as [| d rc]; [discriminate |]. cbn [List.map] in Ec.
    injection Ec as Ed Ec. exists rb, rc. split.
    - rewrite <- Ed, DevicesFacts.identify_device. reflexivity.
    - intros x Hx. specialize (Hb (identify platform x)).
      rewrite DevicesFacts.identify_isSystemAudio in Hb. apply Hb.
      rewrite <- Eb. apply in_map. exact Hx. }
  split; [| split].
  - destruct (findSystemAudioDevice ds) as [s |] eqn:F; [now apply Hsys |].
    rewrite SearchFacts.findSystemAudioDevice_find in F. intros d Hd.
    pose proof (SearchFacts.find_none_all _ _ F (identify platform d)) as Hc.
    rewrite DevicesFacts.identify_isSystemAudio in Hc. apply Hc.
    unfold ds, identifySystemAudioDevices. apply in_map. exact Hd.
  - destruct (findMicrophoneDevice ds) as [m |] eqn:F; [now apply Hmic |].
    intros d Hd.
    pose proof (SearchFacts.findMicrophoneDevice_none ds F (identify platform d)) as Hc.
    rewrite DevicesFacts.identify_isSystemAudio in Hc. apply Hc.
    unfold ds, identifySystemAudioDevices. apply in_map. exact Hd.
  - intros m s Hm Hs Heq. destruct (Hmic m Hm) as [_ I2].
    destruct (Hsys s Hs) as [J1 _]. rewrite Heq in I2. congruence.
Qed.

End SearchTheorems.

Module NativeDevicesFacts.
Import App NativeDevices.

Lemma numbered_microphones i discovered :
  List.filter is_microphone (numbered i discovered) = numbered i discovered
  /\ List.find is_system (numbered i discovered) = None
  /\ List.map name (numbered i discovered) = List.map fst discovered
  /\ List.map id (numbered i discovered) = List.map snd discovered.
Proof.
  revert i. induction discovered as [| [n u] r IH]; intros i; [repeat split |].
  cbn [numbered List.filter List.find List.map is_microphone is_system type fst snd name id].
  destruct (IH (S i)) as (H1 & H2 & H3 & H4).
  rewrite H1, H2, H3, H4. repeat split.
Qed.

Lemma numbered_index i discovered k d :
  List.nth_error (numbered i discovered) k = Some d -> index d = pretty (i + k)%nat.
Proof.
  revert i k. induction discovered as [| [n u] r IH]; intros i k H.
  - destruct k; discriminate.
  - destruct k as [| k]; cbn in H.
    + injection H as <-. cbn. rewrite Nat.add_0_r. reflexivity.
    + rewrite (IH (S i) k H). f_equal. lia.
Qed.

Lemma filter_app_l {A} (f : A -> bool) l1 l2 :
  List.filter f (l1 ++ l2) = List.filter f l1 ++ List.filter f l2.
Proof. apply List.filter_app. Qed.

Lemma find_app_none {A} (f : A -> bool) l1 l2 :
  List.find f l1 = None -> List.find f (l1 ++ l2) = List.find f l2.
Proof.
  induction l1 as [| x l IH]; [reflexivity |].
  cbn [List.find app]. destruct (f x); [discriminate | exact IH].
Qed.

End NativeDevicesFacts.

Module NativeDevicesTheorems.
Import App NativeDevices.

(** X14. The helper's device list as the wrapper reads it.
    [findMicrophones] returns exactly the discovered microphones, in the
    order of discovery, with their names and identifiers, the index of
    each being its position written in decimal, so that no two share an
    index; [findSystemAudio] returns the virtual System Audio device
    when the capture interface is available and null otherwise. *)
Theorem helper_device_list_as_read
    (discovered : list (string * string)) (macos_12_3 : bool) :
  let devs := listDevices discovered macos_12_3 in
  let mics := findMicrophones devs in
  List.map name mics = List.map fst discovered
  /\ List.map id mics = List.map snd discovered
  /\ (forall k d, List.nth_error mics k = Some d -> index d = pretty k)
  /\ (forall j k a b,
        List.nth_error mics j = Some a -> List.nth_error mics k = Some b ->
        index a = index b -> j = k)
  /\ findSystemAudio devs
     = (if macos_12_3
        then Some (mkNativeDevice "system" "System Audio" "system-audio" system)
        else None).
Proof.
  intros devs mics.
  destruct (NativeDevicesFacts.numbered_microphones O discovered) as (H1 & H2 & H3 & H4).
  assert (E : mics = numbered O discovered).
  { unfold mics, findMicrophones, devs, listDevices.
    rewrite NativeDevicesFacts.filter_app_l, H1.
    destruct macos_12_3; cbn; apply app_nil_r. }
  assert (Hi : forall k d, List.nth_error mics k = Some d -> index d = pretty k).
  { intros k d H. rewrite E in H.
    exact (NativeDevicesFacts.numbered_index O discovered k d H). }
  rewrite E at 1 2. split; [exact H3 |]. split; [exact H4 |]. split; [exact Hi |]. split.
  - intros j k a b Ha Hb Heq. rewrite (Hi j a Ha), (Hi k b Hb) in Heq.
    exact (pretty_nat_inj _ _ Heq).
  - unfold findSystemAudio, devs, listDevices.
    rewrite (NativeDevicesFacts.find_app_none _ _ _ H2).
    destruct macos_12_3; reflexivity.
Qed.

End NativeDevicesTheorems.

(** ** Theorems on the application around a recording *)

Module AppLoopFacts.
Import App AppLoop.

Lemma quiet_step ev w :
  quiet w ->
  snd (NativeAudioRecorder.step (as_op ev) w) = []
  /\ quiet (fst (NativeAudioRecorder.step (as_op ev) w)).
Proof.
  intros (Hs & Ha & [Hp | Ht]).
  - assert (Hr : Events.at_rest w) by (repeat split; assumption).
    assert (H : snd (NativeAudioRecorder.step (as_op ev) w) = []
                /\ Events.at_rest (fst (NativeAudioRecorder.step (as_op ev) w))).
    { destruct ev; cbn [as_op NativeAudioRecorder.step].
      - apply StopEndFacts.native_tick_at_rest, Hr.
      - apply StopEndFacts.native_proc_exit_at_rest, Hr. }
    destruct H as (H1 & I1 & I2 & I3). split; [exact H1 |].
    split; [exact I1 |]. split; [exact I3 | left; exact I2].
  - destruct w as [[st pr cf t0] h nw np nt eh aw tm]. cbn in *. subst.
    destruct ev; cbn [as_op NativeAudioRecorder.step].
    + unfold NativeAudioRecorder.tick. cbn. unfold quiet. cbn. repeat split. now right.
    + unfold NativeAudioRecorder.proc_exit. cbn.
      destruct (existsb (Nat.eqb p) eh); cbn; unfold quiet; cbn; repeat split; now right.
Qed.

Lemma each_recorder_quiet ev ws a :
  Forall quiet ws ->
  exists ws', each_recorder (as_op ev) ws a = (ws', a, []) /\ Forall quiet ws'.
Proof.
  induction 1 as [| w ws Hw Hws IH]; cbn [each_recorder].
  - exists []. split; [reflexivity | constructor].
  - destruct (quiet_step ev w Hw) as [H1 H2].
    destruct (NativeAudioRecorder.step (as_op ev) w) as [w1 e1]. cbn [fst snd] in *.
    subst e1. cbn [deliver]. destruct IH as (ws' & E & Hq). rewrite E.
    exists (w1 :: ws'). split; [reflexivity | now constructor].
Qed.

Lemma set_selection_fields mic sys both a :
  recorder (set_selection mic sys both a) = recorder a
  /\ recordingState (set_selection mic sys both a) = recordingState a
  /\ suspended (set_selection mic sys both a) = suspended a.
Proof. repeat split. Qed.


(** [startRecording] carried through to the spawn: the recorder made, and
    what the application holds afterwards. *)
Lemma start_through (a : AppState) path t rp m sy :
  suspended a = [AwaitDir m sy] ->
  let cfg : gmap string Js.value :=
    {[ "outputPath" := Js.VStr path; "recordMic" := Js.VBool m;
       "recordSystem" := Js.VBool sy ]} in
  let r0 := NativeAudioRecorder.new cfg t (next_pid a) in
  let r1 := snd (fst (NativeAudioRecorder.start rp None r0)) in
  dir_settled true path t rp None a
  = (mkApp (isStartingRecording a) (Some r1) NativeAudioRecorder.recording
           (selectedMic a) (selectedSystemAudio a) (recordBoth a) "" path
           (lastRecordingPath a) (elevenlabs a) (openai a) (updateInterval a)
           [AwaitStart (Ok tt)] (S (next_pid a)),
     [NativeAudioRecorder.Spawn (next_pid a)
        [rp; "record"; path; NativeAudioRecorder.mode_flag (Js.spread NativeAudioRecorder.defaults cfg)];
      NativeAudioRecorder.Emit (NativeAudioRecorder.stateChange NativeAudioRecorder.recording)])
  /\ NativeAudioRecorder.no_stale_timer r1 (next_pid a)
  /\ In (next_pid a) (NativeAudioRecorder.exit_handlers r1).
Proof.
  intros H cfg r0 r1. unfold dir_settled. rewrite H. cbn [take_dir negb].
  change (next_pid (set_errorMessage "" (set_outputPath path a))) with (next_pid a).
  fold cfg. fold r0.
  destruct (ConfigMoreFacts.native_new_config cfg t (next_pid a)) as [Hc Hs].
  fold r0 in Hc, Hs.
  assert (Hn : NativeAudioRecorder.next_pid r0 = next_pid a
               /\ NativeAudioRecorder.timers r0 = []
               /\ NativeAudioRecorder.awaiting r0 = []
               /\ NativeAudioRecorder.exit_handlers r0 = []).
  { unfold r0, NativeAudioRecorder.new. destruct (Js.alloc _ ∅). repeat split. }
  destruct Hn as (Hn & Ht & Ha & He).
  assert (Hout : Js.to_string (Js.get (Js.spread NativeAudioRecorder.defaults cfg) "outputPath")
                 = path) by reflexivity.
  clearbody r0.
  assert (Hstart :
            NativeAudioRecorder.start rp None r0
            = (Ok tt, r1,
               [NativeAudioRecorder.Spawn (next_pid a)
                  [rp; "record"; path;
                   NativeAudioRecorder.mode_flag (Js.spread NativeAudioRecorder.defaults cfg)];
                NativeAudioRecorder.Emit
                  (NativeAudioRecorder.stateChange NativeAudioRecorder.recording)])).
  { unfold r1, NativeAudioRecorder.start. rewrite Hs.
    cbn [NativeAudioRecorder.state_eqb negb]. rewrite Hc, Hout, Hn. reflexivity. }
  assert (Hr1 : NativeAudioRecorder.next_pid r1 = S (next_pid a)
                /\ NativeAudioRecorder.no_stale_timer r1 (next_pid a)
                /\ In (next_pid a) (NativeAudioRecorder.exit_handlers r1)).
  { unfold r1, NativeAudioRecorder.start. rewrite Hs.
    cbn [NativeAudioRecorder.state_eqb negb]. rewrite Hn.
    unfold NativeAudioRecorder.no_stale_timer. cbn. rewrite Ht, Ha, He.
    repeat split. left. reflexivity. }
  destruct Hr1 as (Hp1 & Hf1 & Hi1).
  rewrite Hstart. cbn [fst snd deliver on_event]. rewrite Hp1.
  split; [reflexivity |]. split; assumption.
Qed.

Lemma mode_flag_of_flags path m sy :
  let cfg : gmap string Js.value :=
    {[ "outputPath" := Js.VStr path; "recordMic" := Js.VBool m;
       "recordSystem" := Js.VBool sy ]} in
  NativeAudioRecorder.mode_flag (Js.spread NativeAudioRecorder.defaults cfg)
  = if (m && sy)%bool then "--both" else if sy then "--system" else "--mic".
Proof. destruct m, sy; reflexivity. Qed.


(** The x key during a recording. *)
Lemma press_x u r p :
  recording_with u r p ->
  handleMainScreenKeys KeyX u
  = (mkUi (set_recordingState NativeAudioRecorder.stopping
             (set_recorder (Some (snd (fst (NativeAudioRecorder.stop r))))
                (set_updateInterval false (app u))))
          (devices u) [AwaitStop] (detached u),
     [NativeAudioRecorder.Emit (NativeAudioRecorder.stateChange NativeAudioRecorder.stopping);
      NativeAudioRecorder.Kill p SIGINT;
      NativeAudioRecorder.SetTimeout (NativeAudioRecorder.next_timer r) 5000]).
Proof.
  intros (Hr & Hf & Hin & Hrs & Hfl & Hsu & Hsc & Hd).
  unfold handleMainScreenKeys. rewrite Hrs. unfold stopRecording. rewrite Hr.
  destruct (StopFacts.native_stop_sends_sigint r p Hf) as (w1 & E & _).
  rewrite E, Hsc. reflexivity.
Qed.

(** The end of the helper after [stop()]: by its exit, or by the kill
    at five seconds. *)
Lemma helper_ends r p ev :
  NativeAudioRecorder.no_stale_timer r p ->
  ends_helper ev p ->
  let w1 := snd (fst (NativeAudioRecorder.stop r)) in
  exists r2,
    NativeAudioRecorder.step (as_op ev) w1
    = (r2, match ev with
           | Elapsed _ => [NativeAudioRecorder.Kill p SIGKILL]
           | Exited _ _ => []
           end
           ++ [NativeAudioRecorder.Emit
                 (NativeAudioRecorder.stateChange NativeAudioRecorder.idle)])
    /\ Events.at_rest r2
    /\ List.length (NativeAudioRecorder.awaiting w1) = 1%nat.
Proof.
  intros Hf Hev w1.
  destruct (StopFacts.native_stop_sends_sigint r p Hf)
    as (w1' & E & Hs & Hp & Hn & Ht & Ha & He).
  subst w1. rewrite E. cbn [fst snd]. rewrite <- Hn in Ht. clear E Hn He Hf.
  destruct w1' as [[st pr cf t0] h nw np nt eh aw tm]. cbn in *. subst.
  destruct ev as [dt | q code]; cbn in Hev; cbn [as_op NativeAudioRecorder.step].
  - unfold NativeAudioRecorder.tick. cbn.
    destruct (Z.leb_spec (nw + 5000) (nw + Z.max 0 dt)); [| lia].
    cbn. unfold NativeAudioRecorder.timer_fire, NativeAudioRecorder.settle. cbn.
    rewrite Nat.eqb_refl. cbn. eexists. split; [reflexivity |].
    unfold Events.at_rest. cbn. repeat split.
  - subst q. unfold NativeAudioRecorder.proc_exit. cbn.
    destruct (existsb (Nat.eqb p) eh); cbn;
      unfold NativeAudioRecorder.settle; cbn; rewrite Nat.eqb_refl; cbn;
      eexists; (split; [reflexivity |]); unfold Events.at_rest; cbn; repeat split.
Qed.

Lemma at_rest_quiet w : Events.at_rest w -> quiet w.
Proof. intros (H1 & H2 & H3). repeat split; [exact H1 | exact H3 | left; exact H2]. Qed.


(** What [loadDevices] selects as microphone is one of the microphones,
    and some microphone whenever there is one. *)
Lemma or_first_member (found : option NativeDevice) mics d :
  (forall x, found = Some x -> In x mics) ->
  or_first found mics = Some d -> In d mics.
Proof.
  intros Hf. unfold or_first. destruct found as [x |].
  - intros [= <-]. now apply Hf.
  - intros H. apply (List.nth_error_In mics 0 H).
Qed.

Lemma or_first_present (found : option NativeDevice) mics :
  (forall x, found = Some x -> In x mics) ->
  present (or_first found mics) = negb (Nat.eqb (List.length mics) 0).
Proof.
  intros Hf. unfold or_first. destruct found as [x |].
  - specialize (Hf x eq_refl). destruct mics; [destruct Hf | reflexivity].
  - destruct mics; reflexivity.
Qed.

Lemma modes_exclusive (mode : option string) :
  (same_as mode "both" && same_as mode "system")%bool = false.
Proof.
  destruct mode as [m |]; [| reflexivity]. cbn [same_as].
  destruct (String.eqb_spec "both" m) as [<- | _]; reflexivity.
Qed.

(** Nothing moves the application out of [stuck]. *)
Lemma stuck_turn x u :
  stuck u -> snd (turn x u) = [] /\ stuck (fst (turn x u)).
Proof.
  intros ((r & Hr & Hq) & Hs & Hsu & Hsc & Hd).
  destruct x as [k | t | ev | error | listed cfg]; cbn [turn].
  - unfold handleMainScreenKeys. rewrite Hs.
    destruct k as [| | saved |].
    + rewrite AppFacts.startRecording_guarded by (right; left; congruence).
      split; [reflexivity |]. unfold stuck. cbn. repeat split; try assumption.
      exists r. split; assumption.
    + destruct (present (selectedSystemAudio (app u))); cbn [fst snd];
        (split; [reflexivity |]); unfold stuck; cbn; repeat split; try assumption;
        exists r; split; assumption.
    + destruct (present (selectedSystemAudio (app u))); cbn [fst snd];
        (split; [reflexivity |]); unfold stuck; cbn; repeat split; try assumption;
        exists r; split; assumption.
    + split; [reflexivity |]. unfold stuck. repeat split; try assumption.
      exists r. split; assumption.
  - destruct t as [| ok path tm rp err | | d]; cbn [App.turn].
    + rewrite AppFacts.startRecording_guarded by (right; left; congruence).
      split; [reflexivity |]. unfold stuck. cbn. repeat split; try assumption.
      exists r. split; assumption.
    + unfold dir_settled. rewrite Hsu. cbn [take_dir].
      split; [reflexivity |]. unfold stuck. cbn. repeat split; try assumption.
      exists r. split; assumption.
    + unfold start_settled. rewrite Hsu. cbn [take_start].
      split; [reflexivity |]. unfold stuck. cbn. repeat split; try assumption.
      exists r. split; assumption.
    + split; [reflexivity |]. unfold stuck. cbn. repeat split; try assumption.
      exists r. split; assumption.
  - unfold runtime_event.
    destruct (each_recorder_quiet ev (detached u) (app u) Hd) as (ds & E & Hds).
    rewrite E, Hr.
    destruct (quiet_step ev r Hq) as [H1 H2].
    destruct (NativeAudioRecorder.step (as_op ev) r) as [r1 e1]. cbn [fst snd] in *.
    subst e1. cbn [deliver app]. split; [reflexivity |].
    destruct Hq as (_ & Ha & _). destruct H2 as (I1 & I2 & I3).
    rewrite Ha, I2. cbn. rewrite Hsc. cbn.
    unfold stuck. cbn. repeat split; try assumption.
    exists r1. split; [reflexivity |]. repeat split; assumption.
  - unfold scan_settled. rewrite Hsc. cbn [take_scan].
    split; [reflexivity |]. unfold stuck. repeat split; try assumption.
    exists r. split; assumption.
  - split; [reflexivity |]. unfold loadDevices.
    destruct listed as [msg | devs].
    + unfold stuck. cbn. repeat split; try assumption. exists r. split; assumption.
    + cbv zeta.
      repeat match goal with |- context [if ?b then _ else _] => destruct b end;
        unfold stuck; cbn; repeat split; try assumption; exists r; split; assumption.
Qed.

Lemma stuck_turns xs u :
  stuck u -> snd (turns xs u) = [] /\ stuck (fst (turns xs u)).
Proof.
  revert u. induction xs as [| x r IH]; intros u H; cbn [turns].
  - split; [reflexivity | exact H].
  - destruct (stuck_turn x u H) as [H1 H2].
    destruct (turn x u) as [u1 e1]. cbn [fst snd] in *.
    destruct (IH u1 H2) as [I1 I2].
    destruct (turns r u1) as [u2 e2]. cbn [fst snd] in *.
    rewrite H1, I1. split; [reflexivity | exact I2].
Qed.

End AppLoopFacts.

Module AppLoopTheorems.
Import App AppLoop.

(** X15. After the helper exits in the middle of a recording the
    application cannot record again. The exit makes the recorder idle
    and the listener sets the shown state to idle, but [this.recorder] is
    only cleared by [stopRecording()], which the keys reach only while
    the shown state is recording. From then on, whatever keys are
    pressed and whatever else happens, [startRecording()] returns at its
    guard: no subprocess is spawned, no signal is sent and no event is
    emitted. *)
Theorem no_recording_after_helper_exit
    (u : Ui) (r : NativeAudioRecorder.World) (p : nat) (code : Z) (xs : list Turn) :
  recording_with u r p ->
  let u1 := fst (runtime_event (Exited p code) u) in
  let u2 := fst (turns xs u1) in
  snd (runtime_event (Exited p code) u)
  = [NativeAudioRecorder.Emit (NativeAudioRecorder.stateChange NativeAudioRecorder.idle)]
  /\ recordingState (app u1) = NativeAudioRecorder.idle
  /\ recorder (app u1) <> None
  /\ snd (turns xs u1) = []
  /\ recorder (app u2) <> None
  /\ startRecording (app u2) = app u2.
Proof.
  intros (Hr & (Hs & Hp & Ht & Ha) & Hin & Hrs & Hf & Hsu & Hsc & Hd) u1 u2.
  assert (E : runtime_event (Exited p code) u
              = (mkUi (set_recordingState NativeAudioRecorder.idle
                         (set_recorder
                            (Some (fst (NativeAudioRecorder.proc_exit p code r))) (app u)))
                      (devices u) [] (fst (fst (each_recorder
                                                  (NativeAudioRecorder.ProcExit p code)
                                                  (detached u) (app u)))),
                 [NativeAudioRecorder.Emit
                    (NativeAudioRecorder.stateChange NativeAudioRecorder.idle)])
              /\ quiet (fst (NativeAudioRecorder.proc_exit p code r))
              /\ Forall quiet (fst (fst (each_recorder (NativeAudioRecorder.ProcExit p code)
                                           (detached u) (app u))))).
  { unfold runtime_event.
    destruct (AppLoopFacts.each_recorder_quiet (Exited p code) (detached u) (app u) Hd)
      as (ds & E & Hds).
    cbn [as_op] in *. rewrite E, Hr. cbn [fst NativeAudioRecorder.step].
    destruct r as [[st pr cf t0] h nw np nt eh aw tm]. cbn in *. subst.
    unfold NativeAudioRecorder.proc_exit. cbn.
    rewrite (ExitFacts.existsb_eqb_In _ _ Hin). cbn. rewrite Hsc.
    split; [reflexivity |]. split; [| exact Hds].
    unfold quiet. cbn. repeat split. now right. }
  destruct E as (E & Hq & Hds).
  assert (Hst : stuck u1).
  { unfold u1. rewrite E. unfold stuck. cbn. repeat split; try assumption.
    eexists. split; [reflexivity | exact Hq]. }
  destruct (AppLoopFacts.stuck_turns xs u1 Hst) as [H1 H2].
  fold u2 in H2. destruct H2 as ((r2 & Hr2 & _) & _).
  destruct Hst as ((r1 & Hr1 & _) & Hs1 & _).
  split; [rewrite E; reflexivity |]. split; [exact Hs1 |].
  split; [congruence |]. split; [exact H1 |]. split; [congruence |].
  apply AppFacts.startRecording_guarded. right. left. congruence.
Qed.

(** The statement at the sample application: the helper exits with
    status 1, then r, x and r are pressed. *)
Lemma no_recording_after_helper_exit_witness :
  recording_with sample_recording sample_recorder O
  /\ snd (turns [Press KeyR; Press KeyX; Press KeyR]
            (fst (runtime_event (Exited O 1) sample_recording))) = []
  /\ recorder (app (fst (turns [Press KeyR; Press KeyX; Press KeyR]
                           (fst (runtime_event (Exited O 1) sample_recording))))) <> None.
Proof.
  assert (H : recording_with sample_recording sample_recorder O).
  { unfold recording_with, NativeAudioRecorder.no_stale_timer.
    split; [vm_compute; reflexivity |].
    split; [split; [| split; [| split]]; vm_compute; reflexivity |].
    split; [vm_compute; left; reflexivity |].
    split; [vm_compute; reflexivity |].
    split; [vm_compute; reflexivity |].
    split; [vm_compute; reflexivity |].
    split; [vm_compute; reflexivity |].
    vm_compute. constructor. }
  split; [exact H |].
  pose proof (no_recording_after_helper_exit sample_recording sample_recorder O 1
                [Press KeyR; Press KeyX; Press KeyR] H) as T.
  cbv zeta in T. destruct T as (_ & _ & _ & T1 & T2 & _).
  split; [exact T1 | exact T2].
Defined.

(** X16. A recording stopped with the x key can be followed by another.
    The key sends SIGINT to the helper; once the helper has exited, or
    has been killed at five seconds, the shown state is idle again, but
    the r key is still ignored until the scan of the recordings has
    settled and the recorder is dropped. Then r starts a new recording
    with a new recorder and a new helper, and the application is in the
    middle of a recording as before, the dropped recorder staying
    silent. *)
Theorem stop_then_record_again
    (u : Ui) (r : NativeAudioRecorder.World) (p : nat) (ev : RuntimeEvent)
    (error : option string) (path rp : string) (t : Z) :
  recording_with u r p ->
  selectedMic (app u) <> None \/ selectedSystemAudio (app u) <> None ->
  ends_helper ev p ->
  let u1 := fst (turns [Press KeyX; Runtime ev] u) in
  let u2 := scan_settled error u1 in
  let again := [Press KeyR; Inner (DirSettled true path t rp None); Inner StartSettled] in
  NativeAudioRecorder.kills (snd (turns [Press KeyX; Runtime ev] u))
  = (p, SIGINT) :: match ev with
                   | Elapsed _ => [(p, SIGKILL)]
                   | Exited _ _ => []
                   end
  /\ recordingState (app u1) = NativeAudioRecorder.idle
  /\ turn (Press KeyR) u1 = (u1, [])
  /\ recorder (app u2) = None
  /\ spawns (snd (turns again u2)) = 1%nat
  /\ exists r', recording_with (fst (turns again u2)) r' (next_pid (app u)).
Proof.
  intros Hrw Hsel Hev u1 u2 again.
  pose proof (AppLoopFacts.press_x u r p Hrw) as Ex.
  destruct Hrw as (Hr & Hf & Hin & Hrs & Hfl & Hsu & Hsc & Hd).
  destruct (AppLoopFacts.helper_ends r p ev Hf Hev) as (r2 & Es & Hrest & Hlen).
  destruct (AppLoopFacts.each_recorder_quiet ev (detached u)
              (set_recordingState NativeAudioRecorder.stopping
                 (set_recorder (Some (snd (fst (NativeAudioRecorder.stop r))))
                    (set_updateInterval false (app u)))) Hd) as (ds & Ed & Hds).
  assert (Ha2 : NativeAudioRecorder.awaiting r2 = []) by apply Hrest.
  set (a1 := set_recordingState NativeAudioRecorder.idle
               (set_recorder (Some r2) (set_updateInterval false (app u)))).
  assert (E1 : turns [Press KeyX; Runtime ev] u
               = (mkUi a1 (devices u) [AwaitScan] ds,
                  [NativeAudioRecorder.Emit
                     (NativeAudioRecorder.stateChange NativeAudioRecorder.stopping);
                   NativeAudioRecorder.Kill p SIGINT;
                   NativeAudioRecorder.SetTimeout (NativeAudioRecorder.next_timer r) 5000]
                  ++ (match ev with
                      | Elapsed _ => [NativeAudioRecorder.Kill p SIGKILL]
                      | Exited _ _ => []
                      end
                      ++ [NativeAudioRecorder.Emit
                            (NativeAudioRecorder.stateChange NativeAudioRecorder.idle)])
                  ++ [])).
  { cbn [turns turn]. rewrite Ex. unfold runtime_event. cbn [detached app].
    rewrite Ed. cbn [recorder set_recordingState set_recorder devices stop_calls].
    rewrite Es, Hlen, Ha2. cbn [List.length Nat.sub resume_stop_calls].
    unfold a1. destruct ev; reflexivity. }
  assert (Hu1 : u1 = mkUi a1 (devices u) [AwaitScan] ds) by (unfold u1; rewrite E1; reflexivity).
  assert (Hu2 : exists a1e,
             u2 = mkUi (set_recorder None a1e) (devices u) [] (ds ++ [r2])
             /\ isStartingRecording a1e = false
             /\ recordingState a1e = NativeAudioRecorder.idle
             /\ suspended a1e = []
             /\ selectedMic a1e = selectedMic (app u)
             /\ selectedSystemAudio a1e = selectedSystemAudio (app u)
             /\ recordBoth a1e = recordBoth (app u)
             /\ next_pid a1e = next_pid (app u)).
  { unfold u2. rewrite Hu1. destruct error; eexists; (split; [reflexivity |]); cbn;
      repeat split; assumption. }
  destruct Hu2 as (a1e & Hu2 & G1 & G2 & G3 & G4 & G5 & G6 & G7).
  split; [rewrite E1; destruct ev; reflexivity |].
  split; [rewrite Hu1; reflexivity |].
  split.
  { rewrite Hu1. cbn [turn]. unfold handleMainScreenKeys. cbn [app]. unfold a1 at 1.
    cbn [recordingState set_recordingState].
    rewrite AppFacts.startRecording_guarded by (right; left; discriminate).
    reflexivity. }
  split; [rewrite Hu2; reflexivity |].
  set (a2 := set_recorder None a1e) in *.
  assert (Hs2 : startRecording a2
                = set_suspended
                    [AwaitDir (present (selectedMic (app u)))
                       (present (selectedSystemAudio (app u))
                        && (recordBoth (app u) || negb (present (selectedMic (app u)))))]
                    (set_isStartingRecording true a2)).
  { rewrite AppFacts.startRecording_suspends.
    - cbn. rewrite G3, G4, G5, G6. reflexivity.
    - exact G1.
    - reflexivity.
    - exact G2.
    - cbn. rewrite G4, G5. exact Hsel. }
  set (a3 := set_suspended _ (set_isStartingRecording true a2)) in Hs2.
  destruct (AppLoopFacts.start_through a3 path t rp _ _ eq_refl) as (Et & Hf' & Hin').
  cbv zeta in Et, Hf', Hin'.
  assert (Hnp : next_pid a3 = next_pid (app u)) by exact G7.
  rewrite Hnp in Et, Hf', Hin'.
  set (r' := snd (fst (NativeAudioRecorder.start rp None _))) in *.
  assert (E4 : turns again u2
               = (mkUi (set_isStartingRecording false
                          (set_updateInterval true
                             (set_suspended [] (fst (dir_settled true path t rp None a3)))))
                       (devices u) [] (ds ++ [r2]),
                  snd (dir_settled true path t rp None a3) ++ [])).
  { unfold again. rewrite Hu2. cbn [turns turn]. unfold handleMainScreenKeys.
    cbn [app]. unfold a2 at 1. cbn [recordingState set_recorder]. rewrite G2.
    rewrite Hs2. cbn [with_app app App.turn devices stop_calls detached].
    rewrite Et. cbn [fst snd]. unfold start_settled. cbn. reflexivity. }
  rewrite E4. cbn [fst snd]. rewrite Et. cbn [fst snd]. split; [reflexivity |].
  exists r'. unfold recording_with. cbn.
  split; [reflexivity |]. split; [exact Hf' |]. split; [exact Hin' |].
  repeat split. apply Forall_app. split; [exact Hds |].
  constructor; [apply AppLoopFacts.at_rest_quiet, Hrest | constructor].
Qed.

(** The statement at the sample application: x is pressed, the helper
    exits, the scan settles, and r starts the second recording. *)
Lemma stop_then_record_again_witness :
  recording_with sample_recording sample_recorder O
  /\ spawns
       (snd (turns [Press KeyR; Inner (DirSettled true "/tmp/second.m4a" 9000 "recorder" None);
                    Inner StartSettled]
               (scan_settled None
                  (fst (turns [Press KeyX; Runtime (Exited O 0)] sample_recording)))))
     = 1%nat.
Proof.
  assert (H : recording_with sample_recording sample_recorder O).
  { unfold recording_with, NativeAudioRecorder.no_stale_timer.
    split; [vm_compute; reflexivity |].
    split; [split; [| split; [| split]]; vm_compute; reflexivity |].
    split; [vm_compute; left; reflexivity |].
    split; [vm_compute; reflexivity |].
    split; [vm_compute; reflexivity |].
    split; [vm_compute; reflexivity |].
    split; [vm_compute; reflexivity |].
    vm_compute. constructor. }
  split; [exact H |].
  assert (Hsel : selectedMic (app sample_recording) <> None
                 \/ selectedSystemAudio (app sample_recording) <> None)
    by (left; vm_compute; discriminate).
  assert (Hev : ends_helper (Exited O 0) O) by reflexivity.
  pose proof (stop_then_record_again sample_recording sample_recorder O (Exited O 0) None
                "/tmp/second.m4a" "recorder" 9000 H Hsel Hev) as T.
  cbv zeta in T. destruct T as (_ & _ & _ & _ & T & _). exact T.
Defined.

(** X17. The mode shown on the main screen is the mode recorded.
    Whenever [startRecording()] goes through to the spawn, the helper is
    started with the arguments record, the output path and one mode
    flag, and its command line gives a session that records the
    microphone and system audio exactly as the label says: both for
    "Mic + System", system audio only for "System", the microphone only
    for "Mic". The arguments name no device: which microphone is
    selected does not reach the helper. *)
Theorem shown_mode_is_recorded_mode (a : AppState) (path rp : string) (t : Z) :
  isStartingRecording a = false -> recorder a = None ->
  recordingState a = NativeAudioRecorder.idle -> suspended a = [] ->
  selectedMic a <> None \/ selectedSystemAudio a <> None ->
  exists flag mic sys,
    snd (dir_settled true path t rp None (startRecording a))
    = [NativeAudioRecorder.Spawn (next_pid a) [rp; "record"; path; flag];
       NativeAudioRecorder.Emit (NativeAudioRecorder.stateChange NativeAudioRecorder.recording)]
    /\ Helper.parse_command ["record"; path; flag]
       = Helper.Record (Merge.mkSession path mic sys None None)
    /\ mode_label a
       = (if (mic && sys)%bool then "Mic + System" else if sys then "System" else "Mic")
    /\ (mic || sys)%bool = true.
Proof.
  intros H1 H2 H3 H4 H5.
  rewrite (AppFacts.startRecording_suspends a H1 H2 H3 H5). rewrite H4. cbn [List.app].
  match goal with |- context [AwaitDir ?m ?sy] =>
    destruct (AppLoopFacts.start_through
                (set_suspended [AwaitDir m sy] (set_isStartingRecording true a))
                path t rp m sy eq_refl) as (Et & _);
    pose proof (AppLoopFacts.mode_flag_of_flags path m sy) as Ef end.
  cbv zeta in Et, Ef. rewrite Et. cbn [snd]. rewrite Ef.
  unfold mode_label.
  destruct (selectedMic a) as [dm |], (selectedSystemAudio a) as [dsy |], (recordBoth a);
    cbn [present andb orb negb];
    try (destruct H5; congruence);
    eexists _, _, _; (split; [reflexivity |]); (split; [reflexivity |]);
    (split; reflexivity).
Qed.

Lemma shown_mode_is_recorded_mode_witness :
  exists flag mic sys,
    snd (dir_settled true "/tmp/a.m4a" 0 "recorder" None
           (startRecording (set_selectedMic (Some Examples.builtin_mic) App.initial)))
    = [NativeAudioRecorder.Spawn O ["recorder"; "record"; "/tmp/a.m4a"; flag];
       NativeAudioRecorder.Emit (NativeAudioRecorder.stateChange NativeAudioRecorder.recording)]
    /\ Helper.parse_command ["record"; "/tmp/a.m4a"; flag]
       = Helper.Record (Merge.mkSession "/tmp/a.m4a" mic sys None None)
    /\ mode_label (set_selectedMic (Some Examples.builtin_mic) App.initial)
       = (if (mic && sys)%bool then "Mic + System" else if sys then "System" else "Mic")
    /\ (mic || sys)%bool = true.
Proof.
  apply (shown_mode_is_recorded_mode
           (set_selectedMic (Some Examples.builtin_mic) App.initial) "/tmp/a.m4a" "recorder" 0);
    try reflexivity.
  left. discriminate.
Defined.

(** X18. What [loadDevices()] selects and what the r key then records.
    The system device selected is the one [findSystemAudio] finds, the
    microphone selected is one of the microphones of the list, and both
    mode is only set with a system device. Pressing r afterwards is
    refused with "Please select at least one audio source" exactly when
    the list has neither a microphone nor a system device. Otherwise the
    recording takes system audio exactly when there is a system device
    and the saved mode is both or system or there is no microphone, and
    the microphone exactly when there is one and the saved mode is not
    system with a system device present. *)
Theorem loadDevices_decides_the_mode
    (devs : list NativeDevice) (cfg : AudioConfig) (u : Ui) :
  isStartingRecording (app u) = false -> recorder (app u) = None ->
  recordingState (app u) = NativeAudioRecorder.idle ->
  let u1 := loadDevices (inr devs) cfg u in
  let has_mic := negb (Nat.eqb (List.length (NativeDevices.findMicrophones devs)) 0) in
  let has_sys := present (NativeDevices.findSystemAudio devs) in
  let want_both := same_as (recordingMode cfg) "both" in
  let want_system := same_as (recordingMode cfg) "system" in
  selectedSystemAudio (app u1) = NativeDevices.findSystemAudio devs
  /\ (forall d, selectedMic (app u1) = Some d ->
        In d devs /\ NativeDevices.is_microphone d = true)
  /\ (recordBoth (app u1) = true -> selectedSystemAudio (app u1) <> None)
  /\ startRecording (app u1)
     = if (has_mic || has_sys)%bool
       then set_suspended
              (suspended (app u)
               ++ [AwaitDir (has_mic && negb (want_system && has_sys))
                     (has_sys && (want_both || want_system || negb has_mic))])
              (set_isStartingRecording true (app u1))
       else set_errorMessage "Please select at least one audio source"
              (set_isStartingRecording true (app u1)).
Proof.
  intros H1 H2 H3 u1 has_mic has_sys want_both want_system.
  set (mics := NativeDevices.findMicrophones devs) in *.
  set (sys := NativeDevices.findSystemAudio devs) in *.
  set (byId := List.find (fun m => same_as (selectedMicId cfg) (id m)) mics).
  set (byName := List.find (fun m => same_as (selectedMicName cfg) (name m)) mics).
  set (savedMic := match byId with
                   | Some d => Some d
                   | None => if truthy_str (selectedMicName cfg) then byName else None
                   end).
  set (mic := if (truthy_str (selectedMicId cfg) || truthy_str (selectedMicName cfg))%bool
              then or_first savedMic mics else List.nth_error mics 0).
  assert (Hsaved : forall x, savedMic = Some x -> In x mics).
  { intros x. unfold savedMic. destruct byId as [d |] eqn:E.
    - intros [= <-]. apply (List.find_some _ _ E).
    - destruct (truthy_str (selectedMicName cfg)); [| discriminate].
      intros E2. apply (List.find_some _ _ E2). }
  assert (Hin : forall d, mic = Some d -> In d mics).
  { intros d. unfold mic. destruct (_ || _)%bool.
    - now apply AppLoopFacts.or_first_member.
    - intros H. apply (List.nth_error_In mics 0 H). }
  assert (Hpm : present mic = has_mic).
  { unfold mic, has_mic. destruct (_ || _)%bool.
    - now apply AppLoopFacts.or_first_present.
    - fold mics. destruct mics; reflexivity. }
  assert (Hmics : forall d, In d mics -> In d devs /\ NativeDevices.is_microphone d = true).
  { intros d Hd. unfold mics, NativeDevices.findMicrophones in Hd.
    apply List.filter_In in Hd. exact Hd. }
  pose proof (AppLoopFacts.modes_exclusive (recordingMode cfg)) as Hex.
  fold want_both in Hex. fold want_system in Hex.
  assert (Eu : app u1
               = if (want_both && present sys)%bool
                 then set_selection mic sys true (app u)
                 else if (want_system && present sys)%bool
                 then set_selection None sys false (app u)
                 else set_selection mic sys false (app u)) by reflexivity.
  fold has_sys in Eu. rewrite Eu. clear Eu.
  unfold has_sys in *. clearbody mic want_both want_system has_mic.
  destruct want_both, want_system; try discriminate Hex;
    destruct sys as [ds |] eqn:Es; cbn [present andb orb negb];
    (split; [reflexivity |]);
    (split; [cbn [selectedMic set_selection];
             first [ intros d Hd; apply Hmics, Hin, Hd | intros d Hd; discriminate Hd ] |]);
    (split; [cbn [recordBoth selectedSystemAudio set_selection]; congruence |]);
    unfold startRecording; cbn [isStartingRecording recorder recordingState set_selection];
    rewrite H1, H2, H3; cbn [NativeAudioRecorder.state_eqb orb negb present];
    cbn [selectedMic selectedSystemAudio recordBoth suspended set_isStartingRecording
         set_selection present andb orb negb];
    rewrite ?Hpm; destruct has_mic; cbn [andb orb negb]; reflexivity.
Qed.

(** The statement at the application as constructed, on the helper's
    list of one microphone and the system device, with both mode saved:
    r records both. *)
Lemma loadDevices_decides_the_mode_witness :
  startRecording
    (app (loadDevices
            (inr (NativeDevices.listDevices
                    [("MacBook Pro Microphone", "BuiltInMicrophoneDevice")] true))
            (mkAudioConfig None None (Some "both")) initial))
  = set_suspended [AwaitDir true true]
      (set_isStartingRecording true
         (app (loadDevices
                 (inr (NativeDevices.listDevices
                         [("MacBook Pro Microphone", "BuiltInMicrophoneDevice")] true))
                 (mkAudioConfig None None (Some "both")) initial))).
Proof.
  pose proof (loadDevices_decides_the_mode
                (NativeDevices.listDevices
                   [("MacBook Pro Microphone", "BuiltInMicrophoneDevice")] true)
                (mkAudioConfig None None (Some "both")) initial eq_refl eq_refl eq_refl) as T.
  cbv zeta in T. destruct T as (_ & _ & _ & T). rewrite T. vm_compute. reflexivity.
Defined.

End AppLoopTheorems.

(** ** Theorems on durations *)

Module FormatFacts.
Import Format.

Lemma length_append (a b : string) :
  String.length (a +:+ b) = (String.length a + String.length b)%nat.
Proof.
  induction a as [| c a IH]; [reflexivity |].
  rewrite OutputFacts.append_cons. cbn [String.length]. rewrite IH. reflexivity.
Qed.

(** Two texts with tails of the same length are equal part by part. *)
Lemma append_same_tail (a b x y : string) :
  a +:+ x = b +:+ y -> String.length x = String.length y -> a = b /\ x = y.
Proof.
  revert b. induction a as [| c a IH]; intros b H L.
  - destruct b as [| d b]; [split; [reflexivity | exact H] |].
    rewrite OutputFacts.append_nil_l in H. subst x.
    rewrite length_append in L. cbn [String.length] in L. lia.
  - destruct b as [| d b].
    + rewrite OutputFacts.append_nil_l in H. subst y.
      rewrite length_append in L. cbn [String.length] in L. lia.
    + rewrite !OutputFacts.append_cons in H. injection H as -> H.
      destruct (IH b H L) as [-> ->]. split; reflexivity.
Qed.

Lemma padStart2_length s : (2 <= String.length (padStart2 s))%nat.
Proof.
  unfold padStart2. destruct s as [| a [| b r]];
    [cbv; lia | cbv; lia | cbn [String.length]; lia].
Qed.

(** A positive number is written without a leading zero. *)
Lemma pretty_N_go_head (x : N) (s : string) :
  (0 < x)%N -> exists c r, pretty_N_go x s = String c r /\ c <> "0"%char.
Proof.
  revert s. induction (N.lt_wf_0 x) as [x _ IH]; intros s Hx.
  rewrite pretty_N_go_step by exact Hx.
  destruct (N.eq_dec (x / 10)%N 0%N) as [E | E].
  - rewrite E, pretty_N_go_0. eexists _, _. split; [reflexivity |].
    assert (Hlt : (x < 10)%N) by (apply N.div_small_iff; [discriminate | exact E]).
    rewrite N.mod_small by exact Hlt.
    assert (x = 1 \/ x = 2 \/ x = 3 \/ x = 4 \/ x = 5 \/ x = 6
            \/ x = 7 \/ x = 8 \/ x = 9)%N as Hc by lia.
    destruct Hc as [-> | [-> | [-> | [-> | [-> | [-> | [-> | [-> | ->]]]]]]]];
      discriminate.
  - apply IH; [exact (N.div_lt x 10 Hx eq_refl) | now apply N.neq_0_lt_0].
Qed.

Lemma pretty_pos_head (z : Z) :
  0 < z -> exists c r, pretty z = String c r /\ c <> "0"%char.
Proof.
  intros Hz. destruct z as [| p | p]; try lia.
  unfold pretty, pretty_Z, pretty, pretty_positive, pretty, pretty_N.
  destruct (decide (N.pos p = 0%N)) as [E | _]; [discriminate E |].
  apply pretty_N_go_head. lia.
Qed.

(** Padding keeps the texts of positive numbers apart. *)
Lemma padStart2_pretty_inj (a b : Z) :
  0 < a -> 0 < b -> padStart2 (pretty a) = padStart2 (pretty b) -> a = b.
Proof.
  intros Ha Hb H. apply (inj pretty).
  destruct (pretty_pos_head a Ha) as (c & r & Ea & Hc).
  destruct (pretty_pos_head b Hb) as (d & t & Eb & Hd).
  rewrite Ea, Eb in *. unfold padStart2 in H.
  destruct r as [| c2 r], t as [| d2 t]; cbn in H.
  - injection H as ->. reflexivity.
  - injection H as H1 H2. congruence.
  - injection H as H1 H2. congruence.
  - exact H.
Qed.

(** The sixty texts of minutes and seconds have two characters each and
    differ from each other. *)
Lemma small_texts :
  forallb (fun k =>
             Nat.eqb (String.length (padStart2 (pretty (Z.of_nat k)))) 2
             && forallb (fun j =>
                           negb (String.eqb (padStart2 (pretty (Z.of_nat k)))
                                            (padStart2 (pretty (Z.of_nat j))))
                           || Nat.eqb k j)
                  (List.seq 0 60))%bool
    (List.seq 0 60) = true.
Proof. vm_compute. reflexivity. Qed.

Lemma small_text_length (n : Z) :
  0 <= n < 60 -> String.length (padStart2 (pretty n)) = 2%nat.
Proof.
  intros Hn. pose proof small_texts as H. rewrite forallb_forall in H.
  specialize (H (Z.to_nat n)). rewrite Z2Nat.id in H by lia.
  assert (Hin : In (Z.to_nat n) (List.seq 0 60)) by (apply in_seq; lia).
  apply H in Hin. apply andb_prop in Hin as [Hl _]. now apply Nat.eqb_eq in Hl.
Qed.

Lemma small_text_inj (n m : Z) :
  0 <= n < 60 -> 0 <= m < 60 ->
  padStart2 (pretty n) = padStart2 (pretty m) -> n = m.
Proof.
  intros Hn Hm E. pose proof small_texts as H. rewrite forallb_forall in H.
  specialize (H (Z.to_nat n)). rewrite Z2Nat.id in H by lia.
  assert (Hin : In (Z.to_nat n) (List.seq 0 60)) by (apply in_seq; lia).
  apply H in Hin. apply andb_prop in Hin as [_ Hj]. rewrite forallb_forall in Hj.
  specialize (Hj (Z.to_nat m)). rewrite Z2Nat.id in Hj by lia.
  assert (Hin : In (Z.to_nat m) (List.seq 0 60)) by (apply in_seq; lia).
  apply Hj in Hin. rewrite E, String.eqb_refl in Hin. cbn in Hin.
  apply Nat.eqb_eq in Hin. lia.
Qed.

(** The three fields of a number of seconds that is not negative. *)
Lemma fields (t : Z) :
  0 <= t ->
  0 <= t / 3600
  /\ 0 <= Z.rem t 3600 / 60 < 60
  /\ 0 <= Z.rem t 60 < 60
  /\ t = t / 3600 * 3600 + Z.rem t 3600 / 60 * 60 + Z.rem t 60.
Proof.
  intros Ht. rewrite !Z.rem_mod_nonneg by lia.
  Z.div_mod_to_equations. lia.
Qed.

End FormatFacts.

Module FormatTheorems.
Import Format.

(** X19. [formatDuration] shows whole seconds and tells them apart. For
    durations that are not negative, two durations are shown as the same
    text exactly when they lie in the same second; below one hour the
    text has the five characters of MM:SS, from one hour on it has at
    least the eight of HH:MM:SS. *)
Theorem formatDuration_tells_seconds_apart (a b : Z) :
  0 <= a -> 0 <= b ->
  (formatDuration a = formatDuration b <-> a / 1000 = b / 1000)
  /\ (a < 3600000 -> String.length (formatDuration a) = 5%nat)
  /\ (3600000 <= a -> (8 <= String.length (formatDuration a))%nat).
Proof.
  intros Ha Hb.
  assert (Ta : 0 <= a / 1000) by (apply Z.div_pos; lia).
  assert (Tb : 0 <= b / 1000) by (apply Z.div_pos; lia).
  assert (Hlen : forall t, 0 <= t ->
            let h := t / 3600 in let m := Z.rem t 3600 / 60 in let s := Z.rem t 60 in
            String.length (padStart2 (pretty m) +:+ ":" +:+ padStart2 (pretty s)) = 5%nat
            /\ String.length (":" +:+ padStart2 (pretty m) +:+ ":" +:+ padStart2 (pretty s))
               = 6%nat).
  { intros t Ht. cbv zeta. destruct (FormatFacts.fields t Ht) as (_ & Hm & Hs & _).
    rewrite !FormatFacts.length_append.
    rewrite (FormatFacts.small_text_length _ Hm), (FormatFacts.small_text_length _ Hs).
    split; reflexivity. }
  split; [| split].
  - split; [| intros E; unfold formatDuration; rewrite E; reflexivity].
    unfold formatDuration. cbv zeta.
    destruct (FormatFacts.fields (a / 1000) Ta) as (Ha1 & Ha2 & Ha3 & Ea).
    destruct (FormatFacts.fields (b / 1000) Tb) as (Hb1 & Hb2 & Hb3 & Eb).
    destruct (Hlen (a / 1000) Ta) as [La5 La6]. destruct (Hlen (b / 1000) Tb) as [Lb5 Lb6].
    cbv zeta in La5, La6, Lb5, Lb6.
    set (ha := a / 1000 / 3600) in *. set (ma := Z.rem (a / 1000) 3600 / 60) in *.
    set (sa := Z.rem (a / 1000) 60) in *.
    set (hb := b / 1000 / 3600) in *. set (mb := Z.rem (b / 1000) 3600 / 60) in *.
    set (sb := Z.rem (b / 1000) 60) in *.
    assert (Hms : padStart2 (pretty ma) +:+ ":" +:+ padStart2 (pretty sa)
                  = padStart2 (pretty mb) +:+ ":" +:+ padStart2 (pretty sb) ->
                  ma = mb /\ sa = sb).
    { intros E.
      apply FormatFacts.append_same_tail in E as [E1 E2].
      - apply FormatFacts.small_text_inj in E1; [| assumption | assumption].
        change (":" +:+ padStart2 (pretty sa)) with (String ":" (padStart2 (pretty sa))) in E2.
        change (":" +:+ padStart2 (pretty sb)) with (String ":" (padStart2 (pretty sb))) in E2.
        injection E2 as E2.
        apply FormatFacts.small_text_inj in E2; [| assumption | assumption].
        split; assumption.
      - rewrite !FormatFacts.length_append.
        rewrite (FormatFacts.small_text_length _ Ha3), (FormatFacts.small_text_length _ Hb3).
        reflexivity. }
    destruct (Z.ltb_spec 0 ha) as [Pa | Pa], (Z.ltb_spec 0 hb) as [Pb | Pb]; intros E.
    + rewrite <- !OutputFacts.append_assoc in E. rewrite !OutputFacts.append_assoc in E.
      apply FormatFacts.append_same_tail in E as [E1 E2]; [| congruence].
      apply FormatFacts.padStart2_pretty_inj in E1; [| assumption | assumption].
      change (":" +:+ ?x) with (String ":" x) in E2. injection E2 as E2.
      destruct (Hms E2) as [-> ->]. lia.
    + exfalso. apply (f_equal String.length) in E. rewrite Lb5 in E.
      rewrite FormatFacts.length_append, La6 in E.
      pose proof (FormatFacts.padStart2_length (pretty ha)). lia.
    + exfalso. apply (f_equal String.length) in E. rewrite La5 in E.
      rewrite FormatFacts.length_append, Lb6 in E.
      pose proof (FormatFacts.padStart2_length (pretty hb)). lia.
    + destruct (Hms E) as [-> ->]. lia.
  - intros Hlt. unfold formatDuration. cbv zeta.
    assert (a / 1000 / 3600 = 0) as ->.
    { apply Z.div_small. split; [lia |]. apply Z.div_lt_upper_bound; lia. }
    cbn [Z.ltb Z.compare]. apply (Hlen (a / 1000) Ta).
  - intros Hge. unfold formatDuration. cbv zeta.
    assert (0 < a / 1000 / 3600) as Hh.
    { apply Z.div_str_pos. split; [lia |]. apply Z.div_le_lower_bound; lia. }
    apply Z.ltb_lt in Hh. rewrite Hh.
    rewrite FormatFacts.length_append. destruct (Hlen (a / 1000) Ta) as [_ L6].
    cbv zeta in L6. rewrite L6.
    pose proof (FormatFacts.padStart2_length (pretty (a / 1000 / 3600))). lia.
Qed.

(** The statement at 59.999 s and 60 s. *)
Lemma formatDuration_tells_seconds_apart_witness :
  formatDuration 59999 <> formatDuration 60000
  /\ String.length (formatDuration 59999) = 5%nat.
Proof.
  assert (Ha : 0 <= 59999) by lia. assert (Hb : 0 <= 60000) by lia.
  destruct (formatDuration_tells_seconds_apart 59999 60000 Ha Hb) as (H1 & H2 & _).
  split.
  - intros E. apply H1 in E. vm_compute in E. discriminate E.
  - apply H2. lia.
Defined.

End FormatTheorems.

(** ** Theorems on reading numbers and progress lines *)

Module TextFacts.
Import Text.

Lemma char_digit (y : N) :
  (y < 10)%N ->
  Json.is_digit (pretty_N_char y) = true /\ digit_value (pretty_N_char y) = Z.of_N y.
Proof.
  intros H.
  assert (y = 0 \/ y = 1 \/ y = 2 \/ y = 3 \/ y = 4 \/ y = 5 \/ y = 6
          \/ y = 7 \/ y = 8 \/ y = 9)%N as Hc by lia.
  destruct Hc as [-> | [-> | [-> | [-> | [-> | [-> | [-> | [-> | [-> | ->]]]]]]]]];
    split; reflexivity.
Qed.

Lemma pretty_N_go_app (x : N) (s r : string) :
  pretty_N_go x s +:+ r = pretty_N_go x (s +:+ r).
Proof.
  revert s. induction (N.lt_wf_0 x) as [x _ IH]; intros s.
  destruct (N.eq_dec x 0%N) as [-> | Hx].
  - rewrite !pretty_N_go_0. reflexivity.
  - assert (H0 : (0 < x)%N) by now apply N.neq_0_lt_0.
    rewrite (pretty_N_go_step x s H0), (pretty_N_go_step x (s +:+ r) H0).
    rewrite IH by exact (N.div_lt x 10 H0 eq_refl).
    rewrite OutputFacts.append_cons. reflexivity.
Qed.

(** Reading the text of a number gives the number back. *)
Lemma read_pretty_go (x : N) :
  exists k,
    ((0 < x)%N -> (0 < k)%nat)
    /\ forall acc n s,
         read_digits acc n (pretty_N_go x s)
         = read_digits (acc * 10 ^ Z.of_nat k + Z.of_N x) (n + k) s.
Proof.
  induction (N.lt_wf_0 x) as [x _ IH].
  destruct (N.eq_dec x 0%N) as [-> | Hx].
  - exists O. split; [intros H; inversion H |]. intros acc n s.
    rewrite pretty_N_go_0. f_equal; [| lia]. cbn. lia.
  - assert (H0 : (0 < x)%N) by now apply N.neq_0_lt_0.
    destruct (IH (x / 10)%N (N.div_lt x 10 H0 eq_refl)) as (k & _ & Hk).
    exists (S k). split; [intros _; lia |]. intros acc n s.
    rewrite pretty_N_go_step by exact H0. rewrite Hk. cbn [read_digits].
    assert (Hm : (x mod 10 < 10)%N) by (apply N.mod_lt; discriminate).
    destruct (char_digit _ Hm) as [D1 D2]. rewrite D1, D2.
    f_equal; [| lia].
    rewrite Nat2Z.inj_succ, Z.pow_succ_r by lia.
    pose proof (N.div_mod x 10 ltac:(discriminate)) as E.
    rewrite N2Z.inj_mod. rewrite N2Z.inj_div.
    pose proof (Z.div_mod (Z.of_N x) 10 ltac:(lia)) as E2.
    change (Z.of_N 10) with 10. lia.
Qed.

Lemma read_stop acc n s : starts_digit s = false -> read_digits acc n s = (acc, n, s).
Proof. destruct s as [| c r]; [reflexivity |]. cbn. intros ->. reflexivity. Qed.

Lemma pretty_nonneg_go (z : Z) :
  0 < z -> pretty z = pretty_N_go (Z.to_N z) "".
Proof.
  intros Hz. destruct z as [| p | p]; try lia.
  unfold pretty, pretty_Z, pretty, pretty_positive, pretty, pretty_N.
  destruct (decide (N.pos p = 0%N)) as [E | _]; [discriminate E | reflexivity].
Qed.

Lemma read_pretty (z : Z) (rest : string) acc n :
  0 <= z -> starts_digit rest = false ->
  exists k, (0 < k)%nat
    /\ read_digits acc n (pretty z +:+ rest) = (acc * 10 ^ Z.of_nat k + z, (n + k)%nat, rest).
Proof.
  intros Hz Hr. destruct (Z.eq_dec z 0) as [-> | Hne].
  - exists 1%nat. split; [lia |].
    change (pretty 0) with "0". rewrite OutputFacts.append_cons, OutputFacts.append_nil_l.
    cbn [read_digits]. change (Json.is_digit "0") with true. cbn iota.
    rewrite read_stop by exact Hr. change (digit_value "0") with 0.
    f_equal. f_equal; lia.
  - rewrite pretty_nonneg_go by lia. rewrite pretty_N_go_app, OutputFacts.append_nil_l.
    destruct (read_pretty_go (Z.to_N z)) as (k & Hk & H).
    exists k. split; [apply Hk; lia |].
    rewrite H, read_stop by exact Hr. rewrite Z2N.id by lia. reflexivity.
Qed.

Lemma digits_pretty (z : Z) (rest : string) :
  0 <= z -> starts_digit rest = false -> digits (pretty z +:+ rest) = Some (z, rest).
Proof.
  intros Hz Hr. unfold digits.
  destruct (read_pretty z rest 0 O Hz Hr) as (k & Hk & ->).
  destruct k; [lia |]. cbn [Nat.add]. f_equal; f_equal; lia.
Qed.

Lemma pretty_N_go_digits (x : N) (s : string) :
  all_digits s = true -> all_digits (pretty_N_go x s) = true.
Proof.
  revert s. induction (N.lt_wf_0 x) as [x _ IH]; intros s Hs.
  destruct (N.eq_dec x 0%N) as [-> | Hx].
  - rewrite pretty_N_go_0. exact Hs.
  - assert (H0 : (0 < x)%N) by now apply N.neq_0_lt_0.
    rewrite pretty_N_go_step by exact H0. apply IH; [exact (N.div_lt x 10 H0 eq_refl) |].
    cbn [all_digits]. rewrite Hs.
    assert (Hm : (x mod 10 < 10)%N) by (apply N.mod_lt; discriminate).
    destruct (char_digit _ Hm) as [-> _]. reflexivity.
Qed.

Lemma pretty_digits (z : Z) : 0 <= z -> all_digits (pretty z) = true.
Proof.
  intros Hz. destruct (Z.eq_dec z 0) as [-> | Hne]; [reflexivity |].
  rewrite pretty_nonneg_go by lia. now apply pretty_N_go_digits.
Qed.

Lemma pretty_nonempty (z : Z) : 0 <= z -> exists c r, pretty z = String c r.
Proof.
  intros Hz. destruct (Z.eq_dec z 0) as [-> | Hne]; [exists "0"%char, ""; reflexivity |].
  destruct (FormatFacts.pretty_pos_head z ltac:(lia)) as (c & r & E & _).
  exists c, r. exact E.
Qed.

Lemma padStart2_cases (z : Z) :
  0 <= z ->
  Format.padStart2 (pretty z) = pretty z \/ Format.padStart2 (pretty z) = "0" +:+ pretty z.
Proof.
  intros Hz. destruct (pretty_nonempty z Hz) as (c & r & ->).
  unfold Format.padStart2. destruct r as [| d r]; [right | left]; reflexivity.
Qed.

Lemma digits_padded (z : Z) (rest : string) :
  0 <= z -> starts_digit rest = false ->
  digits (Format.padStart2 (pretty z) +:+ rest) = Some (z, rest).
Proof.
  intros Hz Hr. destruct (padStart2_cases z Hz) as [-> | ->].
  - now apply digits_pretty.
  - rewrite OutputFacts.append_cons, OutputFacts.append_nil_l, OutputFacts.append_cons.
    unfold digits.
    cbn [read_digits]. change (Json.is_digit "0") with true. cbn iota.
    destruct (read_pretty z rest (0 * 10 + digit_value "0") 1%nat Hz Hr) as (k & Hk & ->).
    cbn [Nat.add]. change (digit_value "0") with 0. f_equal; f_equal; lia.
Qed.

(** A digit is neither white space nor a letter. *)
Lemma digit_not_special (c : ascii) :
  Json.is_digit c = true ->
  Str.is_space c = false /\ Ascii.eqb c "t" = false /\ Ascii.eqb c "s" = false.
Proof.
  destruct c as [[] [] [] [] [] [] [] []]; vm_compute; intros H;
    first [discriminate H | repeat split].
Qed.

Lemma space_not_letter (c : ascii) :
  Str.is_space c = true -> Ascii.eqb c "t" = false /\ Ascii.eqb c "s" = false.
Proof.
  destruct c as [[] [] [] [] [] [] [] []]; vm_compute; intros H;
    first [discriminate H | repeat split].
Qed.

Lemma occ_digits x (s : string) :
  all_digits s = true -> Json.is_digit x = false -> Str.occ x s = O.
Proof.
  intros Hs Hx. induction s as [| c r IH]; [reflexivity |].
  cbn [all_digits] in Hs. apply andb_prop in Hs as [Hc Hr].
  cbn [Str.occ]. rewrite (IH Hr).
  destruct (Ascii.eqb_spec c x) as [-> | _]; [congruence | reflexivity].
Qed.

Lemma occ_spaces x (s : string) :
  Str.all_space s = true -> Str.is_space x = false -> Str.occ x s = O.
Proof.
  intros Hs Hx. induction s as [| c r IH]; [reflexivity |].
  cbn [Str.all_space] in Hs. apply andb_prop in Hs as [Hc Hr].
  cbn [Str.occ]. rewrite (IH Hr).
  destruct (Ascii.eqb_spec c x) as [-> | _]; [congruence | reflexivity].
Qed.

Lemma skip_space_spaces (w x : string) :
  Str.all_space w = true -> skip_space (w +:+ x) = skip_space x.
Proof.
  intros Hw. induction w as [| c r IH]; [reflexivity |].
  cbn [Str.all_space] in Hw. apply andb_prop in Hw as [Hc Hr].
  rewrite OutputFacts.append_cons. cbn [skip_space]. rewrite Hc. now apply IH.
Qed.

Lemma skip_space_digit (s : string) : starts_digit s = true -> skip_space s = s.
Proof.
  destruct s as [| c r]; [discriminate |]. cbn. intros H.
  destruct (digit_not_special c H) as (-> & _). reflexivity.
Qed.

Lemma starts_digit_pretty (z : Z) (rest : string) :
  0 <= z -> starts_digit (pretty z +:+ rest) = true.
Proof.
  intros Hz. pose proof (pretty_digits z Hz) as Hd.
  destruct (pretty_nonempty z Hz) as (c & r & E). rewrite E in *.
  rewrite OutputFacts.append_cons. cbn in *. now apply andb_prop in Hd as [-> _].
Qed.

(** A search passes over the positions where the match cannot start. *)
Lemma search_skip {A} (m : string -> option A) (x : ascii) (pre s : string) :
  (forall c r, Ascii.eqb c x = false -> m (String c r) = None) ->
  Str.occ x pre = O ->
  search m (pre +:+ s) = search m s.
Proof.
  intros Hm. induction pre as [| c r IH]; intros Ho; [reflexivity |].
  cbn [Str.occ] in Ho. destruct (Ascii.eqb c x) eqn:E; [discriminate |].
  rewrite OutputFacts.append_cons. cbn [search]. rewrite (Hm c _ E). now apply IH.
Qed.

Lemma search_hit {A} (m : string -> option A) (s : string) a :
  m s = Some a -> search m s = Some a.
Proof. intros H. destruct s; cbn [search]; rewrite H; reflexivity. Qed.

Lemma search_found {A} (m : string -> option A) (s : string) a :
  search m s = Some a -> exists pre t, s = pre +:+ t /\ m t = Some a.
Proof.
  induction s as [| c r IH]; cbn [search].
  - destruct (m "") eqn:E; [| discriminate]. intros [= <-]. exists "", "". split; [reflexivity | exact E].
  - destruct (m (String c r)) eqn:E.
    + intros [= <-]. exists "", (String c r). split; [reflexivity | exact E].
    + intros H. destruct (IH H) as (pre & t & -> & Ht).
      exists (String c pre), t. split; [reflexivity | exact Ht].
Qed.

Lemma read_digits_nonneg s : forall acc n,
  0 <= acc -> 0 <= fst (fst (read_digits acc n s)).
Proof.
  induction s as [| c r IH]; intros acc n Ha; [exact Ha |].
  cbn [read_digits]. destruct (Json.is_digit c) eqn:E; [| exact Ha].
  apply IH. unfold digit_value.
  unfold Json.is_digit in E. apply andb_prop in E as [E1 _]. apply Nat.leb_le in E1. lia.
Qed.

Lemma digits_nonneg s v rest : digits s = Some (v, rest) -> 0 <= v.
Proof.
  unfold digits. pose proof (read_digits_nonneg s 0 O ltac:(lia)) as H.
  destruct (read_digits 0 0 s) as [[v' n] r]. cbn in H.
  destruct n; [discriminate |]. intros [= <- _]. exact H.
Qed.

Lemma after_prefix_startsWith p s r : after_prefix p s = Some r -> Str.startsWith p s = true.
Proof.
  revert s. induction p as [| a p IH]; intros s H; [destruct s; reflexivity |].
  destruct s as [| b s]; [discriminate |]. cbn in *.
  destruct (Ascii.eqb a b); [now apply IH | discriminate].
Qed.

Lemma includes_at pre t p : Str.startsWith p t = true -> Str.includes (pre +:+ t) p = true.
Proof.
  intros H. induction pre as [| c r IH].
  - rewrite OutputFacts.append_nil_l. destruct t; cbn [Str.includes]; rewrite H; reflexivity.
  - rewrite OutputFacts.append_cons. cbn [Str.includes].
    destruct (Str.startsWith p (String c (r +:+ t))); [reflexivity | exact IH].
Qed.

End TextFacts.

Module ProgressTheorems.
Import Format.

(** X20. The progress FFmpeg reports, as [handleStderr] reads it. A
    chunk that begins with FFmpeg's progress line for an audio file
    (the size in kB after any white space, then the time as padded
    hours, minutes and seconds) gives one progress event with the time
    in seconds and the size in bytes, whatever follows the seconds: the
    fraction of a second is dropped, and so is any later progress line
    of the same chunk. Every chunk gives at most one event; durations
    and sizes are never negative and a size is a multiple of 1024; a
    chunk that holds neither "size=" nor "time=" gives none. *)
Theorem progress_line_is_read
    (ws : string) (kb h m s : Z) (tail : string) :
  Str.all_space ws = true ->
  0 <= kb -> 0 <= h -> 0 <= m -> 0 <= s ->
  Text.starts_digit tail = false ->
  progress_of ("size=" +:+ ws +:+ pretty kb +:+ "kB time=" +:+ padStart2 (pretty h) +:+ ":"
               +:+ padStart2 (pretty m) +:+ ":" +:+ padStart2 (pretty s) +:+ tail)
  = Some (h * 3600 + m * 60 + s, kb * 1024)
  /\ (forall chunks, (List.length (handleStderr chunks) <= List.length chunks)%nat)
  /\ (forall text duration size,
        progress_of text = Some (duration, size) ->
        0 <= duration /\ 0 <= size /\ size mod 1024 = 0)
  /\ (forall text,
        Str.includes text "size=" = false -> Str.includes text "time=" = false ->
        progress_of text = None).
Proof.
  intros Hws Hkb Hh Hm Hs Htail.
  assert (Hsz : forall text v, Text.search size_here text = Some v ->
                  0 <= v /\ Str.includes text "size=" = true).
  { intros text v H. destruct (TextFacts.search_found _ _ _ H) as (pre & t & -> & Ht).
    unfold size_here in Ht. destruct (Text.after_prefix "size=" t) as [r |] eqn:E;
      [| discriminate].
    destruct (Text.digits (Text.skip_space r)) as [[v' r'] |] eqn:D; [| discriminate].
    injection Ht as <-. split; [exact (TextFacts.digits_nonneg _ _ _ D) |].
    apply TextFacts.includes_at, (TextFacts.after_prefix_startsWith _ _ _ E). }
  assert (Htm : forall text a b c, Text.search time_here text = Some (a, b, c) ->
                  0 <= a /\ 0 <= b /\ 0 <= c /\ Str.includes text "time=" = true).
  { intros text a b c H. destruct (TextFacts.search_found _ _ _ H) as (pre & t & -> & Ht).
    unfold time_here in Ht. destruct (Text.after_prefix "time=" t) as [r |] eqn:E;
      [| discriminate].
    destruct (Text.digits r) as [[a' r1] |] eqn:D1; [| discriminate].
    unfold colon_digits in Ht.
    destruct r1 as [| c1 r1]; [discriminate |].
    destruct (Ascii.eqb c1 ":"); [| discriminate].
    destruct (Text.digits r1) as [[b' r2] |] eqn:D2; [| discriminate].
    destruct r2 as [| c2 r2]; [discriminate |].
    destruct (Ascii.eqb c2 ":"); [| discriminate].
    destruct (Text.digits r2) as [[c' r3] |] eqn:D3; [| discriminate].
    injection Ht as <- <- <-.
    split; [exact (TextFacts.digits_nonneg _ _ _ D1) |].
    split; [exact (TextFacts.digits_nonneg _ _ _ D2) |].
    split; [exact (TextFacts.digits_nonneg _ _ _ D3) |].
    apply TextFacts.includes_at, (TextFacts.after_prefix_startsWith _ _ _ E). }
  split; [| split; [| split]].
  - set (t3 := padStart2 (pretty s) +:+ tail).
    set (t2 := padStart2 (pretty m) +:+ ":" +:+ t3).
    set (t1 := padStart2 (pretty h) +:+ ":" +:+ t2).
    set (after_kb := "kB time=" +:+ t1).
    assert (Esize : Text.search size_here ("size=" +:+ (ws +:+ (pretty kb +:+ after_kb)))
                    = Some kb).
    { apply TextFacts.search_hit. unfold size_here.
      change (Text.after_prefix "size=" ("size=" +:+ (ws +:+ pretty kb +:+ after_kb)))
        with (Some (ws +:+ pretty kb +:+ after_kb)).
      cbn iota beta.
      rewrite TextFacts.skip_space_spaces by exact Hws.
      rewrite TextFacts.skip_space_digit by (now apply TextFacts.starts_digit_pretty).
      rewrite TextFacts.digits_pretty by (try lia; reflexivity). reflexivity. }
    assert (Etime : Text.search time_here ("size=" +:+ (ws +:+ (pretty kb +:+ after_kb)))
                    = Some (h, m, s)).
    { assert (Hno : forall c r, Ascii.eqb c "t" = false -> time_here (String c r) = None).
      { intros c r Hc. unfold time_here. cbn [Text.after_prefix].
        rewrite Ascii.eqb_sym, Hc. reflexivity. }
      rewrite (TextFacts.search_skip time_here "t" "size=" _ Hno eq_refl).
      rewrite (TextFacts.search_skip time_here "t" ws _ Hno
                 (TextFacts.occ_spaces "t" ws Hws eq_refl)).
      rewrite (TextFacts.search_skip time_here "t" (pretty kb) _ Hno
                 (TextFacts.occ_digits "t" _ (TextFacts.pretty_digits kb Hkb) eq_refl)).
      unfold after_kb.
      change ("kB time=" +:+ t1) with ("kB " +:+ ("time=" +:+ t1)).
      rewrite (TextFacts.search_skip time_here "t" "kB " _ Hno eq_refl).
      apply TextFacts.search_hit. unfold time_here.
      change (Text.after_prefix "time=" ("time=" +:+ t1)) with (Some t1).
      cbn iota beta.
      unfold t1. rewrite TextFacts.digits_padded by (try lia; reflexivity).
      change (":" +:+ t2) with (String ":" t2). cbn [colon_digits]. rewrite Ascii.eqb_refl.
      unfold t2. rewrite TextFacts.digits_padded by (try lia; reflexivity).
      change (":" +:+ t3) with (String ":" t3). cbn [colon_digits]. rewrite Ascii.eqb_refl.
      unfold t3. rewrite TextFacts.digits_padded by (try lia; assumption). reflexivity. }
    unfold progress_of. rewrite Esize, Etime. reflexivity.
  - intros chunks. unfold handleStderr.
    induction chunks as [| c r IH]; [cbn; lia |].
    cbn [List.flat_map List.length]. rewrite List.length_app.
    destruct (progress_of c) as [[d z] |]; cbn [List.length]; lia.
  - intros text d z. unfold progress_of.
    destruct (Text.search size_here text) as [kb' |] eqn:E1;
      destruct (Text.search time_here text) as [[[a b] c] |] eqn:E2;
      intros [= <- <-]; try discriminate.
    + destruct (Hsz _ _ E1) as [P _]. destruct (Htm _ _ _ _ E2) as (Q1 & Q2 & Q3 & _).
      split; [lia |]. split; [lia |]. apply Z.mod_mul. lia.
    + destruct (Hsz _ _ E1) as [P _]. split; [lia |]. split; [lia |]. apply Z.mod_mul. lia.
    + destruct (Htm _ _ _ _ E2) as (Q1 & Q2 & Q3 & _). split; [lia |]. split; [lia | reflexivity].
  - intros text H1 H2. unfold progress_of.
    destruct (Text.search size_here text) as [kb' |] eqn:E1.
    { destruct (Hsz _ _ E1) as [_ P]. congruence. }
    destruct (Text.search time_here text) as [[[a b] c] |] eqn:E2; [| reflexivity].
    destruct (Htm _ _ _ _ E2) as (_ & _ & _ & P). congruence.
Qed.

(** The statement at a chunk holding two progress lines. *)
Lemma progress_line_is_read_witness :
  progress_of ("size=" +:+ "    " +:+ pretty 1234 +:+ "kB time=" +:+ padStart2 (pretty 0) +:+ ":"
               +:+ padStart2 (pretty 1) +:+ ":" +:+ padStart2 (pretty 23)
               +:+ ".45 bitrate= 123.4kbits/s size=    1300kB time=00:01:24.00")
  = Some (83, 1263616).
Proof.
  assert (H : 0 <= 1234 /\ 0 <= 0 /\ 0 <= 1 /\ 0 <= 23) by lia.
  destruct H as (H1 & H2 & H3 & H4).
  exact (proj1 (progress_line_is_read "    " 1234 0 1 23
                  ".45 bitrate= 123.4kbits/s size=    1300kB time=00:01:24.00"
                  eq_refl H1 H2 H3 H4 eq_refl)).
Defined.

End ProgressTheorems.

(** ** Theorems on finding the helper binary *)

Module RecorderPathTheorems.
Import RecorderPath.

(** X21. [getRecorderPath] returns one of its candidates: the first one
    that exists, in the order the directory of the command line script
    first (when [process.argv[1]] is set), then the development paths;
    when none exists it returns the first candidate, never the literal
    at the end of the function, since there are always five or eight
    candidates. *)
Theorem getRecorderPath_is_first_existing
    (dirname : string -> string) (join : list string -> string)
    (existsSync : string -> bool) (metaPath : string) (arg1 : option string)
    (cwd : string) :
  let paths := possiblePaths dirname join metaPath arg1 cwd in
  let p := getRecorderPath dirname join existsSync metaPath arg1 cwd in
  In p paths
  /\ (existsSync p = true ->
      exists before after,
        paths = before ++ p :: after /\ forall q, In q before -> existsSync q = false)
  /\ (existsSync p = false ->
      (forall q, In q paths -> existsSync q = false) /\ List.nth_error paths 0 = Some p)
  /\ (List.length paths = 5%nat \/ List.length paths = 8%nat)
  /\ (forall a, arg1 = Some a -> a <> "" ->
        List.nth_error paths 0 = Some (join [dirname a; "recorder"])).
Proof.
  intros paths p.
  assert (Hlen : List.length paths = 5%nat \/ List.length paths = 8%nat).
  { unfold paths, possiblePaths. destruct arg1 as [a |]; [| left; reflexivity].
    destruct (negb (String.eqb a "")); [right | left]; reflexivity. }
  assert (Hp : (exists before after,
                  List.find existsSync paths = Some p
                  /\ existsSync p = true
                  /\ paths = before ++ p :: after
                  /\ forall q, In q before -> existsSync q = false)
               \/ (List.find existsSync paths = None
                   /\ List.nth_error paths 0 = Some p)).
  { unfold p, getRecorderPath. fold paths.
    destruct (List.find existsSync paths) as [x |] eqn:F.
    - left. destruct (SearchFacts.find_first _ _ _ F) as (Hx & b & c & E & Hb).
      exists b, c. repeat split; assumption.
    - right. split; [reflexivity |].
      destruct paths as [| q r]; [destruct Hlen; discriminate | reflexivity]. }
  split; [| split; [| split; [| split]]].
  - destruct Hp as [(b & c & _ & _ & E & _) | (_ & E)].
    + rewrite E. apply in_or_app. right. left. reflexivity.
    + exact (List.nth_error_In paths 0 E).
  - intros Hx. destruct Hp as [(b & c & _ & _ & E & Hb) | (F & E)].
    + exists b, c. split; assumption.
    + pose proof (List.find_none _ _ F p (List.nth_error_In paths 0 E)). congruence.
  - intros Hx. destruct Hp as [(b & c & _ & Hy & _) | (F & E)]; [congruence |].
    split; [exact (List.find_none _ _ F) | exact E].
  - exact Hlen.
  - intros a -> Ha. unfold paths, possiblePaths.
    destruct (String.eqb_spec a "") as [-> | _]; [congruence | reflexivity].
Qed.

End RecorderPathTheorems.

(** ** Theorems on the device lists *)

Module ParserFacts.
Import Devices DeviceParsers.

Lemma until_quote_spec s text rest :
  Text.until_quote s = Some (text, rest) ->
  s = text +:+ String Json.DQUOTE rest /\ Str.occ Json.DQUOTE text = O.
Proof.
  revert text. induction s as [| c r IH]; intros text; [discriminate |].
  cbn [Text.until_quote]. destruct (Ascii.eqb_spec c Json.DQUOTE) as [-> | Hne].
  - intros [= <- <-]. split; reflexivity.
  - destruct (Text.until_quote r) as [[t r'] |]; [| discriminate].
    intros [= <- <-]. destruct (IH t eq_refl) as [-> Ho].
    split; [reflexivity |]. cbn [Str.occ]. rewrite Ho.
    destruct (Ascii.eqb_spec c Json.DQUOTE); [contradiction | reflexivity].
Qed.

Lemma startsWith_app p r : Str.startsWith p (p +:+ r) = true.
Proof.
  induction p as [| a p IH]; [destruct r; reflexivity |].
  rewrite OutputFacts.append_cons. cbn [Str.startsWith]. rewrite Ascii.eqb_refl. exact IH.
Qed.

(** What the search for a quoted text finds stands in the line between
    two double quotes, is not empty and holds no double quote. *)
Lemma quoted_found line text :
  Text.search quoted_here line = Some text ->
  text <> "" /\ Str.occ Json.DQUOTE text = O
  /\ Str.includes line (String Json.DQUOTE text +:+ String Json.DQUOTE "") = true.
Proof.
  intros H. destruct (TextFacts.search_found _ _ _ H) as (pre & t & -> & Ht).
  unfold quoted_here in Ht. destruct t as [| c r]; [discriminate |].
  destruct (Ascii.eqb_spec c Json.DQUOTE) as [-> | _]; [| discriminate].
  destruct (Text.until_quote r) as [[[| x tx] rest] |] eqn:U; try discriminate.
  injection Ht as <-. destruct (until_quote_spec _ _ _ U) as [-> Ho].
  split; [discriminate |]. split; [exact Ho |].
  apply TextFacts.includes_at.
  change (Str.startsWith (String Json.DQUOTE (String x tx +:+ String Json.DQUOTE ""))
            (String Json.DQUOTE (String x tx +:+ (String Json.DQUOTE "" +:+ rest))) = true).
  cbn [Str.startsWith]. rewrite Ascii.eqb_refl, <- OutputFacts.append_assoc.
  apply startsWith_app.
Qed.

Lemma seq_snoc n : List.seq 0 (S n) = List.seq 0 n ++ [n].
Proof. rewrite List.seq_S. reflexivity. Qed.

Lemma fold_left_invariant {S} (f : S -> string -> S) (P : S -> Prop) lines :
  (forall st line, In line lines -> P st -> P (f st line)) ->
  forall st, P st -> P (List.fold_left f lines st).
Proof.
  induction lines as [| l r IH]; intros Hf st Hst; [exact Hst |].
  cbn [List.fold_left]. apply IH.
  - intros st' line Hin. apply Hf. right. exact Hin.
  - apply Hf; [left; reflexivity | exact Hst].
Qed.

End ParserFacts.

Module WindowsTheorems.
Import Devices DeviceParsers.

(** X22. [parseWindowsDevices] numbers the devices by their position in
    its result, from 0, whatever DirectShow calls them. Every device
    comes from a line that holds its name between double quotes and does
    not hold "Alternative name"; a name is not empty and holds no double
    quote. Without a line holding "DirectShow audio devices" no device is
    returned. On a listing as FFmpeg prints it the audio devices are
    returned and the cameras and alternative names are not. *)
Theorem parseWindowsDevices_numbers_by_position (output : string) :
  let devs := parseWindowsDevices output in
  List.map index devs = List.map Z.of_nat (List.seq 0 (List.length devs))
  /\ (forall d, In d devs ->
        type d = audio /\ name d <> "" /\ Str.occ Json.DQUOTE (name d) = O
        /\ exists line,
             In line (Str.split_lines output)
             /\ Str.includes line (String Json.DQUOTE (name d) +:+ String Json.DQUOTE "") = true
             /\ Str.includes line "Alternative name" = false)
  /\ ((forall line, In line (Str.split_lines output) ->
         Str.includes line "DirectShow audio devices" = false) ->
      devs = [])
  /\ parseWindowsDevices Samples.dshow_listing
     = [mkAudioDevice 0 "Microphone (Realtek Audio)" audio;
        mkAudioDevice 1 "Stereo Mix (Realtek Audio)" audio].
Proof.
  intros devs. set (lines := Str.split_lines output).
  set (good := fun d : AudioDevice =>
         type d = audio /\ name d <> "" /\ Str.occ Json.DQUOTE (name d) = O
         /\ exists line,
              In line lines
              /\ Str.includes line (String Json.DQUOTE (name d) +:+ String Json.DQUOTE "") = true
              /\ Str.includes line "Alternative name" = false).
  set (P := fun st : bool * Z * list AudioDevice =>
         snd (fst st) = Z.of_nat (List.length (snd st))
         /\ List.map index (snd st) = List.map Z.of_nat (List.seq 0 (List.length (snd st)))
         /\ Forall good (snd st)).
  assert (HP : P (List.fold_left windows_line lines (false, 0, []))).
  { apply ParserFacts.fold_left_invariant.
    - intros [[b i] ds] line Hin (H1 & H2 & H3). cbn [fst snd] in *.
      unfold windows_line.
      destruct (Str.includes line "DirectShow audio devices"); [repeat split; assumption |].
      destruct (Str.includes line "DirectShow video devices"); [repeat split; assumption |].
      destruct b; [| repeat split; assumption].
      destruct (Text.search quoted_here line) as [text |] eqn:Q; [| repeat split; assumption].
      destruct (Str.includes line "Alternative name") eqn:A; cbn [negb];
        [repeat split; assumption |].
      destruct (ParserFacts.quoted_found _ _ Q) as (Q1 & Q2 & Q3).
      unfold P. cbn [fst snd]. rewrite List.length_app. cbn [List.length].
      rewrite Nat.add_1_r, ParserFacts.seq_snoc, !List.map_app. cbn [List.map index].
      split; [lia |]. split; [rewrite H2, H1; reflexivity |].
      apply Forall_app. split; [exact H3 |]. constructor; [| constructor].
      unfold good. cbn [type name]. repeat split; try assumption.
      exists line. repeat split; assumption.
    - unfold P. cbn. repeat split. constructor. }
  destruct HP as (_ & H2 & H3).
  split; [exact H2 |]. split.
  - intros d Hd. unfold devs, parseWindowsDevices in Hd. fold lines in Hd.
    exact (proj1 (List.Forall_forall _ _) H3 d Hd).
  - split; [| vm_compute; reflexivity].
    intros Hno. unfold devs, parseWindowsDevices. fold lines.
    set (Q := fun st : bool * Z * list AudioDevice => fst (fst st) = false /\ snd st = []).
    assert (HQ : Q (List.fold_left windows_line lines (false, 0, []))).
    { apply ParserFacts.fold_left_invariant.
      - intros [[b i] ds] line Hin (H4 & H5). cbn [fst snd] in *. subst.
        unfold windows_line. rewrite (Hno line Hin).
        destruct (Str.includes line "DirectShow video devices"); split; reflexivity.
      - split; reflexivity. }
    apply HQ.
Qed.

End WindowsTheorems.

Module LinuxFacts.
Import Devices DeviceParsers.

Lemma split_space_from_nonempty b s : Text.split_space_from b s <> [].
Proof.
  revert b. induction s as [| c r IH]; intros b; cbn [Text.split_space_from]; [discriminate |].
  destruct (Str.is_space c).
  - destruct b; [apply IH | discriminate].
  - destruct (Text.split_space_from false r); discriminate.
Qed.

Lemma split_pieces_no_space s : forall b,
  Forall (fun p => Text.no_space p = true) (Text.split_space_from b s).
Proof.
  induction s as [| c r IH]; intros b; cbn [Text.split_space_from].
  - constructor; [reflexivity | constructor].
  - destruct (Str.is_space c) eqn:E.
    + destruct b; [apply IH | constructor; [reflexivity | apply IH]].
    + specialize (IH false). destruct (Text.split_space_from false r) as [| p ps].
      * constructor; [cbn; rewrite E; reflexivity | constructor].
      * inversion IH; subst. constructor; [cbn; rewrite E; assumption | assumption].
Qed.

Lemma split_token x r :
  Text.no_space x = true ->
  Text.split_space_from false (x +:+ r)
  = match Text.split_space_from false r with
    | p :: ps => (x +:+ p) :: ps
    | [] => [x]
    end.
Proof.
  induction x as [| a x IH]; intros H.
  - rewrite OutputFacts.append_nil_l.
    destruct (Text.split_space_from false r) eqn:E;
      [destruct (split_space_from_nonempty _ _ E) | reflexivity].
  - cbn [Text.no_space] in H. apply andb_prop in H as [Hc Hx].
    apply negb_true_iff in Hc.
    rewrite OutputFacts.append_cons. cbn [Text.split_space_from]. rewrite Hc, (IH Hx).
    destruct (Text.split_space_from false r); reflexivity.
Qed.

Lemma split_ends_token r :
  Text.ends_token r = true -> exists ps, Text.split_space_from false r = "" :: ps.
Proof.
  destruct r as [| c r]; cbn [Text.ends_token Text.split_space_from].
  - exists []. reflexivity.
  - intros ->. eexists. reflexivity.
Qed.

Lemma split_in_run x r :
  x <> "" -> Text.no_space x = true ->
  Text.split_space_from true (x +:+ r) = Text.split_space_from false (x +:+ r).
Proof.
  destruct x as [| c x]; [congruence |]. intros _ H.
  cbn [Text.no_space] in H. apply andb_prop in H as [Hc _]. apply negb_true_iff in Hc.
  rewrite OutputFacts.append_cons. cbn [Text.split_space_from]. rewrite Hc. reflexivity.
Qed.

Lemma all_space_token x r : x <> "" -> Text.no_space x = true -> Str.all_space (x +:+ r) = false.
Proof.
  destruct x as [| c x]; [congruence |]. intros _ H.
  cbn [Text.no_space] in H. apply andb_prop in H as [Hc _]. apply negb_true_iff in Hc.
  rewrite OutputFacts.append_cons. cbn [Str.all_space]. rewrite Hc. reflexivity.
Qed.

Lemma trim_end_token x r :
  Text.no_space x = true -> Text.trim_end (x +:+ r) = x +:+ Text.trim_end r.
Proof.
  induction x as [| a x IH]; intros H; [reflexivity |].
  cbn [Text.no_space] in H. apply andb_prop in H as [Hc Hx]. apply negb_true_iff in Hc.
  rewrite !OutputFacts.append_cons. cbn [Text.trim_end Str.all_space].
  rewrite Hc, (IH Hx). reflexivity.
Qed.

Lemma trim_end_cons c r :
  Str.all_space r = false -> Text.trim_end (String c r) = String c (Text.trim_end r).
Proof.
  intros H. cbn [Text.trim_end Str.all_space]. rewrite H, andb_false_r. reflexivity.
Qed.

Lemma trim_end_ends_token r : Text.ends_token r = true -> Text.ends_token (Text.trim_end r) = true.
Proof.
  destruct r as [| c r]; [reflexivity |]. cbn [Text.ends_token Text.trim_end].
  intros H. destruct (Str.all_space (String c r)); [reflexivity | exact H].
Qed.

Lemma digits_no_space s : Text.all_digits s = true -> Text.no_space s = true.
Proof.
  induction s as [| c r IH]; [reflexivity |]. cbn [Text.all_digits Text.no_space].
  intros H. apply andb_prop in H as [Hc Hr].
  destruct (TextFacts.digit_not_special c Hc) as (-> & _). rewrite (IH Hr). reflexivity.
Qed.

Lemma digit_not_sign (c : ascii) :
  Json.is_digit c = true -> Ascii.eqb c "-" = false /\ Ascii.eqb c "+" = false.
Proof.
  destruct c as [[] [] [] [] [] [] [] []]; vm_compute; intros H;
    first [discriminate H | split; reflexivity].
Qed.

Lemma parseInt_pretty (z : Z) : 0 <= z -> Text.parseInt (pretty z) = Some z.
Proof.
  intros Hz. unfold Text.parseInt.
  pose proof (TextFacts.starts_digit_pretty z "" Hz) as Hs.
  pose proof (TextFacts.digits_pretty z "" Hz eq_refl) as Hd.
  rewrite OutputFacts.append_nil_r in Hs, Hd.
  rewrite (TextFacts.skip_space_digit _ Hs).
  destruct (pretty z) as [| c r]; [discriminate |].
  cbn [Text.starts_digit] in Hs. destruct (digit_not_sign c Hs) as [-> ->].
  rewrite Hd. reflexivity.
Qed.

Lemma occ_app x a b : Str.occ x (a +:+ b) = (Str.occ x a + Str.occ x b)%nat.
Proof.
  induction a as [| c a IH]; [reflexivity |].
  rewrite OutputFacts.append_cons. cbn [Str.occ]. rewrite IH. lia.
Qed.

Lemma occ_no_space x s : Text.no_space s = true -> Str.is_space x = true -> Str.occ x s = O.
Proof.
  intros Hs Hx. induction s as [| c r IH]; [reflexivity |].
  cbn [Text.no_space] in Hs. apply andb_prop in Hs as [Hc Hr]. apply negb_true_iff in Hc.
  cbn [Str.occ]. rewrite (IH Hr).
  destruct (Ascii.eqb_spec c x) as [-> | _]; [congruence | reflexivity].
Qed.

Lemma split_lines_line l : Str.occ Str.LF l = O -> Str.split_lines l = [l].
Proof.
  induction l as [| c r IH]; [reflexivity |]. cbn [Str.occ Str.split_lines].
  destruct (Ascii.eqb c Str.LF); [discriminate |]. intros H. rewrite (IH H). reflexivity.
Qed.

Lemma split_lines_cons l x :
  Str.occ Str.LF l = O ->
  Str.split_lines (l +:+ String Str.LF x) = l :: Str.split_lines x.
Proof.
  induction l as [| c r IH]; intros H.
  - rewrite OutputFacts.append_nil_l. cbn [Str.split_lines]. rewrite Ascii.eqb_refl. reflexivity.
  - cbn [Str.occ] in H. rewrite OutputFacts.append_cons. cbn [Str.split_lines].
    destruct (Ascii.eqb c Str.LF); [discriminate |]. rewrite (IH H). reflexivity.
Qed.

Lemma split_lines_unlines (lines : list string) :
  lines <> [] -> Forall (fun l => Str.occ Str.LF l = O) lines ->
  Str.split_lines (unlines lines) = lines.
Proof.
  induction lines as [| l r IH]; [congruence |]. intros _ H.
  inversion H as [| ? ? Hl Hr]; subst.
  destruct r as [| l2 r].
  - apply split_lines_line. exact Hl.
  - change (unlines (l :: l2 :: r)) with (l +:+ String Str.LF (unlines (l2 :: r))).
    rewrite (split_lines_cons _ _ Hl), IH; [reflexivity | discriminate | exact Hr].
Qed.

Lemma pactl_line_one_line e : pactl_entry e -> Str.occ Str.LF (pactl_line (fst e) (snd e)) = O.
Proof.
  intros (_ & Hi & _ & Hn & _ & Hr). unfold pactl_line.
  rewrite occ_app. cbn [Str.occ]. rewrite occ_app, Hr.
  rewrite (occ_no_space Str.LF (name (fst e)) Hn eq_refl).
  rewrite (TextFacts.occ_digits Str.LF _ (TextFacts.pretty_digits _ Hi) eq_refl).
  reflexivity.
Qed.

(** The loop body on a line of the listing. *)
Lemma linux_line_entry devices e :
  pactl_entry e -> linux_line devices (pactl_line (fst e) (snd e)) = devices ++ [fst e].
Proof.
  destruct e as [[i n t] rest]. intros (Ht & Hi & Hne & Hn & He & _). cbn [fst snd type index name] in *.
  subst t. unfold linux_line, pactl_line. cbn [index name].
  assert (Htrim : Text.trim (pretty i +:+ String (ascii_of_nat 9) (n +:+ rest))
                  = pretty i +:+ String (ascii_of_nat 9) (n +:+ Text.trim_end rest)).
  { unfold Text.trim.
    rewrite (TextFacts.skip_space_digit _ (TextFacts.starts_digit_pretty i _ Hi)).
    rewrite (trim_end_token _ _ (digits_no_space _ (TextFacts.pretty_digits i Hi))).
    rewrite (trim_end_cons _ _ (all_space_token n rest Hne Hn)).
    rewrite (trim_end_token _ _ Hn). reflexivity. }
  rewrite Htrim. unfold Text.split_space.
  rewrite (split_token _ _ (digits_no_space _ (TextFacts.pretty_digits i Hi))).
  change (Text.split_space_from false (String (ascii_of_nat 9) (n +:+ Text.trim_end rest)))
    with ("" :: Text.split_space_from true (n +:+ Text.trim_end rest)).
  rewrite (split_in_run _ _ Hne Hn), (split_token _ _ Hn).
  destruct (split_ends_token _ (trim_end_ends_token _ He)) as (ps & ->).
  rewrite !OutputFacts.append_nil_r. cbn [List.nth_error].
  destruct (TextFacts.pretty_nonempty i Hi) as (c & r & E).
  assert (E1 : String.eqb (pretty i) "" = false) by (rewrite E; reflexivity).
  assert (E2 : String.eqb n "" = false) by (destruct n; [congruence | reflexivity]).
  rewrite E1, E2, (parseInt_pretty i Hi). reflexivity.
Qed.

Lemma fold_linux_entries entries : forall devices,
  Forall pactl_entry entries ->
  List.fold_left linux_line (List.map (fun e => pactl_line (fst e) (snd e)) entries) devices
  = devices ++ List.map fst entries.
Proof.
  induction entries as [| e r IH]; intros devices H; cbn [List.map List.fold_left].
  - rewrite List.app_nil_r. reflexivity.
  - inversion H as [| ? ? He Hr]; subst.
    rewrite (linux_line_entry _ _ He), (IH _ Hr), <- List.app_assoc. reflexivity.
Qed.

End LinuxFacts.

Module LinuxTheorems.
Import Devices DeviceParsers.

(** X23. [parseLinuxDevices] reads a listing of [pactl list sources
    short] back: for sources with an index that is not negative and a
    name free of white space, each on a line index, TAB, name and other
    columns, the result is these sources, in the order of the lines,
    whatever the other columns hold. *)
Theorem parseLinuxDevices_reads_pactl_listing (entries : list (AudioDevice * string)) :
  Forall pactl_entry entries ->
  parseLinuxDevices (pactl_output entries) = List.map fst entries.
Proof.
  intros H. unfold parseLinuxDevices, pactl_output.
  destruct entries as [| e r]; [reflexivity |].
  rewrite LinuxFacts.split_lines_unlines.
  - apply (LinuxFacts.fold_linux_entries (e :: r) [] H).
  - discriminate.
  - apply List.Forall_map. revert H. apply List.Forall_impl.
    intros a. apply LinuxFacts.pactl_line_one_line.
Qed.

Lemma parseLinuxDevices_reads_pactl_listing_witness :
  Forall pactl_entry
    [(mkAudioDevice 0 "alsa_output.pci-0000_00_1f.3.analog-stereo.monitor" audio,
      String (ascii_of_nat 9) "module-alsa-card.c s16le 2ch 44100Hz SUSPENDED");
     (mkAudioDevice 57 "alsa_input.usb-Blue_Yeti-00.analog-stereo" audio, "")]
  /\ parseLinuxDevices
       (pactl_output
          [(mkAudioDevice 0 "alsa_output.pci-0000_00_1f.3.analog-stereo.monitor" audio,
            String (ascii_of_nat 9) "module-alsa-card.c s16le 2ch 44100Hz SUSPENDED");
           (mkAudioDevice 57 "alsa_input.usb-Blue_Yeti-00.analog-stereo" audio, "")])
     = [mkAudioDevice 0 "alsa_output.pci-0000_00_1f.3.analog-stereo.monitor" audio;
        mkAudioDevice 57 "alsa_input.usb-Blue_Yeti-00.analog-stereo" audio].
Proof.
  assert (H : Forall pactl_entry
    [(mkAudioDevice 0 "alsa_output.pci-0000_00_1f.3.analog-stereo.monitor" audio,
      String (ascii_of_nat 9) "module-alsa-card.c s16le 2ch 44100Hz SUSPENDED");
     (mkAudioDevice 57 "alsa_input.usb-Blue_Yeti-00.analog-stereo" audio, "")]).
  { repeat constructor; cbn [fst snd index name type]; try lia; try discriminate. }
  split; [exact H |].
  exact (parseLinuxDevices_reads_pactl_listing _ H).
Defined.

(** X24. Whatever [pactl] prints, a device of [parseLinuxDevices] has a
    name that is not empty and holds no white space: of a source name
    with a blank in it only the part before the blank is kept. *)
Theorem parseLinuxDevices_names_are_tokens (output : string) (d : AudioDevice) :
  In d (parseLinuxDevices output) ->
  type d = audio /\ name d <> "" /\ Text.no_space (name d) = true.
Proof.
  unfold parseLinuxDevices.
  set (P := fun ds : list AudioDevice =>
         Forall (fun d => type d = audio /\ name d <> "" /\ Text.no_space (name d) = true) ds).
  assert (HP : P (List.fold_left linux_line (Str.split_lines output) [])).
  { apply ParserFacts.fold_left_invariant; [| constructor].
    intros ds line _ Hds. unfold linux_line.
    pose proof (LinuxFacts.split_pieces_no_space (Text.trim line) false) as Hp.
    fold (Text.split_space (Text.trim line)) in Hp.
    destruct (Text.split_space (Text.trim line)) as [| a [| b r]]; cbn [List.nth_error]; try exact Hds.
    destruct (String.eqb_spec a ""); cbn [negb andb]; [exact Hds |].
    destruct (String.eqb_spec b ""); cbn [negb]; [exact Hds |].
    destruct (Text.parseInt a); [| exact Hds].
    apply Forall_app. split; [exact Hds |]. constructor; [| constructor].
    cbn [type name]. repeat split; [assumption |].
    inversion Hp as [| ? ? _ Hp']; subst. inversion Hp'; subst. assumption. }
  intros Hd. exact (proj1 (List.Forall_forall _ _) HP d Hd).
Qed.

Lemma parseLinuxDevices_names_are_tokens_witness :
  In (mkAudioDevice 3 "Built-in" audio) (parseLinuxDevices "3 Built-in Audio Analog Stereo")
  /\ Text.no_space "Built-in" = true.
Proof.
  assert (H : In (mkAudioDevice 3 "Built-in" audio)
                (parseLinuxDevices "3 Built-in Audio Analog Stereo")).
  { vm_compute. left. reflexivity. }
  split; [exact H |].
  exact (proj2 (proj2 (parseLinuxDevices_names_are_tokens _ _ H))).
Defined.

End LinuxTheorems.

Module MacFacts.
Import Devices DeviceParsers.

Lemma digits_none s : Text.starts_digit s = false -> Text.digits s = None.
Proof. intros H. unfold Text.digits. rewrite (TextFacts.read_stop 0 O s H). reflexivity. Qed.

Lemma starts_digit_app r s :
  Text.starts_digit s = false ->
  Text.starts_digit (r +:+ s) = Text.starts_digit r.
Proof. destruct r as [| c r]; [rewrite OutputFacts.append_nil_l; now intros -> | reflexivity]. Qed.

(** No match starts in a prefix without an index mark. *)
Lemma search_after_prefix pre s :
  no_index_mark pre = true -> Text.starts_digit s = false ->
  Text.search mac_match_here (pre +:+ s) = Text.search mac_match_here s.
Proof.
  intros Hp Hs. induction pre as [| c r IH]; [reflexivity |].
  cbn [no_index_mark] in Hp. apply andb_prop in Hp as [Hc Hr].
  rewrite OutputFacts.append_cons. cbn [Text.search].
  assert (E : mac_match_here (String c (r +:+ s)) = None).
  { unfold mac_match_here. destruct (Ascii.eqb c "[") eqn:Ec; [| reflexivity].
    cbn [andb] in Hc. apply negb_true_iff in Hc.
    rewrite digits_none; [reflexivity |]. rewrite starts_digit_app; assumption. }
  rewrite E. exact (IH Hr).
Qed.

Lemma span_space_gap w n :
  Str.all_space w = true -> Text.ends_token n = false -> Text.span_space (w +:+ n) = (w, n).
Proof.
  intros Hw Hn. induction w as [| c r IH].
  - rewrite OutputFacts.append_nil_l. destruct n as [| x n]; [discriminate |].
    cbn [Text.ends_token] in Hn. cbn [Text.span_space]. rewrite Hn. reflexivity.
  - cbn [Str.all_space] in Hw. apply andb_prop in Hw as [Hc Hr].
    rewrite OutputFacts.append_cons. cbn [Text.span_space]. rewrite Hc, (IH Hr). reflexivity.
Qed.

Lemma match_entry e :
  avfoundation_entry e ->
  Text.search mac_match_here (avfoundation_line e)
  = Some (index (entry_device e), name (entry_device e)).
Proof.
  intros (_ & Hi & Hn & _ & Hl & Hp & Hg & Hw & _). unfold avfoundation_line.
  rewrite search_after_prefix; [| exact Hp | reflexivity]. apply TextFacts.search_hit.
  unfold mac_match_here. rewrite Ascii.eqb_refl.
  rewrite TextFacts.digits_pretty; [| exact Hi | reflexivity]. rewrite Ascii.eqb_refl.
  rewrite (span_space_gap _ _ Hw Hn).
  destruct (entry_gap e) as [| g gs]; [congruence |].
  destruct (name (entry_device e)) as [| x n]; [discriminate |].
  rewrite Hl. destruct gs; reflexivity.
Qed.

Lemma trim_name n : Text.ends_token n = false -> Text.trim_end n = n -> Text.trim n = n.
Proof.
  intros Hn Ht. unfold Text.trim. destruct n as [| c r]; [reflexivity |].
  cbn [Text.ends_token] in Hn. cbn [Text.skip_space]. rewrite Hn. exact Ht.
Qed.

Lemma mac_line_entry devices e :
  avfoundation_entry e ->
  mac_line (true, devices) (avfoundation_line e) = (true, devices ++ [entry_device e]).
Proof.
  intros H. pose proof (match_entry e H) as Hm.
  destruct H as (Ht & _ & Hn & Htr & _ & _ & _ & _ & _ & Ha & Hv).
  unfold mac_line. rewrite Ha, Hv, Hm, (trim_name _ Hn Htr).
  destruct (entry_device e) as [i n t]. cbn [type] in Ht. subst t. reflexivity.
Qed.

Lemma fold_mac_entries entries : forall devices,
  Forall avfoundation_entry entries ->
  List.fold_left mac_line (List.map avfoundation_line entries) (true, devices)
  = (true, devices ++ List.map entry_device entries).
Proof.
  induction entries as [| e r IH]; intros devices H; cbn [List.map List.fold_left].
  - rewrite List.app_nil_r. reflexivity.
  - inversion H as [| ? ? He Hr]; subst.
    rewrite (mac_line_entry _ _ He), (IH _ Hr), <- List.app_assoc. reflexivity.
Qed.

Lemma fold_mac_before before :
  Forall (fun l => Str.includes l "AVFoundation audio devices:" = false) before ->
  List.fold_left mac_line before (false, []) = (false, []).
Proof.
  induction before as [| l r IH]; intros H; [reflexivity |].
  inversion H as [| ? ? Hl Hr]; subst. cbn [List.fold_left].
  assert (E : mac_line (false, []) l = (false, [])).
  { unfold mac_line. rewrite Hl.
    destruct (Str.includes l "AVFoundation video devices:"); reflexivity. }
  rewrite E. exact (IH Hr).
Qed.

End MacFacts.

Module MacTheorems.
Import Devices DeviceParsers.

(** X25. [parseMacOSDevices] reads the audio section of an avfoundation
    listing back: after lines without the header of the audio section
    (the video section, the banner) and the header line, lines of the
    form prefix, index in square brackets, white space, name give the
    devices with these indices and names, in the order of the lines. The
    prefix may hold square brackets (the log context of FFmpeg) as long
    as none is followed by a digit; the name neither starts nor ends with
    white space. *)
Theorem parseMacOSDevices_reads_audio_section
    (before : list string) (header : string) (entries : list MacEntry) :
  Forall (fun l => Str.occ Str.LF l = O
                   /\ Str.includes l "AVFoundation audio devices:" = false) before ->
  Str.occ Str.LF header = O ->
  Str.includes header "AVFoundation audio devices:" = true ->
  Forall avfoundation_entry entries ->
  parseMacOSDevices (avfoundation_output before header entries)
  = List.map entry_device entries.
Proof.
  intros Hb Hh1 Hh2 He. unfold parseMacOSDevices, avfoundation_output.
  rewrite LinuxFacts.split_lines_unlines.
  - rewrite List.fold_left_app. cbn [List.fold_left].
    rewrite MacFacts.fold_mac_before
      by (revert Hb; apply List.Forall_impl; intros a [_ H]; exact H).
    assert (E : mac_line (false, []) header = (true, []))
      by (unfold mac_line; rewrite Hh2; reflexivity).
    rewrite E, (MacFacts.fold_mac_entries _ [] He). reflexivity.
  - destruct before; discriminate.
  - apply List.Forall_app. split.
    + revert Hb. apply List.Forall_impl. intros a [H _]. exact H.
    + constructor; [exact Hh1 |]. apply List.Forall_map.
      revert He. apply List.Forall_impl.
      intros a (_ & _ & _ & _ & _ & _ & _ & _ & H & _). exact H.
Qed.

Lemma parseMacOSDevices_reads_audio_section_witness :
  parseMacOSDevices
    (avfoundation_output
       ["[AVFoundation indev @ 0x7f8] AVFoundation video devices:";
        "[AVFoundation indev @ 0x7f8] [0] FaceTime HD Camera"]
       "[AVFoundation indev @ 0x7f8] AVFoundation audio devices:"
       [mkMacEntry (mkAudioDevice 0 "MacBook Pro Microphone" audio)
          "[AVFoundation indev @ 0x7f8] " " ";
        mkMacEntry (mkAudioDevice 12 "BlackHole 2ch" audio)
          "[AVFoundation indev @ 0x7f8] " "  "])
  = [mkAudioDevice 0 "MacBook Pro Microphone" audio; mkAudioDevice 12 "BlackHole 2ch" audio].
Proof.
  apply (parseMacOSDevices_reads_audio_section
    ["[AVFoundation indev @ 0x7f8] AVFoundation video devices:";
     "[AVFoundation indev @ 0x7f8] [0] FaceTime HD Camera"]
    "[AVFoundation indev @ 0x7f8] AVFoundation audio devices:"
    [mkMacEntry (mkAudioDevice 0 "MacBook Pro Microphone" audio)
       "[AVFoundation indev @ 0x7f8] " " ";
     mkMacEntry (mkAudioDevice 12 "BlackHole 2ch" audio)
       "[AVFoundation indev @ 0x7f8] " "  "]).
  - repeat constructor.
  - reflexivity.
  - reflexivity.
  - repeat constructor; cbn [entry_device entry_gap index]; try lia; try discriminate.
Defined.

End MacTheorems.
